(** * MangoNeado: conveyor-belt labelling line

    A shallow embedding of the coordination engine of the repository
    (include/common.h, src/robot_controller.c, src/simulator.c,
    src/analysis.c, src/vision_system.c) and the properties of its
    specification.

    Conventions of the embedding:
    - a C [int] is a [Z]. Indices and counters stay far from the limits
      of [int] (they are bounded by the array sizes) and are written
      without wrap-around; the one sum that takes the number of mangos a
      box announces, in [calculate_required_robots], wraps around as the
      32-bit sum of the machine does;
    - a C [double] is a real number [R]. Positions, times and distances
      are the exact results of their expressions. Where a quotient is
      cast to [int], the result depends on the last bit of the quotient,
      and every operation that leads to the cast is the binary64
      operation of the machine, on values of the type [double]: the
      exact result rounded to the nearest number of the format, ties to
      even, an infinity when the result is beyond the format or a number
      is divided by zero, NaN for [0 / 0] and for a quotient of
      infinities ([round64], [dbl], [ddiv], [dmul]);
    - the cast [(int)d] is truncation toward zero; for a value outside
      [int], an infinity or NaN, where C leaves the cast undefined, it is
      [INT_MIN], the result of the conversion instruction of x86-64;
    - a C array [T a[N]] is a [list T] of length [N]; a read or a write
      outside the list is undefined behaviour in C and makes the embedded
      function return [None];
    - [rand()] reads the next element of an arbitrary stream of integers,
      reduced into [0 .. RAND_MAX];
    - code between [pthread_mutex_lock] and [pthread_mutex_unlock] is one
      atomic step of the interleaving models; the model of the claim
      protocol in [ClaimRace] has the mutex itself. *)

From Stdlib Require Import ZArith Reals Lra Lia Bool.
From stdpp Require Import base tactics option list numbers relations.

Local Open Scope Z_scope.

(** ** include/common.h *)

Module Common.

Definition MAX_ROBOTS : Z := 32.
Definition MAX_MANGOS_PER_BOX : Z := 100.
Definition MAX_BOXES_QUEUE : Z := 50.
Definition RAND_MAX : Z := 2147483647.
Definition INT_MAX : Z := 2147483647.
Definition INT_MIN : Z := -2147483648.

Inductive RobotState :=
  | ROBOT_STATE_IDLE
  | ROBOT_STATE_ACTIVE
  | ROBOT_STATE_LABELING
  | ROBOT_STATE_RETURNING
  | ROBOT_STATE_DISABLED
  | ROBOT_STATE_FAILED
  | ROBOT_STATE_BACKUP.

Inductive MangoState :=
  | MANGO_UNLABELED
  | MANGO_BEING_LABELED
  | MANGO_LABELED.

#[global] Instance RobotState_eq_dec : EqDecision RobotState.
Proof. solve_decision. Defined.

#[global] Instance MangoState_eq_dec : EqDecision MangoState.
Proof. solve_decision. Defined.

Record Mango := {
  mango_id : Z;
  mango_x : R;
  mango_y : R;
  mango_state : MangoState;
  labeled_by_robot : Z;
  label_time : R
}.

Record Box := {
  box_id : Z;
  num_mangos : Z;
  mangos : list Mango;
  position : R;
  entry_time : R;
  labeled_count : Z;
  completed : bool
}.

Record Robot := {
  robot_id : Z;
  axis_position : R;
  robot_state : RobotState;
  current_mango : Z;
  labels_placed : Z;
  last_action_time : R;
  is_backup : bool;
  replacing_robot : Z;
  failure_probability : R;
  has_failed : bool
}.

(** The fields [X], [Z], [W] and [B] of the C struct are [pX], [pZ], [pW]
    and [pB] here. *)
Record SystemParams := {
  pX : R;
  pZ : R;
  pW : R;
  num_robots : Z;
  N_min : Z;
  N_max : Z;
  pB : R;
  robot_speed : R;
  robot_spacing : R;
  box_spacing : R;
  num_backup_robots : Z
}.

Record SimulationStats := {
  total_boxes : Z;
  total_mangos : Z;
  mangos_labeled : Z;
  mangos_missed : Z;
  robot_failures : Z;
  backup_activations : Z
}.

(** [memset(&x, 0, sizeof x)] of a mango and of a box. *)
Definition zero_mango : Mango :=
  {| mango_id := 0; mango_x := 0; mango_y := 0; mango_state := MANGO_UNLABELED;
     labeled_by_robot := 0; label_time := 0 |}.

Definition zero_box : Box :=
  {| box_id := 0; num_mangos := 0;
     mangos := replicate (Z.to_nat MAX_MANGOS_PER_BOX) zero_mango;
     position := 0; entry_time := 0; labeled_count := 0; completed := false |}.

Definition zero_robot : Robot :=
  {| robot_id := 0; axis_position := 0; robot_state := ROBOT_STATE_IDLE;
     current_mango := 0; labels_placed := 0; last_action_time := 0;
     is_backup := false; replacing_robot := 0; failure_probability := 0;
     has_failed := false |}.

(** Assignments to one field of a struct. *)
Definition mango_set_state (st : MangoState) (m : Mango) : Mango :=
  {| mango_id := mango_id m; mango_x := mango_x m; mango_y := mango_y m;
     mango_state := st; labeled_by_robot := labeled_by_robot m;
     label_time := label_time m |}.

Definition mango_set_id (i : Z) (m : Mango) : Mango :=
  {| mango_id := i; mango_x := mango_x m; mango_y := mango_y m;
     mango_state := mango_state m; labeled_by_robot := labeled_by_robot m;
     label_time := label_time m |}.

Definition mango_set_labeled_by (r : Z) (m : Mango) : Mango :=
  {| mango_id := mango_id m; mango_x := mango_x m; mango_y := mango_y m;
     mango_state := mango_state m; labeled_by_robot := r;
     label_time := label_time m |}.

Definition mango_set_label_time (t : R) (m : Mango) : Mango :=
  {| mango_id := mango_id m; mango_x := mango_x m; mango_y := mango_y m;
     mango_state := mango_state m; labeled_by_robot := labeled_by_robot m;
     label_time := t |}.

Definition mango_set_xy (px py : R) (m : Mango) : Mango :=
  {| mango_id := mango_id m; mango_x := px; mango_y := py;
     mango_state := mango_state m; labeled_by_robot := labeled_by_robot m;
     label_time := label_time m |}.

Definition box_set_mangos (ms : list Mango) (b : Box) : Box :=
  {| box_id := box_id b; num_mangos := num_mangos b; mangos := ms;
     position := position b; entry_time := entry_time b;
     labeled_count := labeled_count b; completed := completed b |}.

Definition box_set_labeled_count (n : Z) (b : Box) : Box :=
  {| box_id := box_id b; num_mangos := num_mangos b; mangos := mangos b;
     position := position b; entry_time := entry_time b;
     labeled_count := n; completed := completed b |}.

Definition robot_set_state (st : RobotState) (r : Robot) : Robot :=
  {| robot_id := robot_id r; axis_position := axis_position r;
     robot_state := st; current_mango := current_mango r;
     labels_placed := labels_placed r; last_action_time := last_action_time r;
     is_backup := is_backup r; replacing_robot := replacing_robot r;
     failure_probability := failure_probability r; has_failed := has_failed r |}.

Definition robot_set_has_failed (f : bool) (r : Robot) : Robot :=
  {| robot_id := robot_id r; axis_position := axis_position r;
     robot_state := robot_state r; current_mango := current_mango r;
     labels_placed := labels_placed r; last_action_time := last_action_time r;
     is_backup := is_backup r; replacing_robot := replacing_robot r;
     failure_probability := failure_probability r; has_failed := f |}.

Definition robot_set_replacing (k : Z) (r : Robot) : Robot :=
  {| robot_id := robot_id r; axis_position := axis_position r;
     robot_state := robot_state r; current_mango := current_mango r;
     labels_placed := labels_placed r; last_action_time := last_action_time r;
     is_backup := is_backup r; replacing_robot := k;
     failure_probability := failure_probability r; has_failed := has_failed r |}.

Definition robot_set_axis (a : R) (r : Robot) : Robot :=
  {| robot_id := robot_id r; axis_position := a;
     robot_state := robot_state r; current_mango := current_mango r;
     labels_placed := labels_placed r; last_action_time := last_action_time r;
     is_backup := is_backup r; replacing_robot := replacing_robot r;
     failure_probability := failure_probability r; has_failed := has_failed r |}.

Definition robot_set_current_mango (k : Z) (r : Robot) : Robot :=
  {| robot_id := robot_id r; axis_position := axis_position r;
     robot_state := robot_state r; current_mango := k;
     labels_placed := labels_placed r; last_action_time := last_action_time r;
     is_backup := is_backup r; replacing_robot := replacing_robot r;
     failure_probability := failure_probability r; has_failed := has_failed r |}.

Definition robot_set_labels_placed (n : Z) (r : Robot) : Robot :=
  {| robot_id := robot_id r; axis_position := axis_position r;
     robot_state := robot_state r; current_mango := current_mango r;
     labels_placed := n; last_action_time := last_action_time r;
     is_backup := is_backup r; replacing_robot := replacing_robot r;
     failure_probability := failure_probability r; has_failed := has_failed r |}.

Definition stats_set_robot_failures (n : Z) (st : SimulationStats) : SimulationStats :=
  {| total_boxes := total_boxes st; total_mangos := total_mangos st;
     mangos_labeled := mangos_labeled st; mangos_missed := mangos_missed st;
     robot_failures := n; backup_activations := backup_activations st |}.

Definition stats_set_backup_activations (n : Z) (st : SimulationStats) : SimulationStats :=
  {| total_boxes := total_boxes st; total_mangos := total_mangos st;
     mangos_labeled := mangos_labeled st; mangos_missed := mangos_missed st;
     robot_failures := robot_failures st; backup_activations := n |}.

Definition params_set_robots (n nb : Z) (spacing : R) (p : SystemParams) : SystemParams :=
  {| pX := pX p; pZ := pZ p; pW := pW p; num_robots := n; N_min := N_min p;
     N_max := N_max p; pB := pB p; robot_speed := robot_speed p;
     robot_spacing := spacing; box_spacing := box_spacing p;
     num_backup_robots := nb |}.

(** C arrays indexed by an [int]: [aget a i] is the read [a[i]] and
    [aset a i v] the write [a[i] = v]; both are undefined outside the
    array. *)
Definition aget {A : Type} (a : list A) (i : Z) : option A :=
  if decide (0 ≤ i) then a !! Z.to_nat i else None.

Definition aset {A : Type} (a : list A) (i : Z) (v : A) : option (list A) :=
  if decide (0 ≤ i < Z.of_nat (length a)) then Some (<[Z.to_nat i := v]> a)
  else None.

(** Comparisons of doubles. *)
#[global] Instance Rlt_decision (a b : R) : Decision (a < b)%R := Rlt_dec a b.
#[global] Instance Rle_decision (a b : R) : Decision (a <= b)%R := Rle_dec a b.
#[global] Instance Req_decision (a b : R) : Decision (a = b) := Req_dec_T a b.

(** The sum or difference of two [int], as the machine computes it:
    modulo [2^32], in [INT_MIN .. INT_MAX]. *)
Definition wrap_int (z : Z) : Z := (z - INT_MIN) `mod` 2 ^ 32 + INT_MIN.

(** *** binary64 arithmetic

    [bpow e] is [2^e]. [mag x] is the exponent of the binade of [x]:
    [2^(mag x - 1) <= |x| < 2^(mag x)]. *)
Definition bpow (e : Z) : R := powerRZ 2 e.

Definition mag (x : R) : Z := Int_part (ln (Rabs x) / ln 2) + 1.

(** The integer nearest to [y], the even one of the two when [y] is
    halfway between them. *)
Definition rne (y : R) : Z :=
  let f := Int_part y in
  let d := (y - IZR f)%R in
  if decide (d < 1 / 2)%R then f
  else if decide (1 / 2 < d)%R then f + 1
  else if Z.even f then f else f + 1.

(** The binary64 number nearest to [x]: a multiple of the unit in the
    last place of [x], which is [2^(mag x - 53)] (53 bits of precision)
    and [2^-1074] at least (gradual underflow). The exponent has no
    upper limit here: [dbl] adds the overflow to infinity. *)
Definition round64 (x : R) : R :=
  if decide (x = 0%R) then 0%R
  else
    let c := Z.max (mag x - 53) (-1074) in
    (IZR (rne (x * bpow (- c))) * bpow c)%R.

(** The numbers of the format, but for the upper limit of the exponent:
    a mantissa of 53 bits at most, times a power of two that is the
    smallest subnormal number at least. *)
Definition representable (x : R) : Prop :=
  ∃ m k, Z.abs m ≤ 2 ^ 53 ∧ -1074 ≤ k ∧ x = (IZR m * bpow k)%R.

(** [y] is [x] up to the factor [f], and [x] lies between [2^-k] and
    [2^k]: the bounds in which the error of rounded operations is
    followed. *)
Definition within (f x y : R) : Prop := (x / f <= y <= x * f)%R.

Definition in_binades (k : Z) (x : R) : Prop := (bpow (- k) <= x <= bpow k)%R.

(** The factor of one rounding, [1 + 2^-52]. *)
Definition one_ulp : R := (1 + bpow (-52))%R.

(** The quotient and the product of the doubles nearest to [a] and [b],
    rounded: what the machine computes when neither an infinity nor a
    division by zero is met. *)
Definition fdiv (a b : R) : R := round64 (round64 a / round64 b).

Definition fmul (a b : R) : R := round64 (round64 a * round64 b).

(** The cast to [int] of a number: truncation toward zero, [INT_MIN]
    outside [int]. *)
Definition trunc_int (d : R) : Z :=
  let t := if decide (0 <= d)%R then Int_part d else - Int_part (- d) in
  if decide (INT_MIN ≤ t ≤ INT_MAX) then t else INT_MIN.

(** A value of the type [double]: a number of the format, an infinity or
    NaN. The two infinities are one value, and so are the two zeros: the
    embedded code divides and multiplies doubles and casts the result,
    and neither the kind of a result (number, infinity, NaN), nor the
    value of a number, nor the result of the cast depends on the sign of
    an infinity or of a zero. *)
Inductive double :=
  | Fin (x : R)
  | Inf
  | NaN.

(** The double nearest to the number [x]. The largest number of the
    format is [2^1024 - 2^971]: where rounding with 53 bits gives
    [2^1024] or more, the double is an infinity. *)
Definition dbl (x : R) : double :=
  let y := round64 x in
  if decide (bpow 1024 <= Rabs y)%R then Inf else Fin y.

(** [a / b] on doubles. *)
Definition ddiv (a b : double) : double :=
  match a, b with
  | Fin x, Fin y =>
      if decide (y = 0%R) then (if decide (x = 0%R) then NaN else Inf)
      else dbl (x / y)
  | Fin _, Inf => Fin 0
  | Inf, Fin _ => Inf
  | _, _ => NaN
  end.

(** [a * b] on doubles. *)
Definition dmul (a b : double) : double :=
  match a, b with
  | Fin x, Fin y => dbl (x * y)
  | Fin x, Inf | Inf, Fin x => if decide (x = 0%R) then NaN else Inf
  | Inf, Inf => Inf
  | _, _ => NaN
  end.

(** The cast [(int)d]. *)
Definition to_int (d : double) : Z :=
  match d with
  | Fin x => trunc_int x
  | _ => INT_MIN
  end.

(** [rand()]: the random source is a stream of integers and a read
    position. *)
Record Rng := { rng_stream : nat → Z; rng_pos : nat }.

Definition rand (g : Rng) : Z * Rng :=
  (rng_stream g (rng_pos g) `mod` (RAND_MAX + 1),
   {| rng_stream := rng_stream g; rng_pos := S (rng_pos g) |}).

Definition distance (x1 y1 x2 y2 : R) : R :=
  sqrt ((x2 - x1) * (x2 - x1) + (y2 - y1) * (y2 - y1)).

Definition calc_robot_reach_time (px py speed : R) : R :=
  (distance 0 0 px py / speed)%R.

Definition random_range (lo hi : R) (g : Rng) : R * Rng :=
  let '(r, g') := rand g in
  ((lo + (IZR r / IZR RAND_MAX) * (hi - lo))%R, g').

(** [min + rand() % (max - min + 1)]; the remainder by zero is undefined. *)
Definition random_int (lo hi : Z) (g : Rng) : option (Z * Rng) :=
  let '(r, g') := rand g in
  if decide (hi - lo + 1 = 0) then None
  else Some (lo + Z.rem r (hi - lo + 1), g').

(** The order of the states of a mango in the specification: a state
    changes only from unlabeled to being labeled and from being labeled
    to labeled. *)
Definition strict_order (a b : MangoState) : Prop :=
  a = b ∨
  (a = MANGO_UNLABELED ∧ b = MANGO_BEING_LABELED) ∨
  (a = MANGO_BEING_LABELED ∧ b = MANGO_LABELED).

End Common.

Import Common.

(** ** src/robot_controller.c *)

Module Controller.

(** The part of the shared memory segment the controller writes. *)
Record SharedMemory := {
  shm_robots : list Robot;
  active_robots : Z;
  mango_lock : list Z;
  stats : SimulationStats
}.

(** The globals of the controller. *)
Record State := {
  g_robots : list Robot;
  g_current_box : Box;
  g_box_ready : bool;
  g_num_robots : Z;
  g_params : SystemParams;
  g_shm : SharedMemory
}.

Definition set_current_box (b : Box) (s : State) : State :=
  {| g_robots := g_robots s; g_current_box := b; g_box_ready := g_box_ready s;
     g_num_robots := g_num_robots s; g_params := g_params s; g_shm := g_shm s |}.

Definition set_robots (rs : list Robot) (s : State) : State :=
  {| g_robots := rs; g_current_box := g_current_box s;
     g_box_ready := g_box_ready s; g_num_robots := g_num_robots s;
     g_params := g_params s; g_shm := g_shm s |}.

Definition set_shm (m : SharedMemory) (s : State) : State :=
  {| g_robots := g_robots s; g_current_box := g_current_box s;
     g_box_ready := g_box_ready s; g_num_robots := g_num_robots s;
     g_params := g_params s; g_shm := m |}.

Definition shm_set_mango_lock (l : list Z) (m : SharedMemory) : SharedMemory :=
  {| shm_robots := shm_robots m; active_robots := active_robots m;
     mango_lock := l; stats := stats m |}.

Definition shm_set_robots (rs : list Robot) (m : SharedMemory) : SharedMemory :=
  {| shm_robots := rs; active_robots := active_robots m;
     mango_lock := mango_lock m; stats := stats m |}.

Definition shm_set_stats (st : SimulationStats) (m : SharedMemory) : SharedMemory :=
  {| shm_robots := shm_robots m; active_robots := active_robots m;
     mango_lock := mango_lock m; stats := st |}.

(** [g_current_box.mangos[mango_id].state = MANGO_BEING_LABELED] and
    [g_shm->mango_lock[mango_id] = robot_id], the two writes of a
    successful claim. *)
Definition claim_writes (rid mid : Z) (s : State) : option State :=
  m ← aget (mangos (g_current_box s)) mid;
  ms ← aset (mangos (g_current_box s)) mid (mango_set_state MANGO_BEING_LABELED m);
  lk ← aset (mango_lock (g_shm s)) mid rid;
  Some (set_shm (shm_set_mango_lock lk (g_shm s))
          (set_current_box (box_set_mangos ms (g_current_box s)) s)).

(** [try_claim_mango]: the result and the globals after the call. *)
Definition try_claim_mango (rid mid : Z) (s : State) : option (Z * State) :=
  if decide (mid < 0 ∨ mid >= MAX_MANGOS_PER_BOX) then Some (-1, s)
  else
    m ← aget (mangos (g_current_box s)) mid;
    if decide (mango_state m ≠ MANGO_UNLABELED) then Some (-1, s)
    else s' ← claim_writes rid mid s; Some (0, s').

(** The state of the mango [mid] of the current box, if there is one. *)
Definition item_state (s : State) (mid : Z) : option MangoState :=
  mango_state <$> aget (mangos (g_current_box s)) mid.

(** The arrays of the globals have their declared sizes. *)
Definition arrays_ok (s : State) : Prop :=
  length (mangos (g_current_box s)) = Z.to_nat MAX_MANGOS_PER_BOX ∧
  length (mango_lock (g_shm s)) = Z.to_nat MAX_MANGOS_PER_BOX ∧
  length (g_robots s) = Z.to_nat MAX_ROBOTS ∧
  length (shm_robots (g_shm s)) = Z.to_nat MAX_ROBOTS.

Definition zero_stats : SimulationStats :=
  {| total_boxes := 0; total_mangos := 0; mangos_labeled := 0;
     mangos_missed := 0; robot_failures := 0; backup_activations := 0 |}.

Definition zero_params : SystemParams :=
  {| pX := 0; pZ := 0; pW := 0; num_robots := 0; N_min := 0; N_max := 0;
     pB := 0; robot_speed := 0; robot_spacing := 0; box_spacing := 0;
     num_backup_robots := 0 |}.

(** The globals at program start: zero-initialised statics and the shared
    segment as [vision_system] creates it (locks at [-1]). *)
Definition initial_state : State :=
  {| g_robots := replicate (Z.to_nat MAX_ROBOTS) zero_robot;
     g_current_box := zero_box;
     g_box_ready := false;
     g_num_robots := 0;
     g_params := zero_params;
     g_shm := {| shm_robots := replicate (Z.to_nat MAX_ROBOTS) zero_robot;
                 active_robots := 0;
                 mango_lock := replicate (Z.to_nat MAX_MANGOS_PER_BOX) (-1);
                 stats := zero_stats |} |}.

(** The local [mangos_per_robot] of [calculate_required_robots]. *)
Definition mangos_per_robot (params : SystemParams) : Z :=
  let time_per_robot := ddiv (dbl (robot_spacing params)) (dbl (pX params)) in
  let avg_distance := ddiv (dbl (pZ params)) (dbl 3) in
  let time_per_label := ddiv avg_distance (dbl (robot_speed params)) in
  let n := to_int (ddiv time_per_robot time_per_label) in
  if decide (n < 1) then 1 else n.

Definition calculate_required_robots (params : SystemParams) (n_mangos : Z) : Z :=
  let per_robot := mangos_per_robot params in
  wrap_int (n_mangos + per_robot - 1) `quot` per_robot.

Definition calculate_effective_time (rid : Z) (s : State) : option R :=
  r ← aget (g_robots s) rid;
  next_axis ← (if decide (rid + 1 < g_num_robots s)
               then axis_position <$> aget (g_robots s) (rid + 1)
               else Some (pW (g_params s)));
  Some ((next_axis - axis_position r) / pX (g_params s))%R.

(** [label_mango(&g_robots[ridx], &g_current_box.mangos[midx])], called at
    time [now]; the two [usleep] are not modelled. *)
Definition label_mango (ridx midx : Z) (now : R) (s : State) : option State :=
  robot ← aget (g_robots s) ridx;
  m ← aget (mangos (g_current_box s)) midx;
  ms ← aset (mangos (g_current_box s)) midx
        (mango_set_label_time now
           (mango_set_labeled_by (robot_id robot)
              (mango_set_state MANGO_LABELED m)));
  rs ← aset (g_robots s) ridx
        (robot_set_labels_placed (labels_placed robot + 1) robot);
  Some (set_robots rs
          (set_current_box
             (box_set_labeled_count (labeled_count (g_current_box s) + 1)
                (box_set_mangos ms (g_current_box s))) s)).

(** The fields a backup receives when it is bound to the failed robot. *)
Definition bind_backup (failed_robot_id : Z) (axis : R) (r : Robot) : Robot :=
  robot_set_axis axis
    (robot_set_replacing failed_robot_id
       (robot_set_state ROBOT_STATE_BACKUP r)).

(** The loop of [activate_backup_robot], [n] iterations left, at index [i]. *)
Fixpoint activate_backup_loop (n : nat) (i failed_robot_id : Z) (s : State)
  : option State :=
  match n with
  | O => Some s
  | S n' =>
      r ← aget (g_robots s) i;
      if is_backup r && bool_decide (robot_state r = ROBOT_STATE_DISABLED) then
        failed ← aget (g_robots s) failed_robot_id;
        let r' := bind_backup failed_robot_id (axis_position failed) r in
        rs ← aset (g_robots s) i r';
        shared ← aset (shm_robots (g_shm s)) i r';
        let st := stats (g_shm s) in
        Some (set_shm
                (shm_set_robots shared
                   (shm_set_stats
                      (stats_set_backup_activations (backup_activations st + 1) st)
                      (g_shm s)))
                (set_robots rs s))
      else activate_backup_loop n' (i + 1) failed_robot_id s
  end.

Definition activate_backup_robot (failed_robot_id : Z) (s : State) : option State :=
  activate_backup_loop
    (Z.to_nat (g_num_robots s - num_robots (g_params s)))
    (num_robots (g_params s)) failed_robot_id s.

(** [check_robot_failure(&g_robots[ridx])]. *)
Definition check_robot_failure (ridx : Z) (s : State) (g : Rng)
  : option (Z * State * Rng) :=
  robot ← aget (g_robots s) ridx;
  if has_failed robot then Some (1, s, g)
  else if bool_decide (0 < pB (g_params s))%R && negb (is_backup robot) then
    let '(n, g') := rand g in
    let r := (IZR n / IZR RAND_MAX)%R in
    if decide (r < pB (g_params s) / 1000)%R then
      rs ← aset (g_robots s) ridx
            (robot_set_state ROBOT_STATE_FAILED (robot_set_has_failed true robot));
      let st := stats (g_shm s) in
      let s1 := set_shm
                  (shm_set_stats
                     (stats_set_robot_failures (robot_failures st + 1) st)
                     (g_shm s))
                  (set_robots rs s) in
      s2 ← activate_backup_robot (robot_id robot) s1;
      Some (1, s2, g')
    else Some (0, s, g')
  else Some (0, s, g).

(** The robot [init_robots] writes at index [i]. *)
Definition new_robot (i n_robots : Z) (spacing prob : R) : Robot :=
  {| robot_id := i;
     axis_position := if decide (i < n_robots) then ((IZR i + 0.5) * spacing)%R else 0%R;
     robot_state := if decide (i < n_robots) then ROBOT_STATE_IDLE
                    else ROBOT_STATE_DISABLED;
     current_mango := -1;
     labels_placed := 0;
     last_action_time := 0;
     is_backup := if decide (i < n_robots) then false else true;
     replacing_robot := -1;
     failure_probability := prob;
     has_failed := false |}.

Fixpoint init_robots_loop (n : nat) (i n_robots : Z) (s : State) : option State :=
  match n with
  | O => Some s
  | S n' =>
      let r := new_robot i n_robots (robot_spacing (g_params s)) (pB (g_params s)) in
      rs ← aset (g_robots s) i r;
      shared ← aset (shm_robots (g_shm s)) i r;
      init_robots_loop n' (i + 1) n_robots
        (set_shm (shm_set_robots shared (g_shm s)) (set_robots rs s))
  end.

Definition set_counts (total : Z) (p : SystemParams) (s : State) : State :=
  {| g_robots := g_robots s; g_current_box := g_current_box s;
     g_box_ready := g_box_ready s; g_num_robots := total;
     g_params := p; g_shm := g_shm s |}.

Definition shm_set_active_robots (n : Z) (m : SharedMemory) : SharedMemory :=
  {| shm_robots := shm_robots m; active_robots := n;
     mango_lock := mango_lock m; stats := stats m |}.

Definition init_robots (n_robots n_backup : Z) (s : State) : option (Z * State) :=
  let total_robots := n_robots + n_backup in
  if decide (total_robots > MAX_ROBOTS) then Some (-1, s)
  else
    let p := params_set_robots n_robots n_backup
               (pW (g_params s) / IZR n_robots)%R (g_params s) in
    s' ← init_robots_loop (Z.to_nat total_robots) 0 n_robots
           (set_counts total_robots p s);
    Some (0, set_shm (shm_set_active_robots n_robots (g_shm s')) s').

(** The scan of [robot_thread_function] for the nearest unlabeled mango:
    [n] iterations left, at index [i]; [min_distance] is [None] while it
    is [INFINITY]. *)
Fixpoint nearest_loop (n : nat) (i : Z) (ms : list Mango)
    (target : Z) (min_distance : option R) : option Z :=
  match n with
  | O => Some target
  | S n' =>
      m ← aget ms i;
      if decide (mango_state m = MANGO_UNLABELED) then
        let dist := distance 0 0 (mango_x m) (mango_y m) in
        if match min_distance with
           | None => true
           | Some d => bool_decide (dist < d)%R
           end
        then nearest_loop n' (i + 1) ms i (Some dist)
        else nearest_loop n' (i + 1) ms target min_distance
      else nearest_loop n' (i + 1) ms target min_distance
  end.

Definition nearest_unlabeled (b : Box) : option Z :=
  nearest_loop (Z.to_nat (num_mangos b)) 0 (mangos b) (-1) None.

(** A backup that waits to be activated. *)
Definition idle_backup (r : Robot) : bool :=
  is_backup r && bool_decide (robot_state r = ROBOT_STATE_DISABLED).

(** The globals once the backup [r] at index [i] is bound to the failed
    robot [failed_robot_id], whose axis is [axis]. *)
Definition bound (i failed_robot_id : Z) (axis : R) (r : Robot) (s : State) : State :=
  let r' := bind_backup failed_robot_id axis r in
  let st := stats (g_shm s) in
  set_shm
    (shm_set_robots (<[Z.to_nat i := r']> (shm_robots (g_shm s)))
       (shm_set_stats
          (stats_set_backup_activations (backup_activations st + 1) st)
          (g_shm s)))
    (set_robots (<[Z.to_nat i := r']> (g_robots s)) s).



(** The roster after [init_robots]: the arrays have their sizes and the
    backups are the robots from [num_robots] up to [g_num_robots]. *)
Definition roster_ok (s : State) : Prop :=
  arrays_ok s ∧ 0 ≤ num_robots (g_params s) ≤ g_num_robots s ∧
  g_num_robots s ≤ MAX_ROBOTS.

(** The items per robot of the required-robot estimator in the words of
    the specification: the floor of the window of a robot divided by the
    time per label, at least 1, where the time per label is the average
    reach distance, a third of the box size, divided by the speed of the
    robot. *)
Definition items_per_robot_spec (window box_size speed : R) : Z :=
  Z.max 1 (Int_part (window / (box_size / 3 / speed))).

Definition set_params (p : SystemParams) (s : State) : State :=
  {| g_robots := g_robots s; g_current_box := g_current_box s;
     g_box_ready := g_box_ready s; g_num_robots := g_num_robots s;
     g_params := p; g_shm := g_shm s |}.

(** The axis of the main robot [i] of [n] on a belt of length [w]. *)
Definition axis_of (i n : Z) (w : R) : R := ((IZR i + 0.5) * (w / IZR n))%R.

End Controller.

(** ** The claim protocol under its mutex

    [try_claim_mango] (robot_controller.c, lines 197 to 218) statement by
    statement, run by several threads at once; [g_mango_mutex] is held by
    at most one of them. *)

Module ClaimRace.
Import Controller.

(** Where a thread stands in [try_claim_mango]. *)
Inductive Pc :=
  | AtEntry          (* line 198: the range test *)
  | AtLock           (* line 202: pthread_mutex_lock *)
  | AtTest           (* line 205: state != MANGO_UNLABELED *)
  | AtUnlockTaken    (* line 206: pthread_mutex_unlock, then return -1 *)
  | AtSetState       (* line 211: state = MANGO_BEING_LABELED *)
  | AtSetLock        (* line 212: mango_lock[mango_id] = robot_id *)
  | AtUnlockClaimed  (* line 214: pthread_mutex_unlock, then return 0 *)
  | Returned (ret : Z).

#[global] Instance Pc_eq_dec : EqDecision Pc.
Proof. solve_decision. Defined.

(** A thread inside the call [try_claim_mango(c_robot, c_mango)]. *)
Record Call := { c_robot : Z; c_mango : Z; c_pc : Pc }.

Record World := {
  mutex : option nat;      (* the thread that holds g_mango_mutex *)
  globals : State;
  calls : list Call
}.

Definition goto (t : nat) (c : Call) (pc : Pc) (w : World) : World :=
  {| mutex := mutex w; globals := globals w;
     calls := <[t := {| c_robot := c_robot c; c_mango := c_mango c; c_pc := pc |}]> (calls w) |}.

Definition set_mutex (o : option nat) (w : World) : World :=
  {| mutex := o; globals := globals w; calls := calls w |}.

Definition set_globals (s : State) (w : World) : World :=
  {| mutex := mutex w; globals := s; calls := calls w |}.

(** One statement of thread [t]; [None] when the thread cannot move: it
    has returned, it waits for the mutex, or the statement is undefined. *)
Definition thread_step (t : nat) (w : World) : option World :=
  c ← calls w !! t;
  let s := globals w in
  match c_pc c with
  | AtEntry =>
      if decide (c_mango c < 0 ∨ c_mango c >= MAX_MANGOS_PER_BOX)
      then Some (goto t c (Returned (-1)) w)
      else Some (goto t c AtLock w)
  | AtLock =>
      match mutex w with
      | None => Some (goto t c AtTest (set_mutex (Some t) w))
      | Some _ => None
      end
  | AtTest =>
      m ← aget (mangos (g_current_box s)) (c_mango c);
      if decide (mango_state m ≠ MANGO_UNLABELED)
      then Some (goto t c AtUnlockTaken w)
      else Some (goto t c AtSetState w)
  | AtUnlockTaken => Some (goto t c (Returned (-1)) (set_mutex None w))
  | AtSetState =>
      m ← aget (mangos (g_current_box s)) (c_mango c);
      ms ← aset (mangos (g_current_box s)) (c_mango c)
            (mango_set_state MANGO_BEING_LABELED m);
      Some (goto t c AtSetLock
              (set_globals (set_current_box (box_set_mangos ms (g_current_box s)) s) w))
  | AtSetLock =>
      lk ← aset (mango_lock (g_shm s)) (c_mango c) (c_robot c);
      Some (goto t c AtUnlockClaimed
              (set_globals (set_shm (shm_set_mango_lock lk (g_shm s)) s) w))
  | AtUnlockClaimed => Some (goto t c (Returned 0) (set_mutex None w))
  | Returned _ => None
  end.

Inductive step (w w' : World) : Prop :=
  | step_thread (t : nat) : thread_step t w = Some w' → step w w'.

(** The run of a schedule, a list of thread numbers. *)
Fixpoint run (sched : list nat) (w : World) : option World :=
  match sched with
  | [] => Some w
  | t :: sched' => w' ← thread_step t w; run sched' w'
  end.

(** The threads of [rids] all enter [try_claim_mango(_, mid)]. *)
Definition start (rids : list Z) (mid : Z) (s : State) : World :=
  {| mutex := None; globals := s;
     calls := (λ r, {| c_robot := r; c_mango := mid; c_pc := AtEntry |}) <$> rids |}.

Definition returned (ret : Z) (c : Call) : bool :=
  bool_decide (c_pc c = Returned ret).

Definition all_returned (w : World) : Prop :=
  ∀ c, c ∈ calls w → ∃ ret, c_pc c = Returned ret.

(** The number of calls that returned [ret]. *)
Definition count_returned (ret : Z) (w : World) : nat :=
  length (filter (λ c, c_pc c = Returned ret) (calls w)).

(** The thread saw the mango unlabeled at line 205. *)
Definition saw_unlabeled (pc : Pc) : Prop :=
  pc = AtSetState ∨ pc = AtSetLock ∨ pc = AtUnlockClaimed ∨ pc = Returned 0.

(** Statements left before the call returns, at most. *)
Definition left_pc (pc : Pc) : nat :=
  match pc with
  | AtEntry => 6 | AtLock => 5 | AtTest => 4 | AtSetState => 3
  | AtSetLock => 2 | AtUnlockClaimed => 1 | AtUnlockTaken => 1
  | Returned _ => 0
  end%nat.

Definition left (w : World) : nat :=
  sum_list (left_pc ∘ c_pc <$> calls w).

(** The invariant of the runs in which every thread claims the mango
    [mid]: who may hold the mutex, and what each thread knows of the
    state of the mango. *)
Definition holds (pc : Pc) : Prop :=
  pc = AtTest ∨ pc = AtUnlockTaken ∨ pc = AtSetState ∨ pc = AtSetLock ∨ pc = AtUnlockClaimed.
Definition wrote (pc : Pc) : Prop :=
  pc = AtSetLock ∨ pc = AtUnlockClaimed ∨ pc = Returned 0.
Definition lost (pc : Pc) : Prop :=
  pc = AtUnlockTaken ∨ pc = Returned (-1).

Record Inv (mid : Z) (w : World) : Prop := {
  inv_len_mangos : length (mangos (g_current_box (globals w))) = Z.to_nat MAX_MANGOS_PER_BOX;
  inv_len_lock : length (mango_lock (g_shm (globals w))) = Z.to_nat MAX_MANGOS_PER_BOX;
  inv_range : 0 ≤ mid < MAX_MANGOS_PER_BOX;
  inv_mango : ∀ t c, calls w !! t = Some c → c_mango c = mid;
  inv_holder : ∀ t c, calls w !! t = Some c → holds (c_pc c) → mutex w = Some t;
  inv_mutex : ∀ t, mutex w = Some t → ∃ c, calls w !! t = Some c ∧ holds (c_pc c);
  inv_seen : ∀ t c, calls w !! t = Some c → c_pc c = AtSetState →
             item_state (globals w) mid = Some MANGO_UNLABELED;
  inv_taken : ∀ t c, calls w !! t = Some c → wrote (c_pc c) ∨ lost (c_pc c) →
             item_state (globals w) mid ≠ Some MANGO_UNLABELED;
  inv_unique : ∀ t1 t2 c1 c2, calls w !! t1 = Some c1 → calls w !! t2 = Some c2 →
             saw_unlabeled (c_pc c1) → saw_unlabeled (c_pc c2) → t1 = t2;
  inv_winner : item_state (globals w) mid = Some MANGO_UNLABELED ∨
             ∃ t c, calls w !! t = Some c ∧ wrote (c_pc c);
  inv_ret : ∀ t c ret, calls w !! t = Some c → c_pc c = Returned ret → ret = 0 ∨ ret = -1
}.

(** Marks the calls whose invariant facts are already in the context. *)
Definition known (t : nat) (c : Call) : Prop := True.

End ClaimRace.


(** ** The robot threads of the controller

    The inner loop of [robot_thread_function] (robot_controller.c, lines
    354 to 395), one move for each of its critical sections. Thread [i]
    runs for the robot [g_robots[i]]. *)

Module Live.
Import Controller.

(** Where a thread stands in the inner loop. *)
Inductive Pc :=
  | Scanning                (* line 354: the top of the loop *)
  | Claiming (target : Z)   (* line 385: before try_claim_mango *)
  | Labeling (target : Z)   (* line 390: in label_mango, before line 241 *)
  | Leaving.                (* line 398: the loop is left *)

Record World := { globals : State; pcs : list Pc }.

Inductive Action :=
  | Break               (* lines 354 to 358: stopped, failed or out of time *)
  | Scan                (* lines 361 to 382 *)
  | Claim               (* lines 385 to 387 *)
  | Label (now : R).    (* label_mango, lines 241 to 248, then lines 392 and 393 *)

Definition goto (i : nat) (pc : Pc) (s : State) (w : World) : World :=
  {| globals := s; pcs := <[i := pc]> (pcs w) |}.

(** One move of thread [i]; [None] when the thread is not at a place
    where the action applies, or the action is undefined. *)
Definition robot_step (a : Action) (i : nat) (w : World) : option World :=
  pc ← pcs w !! i;
  let s := globals w in
  robot ← aget (g_robots s) (Z.of_nat i);
  match a, pc with
  | Break, Scanning => Some (goto i Leaving s w)
  | Scan, Scanning =>
      target_mango ← nearest_unlabeled (g_current_box s);
      if decide (target_mango = -1) then Some (goto i Leaving s w)
      else Some (goto i (Claiming target_mango) s w)
  | Claim, Claiming target_mango =>
      '(ret, s1) ← try_claim_mango (robot_id robot) target_mango s;
      if decide (ret = 0) then
        r1 ← aget (g_robots s1) (Z.of_nat i);
        rs ← aset (g_robots s1) (Z.of_nat i)
              (robot_set_current_mango target_mango
                 (robot_set_state ROBOT_STATE_LABELING r1));
        Some (goto i (Labeling target_mango) (set_robots rs s1) w)
      else Some (goto i Scanning s1 w)
  | Label now, Labeling target_mango =>
      s1 ← label_mango (Z.of_nat i) target_mango now s;
      r1 ← aget (g_robots s1) (Z.of_nat i);
      rs ← aset (g_robots s1) (Z.of_nat i)
            (robot_set_state ROBOT_STATE_ACTIVE
               (robot_set_current_mango (-1) r1));
      Some (goto i Scanning (set_robots rs s1) w)
  | _, _ => None
  end.

Inductive step (w w' : World) : Prop :=
  | step_robot (a : Action) (i : nat) : robot_step a i w = Some w' → step w w'.

(** The receiver installs the next box (box_receiver_thread, lines 445
    to 455): the box is copied over the current one and the lock table
    is reset. *)
Definition install_box (new_box : Box) (s : State) : State :=
  {| g_robots := g_robots s;
     g_current_box := new_box;
     g_box_ready := true;
     g_num_robots := g_num_robots s;
     g_params := g_params s;
     g_shm := shm_set_mango_lock
                (replicate (Z.to_nat MAX_MANGOS_PER_BOX) (-1)) (g_shm s) |}.

(** The threads at the top of their loop, on the globals [s]. *)
Definition start (n : nat) (s : State) : World :=
  {| globals := s; pcs := replicate n Scanning |}.

(** The invariant of the runs on one box: a thread inside [label_mango]
    holds a mango that is being labeled, and no two threads hold the same
    mango. *)
Record Inv (w : World) : Prop := {
  inv_arrays : arrays_ok (globals w);
  inv_threads : Z.of_nat (length (pcs w)) ≤ MAX_ROBOTS;
  inv_held : ∀ i target, pcs w !! i = Some (Labeling target) →
             item_state (globals w) target = Some MANGO_BEING_LABELED;
  inv_alone : ∀ i j target, pcs w !! i = Some (Labeling target) →
             pcs w !! j = Some (Labeling target) → i = j
}.

End Live.

(** ** src/analysis.c: the robot threads of the analysis simulation

    [robot_thread] (lines 115 to 208), one move for each of its critical
    sections, and the conveyor that makes the next box current. Thread
    [i] runs for the robot [g_robots[i]]. *)

Module Analysis.

(** Where a thread stands in [robot_thread]. *)
Inductive Pc :=
  | Resting                 (* line 122: waits for a box *)
  | Searching               (* line 164: the top of the labeling loop *)
  | Reaching (target : Z).  (* lines 187 to 192: moves to the mango *)

(** The locals of a thread. [current_box] is the index in [g_boxes] of
    the box the pointer of that name refers to. *)
Record Thread := {
  robot_spacing_of : R;
  current_box : Z;
  max_labels : Z;
  labels_this_box : Z;
  pc : Pc
}.

Record World := {
  g_boxes : list Box;
  g_current_box_idx : Z;
  g_robots : list Robot;
  g_num_robots : Z;
  g_params : SystemParams;
  threads : list Thread
}.

Inductive Action :=
  | Begin (draw : Z)   (* lines 133 to 162, [draw] is the result of rand() *)
  | Search             (* lines 164 to 185 and 204 *)
  | Finish             (* lines 194 to 201 *)
  | Advance.           (* the conveyor, lines 218 to 223 *)

(** The local [robot_spacing] (lines 117 and 118). *)
Definition thread_spacing (w : World) : option R :=
  last_robot ← aget (g_robots w) (g_num_robots w - 1);
  Some (pW (g_params w) /
        IZR (g_num_robots w - (if is_backup last_robot then 1 else 0)))%R.

(** The local [max_labels] (lines 156 to 160). *)
Definition labels_per_box (p : SystemParams) (spacing : R) : Z :=
  let avg_distance := ddiv (dbl (pZ p)) (dbl 3) in
  let time_per_label := dmul (ddiv avg_distance (dbl (robot_speed p))) (dbl 2) in
  let effective_time := ddiv (dbl spacing) (dbl (pX p)) in
  let n := to_int (ddiv effective_time time_per_label) in
  if decide (n < 1) then 1 else n.

Definition update (bs : list Box) (rs : list Robot) (ts : list Thread)
    (w : World) : World :=
  {| g_boxes := bs; g_current_box_idx := g_current_box_idx w;
     g_robots := rs; g_num_robots := g_num_robots w;
     g_params := g_params w; threads := ts |}.

Definition thread_set (b : Z) (m n : Z) (p : Pc) (t : Thread) : Thread :=
  {| robot_spacing_of := robot_spacing_of t; current_box := b;
     max_labels := m; labels_this_box := n; pc := p |}.

(** One move of thread [i], or of the conveyor for [Advance]. *)
Definition thread_step (a : Action) (i : nat) (w : World) : option World :=
  match a with
  | Advance =>
      Some {| g_boxes := g_boxes w; g_current_box_idx := g_current_box_idx w + 1;
              g_robots := g_robots w; g_num_robots := g_num_robots w;
              g_params := g_params w; threads := threads w |}
  | _ =>
    t ← threads w !! i;
    robot ← aget (g_robots w) (Z.of_nat i);
    match a, pc t with
    | Begin draw, Resting =>
        if bool_decide (robot_state robot = ROBOT_STATE_DISABLED) || has_failed robot
        then None
        else if bool_decide (0 < pB (g_params w))%R && negb (is_backup robot)
                && bool_decide (IZR draw / IZR RAND_MAX < pB (g_params w))%R
        then
          rs ← aset (g_robots w) (Z.of_nat i)
                (robot_set_state ROBOT_STATE_FAILED (robot_set_has_failed true robot));
          Some (update (g_boxes w) rs
                  (<[i := thread_set (g_current_box_idx w) (max_labels t)
                            (labels_this_box t) Resting t]> (threads w)) w)
        else
          rs ← aset (g_robots w) (Z.of_nat i)
                (robot_set_state ROBOT_STATE_ACTIVE robot);
          Some (update (g_boxes w) rs
                  (<[i := thread_set (g_current_box_idx w)
                            (labels_per_box (g_params w) (robot_spacing_of t))
                            0 Searching t]> (threads w)) w)
    | Search, Searching =>
        if decide (labels_this_box t < max_labels t) then
          box ← aget (g_boxes w) (current_box t);
          target ← Controller.nearest_unlabeled box;
          if decide (target >= 0) then
            m ← aget (mangos box) target;
            ms ← aset (mangos box) target (mango_set_state MANGO_BEING_LABELED m);
            bs ← aset (g_boxes w) (current_box t) (box_set_mangos ms box);
            Some (update bs (g_robots w)
                    (<[i := thread_set (current_box t) (max_labels t)
                              (labels_this_box t) (Reaching target) t]> (threads w)) w)
          else
            rs ← aset (g_robots w) (Z.of_nat i)
                  (robot_set_state ROBOT_STATE_IDLE robot);
            Some (update (g_boxes w) rs
                    (<[i := thread_set (current_box t) (max_labels t)
                              (labels_this_box t) Resting t]> (threads w)) w)
        else
          rs ← aset (g_robots w) (Z.of_nat i)
                (robot_set_state ROBOT_STATE_IDLE robot);
          Some (update (g_boxes w) rs
                  (<[i := thread_set (current_box t) (max_labels t)
                            (labels_this_box t) Resting t]> (threads w)) w)
    | Finish, Reaching target =>
        box ← aget (g_boxes w) (current_box t);
        m ← aget (mangos box) target;
        ms ← aset (mangos box) target
              (mango_set_labeled_by (robot_id robot)
                 (mango_set_state MANGO_LABELED m));
        bs ← aset (g_boxes w) (current_box t)
              (box_set_labeled_count (labeled_count box + 1)
                 (box_set_mangos ms box));
        rs ← aset (g_robots w) (Z.of_nat i)
              (robot_set_labels_placed (labels_placed robot + 1) robot);
        Some (update bs rs
                (<[i := thread_set (current_box t) (max_labels t)
                          (labels_this_box t + 1) Searching t]> (threads w)) w)
    | _, _ => None
    end
  end.

Inductive step (w w' : World) : Prop :=
  | step_thread (a : Action) (i : nat) : thread_step a i w = Some w' → step w w'.

(** The state of the mango [mid] of the box [b]. *)
Definition item_state (w : World) (b mid : Z) : option MangoState :=
  box ← aget (g_boxes w) b; mango_state <$> aget (mangos box) mid.

(** The invariant: a thread on its way to a mango holds it, the mango is
    being labeled, and no other thread holds it. *)
Record Inv (w : World) : Prop := {
  inv_boxes : ∀ b box, aget (g_boxes w) b = Some box →
              length (mangos box) = Z.to_nat MAX_MANGOS_PER_BOX;
  inv_held : ∀ i t target, threads w !! i = Some t → pc t = Reaching target →
             item_state w (current_box t) target = Some MANGO_BEING_LABELED;
  inv_alone : ∀ i j t u target, threads w !! i = Some t → threads w !! j = Some u →
             pc t = Reaching target → pc u = Reaching target →
             current_box t = current_box u → i = j
}.

(** A start of the simulation: every thread waits for a box. *)
Definition resting (w : World) : Prop :=
  (∀ b box, aget (g_boxes w) b = Some box →
            length (mangos box) = Z.to_nat MAX_MANGOS_PER_BOX) ∧
  ∀ t, t ∈ threads w → pc t = Resting.

(** The loop of [init_robots] (lines 94 to 112): [n] robots left from
    index [i]. *)
Fixpoint init_loop (n : nat) (i num_robots : Z) (robot_spacing failure_prob : R)
    (rs : list Robot) : option (list Robot) :=
  match n with
  | O => Some rs
  | S n' =>
      rs' ← aset rs i (Controller.new_robot i num_robots robot_spacing failure_prob);
      init_loop n' (i + 1) num_robots robot_spacing failure_prob rs'
  end.

(** [init_robots(num_robots, num_backup, failure_prob, w)]. *)
Definition init_robots (num_robots num_backup : Z) (failure_prob w : R)
    (wd : World) : option World :=
  let total := num_robots + num_backup in
  let robot_spacing := (w / IZR num_robots)%R in
  rs ← init_loop (Z.to_nat total) 0 num_robots robot_spacing failure_prob
         (g_robots wd);
  Some {| g_boxes := g_boxes wd; g_current_box_idx := g_current_box_idx wd;
          g_robots := rs; g_num_robots := total;
          g_params := g_params wd; threads := threads wd |}.

End Analysis.

(** ** The placement of mangos in a box

    The loop that fills the mangos of a box is the same text in
    [generate_box] (vision_system.c, lines 127 to 161),
    [generate_all_boxes] (simulator.c, lines 75 to 96) and
    [generate_boxes] (analysis.c, lines 62 to 83); only the first one logs
    a warning for a mango left too close to another. *)

Module Placement.

(** The loop over the mangos [j < i] placed before: [n] iterations left;
    the result is the value of [valid]. *)
Fixpoint check_loop (n : nat) (j i : Z) (min_distance : R) (ms : list Mango)
  : option bool :=
  match n with
  | O => Some true
  | S n' =>
      mi ← aget ms i;
      mj ← aget ms j;
      let dist := distance (mango_x mi) (mango_y mi) (mango_x mj) (mango_y mj) in
      if decide (dist < min_distance)%R then Some false
      else check_loop n' (j + 1) i min_distance ms
  end.

(** The loop [while (!valid && attempts < 100)], with [fuel] attempts
    left. *)
Fixpoint place_loop (fuel : nat) (valid : bool) (i : Z) (lo hi min_distance : R)
    (ms : list Mango) (g : Rng) : option (list Mango * bool * Rng) :=
  match fuel with
  | O => Some (ms, valid, g)
  | S fuel' =>
      if valid then Some (ms, valid, g)
      else
        let '(px, g1) := random_range lo hi g in
        let '(py, g2) := random_range lo hi g1 in
        m ← aget ms i;
        ms' ← aset ms i (mango_set_xy px py m);
        v ← check_loop (Z.to_nat i) 0 i min_distance ms';
        place_loop fuel' v i lo hi min_distance ms' g2
  end.

Definition max_attempts : nat := 100.

(** The loop over the mangos of the box, [n] of them left from index [i];
    [warned] collects the mangos for which no valid position was found. *)
Fixpoint fill_mangos (n : nat) (i : Z) (lo hi min_distance : R)
    (ms : list Mango) (warned : list Z) (g : Rng)
  : option (list Mango * list Z * Rng) :=
  match n with
  | O => Some (ms, warned, g)
  | S n' =>
      m ← aget ms i;
      ms1 ← aset ms i
             (mango_set_label_time 0
                (mango_set_labeled_by (-1)
                   (mango_set_state MANGO_UNLABELED (mango_set_id i m))));
      placed ← place_loop max_attempts false i lo hi min_distance ms1 g;
      let '(ms2, valid, g') := (placed : list Mango * bool * Rng) in
      fill_mangos n' (i + 1) lo hi min_distance ms2
        (if valid then warned else warned ++ [i]) g'
  end.

(** What the placement keeps of a mango: everything but its position. *)
Definition same_but_position (m m' : Mango) : Prop :=
  mango_id m' = mango_id m ∧ mango_state m' = mango_state m ∧
  labeled_by_robot m' = labeled_by_robot m ∧ label_time m' = label_time m.

Definition in_square (lo hi : R) (m : Mango) : Prop :=
  (lo <= mango_x m <= hi)%R ∧ (lo <= mango_y m <= hi)%R.

Definition far_from_earlier (min_distance : R) (ms : list Mango) (i : Z) : Prop :=
  ∀ k mi mk, 0 ≤ k < i → aget ms i = Some mi → aget ms k = Some mk →
    (min_distance <= distance (mango_x mi) (mango_y mi) (mango_x mk) (mango_y mk))%R.

End Placement.

(** ** src/vision_system.c *)

Module Vision.


(** The parameters [main] starts from (lines 265 to 272). *)
Definition default_params : SystemParams :=
  {| pX := 10; pZ := 50; pW := 300; num_robots := 0; N_min := 10; N_max := 12;
     pB := 0; robot_speed := 50 / 10; robot_spacing := 0;
     box_spacing := 50 * 1.5; num_backup_robots := 0 |}.

End Vision.

(** ** src/simulator.c: the batch estimator *)

Module Simulator.

Record SimulationConfig := {
  params : SystemParams;
  num_boxes : Z;
  num_robots : Z;
  num_backup : Z;
  failure_prob : R;
  verbose : bool
}.

Record SimulationResult := {
  total_mangos : Z;
  labeled_mangos : Z;
  missed_mangos : Z;
  robot_failures : Z;
  backup_activations : Z;
  total_time : R;
  efficiency : R;
  labels_per_robot : list Z
}.

(** The globals of the simulator. *)
Record Globals := {
  g_boxes : list Box;
  g_box_count : Z;
  g_robots : list Robot;
  g_num_robots : Z
}.

(** The statics at program start. *)
Definition initial_globals : Globals :=
  {| g_boxes := replicate (Z.to_nat MAX_BOXES_QUEUE) zero_box;
     g_box_count := 0;
     g_robots := replicate (Z.to_nat MAX_ROBOTS) zero_robot;
     g_num_robots := 0 |}.

(** The loop of [generate_all_boxes]: [n] boxes left from index [b]. *)
Fixpoint boxes_loop (n : nat) (b : Z) (config : SimulationConfig)
    (bs : list Box) (g : Rng) : option (list Box * Rng) :=
  match n with
  | O => Some (bs, g)
  | S n' =>
      let half_size := (pZ (params config) / 2)%R in
      let margin := (pZ (params config) / 10)%R in
      let min_distance := (pZ (params config) / 15)%R in
      old ← aget bs b;
      drawn ← random_int (N_min (params config)) (N_max (params config)) g;
      let '(k, g1) := (drawn : Z * Rng) in
      filled ← Placement.fill_mangos (Z.to_nat k) 0
                  (- half_size + margin)%R (half_size - margin)%R
                  min_distance (mangos old) [] g1;
      let '(ms, _, g2) := (filled : list Mango * list Z * Rng) in
      bs' ← aset bs b
              {| box_id := b; num_mangos := k; mangos := ms; position := 0;
                 entry_time := 0; labeled_count := 0; completed := false |};
      boxes_loop n' (b + 1) config bs' g2
  end.

Definition generate_all_boxes (config : SimulationConfig) (gl : Globals) (g : Rng)
  : option (Globals * Rng) :=
  made ← boxes_loop (Z.to_nat (num_boxes config)) 0 config (g_boxes gl) g;
  let '(bs, g') := (made : list Box * Rng) in
  Some ({| g_boxes := bs; g_box_count := num_boxes config;
           g_robots := g_robots gl; g_num_robots := g_num_robots gl |}, g').

(** The loop of [init_simulation] over the robots. *)
Fixpoint robots_loop (n : nat) (i : Z) (config : SimulationConfig)
    (robot_spacing : R) (rs : list Robot) : option (list Robot) :=
  match n with
  | O => Some rs
  | S n' =>
      rs' ← aset rs i
              (Controller.new_robot i (num_robots config) robot_spacing
                 (failure_prob config));
      robots_loop n' (i + 1) config robot_spacing rs'
  end.

Definition init_simulation (config : SimulationConfig) (gl : Globals) (g : Rng)
  : option (Globals * Rng) :=
  let total := num_robots config + num_backup config in
  let robot_spacing := (pW (params config) / IZR (num_robots config))%R in
  rs ← robots_loop (Z.to_nat total) 0 config robot_spacing (g_robots gl);
  generate_all_boxes config
    {| g_boxes := g_boxes gl; g_box_count := g_box_count gl;
       g_robots := rs; g_num_robots := total |} g.

(** The search for a backup (lines 166 to 174): [n] candidates left from
    index [j]; the flag tells whether one was activated. *)
Fixpoint backup_loop (n : nat) (j : Z) (failed : Robot) (rs : list Robot)
  : option (list Robot * bool) :=
  match n with
  | O => Some (rs, false)
  | S n' =>
      r ← aget rs j;
      if is_backup r && bool_decide (robot_state r = ROBOT_STATE_DISABLED) then
        rs' ← aset rs j
                (Controller.bind_backup (robot_id failed) (axis_position failed) r);
        Some (rs', true)
      else backup_loop n' (j + 1) failed rs
  end.

(** The failures at the start of a run (lines 155 to 176): [n] robots
    left from index [i]; [fails] and [acts] are the two counters of the
    result. *)
Fixpoint failure_loop (n : nat) (i : Z) (config : SimulationConfig)
    (total : Z) (rs : list Robot) (fails acts : Z) (g : Rng)
  : option (list Robot * Z * Z * Rng) :=
  match n with
  | O => Some (rs, fails, acts, g)
  | S n' =>
      robot ← aget rs i;
      if is_backup robot then failure_loop n' (i + 1) config total rs fails acts g
      else
        let '(k, g1) := rand g in
        let r := (IZR k / IZR RAND_MAX)%R in
        if decide (r < failure_prob config)%R then
          let failed := robot_set_state ROBOT_STATE_FAILED
                          (robot_set_has_failed true robot) in
          rs1 ← aset rs i failed;
          bound ← backup_loop (Z.to_nat (total - num_robots config))
                     (num_robots config) failed rs1;
          let '(rs2, activated) := (bound : list Robot * bool) in
          failure_loop n' (i + 1) config total rs2 (fails + 1)
            (if activated then acts + 1 else acts) g1
        else failure_loop n' (i + 1) config total rs fails acts g1
  end.

(** The capacity of a station, the local [mangos_per_station] (lines 181,
    182 and 190 to 194). *)
Definition mangos_per_station (config : SimulationConfig) : Z :=
  let robot_spacing :=
    ddiv (dbl (pW (params config))) (dbl (IZR (num_robots config))) in
  let effective_time := ddiv robot_spacing (dbl (pX (params config))) in
  let time_per_station := effective_time in
  let avg_time_per_mango :=
    ddiv (ddiv (dbl (pZ (params config))) (dbl (robot_speed (params config))))
      (dbl 1.5) in
  let n := to_int (ddiv time_per_station avg_time_per_mango) in
  if decide (n < 1) then 1 else n.

(** The loop of one robot over the mangos of a box (lines 208 to 217):
    [n] mangos left from index [i]. *)
Fixpoint label_loop (n : nat) (i : Z) (per_station labeled_by_this_robot : Z)
    (robot : Robot) (box : Box) : option (Robot * Box) :=
  match n with
  | O => Some (robot, box)
  | S n' =>
      if decide (labeled_by_this_robot < per_station) then
        m ← aget (mangos box) i;
        if decide (mango_state m = MANGO_UNLABELED) then
          ms ← aset (mangos box) i
                 (mango_set_labeled_by (robot_id robot)
                    (mango_set_state MANGO_LABELED m));
          label_loop n' (i + 1) per_station (labeled_by_this_robot + 1)
            (robot_set_labels_placed (labels_placed robot + 1) robot)
            (box_set_labeled_count (labeled_count box + 1) (box_set_mangos ms box))
        else label_loop n' (i + 1) per_station labeled_by_this_robot robot box
      else Some (robot, box)
  end.

(** The loop of a box over the robots (lines 197 to 223): [n] robots left
    from index [robot_idx]. The third component lists the values of
    [robot_idx] for which the body ran, in the order they were taken. *)
Fixpoint robot_loop (n : nat) (robot_idx : Z) (per_station : Z)
    (rs : list Robot) (box : Box) : option (list Robot * Box * list Z) :=
  match n with
  | O => Some (rs, box, [])
  | S n' =>
      robot ← aget rs robot_idx;
      if bool_decide (robot_state robot = ROBOT_STATE_DISABLED) || has_failed robot
      then
        rest ← robot_loop n' (robot_idx + 1) per_station rs box;
        let '(rs', box', visited) := (rest : list Robot * Box * list Z) in
        Some (rs', box', robot_idx :: visited)
      else
        labeled ← label_loop (Z.to_nat (num_mangos box)) 0 per_station 0 robot box;
        let '(robot', box1) := (labeled : Robot * Box) in
        rs1 ← aset rs robot_idx robot';
        if decide (labeled_count box1 >= num_mangos box1)
        then Some (rs1, box1, [robot_idx])
        else
          rest ← robot_loop n' (robot_idx + 1) per_station rs1 box1;
          let '(rs', box', visited) := (rest : list Robot * Box * list Z) in
          Some (rs', box', robot_idx :: visited)
  end.

(** The loop over the boxes (lines 185 to 232): [n] boxes left from index
    [box_idx]; [total], [labeled] and [missed] are the counters of the
    result. *)
Fixpoint box_loop (n : nat) (box_idx : Z) (per_station n_robots : Z)
    (bs : list Box) (rs : list Robot) (total labeled missed : Z)
  : option (list Box * list Robot * Z * Z * Z) :=
  match n with
  | O => Some (bs, rs, total, labeled, missed)
  | S n' =>
      box ← aget bs box_idx;
      passed ← robot_loop (Z.to_nat n_robots) 0 per_station rs box;
      let '(rs', box', _) := (passed : list Robot * Box * list Z) in
      bs' ← aset bs box_idx box';
      box_loop n' (box_idx + 1) per_station n_robots bs' rs'
        (total + num_mangos box)
        (labeled + labeled_count box')
        (missed + (num_mangos box' - labeled_count box'))
  end.

(** [result.labels_per_robot[i] = g_robots[i].labels_placed] (lines 240
    to 242), on the zeroed array of the result. *)
Fixpoint labels_loop (n : nat) (i : Z) (rs : list Robot) (out : list Z)
  : option (list Z) :=
  match n with
  | O => Some out
  | S n' =>
      r ← aget rs i;
      out' ← aset out i (labels_placed r);
      labels_loop n' (i + 1) rs out'
  end.

(** [run_single_simulation(config)], started at [start_time] and finished
    at [end_time]: the result, the globals and the random source after
    the run. *)
Definition run_single_simulation (config : SimulationConfig)
    (start_time end_time : R) (gl : Globals) (g : Rng)
  : option (SimulationResult * Globals * Rng) :=
  inited ← init_simulation config gl g;
  let '(gl1, g1) := (inited : Globals * Rng) in
  failed ← (if decide (0 < failure_prob config)%R
            then failure_loop (Z.to_nat (num_robots config)) 0 config
                   (g_num_robots gl1) (g_robots gl1) 0 0 g1
            else Some (g_robots gl1, 0, 0, g1));
  let '(rs, fails, acts, g2) := (failed : list Robot * Z * Z * Rng) in
  run ← box_loop (Z.to_nat (g_box_count gl1)) 0 (mangos_per_station config)
          (g_num_robots gl1) (g_boxes gl1) rs 0 0 0;
  let '(bs, rs', total, labeled, missed) :=
    (run : list Box * list Robot * Z * Z * Z) in
  per_robot ← labels_loop (Z.to_nat (g_num_robots gl1)) 0 rs'
                 (replicate (Z.to_nat MAX_ROBOTS) 0);
  Some ({| total_mangos := total;
           labeled_mangos := labeled;
           missed_mangos := missed;
           robot_failures := fails;
           backup_activations := acts;
           total_time := (end_time - start_time)%R;
           efficiency := if decide (total > 0)
                         then (100 * IZR labeled / IZR total)%R else 0%R;
           labels_per_robot := per_robot |},
        {| g_boxes := bs; g_box_count := g_box_count gl1;
           g_robots := rs'; g_num_robots := g_num_robots gl1 |},
        g2).

(** A robot the box loop lets work. *)
Definition working (r : Robot) : bool :=
  negb (bool_decide (robot_state r = ROBOT_STATE_DISABLED) || has_failed r).

(** The ids of the robots among [visited] that work, in the order of
    [visited]. *)
Definition working_ids (rs : list Robot) (visited : list Z) : list Z :=
  omap (λ i, match aget rs i with
             | Some r => if working r then Some (robot_id r) else None
             | None => None
             end) visited.

(** The two writes of a label on a mango (lines 211 and 212). *)
Definition labeled_by (rid : Z) (m : Mango) : Mango :=
  mango_set_labeled_by rid (mango_set_state MANGO_LABELED m).

(** A box whose first [l] mangos are labeled and whose other mangos are
    unlabeled, with [l] as its count of labeled mangos. *)
Definition labeled_upto (box : Box) (l : Z) : Prop :=
  0 ≤ l ≤ num_mangos box ∧
  num_mangos box ≤ Z.of_nat (length (mangos box)) ∧
  labeled_count box = l ∧
  (∀ j m, 0 ≤ j < l → aget (mangos box) j = Some m →
          mango_state m ≠ MANGO_UNLABELED) ∧
  (∀ j m, l ≤ j < num_mangos box → aget (mangos box) j = Some m →
          mango_state m = MANGO_UNLABELED).

(** A box as the generator leaves it. *)
Definition fresh (box : Box) : Prop := labeled_upto box 0.

(** The arrays of the globals have their declared sizes. *)
Definition globals_ok (gl : Globals) : Prop :=
  length (g_boxes gl) = Z.to_nat MAX_BOXES_QUEUE ∧
  length (g_robots gl) = Z.to_nat MAX_ROBOTS ∧
  ∀ k box, aget (g_boxes gl) k = Some box →
           length (mangos box) = Z.to_nat MAX_MANGOS_PER_BOX.

(** The roster of a run, as the specification sees it: the main robots,
    below [n_main], carry their index as id and stand at [axis k]; a
    backup in the state Backup replaces a main robot that has failed and
    stands at the axis of that robot. *)
Definition lined_up (n_main total : Z) (axis : Z → R) (rs : list Robot) : Prop :=
  (∀ k, 0 ≤ k < n_main →
     ∃ r, aget rs k = Some r ∧ robot_id r = k ∧ axis_position r = axis k ∧
          is_backup r = false) ∧
  (∀ k r, n_main ≤ k < total → aget rs k = Some r →
     robot_state r = ROBOT_STATE_BACKUP →
     ∃ rf, 0 ≤ replacing_robot r < n_main ∧
           aget rs (replacing_robot r) = Some rf ∧
           has_failed rf = true ∧ axis_position r = axis_position rf).

(** A robot marked as failed (lines 161 and 162). *)
Definition mark_failed (r : Robot) : Robot :=
  robot_set_state ROBOT_STATE_FAILED (robot_set_has_failed true r).

End Simulator.

(** ** Concrete configurations *)

Module Scenario.
Import Controller.

(** The globals of the controller when it starts with the parameters the
    vision system publishes by default. *)
Definition default_start : State := set_params Vision.default_params initial_state.

(** The roster of 4 main robots and 1 backup, the defaults of the
    controller, on the default belt. *)
Definition roster_4_1 : State :=
  let p := params_set_robots 4 1 (300 / 4)%R Vision.default_params in
  let rs := ((λ k, new_robot k 4 (300 / 4)%R 0%R) <$> [0; 1; 2; 3; 4])
            ++ replicate 27 zero_robot in
  {| g_robots := rs; g_current_box := zero_box; g_box_ready := false;
     g_num_robots := 5; g_params := p;
     g_shm := {| shm_robots := rs; active_robots := 4;
                 mango_lock := replicate (Z.to_nat MAX_MANGOS_PER_BOX) (-1);
                 stats := zero_stats |} |}.

(** The configuration [main] of the simulator starts from (simulator.c,
    lines 448 to 461). *)
Definition default_config : Simulator.SimulationConfig :=
  {| Simulator.params :=
       {| pX := 10; pZ := 50; pW := 300; num_robots := 0; N_min := 10;
          N_max := 12; pB := 0; robot_speed := 50 / 10;
          robot_spacing := 300 / 4; box_spacing := 50 * 1.5;
          num_backup_robots := 0 |};
     Simulator.num_boxes := 20;
     Simulator.num_robots := 4;
     Simulator.num_backup := 1;
     Simulator.failure_prob := 0;
     Simulator.verbose := false |}.

(** Parameters for which the exact quotient of the required-robot
    estimator is an integer: a window of 70 / 3 s and a time per label
    of (50 / 3) / 5 s, 7 labels. *)
Definition seven_label_params : SystemParams :=
  {| pX := 3; pZ := 50; pW := 140; num_robots := 2; N_min := 7; N_max := 7;
     pB := 0; robot_speed := 5; robot_spacing := 70; box_spacing := 75;
     num_backup_robots := 0 |}.

(** A configuration of the simulator for which the exact quotient of the
    capacity of a station is 7: one robot on a belt of 280 cm at
    6 cm/s, boxes of 7 mangos. *)
Definition seven_label_config : Simulator.SimulationConfig :=
  {| Simulator.params :=
       {| pX := 6; pZ := 50; pW := 280; num_robots := 1; N_min := 7; N_max := 7;
          pB := 0; robot_speed := 5; robot_spacing := 280; box_spacing := 75;
          num_backup_robots := 0 |};
     Simulator.num_boxes := 1;
     Simulator.num_robots := 1;
     Simulator.num_backup := 0;
     Simulator.failure_prob := 0;
     Simulator.verbose := false |}.

(** A box of two mangos as the generator leaves it, but for the
    positions, which are left at the centre. *)
Definition two_mango_box : Box :=
  {| box_id := 0; num_mangos := 2;
     mangos := replicate (Z.to_nat MAX_MANGOS_PER_BOX) zero_mango;
     position := 0; entry_time := 0; labeled_count := 0; completed := false |}.

(** The roster of 4 main robots and 1 backup once the receiver has
    installed the box of two mangos. *)
Definition live_start : State := Live.install_box two_mango_box roster_4_1.

(** A box of ten mangos as the generator leaves it, but for the
    positions. *)
Definition ten_mango_box : Box :=
  {| box_id := 1; num_mangos := 10;
     mangos := replicate (Z.to_nat MAX_MANGOS_PER_BOX) zero_mango;
     position := 0; entry_time := 0; labeled_count := 0; completed := false |}.

(** The roster of 4 main robots and no backup on the default belt, with
    the failure probability set to 1. *)
Definition certain_failure_roster : State :=
  let p := params_set_robots 4 0 (300 / 4)%R
             {| pX := 10; pZ := 50; pW := 300; num_robots := 0; N_min := 10;
                N_max := 12; pB := 1; robot_speed := 50 / 10; robot_spacing := 0;
                box_spacing := 50 * 1.5; num_backup_robots := 0 |} in
  let rs := ((λ k, new_robot k 4 (300 / 4)%R 1%R) <$> [0; 1; 2; 3])
            ++ replicate 28 zero_robot in
  {| g_robots := rs; g_current_box := zero_box; g_box_ready := false;
     g_num_robots := 4; g_params := p;
     g_shm := {| shm_robots := rs; active_robots := 4;
                 mango_lock := replicate (Z.to_nat MAX_MANGOS_PER_BOX) (-1);
                 stats := zero_stats |} |}.

(** The default configuration of the simulator with a failure
    probability of one half. *)
Definition half_failure_config : Simulator.SimulationConfig :=
  {| Simulator.params := Simulator.params default_config;
     Simulator.num_boxes := 20;
     Simulator.num_robots := 4;
     Simulator.num_backup := 1;
     Simulator.failure_prob := 0.5;
     Simulator.verbose := false |}.

(** A random source whose second draw is 0 and whose other draws are
    [RAND_MAX]. *)
Definition second_draw_rng : Rng :=
  {| rng_stream := λ n, if decide (n = 1%nat) then 0 else RAND_MAX; rng_pos := 0 |}.

(** A random source whose draws are all [k]. *)
Definition constant_rng (k : Z) : Rng := {| rng_stream := λ _, k; rng_pos := 0 |}.

(** The default configuration of the simulator with failure probability
    1 and no backup. *)
Definition certain_failure_config : Simulator.SimulationConfig :=
  {| Simulator.params := Simulator.params default_config;
     Simulator.num_boxes := 20;
     Simulator.num_robots := 4;
     Simulator.num_backup := 0;
     Simulator.failure_prob := 1;
     Simulator.verbose := false |}.

(** The default configuration of the simulator with 12 main robots: as
    many as a box has mangos, at most. *)
Definition ample_config : Simulator.SimulationConfig :=
  {| Simulator.params := Simulator.params default_config;
     Simulator.num_boxes := 20;
     Simulator.num_robots := 12;
     Simulator.num_backup := 1;
     Simulator.failure_prob := 0;
     Simulator.verbose := false |}.

(** The analysis simulation on the roster of 4 main robots and 1 backup
    before its first box: the threads wait, a box of two mangos is first
    in the queue. *)
Definition analysis_start : Analysis.World :=
  {| Analysis.g_boxes :=
       two_mango_box :: replicate (Z.to_nat MAX_BOXES_QUEUE - 1) zero_box;
     Analysis.g_current_box_idx := 0;
     Analysis.g_robots := g_robots roster_4_1;
     Analysis.g_num_robots := 5;
     Analysis.g_params := g_params roster_4_1;
     Analysis.threads :=
       replicate 5 {| Analysis.robot_spacing_of := 300 / 4;
                      Analysis.current_box := 0;
                      Analysis.max_labels := 0;
                      Analysis.labels_this_box := 0;
                      Analysis.pc := Analysis.Resting |} |}.

End Scenario.

(** ** The states a mango goes through *)

Module Lifecycle.
Import Controller.

(** The mangos [ms'] are the mangos [ms], each in the state it had or in
    the next state of the order of the specification. *)
Definition ordered_items (ms ms' : list Mango) : Prop :=
  ∀ mid m, aget ms mid = Some m →
    ∃ m', aget ms' mid = Some m' ∧
          strict_order (mango_state m) (mango_state m').

(** The same for the current box of the controller. *)
Definition ordered_change (s s' : State) : Prop :=
  ordered_items (mangos (g_current_box s)) (mangos (g_current_box s')).

(** The same for every box of the analysis simulation. *)
Definition ordered_boxes (w w' : Analysis.World) : Prop :=
  ∀ b box, aget (Analysis.g_boxes w) b = Some box →
    ∃ box', aget (Analysis.g_boxes w') b = Some box' ∧
            ordered_items (mangos box) (mangos box').

(** The mangos [ms'] are the mangos [ms], each in the state it had, or
    labeled where it was unlabeled. *)
Definition direct_items (ms ms' : list Mango) : Prop :=
  ∀ mid m, aget ms mid = Some m →
    ∃ m', aget ms' mid = Some m' ∧
          (mango_state m' = mango_state m ∨
           (mango_state m = MANGO_UNLABELED ∧ mango_state m' = MANGO_LABELED)).

End Lifecycle.

(** ** The scan for the nearest unlabeled mango *)

Module Scan.
Import Controller.

(** The distance the scan compares: from the centre of the box to the
    mango. *)
Definition reach (m : Mango) : R := distance 0 0 (mango_x m) (mango_y m).

Definition unlabeled_at (ms : list Mango) (j : Z) (m : Mango) : Prop :=
  aget ms j = Some m ∧ mango_state m = MANGO_UNLABELED.




End Scan.

(** ** src/robot_controller.c: the size of the active pool *)

Module Pool.
Import Controller.

(** The loop of [activate_robots]: [n] robots left from index [i], going
    up; [activated] counts the robots set to idle so far. *)
Fixpoint activate_loop (n : nat) (i count activated : Z) (rs : list Robot)
  : option (list Robot * Z) :=
  match n with
  | O => Some (rs, activated)
  | S n' =>
      if decide (activated < count) then
        r ← aget rs i;
        if bool_decide (robot_state r = ROBOT_STATE_DISABLED) && negb (has_failed r)
        then
          rs' ← aset rs i (robot_set_state ROBOT_STATE_IDLE r);
          activate_loop n' (i + 1) count (activated + 1) rs'
        else activate_loop n' (i + 1) count activated rs
      else Some (rs, activated)
  end.

Definition activate_robots (count : Z) (s : State) : option State :=
  res ← activate_loop (Z.to_nat (g_num_robots s)) 0 count 0 (g_robots s);
  let '(rs, activated) := (res : list Robot * Z) in
  Some (set_shm
          (shm_set_active_robots (active_robots (g_shm s) + activated) (g_shm s))
          (set_robots rs s)).

(** The loop of [deactivate_robots]: [n] robots left from index [i],
    going down; [deactivated] counts the robots disabled so far. *)
Fixpoint deactivate_loop (n : nat) (i count deactivated : Z) (rs : list Robot)
  : option (list Robot * Z) :=
  match n with
  | O => Some (rs, deactivated)
  | S n' =>
      if decide (deactivated < count) then
        r ← aget rs i;
        if bool_decide (robot_state r = ROBOT_STATE_IDLE) && negb (is_backup r)
        then
          rs' ← aset rs i (robot_set_state ROBOT_STATE_DISABLED r);
          deactivate_loop n' (i - 1) count (deactivated + 1) rs'
        else deactivate_loop n' (i - 1) count deactivated rs
      else Some (rs, deactivated)
  end.

Definition deactivate_robots (count : Z) (s : State) : option State :=
  res ← deactivate_loop (Z.to_nat (g_num_robots s)) (g_num_robots s - 1) count 0
          (g_robots s);
  let '(rs, deactivated) := (res : list Robot * Z) in
  Some (set_shm
          (shm_set_active_robots (active_robots (g_shm s) - deactivated) (g_shm s))
          (set_robots rs s)).

(** The pool is sized for a new box ([box_receiver_thread], lines 437 to
    443). *)
Definition size_robots (new_box : Box) (s : State) : option State :=
  let required := calculate_required_robots (g_params s) (num_mangos new_box) in
  if decide (required < num_robots (g_params s))
  then deactivate_robots (num_robots (g_params s) - required) s
  else activate_robots required s.

(** A box is received ([box_receiver_thread], lines 437 to 455): the pool
    is sized for it, then it becomes the current box. *)
Definition receive_box (new_box : Box) (s : State) : option State :=
  s1 ← size_robots new_box s; Some (Live.install_box new_box s1).

(** [release_mango_claim]. *)
Definition release_mango_claim (mid : Z) (s : State) : option State :=
  lk ← aset (mango_lock (g_shm s)) mid (-1);
  Some (set_shm (shm_set_mango_lock lk (g_shm s)) s).

(** The robots [activate_robots] takes: disabled and not failed. *)
Definition dormant (r : Robot) : bool :=
  bool_decide (robot_state r = ROBOT_STATE_DISABLED) && negb (has_failed r).

(** The robots [deactivate_robots] takes: idle main robots. *)
Definition main_idle (r : Robot) : bool :=
  bool_decide (robot_state r = ROBOT_STATE_IDLE) && negb (is_backup r).

(** The number of robots with the property [P] among the [n] robots from
    index [i]. *)
Fixpoint count_range (P : Robot → bool) (rs : list Robot) (i : Z) (n : nat) : Z :=
  match n with
  | O => 0
  | S n' =>
      (match aget rs i with
       | Some r => if P r then 1 else 0
       | None => 0
       end) + count_range P rs (i + 1) n'
  end.

End Pool.

(** ** Counting mangos and the receiver among the robots *)

Module Tally.
Import Controller.

(** The number of mangos of [ms] that are labeled. *)
Definition labeled_items (ms : list Mango) : Z :=
  Z.of_nat (length (filter (λ m, mango_state m = MANGO_LABELED) ms)).

(** The receiver makes [new_box] the current box while the robot threads
    stand where they are ([box_receiver_thread], lines 445 to 455, under
    [g_mango_mutex]). *)
Definition box_arrives (new_box : Box) (w : Live.World) : Live.World :=
  {| Live.globals := Live.install_box new_box (Live.globals w);
     Live.pcs := Live.pcs w |}.

(** The sum of [f] over the [n] cells of the array [l] from index [i]. *)
Fixpoint range_sum {A : Type} (f : A → Z) (l : list A) (i : Z) (n : nat) : Z :=
  match n with
  | O => 0
  | S n' => from_option f 0 (aget l i) + range_sum f l (i + 1) n'
  end.

(** The sum of a list of integers. *)
Definition total (l : list Z) : Z := foldr Z.add 0 l.

End Tally.

(** ** The lock table in the claim protocol *)

Module Owner.
Import Controller ClaimRace.

(** What the globals hold for each thread that is claiming the mango
    [mid]: after the write of the state the mango is being labeled, and
    after the write of the lock the entry of the mango names the robot of
    the thread; the thread [t] runs for the robot [rids !! t]. *)
Definition owner_inv (rids : list Z) (mid : Z) (w : World) : Prop :=
  ∀ t c, calls w !! t = Some c →
    rids !! t = Some (c_robot c) ∧
    (c_pc c = AtSetLock →
       item_state (globals w) mid = Some MANGO_BEING_LABELED) ∧
    (c_pc c = AtUnlockClaimed ∨ c_pc c = Returned 0 →
       item_state (globals w) mid = Some MANGO_BEING_LABELED ∧
       aget (mango_lock (g_shm (globals w))) mid = Some (c_robot c)).

End Owner.

(** ** binary64 rounding *)

Module DoubleFacts.

Lemma Rabs_le_bounds (a b : R) : (Rabs a <= b)%R → (- b <= a <= b)%R.
Proof. unfold Rabs. destruct (Rcase_abs a); lra. Qed.

Lemma bpow_pos (e : Z) : (0 < bpow e)%R.
Proof. apply powerRZ_lt. lra. Qed.

Lemma bpow_add (a b : Z) : bpow (a + b) = (bpow a * bpow b)%R.
Proof. apply powerRZ_add. lra. Qed.

Lemma bpow_0 : bpow 0 = 1%R.
Proof. reflexivity. Qed.

Lemma bpow_1 : bpow 1 = 2%R.
Proof. unfold bpow, powerRZ. change (Pos.to_nat 1) with 1%nat. cbn [pow]. lra. Qed.

Lemma bpow_m1 : bpow (-1) = (/ 2)%R.
Proof.
  unfold bpow, powerRZ. change (Pos.to_nat 1) with 1%nat. cbn [pow].
  by rewrite Rmult_1_r.
Qed.

Lemma bpow_opp (a : Z) : bpow (- a) = (/ bpow a)%R.
Proof.
  apply (Rmult_eq_reg_r (bpow a)); [|pose proof (bpow_pos a); lra].
  rewrite <- bpow_add, Rinv_l by (pose proof (bpow_pos a); lra).
  by replace (- a + a) with 0 by lia.
Qed.

Lemma bpow_nat (n : nat) : bpow (Z.of_nat n) = (2 ^ n)%R.
Proof. unfold bpow. by rewrite <- pow_powerRZ. Qed.

Lemma bpow_ge_1 (k : Z) : 0 ≤ k → (1 <= bpow k)%R.
Proof.
  intros Hk. rewrite <- (Z2Nat.id k) by done. rewrite bpow_nat.
  apply pow_R1_Rle. lra.
Qed.

Lemma bpow_gt_1 (k : Z) : 0 < k → (1 < bpow k)%R.
Proof.
  intros Hk. rewrite <- (Z2Nat.id k) by lia. rewrite bpow_nat.
  apply Rlt_pow_R1; [lra|lia].
Qed.

Lemma bpow_le (a b : Z) : a ≤ b → (bpow a <= bpow b)%R.
Proof.
  intros H. replace b with (a + (b - a)) by lia. rewrite bpow_add.
  pose proof (bpow_pos a). pose proof (bpow_ge_1 (b - a) ltac:(lia)). nra.
Qed.

Lemma bpow_lt (a b : Z) : a < b → (bpow a < bpow b)%R.
Proof.
  intros H. replace b with (a + (b - a)) by lia. rewrite bpow_add.
  pose proof (bpow_pos a). pose proof (bpow_gt_1 (b - a) ltac:(lia)). nra.
Qed.

Lemma bpow_lt_inv (a b : Z) : (bpow a < bpow b)%R → a < b.
Proof.
  intros H. destruct (decide (a < b)); [done|].
  pose proof (bpow_le b a ltac:(lia)). lra.
Qed.

Lemma bpow_IZR (k : Z) : 0 ≤ k → bpow k = IZR (2 ^ k).
Proof.
  intros Hk. rewrite <- (Z2Nat.id k) at 1 by done. rewrite bpow_nat.
  rewrite <- (Z2Nat.id k) at 2 by done. by rewrite <- pow_IZR.
Qed.

Lemma ln_bpow (k : Z) : ln (bpow k) = (IZR k * ln 2)%R.
Proof. unfold bpow. rewrite powerRZ_Rpower by lra. unfold Rpower. apply ln_exp. Qed.

Lemma ln_2_pos : (0 < ln 2)%R.
Proof. pose proof ln_lt_2. lra. Qed.

Lemma Int_part_eq (r : R) (z : Z) : (IZR z <= r < IZR z + 1)%R → Int_part r = z.
Proof. intros H. symmetry. apply Int_part_spec. lra. Qed.

Lemma mag_unique (x : R) (e : Z) :
  (bpow (e - 1) <= Rabs x < bpow e)%R → mag x = e.
Proof.
  intros [Hlo Hhi]. unfold mag.
  pose proof (bpow_pos (e - 1)) as Hp. pose proof ln_2_pos as H2.
  assert (0 < Rabs x)%R as Hx by lra.
  assert (IZR (e - 1) * ln 2 <= ln (Rabs x))%R as H1.
  { rewrite <- ln_bpow. destruct Hlo as [Hlo|Hlo].
    - left. by apply ln_increasing.
    - right. by rewrite Hlo. }
  assert (ln (Rabs x) < IZR e * ln 2)%R as H3.
  { rewrite <- ln_bpow. by apply ln_increasing. }
  rewrite (Int_part_eq _ (e - 1)); [lia|].
  rewrite minus_IZR in *. split.
  - apply (Rmult_le_reg_r (ln 2)); [done|]. unfold Rdiv.
    rewrite Rmult_assoc, Rinv_l by lra. lra.
  - apply (Rmult_lt_reg_r (ln 2)); [done|]. unfold Rdiv.
    rewrite Rmult_assoc, Rinv_l by lra. lra.
Qed.

Lemma mag_spec (x : R) : x ≠ 0%R → (bpow (mag x - 1) <= Rabs x < bpow (mag x))%R.
Proof.
  intros Hx. unfold mag. pose proof ln_2_pos as H2.
  assert (0 < Rabs x)%R as Hpos by (by apply Rabs_pos_lt).
  set (l := (ln (Rabs x) / ln 2)%R).
  destruct (base_Int_part l) as [Hlo Hhi].
  replace (Int_part l + 1 - 1) with (Int_part l) by lia.
  assert (ln (Rabs x) = l * ln 2)%R as Hl by (unfold l; field; lra).
  split.
  - destruct (Rle_lt_dec (bpow (Int_part l)) (Rabs x)) as [|Hc]; [done|exfalso].
    apply ln_increasing in Hc; [|done]. rewrite ln_bpow, Hl in Hc. nra.
  - destruct (Rlt_le_dec (Rabs x) (bpow (Int_part l + 1))) as [|Hc]; [done|exfalso].
    assert (ln (bpow (Int_part l + 1)) <= ln (Rabs x))%R as Hc'.
    { destruct Hc as [Hc|Hc]; [left; apply ln_increasing; [apply bpow_pos|done]|].
      right. by rewrite Hc. }
    rewrite ln_bpow, Hl, plus_IZR in Hc'. nra.
Qed.

Lemma rne_spec (y : R) : (Rabs (IZR (rne y) - y) <= 1 / 2)%R.
Proof.
  unfold rne. destruct (base_Int_part y) as [Hlo Hhi]. cbn zeta.
  repeat case_decide; try destruct (Z.even _); rewrite ?plus_IZR;
    apply Rabs_le; lra.
Qed.

Lemma rne_unique (y : R) (m : Z) : (Rabs (y - IZR m) < 1 / 2)%R → rne y = m.
Proof.
  intros H. apply Rabs_def2 in H as [H1 H2]. unfold rne. cbn zeta.
  destruct (Rle_lt_dec (IZR m) y) as [Hge|Hlt].
  - rewrite (Int_part_eq y m) by lra. rewrite decide_True by lra. done.
  - rewrite (Int_part_eq y (m - 1)) by (rewrite minus_IZR; lra).
    rewrite minus_IZR. rewrite decide_False by lra. rewrite decide_True by lra. lia.
Qed.

Lemma rne_IZR (m : Z) : rne (IZR m) = m.
Proof. apply rne_unique. rewrite Rminus_diag, Rabs_R0. lra. Qed.

(** The value of [round64] at a number whose binade and nearest
    multiple of the unit in the last place are known. *)
Lemma round64_eq (x : R) (e m : Z) :
  (bpow (e - 1) <= Rabs x < bpow e)%R →
  let c := Z.max (e - 53) (-1074) in
  (Rabs (x * bpow (- c) - IZR m) < 1 / 2)%R →
  round64 x = (IZR m * bpow c)%R.
Proof.
  intros Hbin c Hm. unfold round64.
  assert (x ≠ 0%R) as Hx.
  { intros ->. rewrite Rabs_R0 in Hbin. pose proof (bpow_pos (e - 1)). lra. }
  rewrite decide_False by done. cbn zeta.
  rewrite (mag_unique x e Hbin). fold c. by rewrite (rne_unique _ m Hm).
Qed.

Lemma IZR_bpow_int (m k : Z) : 0 ≤ k → (IZR m * bpow k)%R = IZR (m * 2 ^ k).
Proof. intros Hk. by rewrite bpow_IZR, mult_IZR. Qed.

Lemma Rabs_IZR_bpow (m k : Z) : Rabs (IZR m * bpow k) = (IZR (Z.abs m) * bpow k)%R.
Proof.
  rewrite Rabs_mult, (Rabs_pos_eq (bpow k)) by (left; apply bpow_pos).
  by rewrite abs_IZR.
Qed.

Lemma round64_representable_eq (x : R) : representable x → round64 x = x.
Proof.
  intros (m & k & Hm & Hk & ->). unfold round64. case_decide as Hz; [done|].
  cbn zeta. set (x := (IZR m * bpow k)%R) in *.
  destruct (mag_spec x Hz) as [Hlo Hhi].
  set (c := Z.max (mag x - 53) (-1074)).
  assert (m ≠ 0) as Hm0.
  { intros ->. apply Hz. unfold x. lra. }
  (* |x| ≤ 2^53 * 2^k, so mag x ≤ k + 54, with equality only for |m| = 2^53 *)
  assert (Rabs x <= bpow (53 + k))%R as Hle.
  { unfold x. rewrite Rabs_IZR_bpow, bpow_add, (bpow_IZR 53) by lia.
    apply Rmult_le_compat_r; [left; apply bpow_pos|]. by apply IZR_le. }
  assert (mag x - 1 < 53 + k + 1) as Hmag.
  { apply bpow_lt_inv. pose proof (bpow_lt (53 + k) (53 + k + 1) ltac:(lia)). lra. }
  destruct (decide (c ≤ k)) as [Hck|Hck].
  - (* the unit in the last place divides x *)
    assert ((x * bpow (- c))%R = IZR (m * 2 ^ (k - c))) as ->.
    { unfold x. rewrite Rmult_assoc, <- bpow_add.
      replace (k + - c) with (k - c) by lia. apply IZR_bpow_int. lia. }
    rewrite rne_IZR, mult_IZR, <- bpow_IZR by lia.
    unfold x. rewrite Rmult_assoc, <- bpow_add. do 2 f_equal. lia.
  - (* |m| = 2^53 and mag x = k + 54 *)
    assert (mag x = k + 54) as Hmx by (unfold c in *; lia).
    assert (Z.abs m = 2 ^ 53) as Hfull.
    { destruct (decide (Z.abs m = 2 ^ 53)); [done|exfalso].
      assert (Z.abs m ≤ 2 ^ 53 - 1) as Hlt by lia.
      apply IZR_le in Hlt. rewrite Hmx in Hlo.
      unfold x in Hlo. rewrite Rabs_IZR_bpow in Hlo.
      replace (k + 54 - 1) with (53 + k) in Hlo by lia.
      rewrite bpow_add, (bpow_IZR 53) in Hlo by lia.
      pose proof (bpow_pos k). rewrite minus_IZR in Hlt.
      nra. }
    assert (c = k + 1) as Hc by (unfold c; lia).
    assert (∃ h, m = 2 * h) as [h ->].
    { change (2 ^ 53) with 9007199254740992 in Hfull.
      destruct (Z.abs_spec m) as [[_ Habs]|[_ Habs]];
        [exists 4503599627370496|exists (-4503599627370496)]; lia. }
    assert ((x * bpow (- c))%R = IZR h) as ->.
    { unfold x. rewrite Hc, Rmult_assoc, <- bpow_add.
      replace (k + - (k + 1)) with (-1) by lia. rewrite mult_IZR.
      rewrite bpow_m1. field. }
    rewrite rne_IZR. unfold x. rewrite Hc, bpow_add, bpow_1, mult_IZR. ring.
Qed.

Lemma round64_is_representable (x : R) : representable (round64 x).
Proof.
  unfold round64. case_decide as Hz.
  { exists 0, 0. split_and!; try lia. lra. }
  cbn zeta. set (c := Z.max (mag x - 53) (-1074)).
  exists (rne (x * bpow (- c))), c. split_and!; [|lia|done].
  destruct (mag_spec x Hz) as [_ Hhi].
  set (y := (x * bpow (- c))%R).
  assert (Rabs y < bpow 53)%R as Hy.
  { unfold y. rewrite Rabs_mult, (Rabs_pos_eq (bpow (- c))) by (left; apply bpow_pos).
    pose proof (bpow_pos (- c)).
    apply (Rlt_le_trans _ (bpow (mag x) * bpow (- c))); [nra|].
    rewrite <- bpow_add. apply bpow_le. lia. }
  pose proof (rne_spec y) as Hr. rewrite (bpow_IZR 53) in Hy by lia.
  assert (Rabs (IZR (rne y)) < IZR (2 ^ 53) + 1)%R as Hb.
  { apply Rabs_def2 in Hy. apply Rabs_le_bounds in Hr. apply Rabs_def1; lra. }
  rewrite <- abs_IZR, <- plus_IZR in Hb. apply lt_IZR in Hb. lia.
Qed.

Lemma round64_idem (x : R) : round64 (round64 x) = round64 x.
Proof. apply round64_representable_eq, round64_is_representable. Qed.

Lemma round64_IZR (n : Z) : Z.abs n ≤ 2 ^ 53 → round64 (IZR n) = IZR n.
Proof.
  intros Hn. apply round64_representable_eq. exists n, 0.
  split_and!; [done|lia|]. rewrite bpow_0. lra.
Qed.

(** In the range of the normal numbers the relative error of a rounding
    is at most [2^-53]. *)
Lemma round64_error (x : R) :
  (bpow (-1022) <= Rabs x)%R →
  (Rabs (round64 x - x) <= bpow (-53) * Rabs x)%R.
Proof.
  intros Hn. pose proof (bpow_pos (-1022)) as Hp.
  assert (x ≠ 0%R) as Hz by (intros ->; rewrite Rabs_R0 in Hn; lra).
  unfold round64. rewrite decide_False by done. cbn zeta.
  destruct (mag_spec x Hz) as [Hlo Hhi].
  assert (-1022 < mag x) as Hmag by (apply bpow_lt_inv; lra).
  rewrite Z.max_l by lia. set (c := mag x - 53).
  set (y := (x * bpow (- c))%R). pose proof (rne_spec y) as Hr.
  assert (x = y * bpow c)%R as Hx.
  { unfold y. rewrite Rmult_assoc, <- bpow_add.
    replace (- c + c) with 0 by lia. rewrite bpow_0. lra. }
  clearbody y.
  replace (IZR (rne y) * bpow c - x)%R with ((IZR (rne y) - y) * bpow c)%R
    by (rewrite Hx; ring).
  rewrite Rabs_mult, (Rabs_pos_eq (bpow c)) by (left; apply bpow_pos).
  pose proof (bpow_pos c) as Hc.
  apply (Rle_trans _ (1 / 2 * bpow c)); [nra|].
  apply (Rle_trans _ (bpow (-53) * bpow (mag x - 1))).
  - rewrite <- bpow_add. replace (-53 + (mag x - 1)) with (-1 + c) by (unfold c; lia).
    rewrite bpow_add, bpow_m1. lra.
  - pose proof (bpow_pos (-53)). nra.
Qed.

Lemma bpow_Zpos (p : positive) : bpow (Z.pos p) = IZR (2 ^ Z.pos p).
Proof. apply bpow_IZR. lia. Qed.

Lemma bpow_Zneg (p : positive) : bpow (Z.neg p) = (/ IZR (2 ^ Z.pos p))%R.
Proof. change (Z.neg p) with (- Z.pos p). rewrite bpow_opp. f_equal. apply bpow_IZR. lia. Qed.

Ltac bpow_lit :=
  repeat match goal with
  | |- context [bpow (- Z.pos ?p)] => change (- Z.pos p) with (Z.neg p)
  | |- context [bpow (Z.pos ?p)] =>
      rewrite (bpow_Zpos p);
      let v := eval vm_compute in (2 ^ Z.pos p) in change (2 ^ Z.pos p) with v
  | |- context [bpow (Z.neg ?p)] =>
      rewrite (bpow_Zneg p);
      let v := eval vm_compute in (2 ^ Z.pos p) in change (2 ^ Z.pos p) with v
  | |- context [bpow 0] => rewrite bpow_0
  end.

Lemma round64_pos (x : R) (e m c : Z) :
  c = Z.max (e - 53) (-1074) →
  (bpow (e - 1) <= x < bpow e)%R →
  (- (1 / 2) < x * bpow (- c) - IZR m < 1 / 2)%R →
  round64 x = (IZR m * bpow c)%R.
Proof.
  intros -> Hbin Hm. pose proof (bpow_pos (e - 1)).
  apply (round64_eq x e m).
  - rewrite Rabs_pos_eq by lra. done.
  - apply Rabs_def1; lra.
Qed.

Ltac round64_at e m :=
  match goal with
  | |- context [round64 ?x] =>
      let c := eval vm_compute in (Z.max (e - 53) (-1074)) in
      let e1 := eval vm_compute in (e - 1) in
      let nc := eval vm_compute in (- c) in
      rewrite (round64_pos x e m c eq_refl);
      [ | change (e - 1) with e1; bpow_lit; lra
        | change (- c) with nc; bpow_lit; lra ]
  end.

Lemma round64_exact (x : R) (m k : Z) :
  Z.abs m ≤ 2 ^ 53 → -1074 ≤ k → x = (IZR m * bpow k)%R → round64 x = x.
Proof. intros. apply round64_representable_eq. by exists m, k. Qed.

Lemma round64_value (x : R) (m k : Z) :
  Z.abs m ≤ 2 ^ 53 → -1074 ≤ k → x = (IZR m * bpow k)%R →
  round64 x = (IZR m * bpow k)%R.
Proof. intros Hm Hk Hx. rewrite <- Hx. by apply (round64_exact x m k). Qed.

(** *** Doubles that are numbers

    A number between [2^-k] and [2^k] with [k] at most 1000 rounds to a
    double that is a number and not zero, and the operations on such
    doubles are the rounded operations on numbers. *)

Lemma round64_near (x : R) :
  (bpow (-1022) <= x)%R → (x / 2 <= round64 x <= 2 * x)%R.
Proof.
  intros Hx. pose proof (bpow_pos (-1022)) as Hp.
  pose proof (round64_error x) as He. rewrite Rabs_pos_eq in He by lra.
  specialize (He Hx). apply Rabs_le_bounds in He.
  assert (bpow (-53) <= / 2)%R by (bpow_lit; lra).
  pose proof (bpow_pos (-53)). nra.
Qed.

Lemma in_binades_near (k : Z) (x : R) :
  0 ≤ k ≤ 1000 → in_binades k x →
  (0 < round64 x)%R ∧ (Rabs (round64 x) < bpow 1024)%R.
Proof.
  intros Hk [Hlo Hhi]. pose proof (bpow_pos (- k)) as Hp.
  assert (bpow (-1022) <= x)%R as Hn.
  { apply (Rle_trans _ (bpow (- k))); [apply bpow_le; lia|done]. }
  destruct (round64_near x Hn) as [H1 H2]. split; [lra|].
  rewrite Rabs_pos_eq by lra.
  apply (Rle_lt_trans _ (2 * bpow k)); [lra|].
  rewrite <- bpow_1, <- bpow_add. apply bpow_lt. lia.
Qed.

Lemma dbl_number (k : Z) (x : R) :
  0 ≤ k ≤ 1000 → in_binades k x → dbl x = Fin (round64 x).
Proof.
  intros Hk Hx. destruct (in_binades_near k x Hk Hx) as [_ Hfit].
  unfold dbl. cbn zeta. rewrite decide_False; [done|lra].
Qed.

Lemma ddiv_number (ka kb : Z) (a b : R) :
  0 ≤ ka ≤ 1000 → 0 ≤ kb ≤ 1000 → in_binades ka a → in_binades kb b →
  ddiv (dbl a) (dbl b) = dbl (fdiv a b).
Proof.
  intros Hka Hkb Ha Hb. rewrite (dbl_number ka a), (dbl_number kb b) by done.
  destruct (in_binades_near kb b Hkb Hb) as [Hpos _].
  cbn [ddiv]. rewrite decide_False by lra.
  unfold dbl, fdiv. cbn zeta. by rewrite round64_idem.
Qed.

Lemma dmul_number (ka kb : Z) (a b : R) :
  0 ≤ ka ≤ 1000 → 0 ≤ kb ≤ 1000 → in_binades ka a → in_binades kb b →
  dmul (dbl a) (dbl b) = dbl (fmul a b).
Proof.
  intros Hka Hkb Ha Hb. rewrite (dbl_number ka a), (dbl_number kb b) by done.
  cbn [dmul]. unfold dbl, fmul. cbn zeta. by rewrite round64_idem.
Qed.

(** The cast of an infinity is the cast of a number beyond the format. *)
Lemma to_int_dbl (x : R) : to_int (dbl x) = trunc_int (round64 x).
Proof.
  unfold dbl. cbn zeta. case_decide as Hbig; [|done]. cbn [to_int].
  assert (IZR (2 ^ 32) <= bpow 1024)%R as H32.
  { rewrite <- bpow_IZR by lia. apply bpow_le. lia. }
  unfold trunc_int. cbn zeta. set (y := round64 x) in *.
  destruct (decide (0 <= y)%R) as [Hpos|Hneg].
  - rewrite Rabs_pos_eq in Hbig by done.
    destruct (base_Int_part y) as [_ Hb].
    assert (IZR (2 ^ 32 - 1) < IZR (Int_part y))%R as Hlt
      by (rewrite minus_IZR; lra).
    apply lt_IZR in Hlt. rewrite decide_False; [done|].
    unfold INT_MAX. change (2 ^ 32) with 4294967296 in Hlt. lia.
  - rewrite Rabs_left in Hbig by lra.
    destruct (base_Int_part (- y)) as [_ Hb].
    assert (IZR (2 ^ 32 - 1) < IZR (Int_part (- y)))%R as Hlt
      by (rewrite minus_IZR; lra).
    apply lt_IZR in Hlt. rewrite decide_False; [done|].
    unfold INT_MIN. change (2 ^ 32) with 4294967296 in Hlt. lia.
Qed.

End DoubleFacts.
(** * Properties *)

(** ** Arrays and lists *)

Module ArrayFacts.

Lemma aget_Some {A} (a : list A) i v :
  aget a i = Some v ↔ 0 ≤ i ∧ a !! Z.to_nat i = Some v.
Proof. unfold aget. destruct (decide (0 ≤ i)); naive_solver. Qed.

Lemma aget_lt {A} (a : list A) i v :
  aget a i = Some v → 0 ≤ i < Z.of_nat (length a).
Proof.
  intros [? H]%aget_Some. apply lookup_lt_Some in H. lia.
Qed.

Lemma aget_is_Some {A} (a : list A) i :
  0 ≤ i < Z.of_nat (length a) → is_Some (aget a i).
Proof.
  intros. unfold aget. rewrite decide_True by lia.
  apply lookup_lt_is_Some. lia.
Qed.

Lemma aset_Some {A} (a : list A) i v :
  0 ≤ i < Z.of_nat (length a) → aset a i v = Some (<[Z.to_nat i := v]> a).
Proof. intros. unfold aset. by rewrite decide_True. Qed.

Lemma aget_insert_eq {A} (a : list A) i v :
  0 ≤ i < Z.of_nat (length a) → aget (<[Z.to_nat i := v]> a) i = Some v.
Proof.
  intros. unfold aget. rewrite decide_True by lia.
  apply list_lookup_insert_eq. lia.
Qed.

Lemma filter_none {A} (P : A → Prop) `{!∀ x, Decision (P x)} (l : list A) :
  (∀ i y, l !! i = Some y → ¬ P y) → filter P l = [].
Proof.
  induction l as [|a l IH]; intros Hn; [done|].
  rewrite filter_cons_False by exact (Hn 0%nat a eq_refl).
  apply IH. intros i y Hy. exact (Hn (S i) y Hy).
Qed.

Lemma filter_unique {A} (P : A → Prop) `{!∀ x, Decision (P x)} (l : list A) t x :
  l !! t = Some x → P x →
  (∀ t' y, l !! t' = Some y → P y → t' = t) →
  length (filter P l) = 1%nat.
Proof.
  revert t. induction l as [|a l IH]; intros t Hl HP Hu; [done|].
  destruct t as [|t]; simpl in Hl.
  - injection Hl as ->. rewrite filter_cons_True by done. simpl. f_equal.
    assert (filter P l = []) as ->; [|done].
    apply filter_none. intros i y Hy HPy.
    by specialize (Hu (S i) y Hy HPy).
  - rewrite filter_cons_False.
    + apply (IH t); [done..|]. intros t' y Hy HPy.
      specialize (Hu (S t') y Hy HPy). lia.
    + intros Ha. by specialize (Hu 0%nat a eq_refl Ha).
Qed.

Lemma aget_insert_ne {A} (a : list A) i j v :
  0 ≤ i → i ≠ j → aget (<[Z.to_nat i := v]> a) j = aget a j.
Proof.
  intros Hi Hne. unfold aget. case_decide; [|done].
  apply list_lookup_insert_ne. lia.
Qed.

End ArrayFacts.

(** ** The claim operation *)

Module ControllerFacts.
Import Controller ArrayFacts.

Lemma try_claim_mango_cases (s : State) (rid mid : Z) :
  arrays_ok s →
  ∃ ret s',
    try_claim_mango rid mid s = Some (ret, s') ∧
    (ret = 0 ↔ item_state s mid = Some MANGO_UNLABELED) ∧
    (ret = 0 → ∃ m,
        aget (mangos (g_current_box s)) mid = Some m ∧
        s' = set_shm (shm_set_mango_lock (<[Z.to_nat mid := rid]> (mango_lock (g_shm s))) (g_shm s))
               (set_current_box
                  (box_set_mangos
                     (<[Z.to_nat mid := mango_set_state MANGO_BEING_LABELED m]> (mangos (g_current_box s)))
                     (g_current_box s)) s)) ∧
    (ret ≠ 0 → ret = -1 ∧ s' = s).
Proof.
  intros (Hm & Hl & _ & _). unfold try_claim_mango, item_state.
  case_decide as Hr.
  - eexists _, _. split; [done|]. split_and!; [|done|done].
    split; [done|]. intros H. exfalso.
    destruct (aget _ mid) eqn:E; [|done]. apply aget_lt in E. 
    rewrite Hm in E. unfold MAX_MANGOS_PER_BOX in *. lia.
  - destruct (aget_is_Some (mangos (g_current_box s)) mid) as [m Hget].
    { rewrite Hm. unfold MAX_MANGOS_PER_BOX in *. lia. }
    rewrite Hget. simpl. case_decide as Hst.
    + eexists _, _. split; [done|]. split_and!; [|done|done].
      split; [done|]. intros [=]. done.
    + unfold claim_writes. rewrite Hget. simpl.
      rewrite !aset_Some by (rewrite ?Hm, ?Hl; unfold MAX_MANGOS_PER_BOX in *; lia).
      simpl. eexists _, _. split; [done|]. split_and!; [| |done].
      * split; [|done]. intros _. by rewrite Hst.
      * intros _. eexists. split; done.
Qed.


Lemma arrays_ok_initial : arrays_ok initial_state.
Proof. repeat split. Qed.


End ControllerFacts.

(** ** The claim protocol under its mutex *)

Module ClaimRaceFacts.
Import Controller ClaimRace ArrayFacts.

Lemma start_lookup rids mid s t c :
  calls (start rids mid s) !! t = Some c → c_mango c = mid ∧ c_pc c = AtEntry.
Proof. intros [r [-> _]]%list_lookup_fmap_Some. done. Qed.

Lemma Inv_start rids mid s :
  arrays_ok s → item_state s mid = Some MANGO_UNLABELED → Inv mid (start rids mid s).
Proof.
  intros (Hm & Hl & _) Hst.
  assert (0 ≤ mid < MAX_MANGOS_PER_BOX).
  { unfold item_state in Hst. destruct (aget _ mid) eqn:E; [|done].
    apply aget_lt in E. rewrite Hm in E. unfold MAX_MANGOS_PER_BOX in *. lia. }
  split; try done; try (by left); intros;
    repeat match goal with
    | H : calls (start _ _ _) !! _ = Some _ |- _ => apply start_lookup in H as [? ?]
    end; unfold holds, wrote, lost, saw_unlabeled in *; try naive_solver congruence.
Qed.

Lemma lookup_goto t c pc w t' :
  calls w !! t = Some c →
  calls (goto t c pc w) !! t' =
    if decide (t = t') then Some {| c_robot := c_robot c; c_mango := c_mango c; c_pc := pc |}
    else calls w !! t'.
Proof.
  intros Hc. unfold goto; simpl. case_decide as E.
  - subst. apply list_lookup_insert_eq. by eapply lookup_lt_Some.
  - by apply list_lookup_insert_ne.
Qed.

Ltac pcs := unfold holds, wrote, lost, saw_unlabeled in *.


Lemma item_state_set_lock l s mid :
  item_state (set_shm (shm_set_mango_lock l (g_shm s)) s) mid = item_state s mid.
Proof. done. Qed.


Lemma item_state_claimed s mid m :
  aget (mangos (g_current_box s)) mid = Some m →
  item_state
    (set_current_box
       (box_set_mangos (<[Z.to_nat mid := mango_set_state MANGO_BEING_LABELED m]> (mangos (g_current_box s)))
          (g_current_box s)) s) mid = Some MANGO_BEING_LABELED.
Proof.
  intros H. unfold item_state. simpl. rewrite aget_insert_eq; [done|].
  by eapply aget_lt.
Qed.

Ltac inv_lookup Hc :=
  repeat match goal with
  | H : calls (goto _ _ _ _) !! _ = Some _ |- _ =>
      rewrite (lookup_goto _ _ _ _ _ Hc) in H; simpl in H;
      case_decide; simplify_eq
  end.

(* facts of the invariant about every call in the context *)
Ltac inv_facts I :=
  repeat match goal with
  | H : calls ?w !! ?t = Some ?c |- _ =>
      lazymatch goal with
      | _ : known t c |- _ => fail
      | _ => idtac
      end;
      assert (known t c) by exact Logic.I;
      pose proof (inv_mango _ _ I _ _ H);
      pose proof (inv_holder _ _ I _ _ H);
      pose proof (inv_seen _ _ I _ _ H);
      pose proof (inv_taken _ _ I _ _ H);
      pose proof (λ r, inv_ret _ _ I _ _ r H)
  end.



Lemma mutex_goto t c pc w : mutex (goto t c pc w) = mutex w.
Proof. done. Qed.
Lemma globals_goto t c pc w : globals (goto t c pc w) = globals w.
Proof. done. Qed.
Lemma calls_set_mutex o w : calls (set_mutex o w) = calls w.
Proof. done. Qed.
Lemma calls_set_globals s w : calls (set_globals s w) = calls w.
Proof. done. Qed.
Lemma mutex_set_mutex o w : mutex (set_mutex o w) = o.
Proof. done. Qed.
Lemma mutex_set_globals s w : mutex (set_globals s w) = mutex w.
Proof. done. Qed.
Lemma globals_set_mutex o w : globals (set_mutex o w) = globals w.
Proof. done. Qed.
Lemma globals_set_globals s w : globals (set_globals s w) = s.
Proof. done. Qed.

Lemma lookup_goto' t c pc w t' :
  calls w !! t = Some c →
  calls (goto t c pc w) !! t' =
    if decide (t = t') then Some {| c_robot := c_robot c; c_mango := c_mango c; c_pc := pc |}
    else calls w !! t'.
Proof. apply lookup_goto. Qed.

Ltac proj_world :=
  rewrite ?mutex_goto, ?globals_goto, ?mutex_set_mutex, ?mutex_set_globals,
    ?globals_set_mutex, ?globals_set_globals in *.

Ltac inv_lookup' w Hc :=
  repeat match goal with
  | H : calls (goto ?t ?c ?pc ?w0) !! _ = Some _ |- _ =>
      rewrite (lookup_goto' t c pc w0 _ Hc) in H;
      case_decide; simplify_eq
  end.


Ltac pcs' := unfold holds, wrote, lost, saw_unlabeled in *; cbn [c_pc c_mango c_robot] in *.


Lemma goto_self t c pc w :
  calls w !! t = Some c →
  calls (goto t c pc w) !! t = Some {| c_robot := c_robot c; c_mango := c_mango c; c_pc := pc |}.
Proof. intros Hc. rewrite (lookup_goto' _ _ _ _ _ Hc). by rewrite decide_True. Qed.

Lemma keep_mutex mid w w0 t c pc' :
  Inv mid w → calls w0 = calls w → calls w !! t = Some c →
  (holds (c_pc c) → holds pc') →
  ∀ t0, mutex w = Some t0 →
    ∃ c0, calls (goto t c pc' w0) !! t0 = Some c0 ∧ holds (c_pc c0).
Proof.
  intros I Hw Hc Hh t0 Hm. destruct (inv_mutex _ _ I t0 Hm) as (c0 & Hc0 & Hh0).
  rewrite <- Hw in Hc, Hc0.
  rewrite (lookup_goto' _ _ _ _ _ Hc). case_decide; simplify_eq; eauto.
Qed.

Lemma keep_winner mid w w0 t c pc' :
  Inv mid w → calls w0 = calls w → calls w !! t = Some c →
  (wrote (c_pc c) → wrote pc') →
  item_state (globals w) mid = Some MANGO_UNLABELED ∨
  ∃ t0 c0, calls (goto t c pc' w0) !! t0 = Some c0 ∧ wrote (c_pc c0).
Proof.
  intros I Hw Hc Hh. destruct (inv_winner _ _ I) as [?|(t0 & c0 & Hc0 & Hw0)]; [by left|].
  right. exists t0. rewrite <- Hw in Hc, Hc0. rewrite (lookup_goto' _ _ _ _ _ Hc).
  case_decide; simplify_eq; eauto.
Qed.

Ltac inv_start I w Hc :=
  split; intros; proj_world; try apply I; inv_lookup' w Hc; inv_facts I; pcs'.

Ltac fin I := 
  try (intuition congruence);
  try (by eauto);
  try (eapply (inv_unique _ _ I); [eassumption..| |]; pcs'; intuition congruence);
  try (eapply keep_mutex; [exact I|done|eassumption| |eassumption]; pcs'; intuition congruence);
  try (eapply keep_winner; [exact I|done|eassumption|]; pcs'; intuition congruence).

Lemma Inv_step mid w w' : Inv mid w → step w w' → Inv mid w'.
Proof.
  intros I [t Hstep]. unfold thread_step in Hstep.
  destruct (calls w !! t) as [c|] eqn:Hc; [simpl in Hstep|done].
  pose proof (inv_mango _ _ I t c Hc) as Hmid.
  pose proof (inv_range _ _ I) as Hrange.
  pose proof (inv_len_mangos _ _ I) as Hlm.
  pose proof (inv_len_lock _ _ I) as Hll.
  destruct (c_pc c) eqn:Hpc.
  - (* AtEntry *)
    assert (w' = goto t c AtLock w) as ->.
    { case_decide; [lia | congruence]. }
    clear Hstep.
    inv_start I w Hc; fin I.
  - (* AtLock *)
    destruct (mutex w) as [t0|] eqn:Hmx; [done|]. injection Hstep as <-.
    inv_start I w Hc; fin I.
    simplify_eq. eexists. split; [by apply goto_self|]. pcs'. auto.
  - (* AtTest *)
    destruct (aget_is_Some (mangos (g_current_box (globals w))) (c_mango c)) as [m Hm].
    { rewrite Hlm. unfold MAX_MANGOS_PER_BOX in *. lia. }
    rewrite Hm in Hstep. simpl in Hstep.
    assert (item_state (globals w) mid = Some (mango_state m)) as Hit.
    { unfold item_state. by rewrite <- Hmid, Hm. }
    case_decide as Hst; injection Hstep as <-.
    + inv_start I w Hc; fin I.
    + inv_start I w Hc; fin I.
  - (* AtUnlockTaken *)
    injection Hstep as <-.
    inv_start I w Hc; fin I.
  - (* AtSetState *)
    destruct (aget_is_Some (mangos (g_current_box (globals w))) (c_mango c)) as [m Hm].
    { rewrite Hlm. unfold MAX_MANGOS_PER_BOX in *. lia. }
    rewrite Hm in Hstep. simpl in Hstep.
    rewrite aset_Some in Hstep by (rewrite Hlm; unfold MAX_MANGOS_PER_BOX in *; lia).
    simpl in Hstep. injection Hstep as <-.
    pose proof (item_state_claimed _ _ _ Hm) as Hnew. rewrite Hmid in Hnew.
    inv_start I w Hc; rewrite ?Hnew; fin I.
    + cbn. by rewrite length_insert.
    + right. eexists t, _. split; [by apply goto_self|]. pcs'. auto.
  - (* AtSetLock *)
    rewrite aset_Some in Hstep by (rewrite Hll; unfold MAX_MANGOS_PER_BOX in *; lia).
    simpl in Hstep. injection Hstep as <-.
    inv_start I w Hc; rewrite ?item_state_set_lock; fin I.
    cbn. by rewrite length_insert.
  - (* AtUnlockClaimed *)
    injection Hstep as <-.
    inv_start I w Hc; fin I.
  - done.
Qed.


Lemma Inv_reachable rids mid s w :
  arrays_ok s → item_state s mid = Some MANGO_UNLABELED →
  rtc step (start rids mid s) w → Inv mid w.
Proof.
  intros Ha Hs Hr.
  eapply (rtc_ind_r (λ w, Inv mid w) (start rids mid s)); [by apply Inv_start| |done].
  intros y z _ Hyz IH. by eapply Inv_step.
Qed.

Lemma step_length w w' : step w w' → length (calls w') = length (calls w).
Proof.
  intros [t Hstep]. unfold thread_step in Hstep.
  destruct (calls w !! t) as [c|] eqn:Hc; [simpl in Hstep|done].
  destruct (c_pc c); repeat (case_match || simplify_option_eq); simplify_eq;
    unfold goto; cbn; by rewrite length_insert.
Qed.

Lemma reachable_length w0 w : rtc step w0 w → length (calls w) = length (calls w0).
Proof.
  intros Hr.
  eapply (rtc_ind_r (λ w, length (calls w) = length (calls w0)) w0); [done| |done].
  intros y z _ Hyz IH. by rewrite (step_length _ _ Hyz).
Qed.

Lemma sum_list_insert {A} (f : A → nat) (l : list A) t x y :
  l !! t = Some x →
  (sum_list (f <$> <[t := y]> l) + f x = sum_list (f <$> l) + f y)%nat.
Proof.
  revert t. induction l as [|a l IH]; intros [|t] Hl; simplify_eq/=; [lia|].
  specialize (IH t Hl). lia.
Qed.

Lemma step_left w w' : step w w' → (left w' < left w)%nat.
Proof.
  intros [t Hstep]. unfold thread_step in Hstep.
  destruct (calls w !! t) as [c|] eqn:Hc; [simpl in Hstep|done].
  assert (∀ pc w0, calls w0 = calls w → (left_pc pc < left_pc (c_pc c))%nat →
            (left (goto t c pc w0) < left w)%nat) as Hgo.
  { intros pc w0 Hw Hlt. unfold left, goto. cbn. rewrite Hw.
    pose proof (sum_list_insert (left_pc ∘ c_pc) (calls w) t c
      {| c_robot := c_robot c; c_mango := c_mango c; c_pc := pc |} Hc) as Hs.
    cbn in Hs. lia. }
  destruct (c_pc c) eqn:Hpc; repeat (case_match || simplify_option_eq); simplify_eq;
    apply Hgo; try done; cbn; lia.
Qed.

Lemma Inv_progress mid w : Inv mid w → all_returned w ∨ ∃ w', step w w'.
Proof.
  intros I.
  pose proof (inv_range _ _ I) as Hrange.
  pose proof (inv_len_mangos _ _ I) as Hlm.
  pose proof (inv_len_lock _ _ I) as Hll.
  destruct (mutex w) as [t0|] eqn:Hmx.
  - right. destruct (inv_mutex _ _ I t0 Hmx) as (c0 & Hc0 & Hh).
    pose proof (inv_mango _ _ I _ _ Hc0) as Hmid.
    destruct (aget_is_Some (mangos (g_current_box (globals w))) (c_mango c0)) as [m Hm].
    { rewrite Hlm. unfold MAX_MANGOS_PER_BOX in *. lia. }
    assert (is_Some (thread_step t0 w)) as [w' Hw']; [|by eexists; econstructor].
    unfold thread_step. rewrite Hc0. cbn.
    destruct Hh as [->|[->|[->|[->| ->]]]]; rewrite ?Hm; cbn;
      rewrite ?aset_Some by (rewrite ?Hlm, ?Hll; unfold MAX_MANGOS_PER_BOX in *; lia);
      cbn; try case_decide; eauto.
  - assert (∀ c, {∃ ret, c_pc c = Returned ret} + {∀ ret, c_pc c ≠ Returned ret}) as Hdec.
    { intros c. destruct (c_pc c); eauto; right; done. }
    destruct (Forall_Exists_dec (λ c, ∃ ret, c_pc c = Returned ret)
                (λ c, ∀ ret, c_pc c ≠ Returned ret) Hdec (calls w)) as [Hall|Hex].
    + left. intros c Hin. by eapply Forall_forall in Hall.
    + right. apply Exists_exists in Hex as (c & [t Hc]%list_elem_of_lookup & Hnr).
      pose proof (inv_holder _ _ I _ _ Hc) as Hh.
      pose proof (inv_mango _ _ I _ _ Hc) as Hmid.
      assert (is_Some (thread_step t w)) as [w' Hw']; [|by eexists; econstructor].
      unfold thread_step. rewrite Hc. cbn. rewrite Hmx.
      destruct (c_pc c) eqn:Hpc; try (unfold holds in Hh; intuition congruence);
        try case_decide; eauto.
Qed.

Lemma count_split (l : list Call) :
  (∀ c, c ∈ l → c_pc c = Returned 0 ∨ c_pc c = Returned (-1)) →
  (length (filter (λ c, c_pc c = Returned 0) l) +
   length (filter (λ c, c_pc c = Returned (-1)) l) = length l)%nat.
Proof.
  induction l as [|a l IH]; intros H; [done|].
  rewrite !filter_cons.
  specialize (IH (λ c Hc, H c (list_elem_of_further _ _ _ Hc))).
  destruct (H a (list_elem_of_here _ _)) as [E|E]; rewrite E;
    repeat case_decide; simplify_eq; cbn; lia.
Qed.

(** C2. Any number of threads enter [try_claim_mango] for the same
    unlabeled mango. In every state their interleaving can reach: at most
    one thread has seen the mango unlabeled; unless all calls have
    returned, some thread can move; every move brings the end nearer (so
    every run ends); and once all calls have returned, exactly one
    returned 0 and all the others returned -1. *)
Theorem claim_race_one_winner (s : State) (rids : list Z) (mid : Z) (w : World) :
  arrays_ok s →
  item_state s mid = Some MANGO_UNLABELED →
  rids ≠ [] →
  rtc step (start rids mid s) w →
  (∀ t1 t2 c1 c2, calls w !! t1 = Some c1 → calls w !! t2 = Some c2 →
      saw_unlabeled (c_pc c1) → saw_unlabeled (c_pc c2) → t1 = t2) ∧
  (all_returned w ∨ ∃ w', step w w') ∧
  (∀ w', step w w' → (left w' < left w)%nat) ∧
  (all_returned w →
     count_returned 0 w = 1%nat ∧
     count_returned (-1) w = (length rids - 1)%nat).
Proof.
  intros Ha Hs Hne Hr.
  pose proof (Inv_reachable _ _ _ _ Ha Hs Hr) as I.
  split_and!.
  - apply I.
  - by eapply Inv_progress.
  - intros w'. apply step_left.
  - intros Hall.
    assert (length (calls w) = length rids) as Hlen.
    { rewrite (reachable_length _ _ Hr). unfold start. cbn. by rewrite length_fmap. }
    assert (∀ c, c ∈ calls w → c_pc c = Returned 0 ∨ c_pc c = Returned (-1)) as Hret.
    { intros c Hin. destruct (Hall c Hin) as [ret Hpc].
      apply list_elem_of_lookup in Hin as [t Hc].
      destruct (inv_ret _ _ I _ _ _ Hc Hpc); subst; auto. }
    assert (count_returned 0 w = 1%nat) as H0.
    { assert (∃ t c, calls w !! t = Some c ∧ c_pc c = Returned 0) as (t & c & Hc & Hpc).
      { destruct (inv_winner _ _ I) as [Hu|(t & c & Hc & Hw)].
        - destruct (calls w) as [|c l] eqn:E.
          { destruct rids; [done|]. cbn in Hlen. lia. }
          assert (calls w !! 0%nat = Some c) as Hc by by rewrite E.
          destruct (Hret c) as [Hp|Hp]; [left| |].
          { by exists 0%nat, c. }
          exfalso. eapply (inv_taken _ _ I _ _ Hc); [|done]. right. by right.
        - exists t, c. split; [done|].
          destruct (Hall c) as [ret Hp]; [by eapply list_elem_of_lookup_2|].
          destruct Hw as [?|[?|?]]; congruence. }
      unfold count_returned. eapply (filter_unique _ _ t c); [done..|].
      intros t' c' Hc' Hpc'. eapply (inv_unique _ _ I); eauto; unfold saw_unlabeled; auto. }
    split; [done|].
    pose proof (count_split (calls w) Hret) as Hsp.
    unfold count_returned in *. lia.
Qed.

Lemma claim_race_one_winner_witness :
  let w := start [0; 1] 0 initial_state in
  arrays_ok initial_state ∧
  item_state initial_state 0 = Some MANGO_UNLABELED ∧
  [0; 1] ≠ [] ∧
  rtc step w w ∧
  (∀ t1 t2 c1 c2, calls w !! t1 = Some c1 → calls w !! t2 = Some c2 →
      saw_unlabeled (c_pc c1) → saw_unlabeled (c_pc c2) → t1 = t2) ∧
  (all_returned w ∨ ∃ w', step w w') ∧
  (∀ w', step w w' → (left w' < left w)%nat) ∧
  (all_returned w →
     count_returned 0 w = 1%nat ∧
     count_returned (-1) w = (length [0; 1] - 1)%nat).
Proof.
  intros w.
  assert (arrays_ok initial_state) as Ha by (repeat split).
  assert (item_state initial_state 0 = Some MANGO_UNLABELED) as Hs by reflexivity.
  assert ([0; 1] ≠ ([] : list Z)) as Hne by discriminate.
  assert (rtc step w w) as Hr by apply rtc_refl.
  split_and!; [done..| | | |];
    apply (claim_race_one_winner initial_state [0; 1] 0 w Ha Hs Hne Hr).
Defined.

(** C10. A claim for a mango outside [0, MAX_MANGOS_PER_BOX) returns -1
    at once, whatever the globals are: the call returns, the globals are
    as before, and the thread that makes it goes from the entry of
    [try_claim_mango] to its return in one move that leaves the mutex and
    the globals alone. *)
Theorem try_claim_mango_out_of_range (s : State) (rid mid : Z) :
  mid < 0 ∨ mid >= MAX_MANGOS_PER_BOX →
  try_claim_mango rid mid s = Some (-1, s) ∧
  ∀ w t c, calls w !! t = Some c → c_pc c = AtEntry → c_mango c = mid →
    ∃ w', thread_step t w = Some w' ∧
          mutex w' = mutex w ∧ globals w' = globals w ∧
          calls w' = <[t := {| c_robot := c_robot c; c_mango := mid;
                               c_pc := Returned (-1) |}]> (calls w).
Proof.
  intros Hout. split.
  - unfold try_claim_mango. by rewrite decide_True.
  - intros w t c Hc Hpc Hmid. unfold thread_step. rewrite Hc. cbn.
    rewrite Hpc, Hmid, decide_True by done.
    eexists. split; [done|]. unfold goto. cbn. by rewrite Hmid.
Qed.

Lemma try_claim_mango_out_of_range_witness :
  (100 < 0 ∨ 100 >= MAX_MANGOS_PER_BOX) ∧
  try_claim_mango 7 100 initial_state = Some (-1, initial_state).
Proof.
  assert (100 < 0 ∨ 100 >= MAX_MANGOS_PER_BOX) as H
    by (right; unfold MAX_MANGOS_PER_BOX; lia).
  split; [exact H|].
  apply (try_claim_mango_out_of_range initial_state 7 100 H).
Defined.

End ClaimRaceFacts.

(** ** The zone planner *)

Module ZoneFacts.
Import Controller ArrayFacts Scenario.

Lemma init_robots_loop_spec (n : nat) (i nr : Z) (s : State) :
  0 ≤ i →
  i + Z.of_nat n ≤ Z.of_nat (length (g_robots s)) →
  i + Z.of_nat n ≤ Z.of_nat (length (shm_robots (g_shm s))) →
  ∃ s',
    init_robots_loop n i nr s = Some s' ∧
    g_params s' = g_params s ∧
    g_num_robots s' = g_num_robots s ∧
    g_current_box s' = g_current_box s ∧
    g_box_ready s' = g_box_ready s ∧
    mango_lock (g_shm s') = mango_lock (g_shm s) ∧
    stats (g_shm s') = stats (g_shm s) ∧
    active_robots (g_shm s') = active_robots (g_shm s) ∧
    length (g_robots s') = length (g_robots s) ∧
    length (shm_robots (g_shm s')) = length (shm_robots (g_shm s)) ∧
    (∀ k, i ≤ k < i + Z.of_nat n →
       aget (g_robots s') k =
         Some (new_robot k nr (robot_spacing (g_params s)) (pB (g_params s))) ∧
       aget (shm_robots (g_shm s')) k = aget (g_robots s') k) ∧
    (∀ k, ¬ (i ≤ k < i + Z.of_nat n) →
       aget (g_robots s') k = aget (g_robots s) k ∧
       aget (shm_robots (g_shm s')) k = aget (shm_robots (g_shm s)) k).
Proof.
  revert i s. induction n as [|n IH]; intros i s Hi Hr Hs.
  - exists s. split_and!; try done. intros; lia.
  - cbn [init_robots_loop].
    rewrite !aset_Some by lia. cbn.
    set (r := new_robot i nr (robot_spacing (g_params s)) (pB (g_params s))).
    set (s1 := set_shm _ _).
    destruct (IH (i + 1) s1) as (s' & Hrun & Hp & Hn & Hb & Hrd & Hl & Hst & Hact & Hlr & Hls & Hin & Hout).
    { lia. }
    { subst s1. cbn. rewrite length_insert. lia. }
    { subst s1. cbn. rewrite length_insert. lia. }
    exists s'. split; [exact Hrun|].
    split_and!; try (etrans; [eassumption|]; subst s1; cbn; by rewrite ?length_insert).
    + intros k Hk. destruct (decide (k = i)) as [->|Hne].
      * destruct (Hout i) as [H1 H2]; [lia|]. rewrite H2, H1. subst s1. cbn.
        rewrite !aget_insert_eq by lia. done.
      * destruct (Hin k) as [H1 H2]; [lia|]. rewrite H2, H1. done.
    + intros k Hk. destruct (Hout k) as [H1 H2]; [lia|]. rewrite H1, H2.
      subst s1. cbn. rewrite !aget_insert_ne by lia. done.
Qed.

Lemma init_robots_spec (n nb : Z) (s : State) :
  arrays_ok s → 0 ≤ n + nb ≤ MAX_ROBOTS →
  ∃ s',
    init_robots n nb s = Some (0, s') ∧
    arrays_ok s' ∧
    g_num_robots s' = n + nb ∧
    g_params s' = params_set_robots n nb (pW (g_params s) / IZR n)%R (g_params s) ∧
    g_current_box s' = g_current_box s ∧
    active_robots (g_shm s') = n ∧
    ∀ k, 0 ≤ k < n + nb →
      aget (g_robots s') k =
        Some (new_robot k n (pW (g_params s) / IZR n)%R (pB (g_params s))) ∧
      aget (shm_robots (g_shm s')) k = aget (g_robots s') k.
Proof.
  intros (Hm & Hl & Hr & Hs) Hn. unfold init_robots, MAX_ROBOTS in *.
  rewrite decide_False by lia.
  set (p := params_set_robots _ _ _ _). set (s0 := set_counts _ _ _).
  destruct (init_robots_loop_spec (Z.to_nat (n + nb)) 0 n s0)
    as (s' & Hrun & Hp & Hnr & Hb & _ & Hlk & _ & _ & Hlr & Hls & Hin & _).
  { lia. }
  { subst s0. cbn. rewrite Hr. lia. }
  { subst s0. cbn. rewrite Hs. lia. }
  rewrite Hrun. cbn. eexists. split; [done|].
  subst s0 p. cbn in *.
  split_and!; cbn; try done.
  - unfold arrays_ok, MAX_ROBOTS. cbn. repeat split; congruence.
  - intros k Hk. destruct (Hin k) as [H1 H2]; [lia|]. by rewrite H2, H1.
Qed.

(** The window of robot [i] after [init_robots n nb]: the distance to the
    axis of robot [i + 1], when there is a robot [i + 1] among all the
    [n + nb] robots, and to the end of the belt otherwise, divided by the
    speed of the belt. *)
Lemma effective_time_after_init (n nb i : Z) (s s' : State) :
  arrays_ok s → 0 ≤ n + nb ≤ MAX_ROBOTS →
  init_robots n nb s = Some (0, s') →
  0 ≤ i < n + nb →
  let spacing := (pW (g_params s) / IZR n)%R in
  let axis k := axis_position (new_robot k n spacing (pB (g_params s))) in
  calculate_effective_time i s' =
    Some (((if decide (i + 1 < n + nb)%Z then axis (i + 1)%Z else pW (g_params s))
           - axis i) / pX (g_params s))%R.
Proof.
  intros Ha Hn Hinit Hi spacing axis.
  destruct (init_robots_spec n nb s Ha Hn) as (s1 & Hrun & _ & Hnum & Hp & _ & _ & Hrob).
  rewrite Hinit in Hrun. injection Hrun as <-.
  unfold calculate_effective_time.
  rewrite (proj1 (Hrob i Hi)), Hnum, Hp.
  destruct (decide (i + 1 < n + nb)) as [Hlt|Hge].
  - rewrite (proj1 (Hrob (i + 1) ltac:(lia))). reflexivity.
  - reflexivity.
Qed.

(** The same window in the terms of the specification, when there is no
    backup robot: the distance between two neighbouring axes for every
    robot but the last, and the distance from the last axis to the end of
    the belt for the last one. *)
Lemma effective_time_no_backup (n i : Z) (s s' : State) :
  arrays_ok s → 1 ≤ n ≤ MAX_ROBOTS →
  init_robots n 0 s = Some (0, s') →
  0 ≤ i < n →
  let w := pW (g_params s) in
  calculate_effective_time i s' =
    Some (if decide (i + 1 < n)
          then ((axis_of (i + 1) n w - axis_of i n w) / pX (g_params s))%R
          else ((w - axis_of i n w) / pX (g_params s))%R).
Proof.
  intros Ha Hn Hinit Hi w.
  rewrite (effective_time_after_init n 0 i s s' Ha) by (done || lia).
  rewrite !Z.add_0_r. unfold new_robot, axis_of. cbn [axis_position].
  destruct (decide (i + 1 < n)); destruct (decide (i < n)); try lia; done.
Qed.

(** C7, on the code. With the default 4 main robots and 1 backup on the
    default belt (W = 300, X = 10), the window of the last main robot,
    robot 3, is measured to the axis of the backup, which is 0: the code
    computes -26.25 s, where the distance from the axis of robot 3 to the
    end of the belt gives 3.75 s. *)
Theorem last_window_with_backup :
  ∃ s', init_robots 4 1 default_start = Some (0, s') ∧
        calculate_effective_time 3 s' = Some (-26.25)%R ∧
        ((pW (g_params s') - axis_of 3 4 (pW (g_params s'))) / pX (g_params s')
         = 3.75)%R.
Proof.
  assert (arrays_ok default_start) as Ha by (repeat split).
  assert (0 ≤ 4 + 1 ≤ MAX_ROBOTS) as Hn by (unfold MAX_ROBOTS; lia).
  destruct (init_robots_spec 4 1 default_start Ha Hn)
    as (s' & Hrun & _ & _ & Hp & _).
  exists s'. split; [exact Hrun|]. split.
  - rewrite (effective_time_after_init 4 1 3 default_start s' Ha Hn Hrun) by lia.
    f_equal. unfold new_robot. cbn. repeat case_decide; try lia. lra.
  - rewrite Hp. unfold axis_of. cbn. lra.
Qed.

End ZoneFacts.

(** ** The backup manager *)

Module BackupFacts.
Import Controller ArrayFacts Scenario.

Lemma activate_backup_loop_char (n : nat) (j failed : Z) (s : State) :
  0 ≤ j →
  j + Z.of_nat n ≤ Z.of_nat (length (g_robots s)) →
  length (shm_robots (g_shm s)) = length (g_robots s) →
  0 ≤ failed < Z.of_nat (length (g_robots s)) →
  (∃ i r f,
      j ≤ i < j + Z.of_nat n ∧
      aget (g_robots s) i = Some r ∧ idle_backup r = true ∧
      (∀ k r', j ≤ k < i → aget (g_robots s) k = Some r' → idle_backup r' = false) ∧
      aget (g_robots s) failed = Some f ∧
      activate_backup_loop n j failed s = Some (bound i failed (axis_position f) r s))
  ∨ ((∀ k r', j ≤ k < j + Z.of_nat n → aget (g_robots s) k = Some r' →
               idle_backup r' = false) ∧
     activate_backup_loop n j failed s = Some s).
Proof.
  intros Hj Hn Hs Hf. revert j Hj Hn.
  induction n as [|n IH]; intros j Hj Hn.
  - right. split; [intros; lia|done].
  - cbn [activate_backup_loop].
    destruct (aget_is_Some (g_robots s) j) as [r Hr]; [lia|].
    destruct (aget_is_Some (g_robots s) failed) as [f Hfr]; [lia|].
    rewrite Hr. cbn [mbind option_bind].
    fold (idle_backup r). destruct (idle_backup r) eqn:Hidle.
    + left. exists j, r, f. rewrite Hfr. cbn [mbind option_bind].
      rewrite !aset_Some by lia. cbn [mbind option_bind].
      split_and!; try done; try lia.
    + destruct (IH (j + 1)) as [(i & r0 & f0 & Hi & Hri & Hid & Hbefore & Hf0 & Hrun)|[Hnone Hrun]];
        [lia..| |].
      * left. exists i, r0, f0. split_and!; try done; try lia.
        intros k r' Hk Hrk. destruct (decide (k = j)) as [->|Hne].
        -- congruence.
        -- apply (Hbefore k); [lia|done].
      * right. split; [|done]. intros k r' Hk Hrk.
        destruct (decide (k = j)) as [->|Hne]; [congruence|].
        apply (Hnone k); [lia|done].
Qed.

Lemma roster_ok_bound i failed axis r s :
  roster_ok s → roster_ok (bound i failed axis r s).
Proof.
  intros ((Hm & Hl & Hr & Hs) & Hn). unfold bound, set_shm, set_robots.
  repeat split; cbn; rewrite ?length_insert; try done; apply Hn.
Qed.

Lemma activate_backup_robot_char (failed : Z) (s : State) :
  roster_ok s → 0 ≤ failed < MAX_ROBOTS →
  let lo := num_robots (g_params s) in
  let hi := g_num_robots s in
  (∃ i r f,
      lo ≤ i < hi ∧
      aget (g_robots s) i = Some r ∧ idle_backup r = true ∧
      (∀ k r', lo ≤ k < i → aget (g_robots s) k = Some r' → idle_backup r' = false) ∧
      aget (g_robots s) failed = Some f ∧
      activate_backup_robot failed s = Some (bound i failed (axis_position f) r s))
  ∨ ((∀ k r', lo ≤ k < hi → aget (g_robots s) k = Some r' → idle_backup r' = false) ∧
     activate_backup_robot failed s = Some s).
Proof.
  intros ((Hm & Hl & Hr & Hs) & Hn1 & Hn2) Hf lo hi. unfold MAX_ROBOTS in *.
  unfold activate_backup_robot. fold lo hi.
  destruct (activate_backup_loop_char (Z.to_nat (hi - lo)) lo failed s)
    as [(i & r & f & Hi & H)|[Hnone Hrun]]; try (rewrite ?Hr, ?Hs; lia).
  - left. exists i, r, f. split; [lia|done].
  - right. split; [|done]. intros k r' Hk. apply Hnone. lia.
Qed.

Lemma idle_backup_disabled r : idle_backup r = true → robot_state r = ROBOT_STATE_DISABLED.
Proof.
  unfold idle_backup. intros [_ H]%andb_prop. by apply bool_decide_eq_true in H.
Qed.

Lemma activate_backup_robot_keeps (failed : Z) (s : State) :
  roster_ok s → 0 ≤ failed < MAX_ROBOTS →
  ∃ s', activate_backup_robot failed s = Some s' ∧ roster_ok s' ∧
    ∀ i r, aget (g_robots s) i = Some r → robot_state r ≠ ROBOT_STATE_DISABLED →
           aget (g_robots s') i = Some r.
Proof.
  intros Hok Hf.
  destruct (activate_backup_robot_char failed s Hok Hf)
    as [(i & r & f & Hi & Hr & Hidle & _ & _ & Hrun)|[_ Hrun]].
  - eexists. split; [exact Hrun|]. split; [by apply roster_ok_bound|].
    intros k r' Hk Hst. unfold bound. cbn.
    destruct Hok as (_ & Hlo & _). cbn in Hi.
    rewrite aget_insert_ne; [done|lia|].
    intros ->. apply idle_backup_disabled in Hidle. congruence.
  - exists s. done.
Qed.



(** The search of the batch estimator for a backup (simulator.c, lines
    166 to 174). *)
Lemma backup_loop_char (n : nat) (j : Z) (failed : Robot) (rs : list Robot) :
  0 ≤ j → j + Z.of_nat n ≤ Z.of_nat (length rs) →
  (∃ i r,
      j ≤ i < j + Z.of_nat n ∧
      aget rs i = Some r ∧ idle_backup r = true ∧
      (∀ k r', j ≤ k < i → aget rs k = Some r' → idle_backup r' = false) ∧
      Simulator.backup_loop n j failed rs
        = Some (<[Z.to_nat i := bind_backup (robot_id failed) (axis_position failed) r]> rs,
                true))
  ∨ ((∀ k r', j ≤ k < j + Z.of_nat n → aget rs k = Some r' → idle_backup r' = false) ∧
     Simulator.backup_loop n j failed rs = Some (rs, false)).
Proof.
  revert j. induction n as [|n IH]; intros j Hj Hn.
  - right. split; [intros; lia|done].
  - cbn [Simulator.backup_loop].
    destruct (aget_is_Some rs j) as [r Hr]; [lia|].
    rewrite Hr. cbn [mbind option_bind].
    fold (idle_backup r). destruct (idle_backup r) eqn:Hidle.
    + left. exists j, r. rewrite aset_Some by lia. cbn [mbind option_bind].
      split_and!; try done; try lia.
    + destruct (IH (j + 1)) as [(i & r0 & Hi & Hri & Hid & Hbefore & Hrun)|[Hnone Hrun]];
        [lia..| |].
      * left. exists i, r0. split_and!; try done; try lia.
        intros k r' Hk Hrk. destruct (decide (k = j)) as [->|Hne].
        -- congruence.
        -- apply (Hbefore k); [lia|done].
      * right. split; [|done]. intros k r' Hk Hrk.
        destruct (decide (k = j)) as [->|Hne]; [congruence|].
        apply (Hnone k); [lia|done].
Qed.


Lemma roster_ok_4_1 : roster_ok roster_4_1.
Proof. repeat split; cbn; unfold MAX_ROBOTS; lia. Qed.


End BackupFacts.
(** ** The capacity of a robot *)

Module CapacityFacts.
Import Controller Scenario DoubleFacts.

Lemma trunc_int_eq (d : R) :
  (0 <= d)%R → Int_part d ≤ INT_MAX → trunc_int d = Int_part d.
Proof.
  intros Hd Hmax. unfold trunc_int. cbn zeta.
  rewrite (decide_True (P := (0 <= d)%R)) by done.
  assert (0 ≤ Int_part d) as Hpos.
  { destruct (base_Int_part d) as [_ H].
    assert (IZR (-1) < IZR (Int_part d))%R as Hlt by lra.
    apply lt_IZR in Hlt. lia. }
  rewrite decide_True; [done|]. unfold INT_MIN. lia.
Qed.

Lemma trunc_int_range (d : R) : INT_MIN ≤ trunc_int d ≤ INT_MAX.
Proof. unfold trunc_int. cbn zeta. case_decide; [done|]. unfold INT_MIN, INT_MAX. lia. Qed.

Lemma Int_part_le (a b : R) : (a <= b)%R → Int_part a ≤ Int_part b.
Proof.
  intros H. destruct (base_Int_part a) as [Ha _]. destruct (base_Int_part b) as [_ Hb].
  assert (IZR (Int_part a) < IZR (Int_part b + 1))%R as Hlt.
  { rewrite plus_IZR. lra. }
  apply lt_IZR in Hlt. lia.
Qed.

Lemma Int_part_nonneg (a : R) : (0 <= a)%R → 0 ≤ Int_part a.
Proof.
  intros H. replace 0 with (Int_part 0); [by apply Int_part_le|].
  apply Int_part_eq. lra.
Qed.

Lemma at_least_one (n : Z) : (if decide (n < 1) then 1 else n) = Z.max 1 n.
Proof. case_decide; lia. Qed.

Lemma mangos_per_robot_pos (p : SystemParams) : 1 ≤ mangos_per_robot p.
Proof. unfold mangos_per_robot. cbn zeta. case_decide; lia. Qed.

Lemma to_int_range (d : double) : INT_MIN ≤ to_int d ≤ INT_MAX.
Proof.
  destruct d; cbn [to_int]; [apply trunc_int_range|done..].
Qed.

Lemma mangos_per_robot_max (p : SystemParams) : mangos_per_robot p ≤ INT_MAX.
Proof.
  unfold mangos_per_robot. cbn zeta.
  match goal with |- context [to_int ?d] => pose proof (to_int_range d) end.
  case_decide; unfold INT_MAX in *; lia.
Qed.

Lemma capacity_value (q : R) (n : Z) :
  1 ≤ n ≤ INT_MAX → (IZR n <= q < IZR n + 1)%R →
  (if decide (trunc_int q < 1) then 1 else trunc_int q) = n.
Proof.
  intros Hn Hq. assert (Int_part q = n) as Hi by (by apply Int_part_eq).
  assert (0 <= q)%R as Hpos.
  { assert (0 <= IZR n)%R by (apply IZR_le; lia). lra. }
  rewrite trunc_int_eq by (done || lia). rewrite Hi. case_decide; lia.
Qed.

(** *** The error of the rounded quotients *)

Lemma one_ulp_bounds : (1 < one_ulp <= 1 + / 1000)%R.
Proof. unfold one_ulp. bpow_lit. lra. Qed.

Lemma within_refl (x : R) : (0 <= x)%R → within 1 x x.
Proof. intros H. unfold within. lra. Qed.

Lemma within_pos (f x y : R) : (1 <= f)%R → (0 < x)%R → within f x y → (0 < y)%R.
Proof.
  intros Hf Hx [Hlo _]. apply (Rlt_le_trans _ (x / f)); [|done].
  apply Rdiv_lt_0_compat; lra.
Qed.

Lemma within_trans (f g x y z : R) :
  (1 <= f)%R → (1 <= g)%R → (0 < x)%R →
  within f x y → within g y z → within (f * g) x z.
Proof.
  intros Hf Hg Hx Hxy Hyz. pose proof (within_pos f x y Hf Hx Hxy) as Hy.
  destruct Hxy as [H1 H2], Hyz as [H3 H4]. split.
  - apply (Rle_trans _ (y / g)); [|done].
    replace (x / (f * g))%R with (x / f / g)%R by (field; lra).
    apply Rmult_le_compat_r; [|done]. left. apply Rinv_0_lt_compat. lra.
  - apply (Rle_trans _ (y * g)); [done|]. rewrite <- Rmult_assoc.
    apply Rmult_le_compat_r; lra.
Qed.

Lemma within_div (f g a b a' b' : R) :
  (1 <= f)%R → (1 <= g)%R → (0 < a)%R → (0 < b)%R →
  within f a a' → within g b b' → within (f * g) (a / b) (a' / b').
Proof.
  intros Hf Hg Ha Hb Haa Hbb.
  pose proof (within_pos f a a' Hf Ha Haa) as Ha'.
  pose proof (within_pos g b b' Hg Hb Hbb) as Hb'.
  destruct Haa as [H1 H2], Hbb as [H3 H4].
  assert (0 < / b)%R as Hib by (by apply Rinv_0_lt_compat).
  assert (0 < / b')%R as Hib' by (by apply Rinv_0_lt_compat).
  assert (/ b' <= g / b)%R as H5.
  { apply (Rmult_le_reg_r b'); [done|]. rewrite Rinv_l by lra.
    apply (Rmult_le_reg_r b); [done|].
    replace (g / b * b' * b)%R with (g * b')%R by (field; lra).
    apply (Rmult_le_reg_r (/ g)); [apply Rinv_0_lt_compat; lra|].
    replace (g * b' * / g)%R with b' by (field; lra). unfold Rdiv in H3. lra. }
  assert (/ (b * g) <= / b')%R as H6.
  { apply Rinv_le_contravar; [done|]. done. }
  split.
  - replace (a / b / (f * g))%R with (a / f * / (b * g))%R by (field; lra).
    unfold Rdiv at 2. apply Rmult_le_compat; try lra.
    + apply Rmult_le_pos; [lra|]. left. apply Rinv_0_lt_compat. lra.
    + left. apply Rinv_0_lt_compat. nra.
  - replace (a / b * (f * g))%R with (a * f * (g / b))%R by (field; lra).
    unfold Rdiv at 1. apply Rmult_le_compat; lra.
Qed.

Lemma within_mul (f g a b a' b' : R) :
  (1 <= f)%R → (1 <= g)%R → (0 < a)%R → (0 < b)%R →
  within f a a' → within g b b' → within (f * g) (a * b) (a' * b').
Proof.
  intros Hf Hg Ha Hb Haa Hbb.
  pose proof (within_pos f a a' Hf Ha Haa) as Ha'.
  pose proof (within_pos g b b' Hg Hb Hbb) as Hb'.
  destruct Haa as [H1 H2], Hbb as [H3 H4].
  assert (0 < a / f)%R by (apply Rdiv_lt_0_compat; lra).
  assert (0 < b / g)%R by (apply Rdiv_lt_0_compat; lra).
  split.
  - replace (a * b / (f * g))%R with (a / f * (b / g))%R by (field; lra).
    apply Rmult_le_compat; lra.
  - replace (a * b * (f * g))%R with (a * f * (b * g))%R by ring.
    apply Rmult_le_compat; lra.
Qed.

(** One rounding of a positive number in the range of the normal numbers. *)
Lemma round64_within (x : R) :
  (bpow (-1022) <= x)%R → within one_ulp x (round64 x).
Proof.
  intros Hx. pose proof (bpow_pos (-1022)) as Hp.
  pose proof (round64_error x) as He. rewrite Rabs_pos_eq in He by lra.
  specialize (He Hx). apply Rabs_le_bounds in He.
  assert (bpow (-52) = 2 * bpow (-53))%R as Hu.
  { replace (-52) with (1 + -53) by lia. by rewrite bpow_add, bpow_1. }
  pose proof (bpow_pos (-53)) as Hu0.
  assert (bpow (-53) <= / 4)%R as Hu1.
  { apply (Rle_trans _ (bpow (-2))); [apply bpow_le; lia|]. bpow_lit. lra. }
  unfold within, one_ulp. rewrite Hu. set (u := bpow (-53)) in *. split.
  - apply (Rle_trans _ (x * (1 - u))); [|lra].
    apply (Rmult_le_reg_r (1 + 2 * u)); [lra|].
    replace (x / (1 + 2 * u) * (1 + 2 * u))%R with x by (field; lra). nra.
  - nra.
Qed.


Lemma in_binades_pos (k : Z) (x : R) : in_binades k x → (0 < x)%R.
Proof. intros [H _]. pose proof (bpow_pos (- k)). lra. Qed.

Lemma in_binades_div (ka kb : Z) (a b : R) :
  in_binades ka a → in_binades kb b → in_binades (ka + kb) (a / b).
Proof.
  intros [Ha1 Ha2] [Hb1 Hb2]. unfold in_binades.
  pose proof (bpow_pos (- ka)). pose proof (bpow_pos (- kb)).
  replace (- (ka + kb)) with (- ka + - kb) by lia. rewrite !bpow_add.
  rewrite (bpow_opp kb) in *.
  assert (0 < bpow kb)%R by apply bpow_pos.
  assert (/ bpow kb <= / b)%R by (apply Rinv_le_contravar; lra).
  assert (/ b <= / / bpow kb)%R by (apply Rinv_le_contravar; lra).
  rewrite Rinv_inv in *.
  assert (0 < / bpow kb)%R by (by apply Rinv_0_lt_compat).
  assert (0 < / b)%R by (apply Rinv_0_lt_compat; lra).
  unfold Rdiv. split; apply Rmult_le_compat; lra.
Qed.

Lemma in_binades_le (k k' : Z) (x : R) : k ≤ k' → in_binades k x → in_binades k' x.
Proof.
  intros Hk [H1 H2]. split.
  - apply (Rle_trans _ (bpow (- k))); [apply bpow_le; lia|done].
  - apply (Rle_trans _ (bpow k)); [done|apply bpow_le; lia].
Qed.

(** A rounded quotient of two approximations. *)
Lemma fdiv_within (f g a b a' b' : R) (ka kb : Z) :
  (1 <= f <= 3 / 2)%R → (1 <= g <= 3 / 2)%R →
  0 ≤ ka → 0 ≤ kb → ka + kb + 4 ≤ 1022 →
  in_binades ka a → in_binades kb b →
  within f a a' → within g b b' →
  within (f * g * (one_ulp * one_ulp * one_ulp)) (a / b) (fdiv a' b') ∧
  in_binades (ka + kb) (a / b).
Proof.
  intros Hf Hg Hka Hkb Hk Hra Hrb Ha Hb.
  pose proof one_ulp_bounds as Hu.
  pose proof (in_binades_pos _ _ Hra) as Ha0.
  pose proof (in_binades_pos _ _ Hrb) as Hb0.
  pose proof (in_binades_div _ _ _ _ Hra Hrb) as Hq.
  split; [|done].
  assert (∀ h k x x', (1 <= h <= 3 / 2)%R → 0 ≤ k → k + 1 ≤ 1022 →
            in_binades k x → within h x x' →
            within (h * one_ulp) x (round64 x')) as Hround.
  { intros h k x x' Hh Hk0 Hk1 [Hx1 Hx2] Hxx.
    assert (0 < x)%R as Hx0 by (pose proof (bpow_pos (- k)); lra).
    apply (within_trans h one_ulp x x'); try lra; [done|].
    apply round64_within. destruct Hxx as [Hlo _].
    apply (Rle_trans _ (x / h)); [|done].
    apply (Rle_trans _ (bpow (- k) / 2)).
    - apply (Rle_trans _ (bpow (- k - 1))); [apply bpow_le; lia|].
      replace (- k - 1) with (- k + -1) by lia. rewrite bpow_add, bpow_m1. lra.
    - pose proof (bpow_pos (- k)).
      apply (Rle_trans _ (x / 2)); [lra|]. unfold Rdiv.
      apply Rmult_le_compat_l; [lra|]. apply Rinv_le_contravar; lra. }
  pose proof (Hround f ka a a' Hf Hka ltac:(lia) Hra Ha) as Hra'.
  pose proof (Hround g kb b b' Hg Hkb ltac:(lia) Hrb Hb) as Hrb'.
  assert (1 <= f * one_ulp <= 2)%R as Hfu by nra.
  assert (1 <= g * one_ulp <= 2)%R as Hgu by nra.
  set (fu := (f * one_ulp)%R) in *. set (gu := (g * one_ulp)%R) in *.
  assert (1 <= fu * gu <= 4)%R as [H1 H4] by nra.
  pose proof (within_div fu gu a b (round64 a') (round64 b')
                ltac:(lra) ltac:(lra) Ha0 Hb0 Hra' Hrb') as Hdiv.
  replace (f * g * (one_ulp * one_ulp * one_ulp))%R
    with (fu * gu * one_ulp)%R by (unfold fu, gu; ring).
  assert (0 < a / b)%R as Hq0 by (by apply Rdiv_lt_0_compat).
  apply (within_trans _ one_ulp (a / b) (round64 a' / round64 b'));
    [lra|lra|done|done|].
  apply round64_within. destruct Hdiv as [Hlo _], Hq as [Hq1 _].
  apply (Rle_trans _ (a / b / (fu * gu))); [|done].
  apply (Rle_trans _ (bpow (- (ka + kb)) / 4)).
  - apply (Rle_trans _ (bpow (- (ka + kb) - 2))); [apply bpow_le; lia|].
    replace (- (ka + kb) - 2) with (- (ka + kb) + -2) by lia. rewrite bpow_add.
    right. f_equal. bpow_lit. lra.
  - pose proof (bpow_pos (- (ka + kb))).
    apply (Rle_trans _ (a / b / 4)); [lra|]. unfold Rdiv at 1 3.
    apply Rmult_le_compat_l; [lra|]. apply Rinv_le_contravar; lra.
Qed.


Lemma ulp_pow_le (k : nat) :
  (k ≤ 16)%nat → (1 <= one_ulp ^ k <= 1 + 2 * INR k * bpow (-52))%R.
Proof.
  pose proof (bpow_pos (-52)) as Hx.
  assert (bpow (-52) <= / 1000)%R as Hsmall by (bpow_lit; lra).
  induction k as [|k IH]; intros Hk.
  - cbn. lra.
  - destruct IH as [IH1 IH2]; [lia|]. rewrite S_INR. cbn [pow]. unfold one_ulp at 1 3.
    assert (INR k <= 16)%R as Hk' by (replace 16%R with (INR 16) by (cbn; lra); apply le_INR; lia).
    assert (0 <= INR k)%R as Hk0 by apply pos_INR.
    set (x := bpow (-52)) in *. set (p := (one_ulp ^ k)%R) in *. split; [nra|].
    apply (Rle_trans _ ((1 + x) * (1 + 2 * INR k * x))); [nra|]. nra.
Qed.

Lemma ulp_pow_bounds (k : nat) :
  (k ≤ 16)%nat → (1 <= one_ulp ^ k <= 1 + bpow (-47))%R.
Proof.
  intros Hk. destruct (ulp_pow_le k Hk) as [H1 H2]. split; [done|].
  apply (Rle_trans _ _ _ H2).
  assert (INR k <= 16)%R as Hk' by (replace 16%R with (INR 16) by (cbn; lra); apply le_INR; lia).
  assert (bpow (-47) = 32 * bpow (-52))%R as ->.
  { replace (-47) with (5 + -52) by lia. rewrite bpow_add. f_equal. bpow_lit. lra. }
  pose proof (bpow_pos (-52)). nra.
Qed.

(** A rounded quotient, [i] roundings behind the dividend and [j]
    behind the divisor. *)
Lemma fdiv_within_pow (i j : nat) (a b a' b' : R) (ka kb : Z) :
  (i ≤ 16)%nat → (j ≤ 16)%nat →
  0 ≤ ka → 0 ≤ kb → ka + kb + 4 ≤ 1022 →
  in_binades ka a → in_binades kb b →
  within (one_ulp ^ i) a a' → within (one_ulp ^ j) b b' →
  within (one_ulp ^ (i + j + 3)) (a / b) (fdiv a' b') ∧
  in_binades (ka + kb) (a / b).
Proof.
  intros Hi Hj Hka Hkb Hk Hra Hrb Ha Hb.
  pose proof (ulp_pow_bounds i Hi) as [Hi1 Hi2].
  pose proof (ulp_pow_bounds j Hj) as [Hj1 Hj2].
  assert (bpow (-47) <= / 2)%R as Hsmall by (bpow_lit; lra).
  destruct (fdiv_within (one_ulp ^ i) (one_ulp ^ j) a b a' b' ka kb) as [H1 H2];
    try done; try lra.
  split; [|done].
  replace (one_ulp ^ (i + j + 3))%R
    with (one_ulp ^ i * one_ulp ^ j * (one_ulp * one_ulp * one_ulp))%R; [done|].
  rewrite !pow_add. cbn [pow]. ring.
Qed.

Lemma within_exact (a : R) (k : Z) : in_binades k a → within (one_ulp ^ 0) a a.
Proof. intros H%in_binades_pos. cbn. apply within_refl. lra. Qed.

(** The cast of an approximation of the quotient [q]. *)
Lemma capacity_bounds (k : nat) (q q' : R) :
  (k ≤ 16)%nat → (0 < q)%R → (q < bpow 30)%R → within (one_ulp ^ k) q q' →
  let cap := if decide (trunc_int q' < 1) then 1 else trunc_int q' in
  let e := bpow (-47) in
  (Z.max 1 (Int_part (q * (1 - e))) ≤ cap ≤ Z.max 1 (Int_part (q * (1 + e)))) ∧
  (Int_part (q * (1 - e)) = Int_part (q * (1 + e)) → cap = Z.max 1 (Int_part q)).
Proof.
  intros Hk Hq Hmax [Hlo Hhi] cap e.
  pose proof (ulp_pow_bounds k Hk) as [Hf1 Hf2]. fold e in Hf2.
  assert (0 < e <= / 2)%R as He by (unfold e; split; [apply bpow_pos|bpow_lit; lra]).
  set (f := (one_ulp ^ k)%R) in *.
  assert (q * (1 - e) <= q')%R as Hlo'.
  { apply (Rle_trans _ (q / f)); [|done].
    apply (Rmult_le_reg_r f); [lra|].
    replace (q / f * f)%R with q by (field; lra).
    assert ((1 - e) * f <= (1 - e) * (1 + e))%R as H1
      by (apply Rmult_le_compat_l; lra).
    assert ((1 - e) * f <= 1)%R as H2 by nra.
    rewrite Rmult_assoc. rewrite <- (Rmult_1_r q) at 2.
    apply Rmult_le_compat_l; lra. }
  assert (q' <= q * (1 + e))%R as Hhi' by nra.
  assert (0 <= q')%R as Hq' by nra.
  assert (Int_part (q * (1 + e)) ≤ INT_MAX) as Hfit.
  { assert (q * (1 + e) < IZR (2 ^ 31))%R as Hlt.
    { rewrite <- bpow_IZR by lia. replace 31 with (30 + 1) by lia.
      rewrite bpow_add, bpow_1. pose proof (bpow_pos 30). nra. }
    destruct (base_Int_part (q * (1 + e))) as [Hb _].
    assert (IZR (Int_part (q * (1 + e))) < IZR (2 ^ 31))%R as Hi by lra.
    apply lt_IZR in Hi. unfold INT_MAX. lia. }
  pose proof (Int_part_le _ _ Hlo') as H1. pose proof (Int_part_le _ _ Hhi') as H2.
  assert (cap = Z.max 1 (Int_part q')) as Hcap.
  { unfold cap. rewrite trunc_int_eq by (done || lia). apply at_least_one. }
  split; [lia|]. intros Heq.
  pose proof (Int_part_le (q * (1 - e)) q ltac:(nra)) as H3.
  pose proof (Int_part_le q (q * (1 + e)) ltac:(nra)) as H4. lia.
Qed.

(** An approximation of a number between [2^-k] and [2^k] lies between
    [2^-(k+1)] and [2^(k+1)]. *)
Lemma within_in_binades (i : nat) (k : Z) (x y : R) :
  (i ≤ 16)%nat → in_binades k x → within (one_ulp ^ i) x y → in_binades (k + 1) y.
Proof.
  intros Hi [Hlo Hhi] [H1 H2]. pose proof (ulp_pow_bounds i Hi) as [Hf1 Hf2].
  assert (bpow (-47) <= 1)%R as Hsmall by (bpow_lit; lra).
  pose proof (bpow_pos (- k)) as Hp. set (f := (one_ulp ^ i)%R) in *.
  assert (x / 2 <= x / f)%R as Hhalf.
  { unfold Rdiv. apply Rmult_le_compat_l; [lra|]. apply Rinv_le_contravar; lra. }
  split.
  - replace (- (k + 1)) with (- k + -1) by lia. rewrite bpow_add, bpow_m1. lra.
  - rewrite bpow_add, bpow_1. nra.
Qed.

Lemma round64_fdiv (a b : R) : round64 (fdiv a b) = fdiv a b.
Proof. unfold fdiv. apply round64_idem. Qed.

Lemma in_binades_3 : in_binades 2 3.
Proof. unfold in_binades. bpow_lit. lra. Qed.

Lemma in_binades_robots (n : Z) : 1 ≤ n ≤ MAX_ROBOTS → in_binades 5 (IZR n).
Proof.
  intros Hn. unfold in_binades. bpow_lit. unfold MAX_ROBOTS in Hn.
  assert (1 <= IZR n)%R by (apply IZR_le; lia).
  assert (IZR n <= 32)%R by (apply IZR_le; lia). lra.
Qed.

(** The quotients of the controller: each is a number, and the one that
    is cast is the exact quotient up to twelve roundings. *)
Lemma controller_chain (p : SystemParams) :
  in_binades 205 (robot_spacing p) → in_binades 200 (pX p) →
  in_binades 200 (pZ p) → in_binades 200 (robot_speed p) →
  in_binades 406 (fdiv (robot_spacing p) (pX p)) ∧
  in_binades 203 (fdiv (pZ p) 3) ∧
  in_binades 403 (fdiv (fdiv (pZ p) 3) (robot_speed p)) ∧
  within (one_ulp ^ 12)
    (robot_spacing p / pX p / (pZ p / 3 / robot_speed p))
    (fdiv (fdiv (robot_spacing p) (pX p))
       (fdiv (fdiv (pZ p) 3) (robot_speed p))).
Proof.
  intros Hs HX HZ Hv. pose proof in_binades_3 as H3.
  destruct (fdiv_within_pow 0 0 _ _ _ _ 205 200 ltac:(lia) ltac:(lia)
              ltac:(lia) ltac:(lia) ltac:(lia) Hs HX
              (within_exact _ _ Hs) (within_exact _ _ HX)) as [Htpr Rtpr].
  destruct (fdiv_within_pow 0 0 _ _ _ _ 200 2 ltac:(lia) ltac:(lia)
              ltac:(lia) ltac:(lia) ltac:(lia) HZ H3
              (within_exact _ _ HZ) (within_exact _ _ H3)) as [Havg Ravg].
  destruct (fdiv_within_pow 3 0 _ _ _ _ 202 200 ltac:(lia) ltac:(lia)
              ltac:(lia) ltac:(lia) ltac:(lia) Ravg Hv
              Havg (within_exact _ _ Hv)) as [Htpl Rtpl].
  destruct (fdiv_within_pow 3 6 _ _ _ _ 405 402 ltac:(lia) ltac:(lia)
              ltac:(lia) ltac:(lia) ltac:(lia) Rtpr Rtpl Htpr Htpl) as [Hq _].
  split; [exact (within_in_binades 3 405 _ _ ltac:(lia) Rtpr Htpr)|].
  split; [exact (within_in_binades 3 202 _ _ ltac:(lia) Ravg Havg)|].
  split; [exact (within_in_binades 6 402 _ _ ltac:(lia) Rtpl Htpl)|].
  exact Hq.
Qed.

(** On numbers the capacity of the controller is the cast of the rounded
    quotients. *)
Lemma mangos_per_robot_number (p : SystemParams) :
  in_binades 205 (robot_spacing p) → in_binades 200 (pX p) →
  in_binades 200 (pZ p) → in_binades 200 (robot_speed p) →
  mangos_per_robot p
  = let n := trunc_int (fdiv (fdiv (robot_spacing p) (pX p))
                          (fdiv (fdiv (pZ p) 3) (robot_speed p))) in
    if decide (n < 1) then 1 else n.
Proof.
  intros Hs HX HZ Hv.
  destruct (controller_chain p Hs HX HZ Hv) as (Htpr & Havg & Htpl & _).
  unfold mangos_per_robot. cbn zeta.
  rewrite (ddiv_number 205 200 (robot_spacing p) (pX p)) by (done || lia).
  rewrite (ddiv_number 200 2 (pZ p) 3) by (done || lia || exact in_binades_3).
  rewrite (ddiv_number 203 200 (fdiv (pZ p) 3) (robot_speed p)) by (done || lia).
  rewrite (ddiv_number 406 403 (fdiv (robot_spacing p) (pX p))) by (done || lia).
  by rewrite to_int_dbl, round64_fdiv.
Qed.

Lemma in_binades_1_5 : in_binades 1 1.5.
Proof. unfold in_binades. bpow_lit. lra. Qed.

(** The quotients of the batch estimator. *)
Lemma batch_chain (config : Simulator.SimulationConfig) :
  let p := Simulator.params config in
  let n := Simulator.num_robots config in
  1 ≤ n ≤ MAX_ROBOTS →
  in_binades 200 (pW p) → in_binades 200 (pX p) →
  in_binades 200 (pZ p) → in_binades 200 (robot_speed p) →
  in_binades 206 (fdiv (pW p) (IZR n)) ∧
  in_binades 406 (fdiv (fdiv (pW p) (IZR n)) (pX p)) ∧
  in_binades 401 (fdiv (pZ p) (robot_speed p)) ∧
  in_binades 402 (fdiv (fdiv (pZ p) (robot_speed p)) 1.5) ∧
  within (one_ulp ^ 15)
    (pW p / IZR n / pX p / (pZ p / robot_speed p / 1.5))
    (fdiv (fdiv (fdiv (pW p) (IZR n)) (pX p))
       (fdiv (fdiv (pZ p) (robot_speed p)) 1.5)).
Proof.
  intros p n Hn HW HX HZ Hv.
  pose proof (in_binades_robots n Hn) as Hn'. pose proof in_binades_1_5 as H15.
  destruct (fdiv_within_pow 0 0 _ _ _ _ 200 5 ltac:(lia) ltac:(lia)
              ltac:(lia) ltac:(lia) ltac:(lia) HW Hn'
              (within_exact _ _ HW) (within_exact _ _ Hn')) as [Hsp Rsp].
  destruct (fdiv_within_pow 3 0 _ _ _ _ 205 200 ltac:(lia) ltac:(lia)
              ltac:(lia) ltac:(lia) ltac:(lia) Rsp HX
              Hsp (within_exact _ _ HX)) as [Heff Reff].
  destruct (fdiv_within_pow 0 0 _ _ _ _ 200 200 ltac:(lia) ltac:(lia)
              ltac:(lia) ltac:(lia) ltac:(lia) HZ Hv
              (within_exact _ _ HZ) (within_exact _ _ Hv)) as [Hzs Rzs].
  destruct (fdiv_within_pow 3 0 _ _ _ _ 400 1 ltac:(lia) ltac:(lia)
              ltac:(lia) ltac:(lia) ltac:(lia) Rzs H15
              Hzs (within_exact _ _ H15)) as [Havg Ravg].
  destruct (fdiv_within_pow 6 6 _ _ _ _ 405 401 ltac:(lia) ltac:(lia)
              ltac:(lia) ltac:(lia) ltac:(lia) Reff Ravg Heff Havg) as [Hq _].
  split; [exact (within_in_binades 3 205 _ _ ltac:(lia) Rsp Hsp)|].
  split; [exact (within_in_binades 6 405 _ _ ltac:(lia) Reff Heff)|].
  split; [exact (within_in_binades 3 400 _ _ ltac:(lia) Rzs Hzs)|].
  split; [exact (within_in_binades 6 401 _ _ ltac:(lia) Ravg Havg)|].
  exact Hq.
Qed.

(** On numbers the capacity of a station is the cast of the rounded
    quotients. *)
Lemma mangos_per_station_number (config : Simulator.SimulationConfig) :
  let p := Simulator.params config in
  let n := Simulator.num_robots config in
  1 ≤ n ≤ MAX_ROBOTS →
  in_binades 200 (pW p) → in_binades 200 (pX p) →
  in_binades 200 (pZ p) → in_binades 200 (robot_speed p) →
  Simulator.mangos_per_station config
  = let c := trunc_int (fdiv (fdiv (fdiv (pW p) (IZR n)) (pX p))
                          (fdiv (fdiv (pZ p) (robot_speed p)) 1.5)) in
    if decide (c < 1) then 1 else c.
Proof.
  intros p n Hn HW HX HZ Hv.
  destruct (batch_chain config Hn HW HX HZ Hv) as (Hsp & Heff & Hzs & Havg & _).
  fold p n in Hsp, Heff, Hzs, Havg.
  unfold Simulator.mangos_per_station. cbn zeta. fold p n.
  rewrite (ddiv_number 200 5 (pW p) (IZR n))
    by (done || lia || exact (in_binades_robots n Hn)).
  rewrite (ddiv_number 206 200 (fdiv (pW p) (IZR n)) (pX p)) by (done || lia).
  rewrite (ddiv_number 200 200 (pZ p) (robot_speed p)) by (done || lia).
  rewrite (ddiv_number 401 1 (fdiv (pZ p) (robot_speed p)) 1.5)
    by (done || lia || exact in_binades_1_5).
  rewrite (ddiv_number 406 402 (fdiv (fdiv (pW p) (IZR n)) (pX p))) by (done || lia).
  by rewrite to_int_dbl, round64_fdiv.
Qed.

(** *** The capacities of concrete parameters *)

Lemma fdiv_50_3 : fdiv 50 3 = (IZR 4691249611844267 * bpow (-48))%R.
Proof.
  unfold fdiv. rewrite !round64_IZR by (cbn; lia).
  round64_at 5 4691249611844267. done.
Qed.

(** [(50 / 3) / 5], the time of a label of the controller on the default
    parameters. *)
Lemma time_per_label_default :
  fdiv (fdiv 50 3) 5 = (IZR 7505999378950827 * bpow (-51))%R.
Proof.
  unfold fdiv at 1. rewrite fdiv_50_3, (round64_IZR 5) by (cbn; lia).
  rewrite (round64_exact (_ * bpow (-48)) 4691249611844267 (-48)) by first [reflexivity|cbn; lia].
  round64_at 2 7505999378950827. done.
Qed.

(** [50 / 5 / 1.5], the time of a mango of the batch estimator on the
    default parameters. *)
Lemma time_per_mango_default :
  fdiv (fdiv 50 5) 1.5 = (IZR 7505999378950827 * bpow (-50))%R.
Proof.
  assert (fdiv 50 5 = 10%R) as ->.
  { unfold fdiv. rewrite !round64_IZR by (cbn; lia).
    replace (50 / 5)%R with 10%R by lra. apply round64_IZR. cbn. lia. }
  unfold fdiv. rewrite (round64_IZR 10) by (cbn; lia).
  rewrite (round64_exact 1.5 3 (-1)) by first [lia|cbn; lia|bpow_lit; lra].
  round64_at 3 7505999378950827. done.
Qed.

Lemma mangos_per_robot_default :
  mangos_per_robot (Simulator.params default_config) = 2.
Proof.
  rewrite mangos_per_robot_number
    by (unfold in_binades;
        cbn [Simulator.params default_config robot_spacing pX pZ robot_speed];
        bpow_lit; lra).
  cbn [Simulator.params default_config robot_spacing pX pZ robot_speed]. cbn zeta.
  replace (50 / 10)%R with 5%R by lra. rewrite time_per_label_default.
  assert (fdiv (300 / 4) 10 = (IZR 15 * bpow (-1))%R) as ->.
  { unfold fdiv. rewrite (round64_IZR 10) by (cbn; lia).
    rewrite (round64_exact (300 / 4) 75 0) by first [lia|cbn; lia|bpow_lit; lra].
    apply round64_value; [cbn; lia|lia|]. bpow_lit. lra. }
  unfold fdiv.
  rewrite (round64_exact (_ * bpow (-1)) 15 (-1)) by first [reflexivity|cbn; lia].
  rewrite (round64_exact (_ * bpow (-51)) 7505999378950827 (-51))
    by first [reflexivity|cbn; lia].
  round64_at 2 5066549580791808.
  apply (capacity_value _ 2); [unfold INT_MAX; lia|]. bpow_lit. lra.
Qed.

Lemma mangos_per_station_default : Simulator.mangos_per_station default_config = 1.
Proof.
  rewrite mangos_per_station_number
    by first [ cbn; unfold MAX_ROBOTS; lia
             | unfold in_binades;
               cbn [Simulator.params default_config pW pX pZ robot_speed];
               bpow_lit; lra ].
  cbn [Simulator.params Simulator.num_robots default_config pW pX pZ robot_speed].
  cbn zeta. replace (50 / 10)%R with 5%R by lra. rewrite time_per_mango_default.
  assert (fdiv (fdiv 300 4) 10 = (IZR 15 * bpow (-1))%R) as ->.
  { assert (fdiv 300 4 = 75%R) as ->.
    { unfold fdiv. rewrite !round64_IZR by (cbn; lia).
      replace (300 / 4)%R with 75%R by lra. apply round64_IZR. cbn. lia. }
    unfold fdiv. rewrite !round64_IZR by (cbn; lia).
    apply round64_value; [cbn; lia|lia|]. bpow_lit. lra. }
  unfold fdiv.
  rewrite (round64_exact (_ * bpow (-1)) 15 (-1)) by first [reflexivity|cbn; lia].
  rewrite (round64_exact (_ * bpow (-50)) 7505999378950827 (-50))
    by first [reflexivity|cbn; lia].
  round64_at 1 5066549580791808.
  apply (capacity_value _ 1); [unfold INT_MAX; lia|]. bpow_lit. lra.
Qed.

(** Rounding decides: for a window of [70 / 3] s with the default box
    and robot speed the exact quotient is 7, the quotient of the machine
    is [6.999999999999999], and the estimator of the controller gives 6. *)
Lemma mangos_per_robot_seven :
  mangos_per_robot seven_label_params = 6 ∧
  items_per_robot_spec
    (robot_spacing seven_label_params / pX seven_label_params)
    (pZ seven_label_params) (robot_speed seven_label_params) = 7.
Proof.
  split.
  - rewrite mangos_per_robot_number
      by (unfold in_binades;
          cbn [seven_label_params robot_spacing pX pZ robot_speed]; bpow_lit; lra).
    cbn [seven_label_params robot_spacing pX pZ robot_speed]. cbn zeta.
    rewrite time_per_label_default.
    assert (fdiv 70 3 = (IZR 6567749456581973 * bpow (-48))%R) as ->.
    { unfold fdiv. rewrite !round64_IZR by (cbn; lia).
      round64_at 5 6567749456581973. done. }
    unfold fdiv.
    rewrite (round64_exact (_ * bpow (-48)) 6567749456581973 (-48))
      by first [reflexivity|cbn; lia].
    rewrite (round64_exact (_ * bpow (-51)) 7505999378950827 (-51))
      by first [reflexivity|cbn; lia].
    round64_at 3 7881299347898367.
    apply (capacity_value _ 6); [unfold INT_MAX; lia|]. bpow_lit. lra.
  - unfold items_per_robot_spec. cbn [seven_label_params robot_spacing pX pZ robot_speed].
    replace (70 / 3 / (50 / 3 / 5))%R with 7%R by lra.
    rewrite (Int_part_eq _ 7) by lra. done.
Qed.

(** The same for the batch estimator: one robot on a belt of 280 cm at
    6 cm/s has an exact quotient of 7 and a capacity of 6. *)
Lemma mangos_per_station_seven : Simulator.mangos_per_station seven_label_config = 6.
Proof.
  rewrite mangos_per_station_number
    by first [ cbn; unfold MAX_ROBOTS; lia
             | unfold in_binades;
               cbn [Simulator.params seven_label_config pW pX pZ robot_speed];
               bpow_lit; lra ].
  cbn [Simulator.params Simulator.num_robots seven_label_config pW pX pZ robot_speed].
  cbn zeta. rewrite time_per_mango_default.
  assert (fdiv (fdiv 280 1) 6 = (IZR 6567749456581973 * bpow (-47))%R) as ->.
  { assert (fdiv 280 1 = 280%R) as ->.
    { unfold fdiv. rewrite !round64_IZR by (cbn; lia).
      replace (280 / 1)%R with 280%R by lra. apply round64_IZR. cbn. lia. }
    unfold fdiv. rewrite !round64_IZR by (cbn; lia).
    round64_at 6 6567749456581973. done. }
  unfold fdiv.
  rewrite (round64_exact (_ * bpow (-47)) 6567749456581973 (-47))
    by first [reflexivity|cbn; lia].
  rewrite (round64_exact (_ * bpow (-50)) 7505999378950827 (-50))
    by first [reflexivity|cbn; lia].
  round64_at 3 7881299347898367.
  apply (capacity_value _ 6); [unfold INT_MAX; lia|]. bpow_lit. lra.
Qed.

(** C5 as stated fails: on the default configuration (box size 50, robot
    speed 5, window 7.5 s) the estimator of the controller gives 2 items
    per robot, which is the value of the formula of the specification,
    and the batch estimator gives 1. *)
Lemma capacities_differ :
  let p := Simulator.params default_config in
  let window := (robot_spacing p / pX p)%R in
  mangos_per_robot p = items_per_robot_spec window (pZ p) (robot_speed p) ∧
  Simulator.mangos_per_station default_config
    ≠ items_per_robot_spec window (pZ p) (robot_speed p) ∧
  Simulator.mangos_per_station default_config ≠ mangos_per_robot p.
Proof.
  cbn zeta. rewrite mangos_per_robot_default, mangos_per_station_default.
  unfold items_per_robot_spec. cbn.
  replace (300 / 4 / 10 / (50 / 3 / (50 / 10)))%R with (9 / 4)%R by lra.
  rewrite (Int_part_eq _ 2) by lra. done.
Qed.

(** C5, amended. Both estimators cast a quotient of doubles to [int]
    and take 1 at least. For parameters between [2^-200] and [2^200],
    the same window [spacing / X] for both, and an exact quotient [q] of
    the window by the time per label [(Z / 3) / speed] below [2^30]: the
    quotient the controller casts is [q] up to a relative error of
    [2^-47], so its items per robot lie between the floors of
    [q (1 - 2^-47)] and [q (1 + 2^-47)], 1 at least, and are the items
    per robot of the specification when no integer lies between the two.
    The batch estimator divides by [Z / speed / 1.5], twice the time per
    label of the controller: its capacity is bounded in the same way
    with [q / 2] for [q], and it never exceeds the items per robot of
    the controller. *)
Theorem capacity_batch_vs_controller (config : Simulator.SimulationConfig) :
  let p := Simulator.params config in
  let n := Simulator.num_robots config in
  let window := (robot_spacing p / pX p)%R in
  let time_per_label := (pZ p / 3 / robot_speed p)%R in
  let q := (window / time_per_label)%R in
  let e := bpow (-47) in
  1 ≤ n ≤ MAX_ROBOTS →
  in_binades 200 (pW p) → in_binades 200 (pX p) →
  in_binades 200 (pZ p) → in_binades 200 (robot_speed p) →
  robot_spacing p = (pW p / IZR n)%R →
  (q < bpow 30)%R →
  (Z.max 1 (Int_part (q * (1 - e))) ≤ mangos_per_robot p
     ≤ Z.max 1 (Int_part (q * (1 + e)))) ∧
  (Int_part (q * (1 - e)) = Int_part (q * (1 + e)) →
     mangos_per_robot p = items_per_robot_spec window (pZ p) (robot_speed p)) ∧
  (Z.max 1 (Int_part (q / 2 * (1 - e))) ≤ Simulator.mangos_per_station config
     ≤ Z.max 1 (Int_part (q / 2 * (1 + e)))) ∧
  (Int_part (q / 2 * (1 - e)) = Int_part (q / 2 * (1 + e)) →
     Simulator.mangos_per_station config
       = Z.max 1 (Int_part (window / (2 * time_per_label)))) ∧
  Simulator.mangos_per_station config ≤ mangos_per_robot p.
Proof.
  intros p n window time_per_label q e Hn HW HX HZ Hv Hsame Hq.
  pose proof (in_binades_robots n Hn) as Hn'.
  assert (in_binades 205 (robot_spacing p)) as Hs.
  { rewrite Hsame. apply (in_binades_div 200 5); done. }
  pose proof (in_binades_pos _ _ Hs) as Hs0. pose proof (in_binades_pos _ _ HX) as HX0.
  pose proof (in_binades_pos _ _ HZ) as HZ0. pose proof (in_binades_pos _ _ Hv) as Hv0.
  assert (0 < time_per_label)%R as Ht.
  { unfold time_per_label. repeat apply Rdiv_lt_0_compat; lra. }
  assert (0 < window)%R as Hw by (unfold window; apply Rdiv_lt_0_compat; lra).
  assert (0 < q)%R as Hq0 by (unfold q; apply Rdiv_lt_0_compat; lra).
  assert (q / 2 = pW p / IZR n / pX p / (pZ p / robot_speed p / 1.5))%R as Hhalf.
  { unfold q, window, time_per_label. rewrite Hsame.
    replace 1.5%R with (3 / 2)%R by lra. field.
    pose proof (in_binades_pos _ _ Hn'). lra. }
  assert (window / (2 * time_per_label) = q / 2)%R as Hspec.
  { unfold q. field. lra. }
  destruct (controller_chain p Hs HX HZ Hv) as (_ & _ & _ & Hc).
  destruct (batch_chain config Hn HW HX HZ Hv) as (_ & _ & _ & _ & Hb).
  fold p n in Hb. rewrite <- Hhalf in Hb.
  fold window time_per_label q in Hc.
  destruct (capacity_bounds 12 q _ ltac:(lia) Hq0 Hq Hc) as [Hc1 Hc2].
  destruct (capacity_bounds 15 (q / 2) _ ltac:(lia) ltac:(lra) ltac:(lra) Hb)
    as [Hb1 Hb2].
  cbn zeta in Hc1, Hc2, Hb1, Hb2. fold e in Hc1, Hc2, Hb1, Hb2.
  pose proof (mangos_per_robot_number p Hs HX HZ Hv) as Hrobot.
  pose proof (mangos_per_station_number config Hn HW HX HZ Hv) as Hstation.
  cbn zeta in Hrobot, Hstation. fold p n in Hstation.
  rewrite <- Hrobot in Hc1, Hc2. rewrite <- Hstation in Hb1, Hb2.
  split; [exact Hc1|]. split; [exact Hc2|]. split; [exact Hb1|].
  split; [rewrite Hspec; exact Hb2|].
  assert (0 < e <= / 4)%R as He
    by (unfold e; split; [apply bpow_pos|bpow_lit; lra]).
  pose proof (Int_part_le (q / 2 * (1 + e)) (q * (1 - e)) ltac:(nra)). lia.
Qed.

Lemma capacity_batch_vs_controller_witness :
  let p := Simulator.params default_config in
  let n := Simulator.num_robots default_config in
  let q := (robot_spacing p / pX p / (pZ p / 3 / robot_speed p))%R in
  (1 ≤ n ≤ MAX_ROBOTS ∧
   in_binades 200 (pW p) ∧ in_binades 200 (pX p) ∧
   in_binades 200 (pZ p) ∧ in_binades 200 (robot_speed p) ∧
   robot_spacing p = (pW p / IZR n)%R ∧ (q < bpow 30)%R) ∧
  Simulator.mangos_per_station default_config ≤ mangos_per_robot p.
Proof.
  intros p n q.
  assert (1 ≤ n ≤ MAX_ROBOTS) as Hn by (cbn; unfold MAX_ROBOTS; lia).
  assert (in_binades 200 (pW p) ∧ in_binades 200 (pX p) ∧
          in_binades 200 (pZ p) ∧ in_binades 200 (robot_speed p)) as (HW & HX & HZ & Hv).
  { unfold in_binades, p.
    cbn [Simulator.params default_config pW pX pZ robot_speed].
    bpow_lit. lra. }
  assert (robot_spacing p = (pW p / IZR n)%R) as Hsame by reflexivity.
  assert (q < bpow 30)%R as Hq.
  { unfold q, p. cbn [Simulator.params default_config robot_spacing pX pZ robot_speed].
    bpow_lit. lra. }
  split; [done|].
  apply (capacity_batch_vs_controller default_config Hn HW HX HZ Hv Hsame Hq).
Defined.

End CapacityFacts.

(** ** The batch estimator: one box *)

Module BatchFacts.
Import Simulator ArrayFacts Scenario.

Lemma robot_set_labels_placed_same (r : Robot) :
  robot_set_labels_placed (labels_placed r + 0) r = r.
Proof. destruct r. unfold robot_set_labels_placed. cbn. by rewrite Z.add_0_r. Qed.

Lemma label_loop_spec (n : nat) (i c per_station l : Z) (robot : Robot) (box : Box) :
  Z.of_nat n = num_mangos box - i →
  0 ≤ i ≤ l →
  labeled_upto box l →
  0 ≤ c ≤ per_station →
  let k := Z.min (per_station - c) (num_mangos box - l) in
  ∃ box',
    label_loop n i per_station c robot box =
      Some (robot_set_labels_placed (labels_placed robot + k) robot, box') ∧
    labeled_upto box' (l + k) ∧
    num_mangos box' = num_mangos box ∧
    length (mangos box') = length (mangos box) ∧
    (∀ j, l ≤ j < l + k →
       aget (mangos box') j = labeled_by (robot_id robot) <$> aget (mangos box) j) ∧
    (∀ j, ¬ (l ≤ j < l + k) → aget (mangos box') j = aget (mangos box) j).
Proof.
  revert i c l robot box.
  induction n as [|n IH]; intros i c l robot box Hn Hi Hbox Hc k.
  - pose proof Hbox as (Hl & _).
    assert (k = 0) as Hk by (subst k; lia).
    rewrite Hk, robot_set_labels_placed_same, Z.add_0_r.
    exists box. cbn. split_and!; try done; intros; lia.
  - pose proof Hbox as (Hl & Hlen & Hcount & Hpre & Hrest).
    cbn [label_loop]. case_decide as Hcap.
    + destruct (aget_is_Some (mangos box) i) as [m Hm]; [lia|].
      rewrite Hm. cbn [mbind option_bind].
      case_decide as Hst.
      * (* the mango at [i] is unlabeled, so [i] is [l] *)
        assert (i = l) as ->.
        { destruct (decide (i = l)); [done|]. exfalso.
          apply (Hpre i m); [lia|done..]. }
        rewrite aset_Some by lia. cbn [mbind option_bind].
        set (box1 := box_set_labeled_count _ _).
        set (robot1 := robot_set_labels_placed _ _).
        destruct (IH (l + 1) (c + 1) (l + 1) robot1 box1)
          as (box' & Hrun & Hbox' & Hnum & Hlen' & Hin & Hout).
        { subst box1. cbn. lia. }
        { lia. }
        { subst box1. unfold labeled_upto. cbn. rewrite length_insert.
          split_and!; try lia.
          - intros j mj Hj Hmj. destruct (decide (j = l)) as [->|Hne].
            + rewrite aget_insert_eq in Hmj by lia. by simplify_eq.
            + rewrite aget_insert_ne in Hmj by lia. apply (Hpre j); [lia|done].
          - intros j mj Hj Hmj. rewrite aget_insert_ne in Hmj by lia.
            apply (Hrest j); [lia|done]. }
        { lia. }
        assert (Z.min (per_station - (c + 1)) (num_mangos box1 - (l + 1)) = k - 1) as Hk.
        { subst box1 k. cbn. lia. }
        cbn zeta in Hrun, Hbox', Hin, Hout. rewrite Hk in Hrun, Hbox', Hin, Hout.
        exists box'. split_and!.
        -- rewrite Hrun. subst robot1. unfold robot_set_labels_placed. cbn.
           do 3 f_equal. lia.
        -- by replace (l + k) with (l + 1 + (k - 1)) by lia.
        -- by rewrite Hnum.
        -- rewrite Hlen'. subst box1. cbn. by rewrite length_insert.
        -- intros j Hj. destruct (decide (j = l)) as [->|Hne].
           ++ rewrite Hout by lia. subst box1. cbn.
              rewrite aget_insert_eq by lia. by rewrite Hm.
           ++ rewrite Hin by lia. subst box1 robot1. cbn.
              by rewrite aget_insert_ne by lia.
        -- intros j Hj. rewrite Hout by lia. subst box1. cbn.
           by rewrite aget_insert_ne by lia.
      * (* the mango at [i] is labeled already *)
        assert (i < l) as Hlt.
        { destruct (decide (i < l)); [done|]. exfalso.
          apply Hst, (Hrest i m); [lia|done]. }
        destruct (IH (i + 1) c l robot box) as (box' & Hrun & H); try done; try lia.
        exists box'. split; [exact Hrun|exact H].
    + assert (k = 0) as Hk by (subst k; lia).
      rewrite Hk, robot_set_labels_placed_same, Z.add_0_r.
      exists box. split_and!; try done; intros; lia.
Qed.

Lemma working_ids_cons_skip rs i visited r :
  aget rs i = Some r → working r = false →
  working_ids rs (i :: visited) = working_ids rs visited.
Proof. intros Hr Hw. unfold working_ids. cbn. by rewrite Hr, Hw. Qed.

Lemma working_ids_cons_work rs i visited r :
  aget rs i = Some r → working r = true →
  working_ids rs (i :: visited) = robot_id r :: working_ids rs visited.
Proof. intros Hr Hw. unfold working_ids. cbn. by rewrite Hr, Hw. Qed.

Lemma working_ids_ext rs rs' visited :
  (∀ i, i ∈ visited → aget rs' i = aget rs i) →
  working_ids rs' visited = working_ids rs visited.
Proof.
  induction visited as [|i visited IH]; intros H; [done|].
  unfold working_ids in *. cbn. rewrite (H i) by left.
  rewrite IH; [done|]. intros j Hj. apply H. by right.
Qed.

Lemma elem_of_seqZ_ge m n i : i ∈ seqZ m n → m ≤ i.
Proof. intros H%elem_of_seqZ. lia. Qed.

Lemma seqZ_step (m : Z) (l : list Z) :
  l = seqZ (m + 1) (Z.of_nat (length l)) →
  m :: l = seqZ m (Z.of_nat (length (m :: l))).
Proof.
  intros H. cbn [length]. rewrite seqZ_cons by lia.
  f_equal. rewrite H at 1. f_equal; lia.
Qed.

Lemma working_false r :
  bool_decide (robot_state r = ROBOT_STATE_DISABLED) || has_failed r = true →
  working r = false.
Proof. unfold working. by intros ->. Qed.

Lemma working_true r :
  bool_decide (robot_state r = ROBOT_STATE_DISABLED) || has_failed r = false →
  working r = true.
Proof. unfold working. by intros ->. Qed.

(** The pass of a box along the robots from [idx] on, when [a] working
    robots have labeled [a * per_station] mangos before. *)
Lemma robot_loop_spec (n : nat) (idx per_station a : Z) (rs : list Robot) (box : Box) :
  1 ≤ per_station → 0 ≤ idx → idx + Z.of_nat n ≤ Z.of_nat (length rs) → 0 ≤ a →
  labeled_upto box (a * per_station) →
  (a = 0 ∨ a * per_station < num_mangos box) →
  ∃ rs' box' visited,
    robot_loop n idx per_station rs box = Some (rs', box', visited) ∧
    visited = seqZ idx (Z.of_nat (length visited)) ∧
    (length visited ≤ n)%nat ∧
    let ids := working_ids rs visited in
    let l' := Z.min (num_mangos box) ((a + Z.of_nat (length ids)) * per_station) in
    labeled_upto box' l' ∧
    num_mangos box' = num_mangos box ∧
    ((length visited < n)%nat → l' = num_mangos box) ∧
    (∀ j, a * per_station ≤ j < l' →
       ∃ rid, ids !! Z.to_nat (j `div` per_station - a) = Some rid ∧
              aget (mangos box') j = labeled_by rid <$> aget (mangos box) j) ∧
    (∀ j, ¬ (a * per_station ≤ j < l') → aget (mangos box') j = aget (mangos box) j) ∧
    length rs' = length rs ∧
    (∀ i, ¬ (idx ≤ i < idx + Z.of_nat n) → aget rs' i = aget rs i) ∧
    (∀ i r, aget rs i = Some r →
       ∃ d, 0 ≤ d ≤ per_station ∧ (working r = false → d = 0) ∧
            aget rs' i = Some (robot_set_labels_placed (labels_placed r + d) r)).
Proof.
  intros Hps. revert idx a rs box.
  induction n as [|n IH]; intros idx a rs box Hidx Hlen Ha Hbox Hopen.
  - exists rs, box, []. cbn.
    pose proof Hbox as (Hl & _).
    assert (Z.min (num_mangos box) ((a + Z.of_nat 0) * per_station) = a * per_station)
      as -> by lia.
    split_and!; try done; try lia.
    intros i r Hr. exists 0. rewrite robot_set_labels_placed_same.
    split_and!; try done; lia.
  - cbn [robot_loop].
    destruct (aget_is_Some rs idx) as [robot Hrobot]; [lia|].
    rewrite Hrobot. cbn [mbind option_bind].
    destruct (bool_decide (robot_state robot = ROBOT_STATE_DISABLED) || has_failed robot)
      eqn:Hskip.
    + (* the robot is disabled or has failed *)
      apply working_false in Hskip.
      destruct (IH (idx + 1) a rs box) as (rs' & box' & visited & Hrun & Hseq & Hvis & H);
        try done; try lia.
      rewrite Hrun. cbn [mbind option_bind].
      exists rs', box', (idx :: visited).
      rewrite (working_ids_cons_skip _ _ _ _ Hrobot Hskip).
      destruct H as (Hbox' & Hnum & Hstop & Hin & Hout & Hlrs & Hrout & Hrs).
      split_and!; try done.
      * by apply seqZ_step.
      * cbn. lia.
      * intros Hlt. apply Hstop. cbn in Hlt. lia.
      * intros i Hi. apply Hrout. lia.
    + (* the robot works *)
      apply working_true in Hskip.
      pose proof Hbox as (Hl & Hmlen & Hcount & _).
      destruct (label_loop_spec (Z.to_nat (num_mangos box)) 0 0 per_station
                  (a * per_station) robot box)
        as (box1 & Hlab & Hbox1 & Hnum1 & Hlen1 & Hin1 & Hout1); try done; try lia.
      rewrite Hlab. cbn [mbind option_bind].
      rewrite aset_Some by lia. cbn [mbind option_bind].
      rewrite Z.sub_0_r in *.
      set (k := Z.min per_station (num_mangos box - a * per_station)) in *.
      set (robot' := robot_set_labels_placed _ _).
      pose proof Hbox1 as (_ & _ & Hcount1 & _).
      case_decide as Hfull.
      * (* the box is complete *)
        exists (<[Z.to_nat idx := robot']> rs), box1, [idx].
        rewrite (working_ids_cons_work _ _ _ _ Hrobot Hskip).
        assert (Z.min (num_mangos box) ((a + 1) * per_station) = a * per_station + k)
          as Hl' by (subst k; lia).
        change (working_ids rs []) with (@nil Z).
        cbn [length]. cbn zeta.
        change (Z.of_nat 1) with 1. rewrite Hl'.
        split_and!; try done.
        -- lia.
        -- intros _. subst k. lia.
        -- intros j Hj. exists (robot_id robot). split; [|by apply Hin1].
           assert (j `div` per_station = a) as ->.
           { symmetry. apply (Z.div_unique j per_station a (j - a * per_station)); subst k; lia. }
           by rewrite Z.sub_diag.
        -- by rewrite length_insert.
        -- intros i Hi. by rewrite aget_insert_ne by lia.
        -- intros i r Hr. destruct (decide (i = idx)) as [->|Hne].
           ++ exists k. simplify_eq. rewrite aget_insert_eq by lia.
              split_and!; [subst k; lia..|intros Hw; by rewrite Hskip in Hw|done].
           ++ exists 0. rewrite aget_insert_ne by lia.
              rewrite robot_set_labels_placed_same. split_and!; try done; lia.
      * (* mangos are left: the robot has used its capacity *)
        assert (k = per_station) as Hk by (subst k; lia).
        set (rs1 := <[Z.to_nat idx := robot']> rs).
        destruct (IH (idx + 1) (a + 1) rs1 box1)
          as (rs' & box' & visited & Hrun & Hseq & Hvis & H); try lia.
        { subst rs1. rewrite length_insert. lia. }
        { by replace ((a + 1) * per_station) with (a * per_station + k) by lia. }
        rewrite Hrun. cbn [mbind option_bind].
        exists rs', box', (idx :: visited).
        assert (working_ids rs1 visited = working_ids rs visited) as Hids.
        { apply working_ids_ext. intros i Hi. rewrite Hseq in Hi.
          apply elem_of_seqZ_ge in Hi. subst rs1. by rewrite aget_insert_ne by lia. }
        rewrite Hids in H.
        rewrite (working_ids_cons_work _ _ _ _ Hrobot Hskip).
        cbn [length]. cbn zeta in *.
        replace (a + Z.of_nat (S (length (working_ids rs visited))))
          with (a + 1 + Z.of_nat (length (working_ids rs visited))) by lia.
        rewrite Hnum1 in H.
        set (l' := Z.min (num_mangos box) _) in *.
        destruct H as (Hbox' & Hnum & Hstop & Hin & Hout & Hlrs & Hrout & Hrs).
        assert (a * per_station + k ≤ l') as Hl1 by (subst l'; nia).
        split_and!; try done.
        -- by apply seqZ_step.
        -- cbn. lia.
        -- intros Hlt. apply Hstop. cbn in Hlt. lia.
        -- intros j Hj. destruct (decide (j < a * per_station + k)) as [Hj1|Hj1].
           ++ exists (robot_id robot).
              assert (j `div` per_station = a) as ->.
              { symmetry. apply (Z.div_unique j per_station a (j - a * per_station)); lia. }
              rewrite Z.sub_diag. split; [done|].
              rewrite Hout by lia. apply Hin1. lia.
           ++ destruct (Hin j) as (rid & Hrid & Hj2); [lia|].
              exists rid. split.
              ** assert (a + 1 ≤ j `div` per_station) as Hdiv.
                 { apply Z.div_le_lower_bound; lia. }
                 replace (Z.to_nat (j `div` per_station - a))
                   with (S (Z.to_nat (j `div` per_station - (a + 1)))) by lia.
                 done.
              ** rewrite Hj2. by rewrite Hout1 by lia.
        -- intros j Hj. destruct (decide (a * per_station ≤ j)).
           ++ rewrite Hout by lia. apply Hout1. lia.
           ++ rewrite Hout by lia. apply Hout1. lia.
        -- rewrite Hlrs. subst rs1. by rewrite length_insert.
        -- intros i Hi. rewrite Hrout by lia. subst rs1. by rewrite aget_insert_ne by lia.
        -- intros i r Hr. destruct (decide (i = idx)) as [->|Hne].
           ++ exists k. simplify_eq. rewrite Hrout by lia. subst rs1.
              rewrite aget_insert_eq by lia. split_and!; [lia..|intros Hw; by rewrite Hskip in Hw|done].
           ++ apply Hrs. subst rs1. by rewrite aget_insert_ne by lia.
Qed.

Lemma mangos_per_station_pos (config : SimulationConfig) :
  1 ≤ mangos_per_station config.
Proof. unfold mangos_per_station. cbn zeta. case_decide; lia. Qed.

Lemma robots_loop_spec (n : nat) (i : Z) (config : SimulationConfig)
    (spacing : R) (rs : list Robot) :
  0 ≤ i → i + Z.of_nat n ≤ Z.of_nat (length rs) →
  ∃ rs',
    robots_loop n i config spacing rs = Some rs' ∧
    length rs' = length rs ∧
    (∀ k, i ≤ k < i + Z.of_nat n →
       aget rs' k = Some (Controller.new_robot k (num_robots config) spacing
                            (failure_prob config))) ∧
    (∀ k, ¬ (i ≤ k < i + Z.of_nat n) → aget rs' k = aget rs k).
Proof.
  revert i rs. induction n as [|n IH]; intros i rs Hi Hn.
  - exists rs. split_and!; try done. intros; lia.
  - cbn [robots_loop]. rewrite aset_Some by lia. cbn [mbind option_bind].
    destruct (IH (i + 1) (<[Z.to_nat i := Controller.new_robot i (num_robots config)
                                              spacing (failure_prob config)]> rs))
      as (rs' & Hrun & Hlen & Hin & Hout); [lia|rewrite length_insert; lia|].
    exists rs'. split; [done|]. split_and!.
    + by rewrite Hlen, length_insert.
    + intros k Hk. destruct (decide (k = i)) as [->|Hne].
      * rewrite Hout by lia. by rewrite aget_insert_eq by lia.
      * apply Hin. lia.
    + intros k Hk. rewrite Hout by lia. by rewrite aget_insert_ne by lia.
Qed.


(** *** The axes of the robots of a run *)

Lemma mark_failed_fields (r : Robot) :
  robot_id (mark_failed r) = robot_id r ∧
  axis_position (mark_failed r) = axis_position r ∧
  is_backup (mark_failed r) = is_backup r ∧
  has_failed (mark_failed r) = true.
Proof. done. Qed.

Lemma lined_up_start (config : SimulationConfig) (total : Z) (spacing : R)
    (rs : list Robot) :
  0 ≤ num_robots config ≤ total →
  (∀ k, 0 ≤ k < total →
     aget rs k = Some (Controller.new_robot k (num_robots config) spacing
                         (failure_prob config))) →
  lined_up (num_robots config) total (λ k, ((IZR k + 0.5) * spacing)%R) rs.
Proof.
  intros Htotal Hrs. split.
  - intros k Hk. eexists. split; [apply Hrs; lia|].
    unfold Controller.new_robot. cbn. by rewrite !decide_True by lia.
  - intros k r Hk Hr Hst. rewrite Hrs in Hr by lia. injection Hr as <-.
    unfold Controller.new_robot in Hst. cbn in Hst.
    by rewrite decide_False in Hst by lia.
Qed.

(** A main robot fails. *)
Lemma lined_up_mark (n_main total i : Z) (axis : Z → R) (rs : list Robot)
    (robot : Robot) :
  0 ≤ i < n_main → aget rs i = Some robot →
  lined_up n_main total axis rs →
  lined_up n_main total axis (<[Z.to_nat i := mark_failed robot]> rs).
Proof.
  intros Hi Hrobot [Hmain Hbound]. pose proof (aget_lt _ _ _ Hrobot) as Hrange. split.
  - intros k Hk. destruct (decide (k = i)) as [->|Hne].
    + destruct (Hmain i Hi) as (r & Hr & Hid & Hax & Hb).
      assert (r = robot) as -> by congruence.
      exists (mark_failed robot). rewrite aget_insert_eq by lia. done.
    + rewrite aget_insert_ne by lia. by apply Hmain.
  - intros k r Hk Hr Hst. rewrite aget_insert_ne in Hr by lia.
    destruct (Hbound k r Hk Hr Hst) as (rf & Hf & Hrf & Hfailed & Hax).
    destruct (decide (replacing_robot r = i)) as [Heq|Hne].
    + exists (mark_failed robot). rewrite Heq in *.
      rewrite aget_insert_eq by lia.
      assert (rf = robot) as -> by congruence. done.
    + exists rf. by rewrite aget_insert_ne by lia.
Qed.

(** A backup is bound to the main robot [i], which has failed. *)
Lemma lined_up_bind (n_main total i j : Z) (axis : Z → R) (rs : list Robot)
    (failed r : Robot) :
  0 ≤ i < n_main → n_main ≤ j < total →
  aget rs i = Some failed → robot_id failed = i → has_failed failed = true →
  aget rs j = Some r →
  lined_up n_main total axis rs →
  lined_up n_main total axis
    (<[Z.to_nat j := Controller.bind_backup (robot_id failed) (axis_position failed) r]> rs).
Proof.
  intros Hi Hj Hfailed Hid Hhas Hr [Hmain Hbound].
  pose proof (aget_lt _ _ _ Hr) as Hrange. split.
  - intros k Hk. rewrite aget_insert_ne by lia. by apply Hmain.
  - intros k r0 Hk Hr0 Hst. destruct (decide (k = j)) as [->|Hne].
    + rewrite aget_insert_eq in Hr0 by lia. injection Hr0 as <-.
      exists failed. cbn [replacing_robot axis_position Controller.bind_backup
        robot_set_axis robot_set_replacing robot_set_state].
      rewrite Hid. rewrite aget_insert_ne by lia. done.
    + rewrite aget_insert_ne in Hr0 by lia.
      destruct (Hbound k r0 Hk Hr0 Hst) as (rf & Hf & Hrf & Hfl & Hax).
      exists rf. by rewrite aget_insert_ne by lia.
Qed.

(** The failures at the start of a run keep the roster lined up. *)
Lemma failure_loop_lined (n : nat) (i : Z) (config : SimulationConfig) (total : Z)
    (axis : Z → R) (rs rs' : list Robot) (fails acts fails' acts' : Z) (g g' : Rng) :
  0 ≤ i → i + Z.of_nat n ≤ num_robots config →
  num_robots config ≤ total → total ≤ Z.of_nat (length rs) →
  lined_up (num_robots config) total axis rs →
  failure_loop n i config total rs fails acts g = Some (rs', fails', acts', g') →
  lined_up (num_robots config) total axis rs'.
Proof.
  revert i rs fails acts g.
  induction n as [|n IH]; intros i rs fails acts g Hi Hn Htotal Hlen Hinv Hrun;
    cbn [failure_loop] in Hrun.
  - by injection Hrun as <- _ _ _.
  - destruct (proj1 Hinv i ltac:(lia)) as (robot & Hrobot & Hid & Hax & Hmain).
    rewrite Hrobot in Hrun. cbn [mbind option_bind] in Hrun. rewrite Hmain in Hrun.
    destruct (rand g) as [k g1]. case_decide as Hdraw.
    2: { apply (IH (i + 1) rs fails acts g1); (done || lia). }
    rewrite aset_Some in Hrun by lia. cbn [mbind option_bind] in Hrun.
    fold (mark_failed robot) in Hrun.
    set (rs1 := <[Z.to_nat i := mark_failed robot]> rs) in *.
    pose proof (lined_up_mark (num_robots config) total i axis rs robot ltac:(lia)
                  Hrobot Hinv) as Hinv1.
    fold rs1 in Hinv1.
    assert (length rs1 = length rs) as Hlen1 by (subst rs1; by rewrite length_insert).
    destruct (BackupFacts.backup_loop_char (Z.to_nat (total - num_robots config))
                (num_robots config) (mark_failed robot) rs1)
      as [(j & r & Hj & Hr & _ & _ & Hback)|[_ Hback]]; [lia|lia| |];
      rewrite Hback in Hrun; cbn [mbind option_bind] in Hrun.
    + apply (IH (i + 1) _ _ _ g1) in Hrun; try done; try lia.
      * rewrite length_insert. lia.
      * apply (lined_up_bind (num_robots config) total i j axis rs1
                 (mark_failed robot) r);
          try done; try lia.
        subst rs1. apply aget_insert_eq. lia.
    + apply (IH (i + 1) rs1 _ _ g1) in Hrun; (done || lia).
Qed.

(** One pass of the failure loop over a main robot that does not fail. *)
Lemma failure_loop_pass (n : nat) (i : Z) (config : SimulationConfig) (total : Z)
    (rs : list Robot) (fails acts : Z) (g : Rng) (robot : Robot) :
  aget rs i = Some robot → is_backup robot = false →
  ¬ (IZR (rand g).1 / IZR RAND_MAX < failure_prob config)%R →
  failure_loop (S n) i config total rs fails acts g
    = failure_loop n (i + 1) config total rs fails acts (rand g).2.
Proof.
  intros Hrobot Hmain Hdraw. cbn [failure_loop]. rewrite Hrobot.
  cbn [mbind option_bind]. rewrite Hmain. destruct (rand g) as [k g1].
  cbn [fst snd] in *. by rewrite decide_False.
Qed.

(** One pass of the failure loop over a main robot that fails. *)
Lemma failure_loop_fail (n : nat) (i : Z) (config : SimulationConfig) (total : Z)
    (rs rs2 : list Robot) (fails acts : Z) (g : Rng) (robot : Robot)
    (activated : bool) :
  aget rs i = Some robot → is_backup robot = false →
  (IZR (rand g).1 / IZR RAND_MAX < failure_prob config)%R →
  backup_loop (Z.to_nat (total - num_robots config)) (num_robots config)
    (mark_failed robot) (<[Z.to_nat i := mark_failed robot]> rs)
    = Some (rs2, activated) →
  failure_loop (S n) i config total rs fails acts g
    = failure_loop n (i + 1) config total rs2 (fails + 1)
        (if activated then acts + 1 else acts) (rand g).2.
Proof.
  intros Hrobot Hmain Hdraw Hback. cbn [failure_loop]. rewrite Hrobot.
  cbn [mbind option_bind]. rewrite Hmain. destruct (rand g) as [k g1].
  cbn [fst snd] in *. rewrite decide_True by done.
  rewrite aset_Some by (apply aget_lt in Hrobot; lia).
  cbn [mbind option_bind]. fold (mark_failed robot). by rewrite Hback.
Qed.

(** The run on which a backup works out of its place: the roster of 4
    main robots and 1 backup on the default belt, of which robot 1
    fails. *)
Lemma one_failure_roster :
  ∃ rs0 rs1 g',
    robots_loop 5 0 half_failure_config (300 / 4) (g_robots initial_globals)
      = Some rs0 ∧
    failure_loop 4 0 half_failure_config 5 rs0 0 0 second_draw_rng
      = Some (rs1, 1, 1, g') ∧
    (∀ k, k = 0 ∨ k = 2 ∨ k = 3 →
       aget rs1 k = Some (Controller.new_robot k 4 (300 / 4) 0.5)) ∧
    aget rs1 1 = Some (mark_failed (Controller.new_robot 1 4 (300 / 4) 0.5)) ∧
    aget rs1 4 = Some (Controller.bind_backup 1 ((1 + 0.5) * (300 / 4))
                         (Controller.new_robot 4 4 (300 / 4) 0.5)) ∧
    length rs1 = Z.to_nat MAX_ROBOTS.
Proof.
  assert (∃ rs0, robots_loop 5 0 half_failure_config (300 / 4)
                   (g_robots initial_globals) = Some rs0) as [rs0 Hrs0]
    by (eexists; reflexivity).
  pose proof Hrs0 as Hval. injection Hval as Hval.
  assert (0 < IZR RAND_MAX)%R as Hmax by (unfold RAND_MAX; lra).
  assert (∀ k : Z, k = 0 ∨ k = 1 ∨ k = 2 ∨ k = 3 ∨ k = 4 →
            aget rs0 k = Some (Controller.new_robot k 4 (300 / 4) 0.5)) as Hget.
  { intros k Hk. subst rs0. by destruct Hk as [->|[->|[->|[->| ->]]]]. }
  assert (length rs0 = Z.to_nat MAX_ROBOTS) as Hlen by (by subst rs0).
  clear Hval.
  assert (∀ g, (rand g).1 = RAND_MAX →
            ¬ (IZR (rand g).1 / IZR RAND_MAX < failure_prob half_failure_config)%R)
    as Hpass.
  { intros g ->. change (failure_prob half_failure_config) with 0.5%R.
    unfold Rdiv. rewrite Rinv_r by lra. lra. }
  set (failed := mark_failed (Controller.new_robot 1 4 (300 / 4) 0.5)).
  set (rsf := <[Z.to_nat 1 := failed]> rs0).
  set (rsb := <[Z.to_nat 4 :=
                  Controller.bind_backup (robot_id failed) (axis_position failed)
                    (Controller.new_robot 4 4 (300 / 4) 0.5)]> rsf).
  set (g1 := (rand second_draw_rng).2). set (g2 := (rand g1).2).
  assert (∀ k, k = 0 ∨ k = 2 ∨ k = 3 →
            aget rsb k = Some (Controller.new_robot k 4 (300 / 4) 0.5)) as Hlater.
  { intros k Hk. subst rsb rsf.
    rewrite !aget_insert_ne by (rewrite ?length_insert, ?Hlen; unfold MAX_ROBOTS; lia).
    apply Hget. lia. }
  assert (failure_loop 4 0 half_failure_config 5 rs0 0 0 second_draw_rng
          = Some (rsb, 1, 1, (rand (rand g2).2).2)) as Hrun.
  { (* robot 0 draws RAND_MAX and works on *)
    rewrite (failure_loop_pass 3 0 _ _ _ _ _ _ _ (Hget 0 ltac:(lia)) eq_refl
               (Hpass second_draw_rng eq_refl)).
    fold g1.
    (* robot 1 draws 0 and fails; the backup at index 4 is bound to it *)
    assert (backup_loop (Z.to_nat (5 - num_robots half_failure_config))
              (num_robots half_failure_config) failed rsf = Some (rsb, true)) as Hback.
    { change (Z.to_nat (5 - num_robots half_failure_config)) with 1%nat.
      change (num_robots half_failure_config) with 4. cbn [backup_loop].
      assert (aget rsf 4 = Some (Controller.new_robot 4 4 (300 / 4) 0.5)) as ->.
      { subst rsf. rewrite aget_insert_ne by (rewrite ?Hlen; unfold MAX_ROBOTS; lia).
        apply Hget. lia. }
      cbn [mbind option_bind].
      change (is_backup (Controller.new_robot 4 4 (300 / 4) 0.5)
              && bool_decide (robot_state (Controller.new_robot 4 4 (300 / 4) 0.5)
                              = ROBOT_STATE_DISABLED)) with true.
      cbv iota. rewrite aset_Some; [done|].
      subst rsf. rewrite length_insert, Hlen. unfold MAX_ROBOTS. lia. }
    change (0 + 1) with 1.
    rewrite (failure_loop_fail 2 1 _ _ _ rsb _ _ _ _ true (Hget 1 ltac:(lia)) eq_refl);
      [|change (rand g1).1 with 0;
        change (failure_prob half_failure_config) with 0.5%R; unfold RAND_MAX; lra
       |exact Hback].
    fold g2.
    (* robots 2 and 3 draw RAND_MAX and work on *)
    change (1 + 1) with 2.
    rewrite (failure_loop_pass 1 2 _ _ _ _ _ _ _ (Hlater 2 ltac:(lia)) eq_refl
               (Hpass g2 eq_refl)).
    rewrite (failure_loop_pass 0 (2 + 1) _ _ _ _ _ _ _ (Hlater 3 ltac:(lia)) eq_refl
               (Hpass (rand g2).2 eq_refl)).
    reflexivity. }
  exists rs0, rsb, (rand (rand g2).2).2.
  split; [exact Hrs0|]. split; [exact Hrun|]. split; [exact Hlater|]. split_and!.
  - subst rsb rsf.
    rewrite aget_insert_ne by (rewrite ?length_insert, ?Hlen; unfold MAX_ROBOTS; lia).
    apply aget_insert_eq. rewrite Hlen. unfold MAX_ROBOTS. lia.
  - subst rsb. rewrite aget_insert_eq
      by (subst rsf; rewrite ?length_insert, ?Hlen; unfold MAX_ROBOTS; lia).
    reflexivity.
  - subst rsb rsf. by rewrite !length_insert.
Qed.

Lemma fresh_replicate (box : Box) :
  mangos box = replicate (Z.to_nat MAX_MANGOS_PER_BOX) zero_mango →
  0 ≤ num_mangos box ≤ MAX_MANGOS_PER_BOX → labeled_count box = 0 → fresh box.
Proof.
  intros Hms Hn Hc. unfold fresh, labeled_upto. rewrite Hms, length_replicate.
  split_and!; try done; try lia.
  intros j m Hj [_ Hm]%aget_Some. by apply lookup_replicate in Hm as [-> _].
Qed.

Lemma fresh_two_mango_box : fresh two_mango_box.
Proof. apply fresh_replicate; cbn; unfold MAX_MANGOS_PER_BOX; (done || lia). Qed.

Lemma fresh_ten_mango_box : fresh ten_mango_box.
Proof. apply fresh_replicate; cbn; unfold MAX_MANGOS_PER_BOX; (done || lia). Qed.

Lemma working_ids_length (rs : list Robot) (visited : list Z) :
  (length (working_ids rs visited) ≤ length visited)%nat.
Proof.
  unfold working_ids. induction visited as [|i visited IH]; [done|].
  cbn. destruct (aget rs i) as [r|]; [destruct (working r)|]; cbn; lia.
Qed.

(** A box of ten mangos passes the roster on which robot 1 has failed
    and the backup, robot 4, stands in for it. *)
Lemma one_failure_pass (rs1 : list Robot) :
  (∀ k, k = 0 ∨ k = 2 ∨ k = 3 →
     aget rs1 k = Some (Controller.new_robot k 4 (300 / 4) 0.5)) →
  aget rs1 1 = Some (mark_failed (Controller.new_robot 1 4 (300 / 4) 0.5)) →
  aget rs1 4 = Some (Controller.bind_backup 1 ((1 + 0.5) * (300 / 4))
                       (Controller.new_robot 4 4 (300 / 4) 0.5)) →
  length rs1 = Z.to_nat MAX_ROBOTS →
  ∃ rs' box',
    robot_loop 5 0 (mangos_per_station half_failure_config) rs1 ten_mango_box
      = Some (rs', box', [0; 1; 2; 3; 4]) ∧
    working_ids rs1 [0; 1; 2; 3; 4] = [0; 2; 3; 4] ∧
    labeled_count box' = 4 ∧
    aget (mangos box') 2 = Some (labeled_by 3 zero_mango) ∧
    aget (mangos box') 3 = Some (labeled_by 4 zero_mango).
Proof.
  intros Hmain Hfailed Hbackup Hlen.
  change (mangos_per_station half_failure_config)
    with (mangos_per_station default_config).
  rewrite CapacityFacts.mangos_per_station_default.
  destruct (robot_loop_spec 5 0 1 0 rs1 ten_mango_box)
    as (rs' & box' & visited & Hrun & Hseq & Hvis & H);
    try lia; try (by left).
  { rewrite Hlen. unfold MAX_ROBOTS. lia. }
  { exact fresh_ten_mango_box. }
  cbn zeta in H. destruct H as (Hbox' & Hnum & Hstop & Hin & _).
  assert (working_ids rs1 [0; 1; 2; 3; 4] = [0; 2; 3; 4]) as Hids.
  { unfold working_ids. cbn [omap list_omap].
    rewrite (Hmain 0), Hfailed, (Hmain 2), (Hmain 3), Hbackup by lia. reflexivity. }
  assert (length (working_ids rs1 visited) ≤ 5)%nat as Hfew.
  { etrans; [apply working_ids_length|done]. }
  assert (length visited = 5%nat) as Hfive.
  { destruct (decide (length visited < 5)%nat) as [Hlt|]; [|lia].
    specialize (Hstop Hlt). cbn [num_mangos ten_mango_box] in Hstop. lia. }
  rewrite Hfive in Hseq. change (seqZ 0 (Z.of_nat 5)) with [0; 1; 2; 3; 4] in Hseq.
  subst visited. rewrite Hids in *. cbn [length num_mangos ten_mango_box] in *.
  change (Z.min 10 ((0 + Z.of_nat 4) * 1)) with 4 in *.
  exists rs', box'. split; [exact Hrun|]. split; [done|].
  split; [by destruct Hbox' as (_ & _ & -> & _)|].
  destruct (Hin 2 ltac:(lia)) as (rid2 & Hrid2 & Hm2).
  destruct (Hin 3 ltac:(lia)) as (rid3 & Hrid3 & Hm3).
  change (Z.to_nat (2 `div` 1 - 0)) with 2%nat in Hrid2.
  change (Z.to_nat (3 `div` 1 - 0)) with 3%nat in Hrid3.
  cbn in Hrid2, Hrid3. injection Hrid2 as <-. injection Hrid3 as <-.
  by rewrite Hm2, Hm3.
Qed.

(** C4 as stated fails: index order is not axis order. On the default
    belt with 4 main robots and 1 backup, robot 1 fails at the start of
    the run and the backup, robot 4, takes its axis at 112.5 cm. A box of
    ten mangos passes the robots in the order 0, 1, 2, 3, 4: robot 3, at
    262.5 cm, labels the mango 2 and robot 4 labels the mango 3 after it,
    although its axis comes before the one of robot 3 on the belt. *)
Lemma index_order_not_axis_order :
  ∃ rs0 rs1 g' rs' box' r3 r4 m2 m3,
    robots_loop 5 0 half_failure_config (300 / 4) (g_robots initial_globals)
      = Some rs0 ∧
    failure_loop 4 0 half_failure_config 5 rs0 0 0 second_draw_rng
      = Some (rs1, 1, 1, g') ∧
    robot_loop 5 0 (mangos_per_station half_failure_config) rs1 ten_mango_box
      = Some (rs', box', [0; 1; 2; 3; 4]) ∧
    aget rs1 3 = Some r3 ∧ aget rs1 4 = Some r4 ∧
    working r3 = true ∧ working r4 = true ∧
    aget (mangos box') 2 = Some m2 ∧ mango_state m2 = MANGO_LABELED ∧
    labeled_by_robot m2 = robot_id r3 ∧
    aget (mangos box') 3 = Some m3 ∧ mango_state m3 = MANGO_LABELED ∧
    labeled_by_robot m3 = robot_id r4 ∧
    (axis_position r4 < axis_position r3)%R.
Proof.
  destruct one_failure_roster
    as (rs0 & rs1 & g' & Hrs0 & Hrun & Hmain & Hfailed & Hbackup & Hlen).
  destruct (one_failure_pass rs1 Hmain Hfailed Hbackup Hlen)
    as (rs' & box' & Hpass & _ & _ & Hm2 & Hm3).
  eexists rs0, rs1, g', rs', box', _, _, _, _.
  split; [exact Hrs0|]. split; [exact Hrun|]. split; [exact Hpass|].
  split; [apply Hmain; lia|]. split; [exact Hbackup|].
  split; [reflexivity|]. split; [reflexivity|].
  split; [exact Hm2|]. split; [reflexivity|]. split; [reflexivity|].
  split; [exact Hm3|]. split; [reflexivity|]. split; [reflexivity|].
  unfold Controller.new_robot, Controller.bind_backup. cbn.
  rewrite decide_True by lia. lra.
Qed.

(** C4, amended. In the batch estimator a fresh box passes the robots in
    ascending index order, from robot 0 on. With [A] the number of
    visited robots that are neither disabled nor failed, the box ends with
    [min(num_mangos, A * mangos_per_station)] labeled mangos, never more
    than it has, and the pass stops before the last robot only when the
    box is complete. The labeled mangos are the first ones of the array:
    mango [j] carries the label of the working robot number
    [j / mangos_per_station] among the visited ones, so every working
    robot labels at most [mangos_per_station] mangos, taken in ascending
    index order; the other mangos are untouched. A robot places at most
    [mangos_per_station] labels, none when it is disabled or failed, and
    nothing else of it changes. Index order is axis order among the main
    robots only: on the roster [init_simulation] lays out, after the
    failures at the start of the run, the axes of the main robots
    ascend with their indices, and a backup that was bound stands at the
    axis of the failed main robot it replaces, though its index comes
    after those of all main robots. *)
Theorem batch_box_allocation (config : SimulationConfig) :
  let per_station := mangos_per_station config in
  (∀ (rs : list Robot) (box : Box) (n_robots : Z),
     fresh box →
     0 ≤ n_robots ≤ Z.of_nat (length rs) →
     ∃ rs' box' visited,
       robot_loop (Z.to_nat n_robots) 0 per_station rs box = Some (rs', box', visited) ∧
       visited = seqZ 0 (Z.of_nat (length visited)) ∧
       Z.of_nat (length visited) ≤ n_robots ∧
       let ids := working_ids rs visited in
       labeled_count box' = Z.min (num_mangos box) (Z.of_nat (length ids) * per_station) ∧
       labeled_count box' ≤ num_mangos box ∧
       num_mangos box' = num_mangos box ∧
       (Z.of_nat (length visited) < n_robots → labeled_count box' = num_mangos box) ∧
       (∀ j, 0 ≤ j < labeled_count box' →
          ∃ rid, ids !! Z.to_nat (j `div` per_station) = Some rid ∧
                 aget (mangos box') j = labeled_by rid <$> aget (mangos box) j) ∧
       (∀ j, ¬ (0 ≤ j < labeled_count box') →
          aget (mangos box') j = aget (mangos box) j) ∧
       (∀ i r, aget rs i = Some r →
          ∃ d, 0 ≤ d ≤ per_station ∧ (working r = false → d = 0) ∧
               aget rs' i = Some (robot_set_labels_placed (labels_placed r + d) r))) ∧
  (∀ (robots rs0 rs : list Robot) (fails acts : Z) (g g' : Rng),
     let n := num_robots config in
     let total := n + num_backup config in
     let spacing := (pW (params config) / IZR n)%R in
     1 ≤ n → 0 ≤ num_backup config → total ≤ Z.of_nat (length robots) →
     (0 < pW (params config))%R →
     robots_loop (Z.to_nat total) 0 config spacing robots = Some rs0 →
     (rs = rs0 ∨
      failure_loop (Z.to_nat n) 0 config total rs0 0 0 g = Some (rs, fails, acts, g')) →
     (∀ i j ri rj, 0 ≤ i < j → j < n →
        aget rs i = Some ri → aget rs j = Some rj →
        (axis_position ri < axis_position rj)%R) ∧
     (∀ k r, n ≤ k < total → aget rs k = Some r →
        robot_state r = ROBOT_STATE_BACKUP →
        ∃ rf, 0 ≤ replacing_robot r < n ∧
              aget rs (replacing_robot r) = Some rf ∧
              has_failed rf = true ∧ axis_position r = axis_position rf)).
Proof.
  intros per_station. split.
  - intros rs box n_robots Hfresh Hn.
    pose proof (mangos_per_station_pos config) as Hps. fold per_station in Hps.
    destruct (robot_loop_spec (Z.to_nat n_robots) 0 per_station 0 rs box)
      as (rs' & box' & visited & Hrun & Hseq & Hvis & H);
      try done; try lia; try (by left).
    exists rs', box', visited. cbn zeta in *.
    rewrite Z.add_0_l, Z.mul_0_l in H.
    destruct H as (Hbox' & Hnum & Hstop & Hin & Hout & _ & _ & Hrs).
    pose proof Hbox' as (_ & _ & Hcount & _).
    rewrite Hcount.
    split_and!; try done; try lia.
    intros j Hj. destruct (Hin j Hj) as (rid & Hrid & Hm).
    exists rid. by rewrite Z.sub_0_r in Hrid.
  - intros robots rs0 rs fails acts g g' n total spacing Hn Hnb Hlen HW Hrs0 Hrun.
    destruct (robots_loop_spec (Z.to_nat total) 0 config spacing robots)
      as (rs0' & Hrs0' & Hlen0 & Hin0 & _); [lia|lia|].
    rewrite Hrs0 in Hrs0'. injection Hrs0' as <-.
    assert (lined_up n total (λ k, ((IZR k + 0.5) * spacing)%R) rs0) as Hstart.
    { apply lined_up_start; [lia|]. intros k Hk. apply Hin0. lia. }
    assert (lined_up n total (λ k, ((IZR k + 0.5) * spacing)%R) rs) as [Hmain Hbound].
    { destruct Hrun as [->|Hrun]; [done|].
      apply (failure_loop_lined (Z.to_nat n) 0 config total _ rs0 rs 0 0 fails acts
               g g'); [lia|fold n; lia|fold n; lia|lia|exact Hstart|exact Hrun]. }
    split; [|exact Hbound].
    intros i j ri rj Hi Hj Hri Hrj.
    destruct (Hmain i ltac:(lia)) as (ri' & Hri' & _ & Hai & _).
    destruct (Hmain j ltac:(lia)) as (rj' & Hrj' & _ & Haj & _).
    assert (ri' = ri) as -> by congruence. assert (rj' = rj) as -> by congruence.
    rewrite Hai, Haj.
    assert (0 < spacing)%R as Hsp.
    { unfold spacing. apply Rdiv_lt_0_compat; [done|]. apply IZR_lt. lia. }
    assert (IZR i < IZR j)%R as Hij by (apply IZR_lt; lia). nra.
Qed.

Lemma batch_box_allocation_witness :
  ∃ rs0 rs1 g' rs' box' visited r4 rf r0 r2,
    robots_loop 5 0 half_failure_config (300 / 4) (g_robots initial_globals)
      = Some rs0 ∧
    failure_loop 4 0 half_failure_config 5 rs0 0 0 second_draw_rng
      = Some (rs1, 1, 1, g') ∧
    fresh ten_mango_box ∧
    robot_loop 5 0 (mangos_per_station half_failure_config) rs1 ten_mango_box
      = Some (rs', box', visited) ∧
    labeled_count box'
      = Z.min 10 (Z.of_nat (length (working_ids rs1 visited))
                  * mangos_per_station half_failure_config) ∧
    aget rs1 4 = Some r4 ∧ robot_state r4 = ROBOT_STATE_BACKUP ∧
    aget rs1 (replacing_robot r4) = Some rf ∧ has_failed rf = true ∧
    axis_position r4 = axis_position rf ∧
    aget rs1 0 = Some r0 ∧ aget rs1 2 = Some r2 ∧
    (axis_position r0 < axis_position r2)%R.
Proof.
  destruct one_failure_roster
    as (rs0 & rs1 & g' & Hrs0 & Hrun & Hmain & Hfailed & Hbackup & Hlen).
  destruct (batch_box_allocation half_failure_config) as [Hpass Haxes].
  destruct (Hpass rs1 ten_mango_box 5 fresh_ten_mango_box
              ltac:(rewrite Hlen; unfold MAX_ROBOTS; lia))
    as (rs' & box' & visited & Hloop & _ & _ & Hcount & _).
  cbn zeta in Haxes.
  assert (num_robots half_failure_config + num_backup half_failure_config
          ≤ Z.of_nat (length (g_robots initial_globals))) as Hfit.
  { cbn [g_robots initial_globals]. rewrite length_replicate.
    cbn. unfold MAX_ROBOTS. lia. }
  destruct (Haxes (g_robots initial_globals) rs0 rs1 1 1 second_draw_rng g'
              ltac:(cbn; lia) ltac:(cbn; lia) Hfit ltac:(cbn; lra)
              Hrs0 (or_intror Hrun)) as [Hasc Hbound].
  destruct (Hbound 4 _ ltac:(cbn; lia) Hbackup eq_refl) as (rf & _ & Hrf & Hfl & Hax).
  eexists rs0, rs1, g', rs', box', visited, _, rf, _, _.
  split; [exact Hrs0|]. split; [exact Hrun|]. split; [exact fresh_ten_mango_box|].
  split; [exact Hloop|]. split; [exact Hcount|].
  split; [exact Hbackup|]. split; [reflexivity|].
  split; [exact Hrf|]. split; [exact Hfl|]. split; [exact Hax|].
  split; [apply Hmain; lia|]. split; [apply Hmain; lia|].
  apply (Hasc 0 2); [lia|cbn; lia|apply Hmain; lia|apply Hmain; lia].
Defined.

End BatchFacts.

(** ** The generator of boxes *)

Module GeneratorFacts.
Import Placement ArrayFacts Scenario.

Lemma rand_range (g : Rng) : 0 ≤ (rand g).1 ≤ RAND_MAX.
Proof.
  unfold rand, RAND_MAX. cbn.
  pose proof (Z.mod_pos_bound (rng_stream g (rng_pos g)) (2147483647 + 1)). lia.
Qed.

Lemma rand_pos (g : Rng) : rng_pos (rand g).2 = S (rng_pos g).
Proof. done. Qed.

Lemma rand_stream (g : Rng) : rng_stream (rand g).2 = rng_stream g.
Proof. done. Qed.

Lemma unit_fraction (n : Z) : 0 ≤ n ≤ RAND_MAX → (0 <= IZR n / IZR RAND_MAX <= 1)%R.
Proof.
  intros [H0 H1]. apply IZR_le in H0, H1.
  assert (0 < IZR RAND_MAX)%R by (unfold RAND_MAX; lra).
  split.
  - apply Rle_mult_inv_pos; lra.
  - apply (Rmult_le_reg_r (IZR RAND_MAX)); [done|].
    unfold Rdiv. rewrite Rmult_assoc, Rinv_l by lra. lra.
Qed.

Lemma random_range_bounds (lo hi : R) (g : Rng) :
  (lo <= hi)%R → (lo <= (random_range lo hi g).1 <= hi)%R.
Proof.
  intros H. unfold random_range.
  pose proof (rand_range g) as Hr. destruct (rand g) as [n g']. cbn in *.
  pose proof (unit_fraction n Hr) as [H0 H1].
  generalize dependent (IZR n / IZR RAND_MAX)%R. intros u H0 H1. nra.
Qed.

Lemma random_range_pos (lo hi : R) (g : Rng) :
  rng_pos (random_range lo hi g).2 = S (rng_pos g).
Proof. done. Qed.

Lemma random_int_bounds (lo hi : Z) (g : Rng) :
  lo ≤ hi →
  ∃ k g', random_int lo hi g = Some (k, g') ∧ lo ≤ k ≤ hi.
Proof.
  intros H. unfold random_int.
  pose proof (rand_range g) as Hr. destruct (rand g) as [n g']. cbn in *.
  rewrite decide_False by lia. eexists _, _. split; [done|].
  pose proof (Z.rem_bound_pos n (hi - lo + 1)). lia.
Qed.

(** The check against the mangos placed before: when it accepts, the
    mango [i] is at least [min_distance] away from each of them. *)
Lemma check_loop_spec (n : nat) (j i : Z) (min_distance : R) (ms : list Mango) :
  0 ≤ j → j + Z.of_nat n = i → i < Z.of_nat (length ms) →
  ∃ v, check_loop n j i min_distance ms = Some v ∧
       (v = true → ∀ k mi mk, j ≤ k < i → aget ms i = Some mi → aget ms k = Some mk →
          (min_distance <= distance (mango_x mi) (mango_y mi) (mango_x mk) (mango_y mk))%R).
Proof.
  revert j. induction n as [|n IH]; intros j Hj Hn Hi.
  - exists true. split; [done|]. intros; lia.
  - cbn [check_loop].
    destruct (aget_is_Some ms i) as [mi Hmi]; [lia|].
    destruct (aget_is_Some ms j) as [mj Hmj]; [lia|].
    rewrite Hmi, Hmj. cbn [mbind option_bind]. case_decide as Hd.
    + exists false. done.
    + destruct (IH (j + 1)) as (v & Hv & Hfar); try lia.
      exists v. split; [done|]. intros -> k mi' mk Hk Hmi' Hmk.
      destruct (decide (k = j)) as [->|Hne].
      * simplify_eq. lra.
      * apply (Hfar eq_refl k mi' mk); [lia|congruence|done].
Qed.

Lemma place_loop_spec (fuel : nat) (valid : bool) (i : Z) (lo hi min_distance : R)
    (ms : list Mango) (g : Rng) :
  (lo <= hi)%R → 0 ≤ i < Z.of_nat (length ms) →
  ∃ ms' v g' m m',
    place_loop fuel valid i lo hi min_distance ms g = Some (ms', v, g') ∧
    length ms' = length ms ∧
    (∀ k, k ≠ i → aget ms' k = aget ms k) ∧
    aget ms i = Some m ∧ aget ms' i = Some m' ∧ same_but_position m m' ∧
    (valid = false → (0 < fuel)%nat → in_square lo hi m') ∧
    (valid = false → v = true → far_from_earlier min_distance ms' i) ∧
    (valid = false → v = false → rng_pos g' = (rng_pos g + 2 * fuel)%nat) ∧
    (valid = false → (0 < fuel)%nat → (rng_pos g + 2 ≤ rng_pos g')%nat) ∧
    (rng_pos g' ≤ rng_pos g + 2 * fuel)%nat.
Proof.
  intros Hlo Hi. revert valid ms g Hi.
  induction fuel as [|fuel IH]; intros valid ms g Hi.
  - destruct (aget_is_Some ms i) as [m Hm]; [lia|].
    exists ms, valid, g, m, m. cbn.
    split_and!; try done; try lia; intros; first [lia | congruence].
  - cbn [place_loop]. destruct valid.
    { destruct (aget_is_Some ms i) as [m Hm]; [lia|].
      exists ms, true, g, m, m. split_and!; try done; lia. }
    pose proof (random_range_bounds lo hi g Hlo) as Hx.
    pose proof (random_range_pos lo hi g) as Hpx.
    destruct (random_range lo hi g) as [px g1]. cbn in Hx, Hpx.
    pose proof (random_range_bounds lo hi g1 Hlo) as Hy.
    pose proof (random_range_pos lo hi g1) as Hpy.
    destruct (random_range lo hi g1) as [py g2]. cbn in Hy, Hpy.
    destruct (aget_is_Some ms i) as [m Hm]; [lia|].
    rewrite Hm. cbn [mbind option_bind].
    rewrite aset_Some by lia. cbn [mbind option_bind].
    set (ms1 := <[Z.to_nat i := mango_set_xy px py m]> ms).
    assert (length ms1 = length ms) as Hlen1 by (subst ms1; by rewrite length_insert).
    destruct (check_loop_spec (Z.to_nat i) 0 i min_distance ms1) as (v1 & Hv1 & Hfar1);
      try lia.
    rewrite Hv1. cbn [mbind option_bind].
    destruct (IH v1 ms1 g2) as (ms' & v & g' & m1 & m' & Hrun & Hlen & Hother & Hm1 & Hm' & Hsame & Hsq & Hfar & Hpos & Hposge & Hposle);
      [lia|].
    assert (m1 = mango_set_xy px py m) as ->.
    { subst ms1. rewrite aget_insert_eq in Hm1 by lia. by simplify_eq. }
    exists ms', v, g', m, m'. rewrite Hrun. split_and!; try done.
    + congruence.
    + intros k Hk. rewrite Hother by done. subst ms1. by rewrite aget_insert_ne by lia.
    + intros _ _. destruct fuel as [|fuel'].
      * cbn in Hrun. simplify_eq. by split.
      * destruct v1.
        -- cbn in Hrun. simplify_eq. by split.
        -- apply Hsq; [done|lia].
    + intros _ ->. destruct v1.
      * destruct fuel; cbn in Hrun; simplify_eq;
          intros k mi mk Hk Hmi Hmk; apply (Hfar1 eq_refl k mi mk); [lia|done..].
      * by apply Hfar.
    + intros _ ->. destruct v1.
      * destruct fuel; cbn in Hrun; simplify_eq.
      * rewrite Hpos by done. lia.
    + intros _ _. destruct v1.
      * destruct fuel; cbn in Hrun; simplify_eq; lia.
      * destruct fuel as [|fuel']; [cbn in Hrun; simplify_eq; lia|].
        specialize (Hposge eq_refl ltac:(lia)). lia.
    + lia.
Qed.

(** The mangos the generator writes: fresh, inside the square, and each
    either far enough from all the mangos before it or warned about.
    Every mango costs at least one attempt, two draws, and a mango
    warned about all the attempts there are. *)
Lemma fill_mangos_spec (n : nat) (i : Z) (lo hi min_distance : R)
    (ms : list Mango) (warned : list Z) (g : Rng) :
  (lo <= hi)%R → 0 ≤ i → i + Z.of_nat n ≤ Z.of_nat (length ms) →
  ∃ ms' new g',
    fill_mangos n i lo hi min_distance ms warned g = Some (ms', warned ++ new, g') ∧
    length ms' = length ms ∧
    (∀ k, ¬ (i ≤ k < i + Z.of_nat n) → aget ms' k = aget ms k) ∧
    (∀ k, k ∈ new → i ≤ k < i + Z.of_nat n) ∧
    (rng_pos g + 2 * n + 2 * (max_attempts - 1) * length new ≤ rng_pos g')%nat ∧
    (∀ k, i ≤ k < i + Z.of_nat n →
       ∃ m, aget ms' k = Some m ∧
            mango_id m = k ∧ mango_state m = MANGO_UNLABELED ∧
            labeled_by_robot m = -1 ∧ label_time m = 0%R ∧
            in_square lo hi m ∧
            (far_from_earlier min_distance ms' k ∨ k ∈ new)).
Proof.
  intros Hlo. revert i ms warned g.
  induction n as [|n IH]; intros i ms warned g Hi Hn.
  - exists ms, [], g. cbn. rewrite app_nil_r.
    split_and!; try done; try lia; intros;
      first [lia | by match goal with H : _ ∈ [] |- _ => apply elem_of_nil in H end].
  - cbn [fill_mangos].
    destruct (aget_is_Some ms i) as [m Hm]; [lia|].
    rewrite Hm. cbn [mbind option_bind].
    rewrite aset_Some by lia. cbn [mbind option_bind].
    set (m1 := mango_set_label_time _ _).
    set (ms1 := <[Z.to_nat i := m1]> ms).
    assert (length ms1 = length ms) as Hlen1 by (subst ms1; by rewrite length_insert).
    destruct (place_loop_spec max_attempts false i lo hi min_distance ms1 g)
      as (ms2 & valid & g1 & m1' & m2 & Hrun & Hlen2 & Hother2 & Hm1 & Hm2 & Hsame
          & Hsq & Hfar & Hpos & Hposge & _); [done|lia|].
    assert (m1' = m1) as ->.
    { subst ms1. rewrite aget_insert_eq in Hm1 by lia. by simplify_eq. }
    rewrite Hrun. cbn [mbind option_bind].
    set (warned1 := if valid then warned else warned ++ [i]).
    destruct (IH (i + 1) ms2 warned1 g1)
      as (ms' & new & g' & Hrest & Hlen' & Hother' & Hnew & Hdraws & Hin); try lia.
    exists ms', ((if valid then [] else [i]) ++ new), g'.
    assert (warned1 ++ new = warned ++ (if valid then [] else [i]) ++ new) as <-.
    { subst warned1. destruct valid; [done|]. by rewrite <- app_assoc. }
    split; [exact Hrest|].
    assert (aget ms' i = Some m2) as Hfinal.
    { rewrite Hother' by lia. done. }
    split_and!.
    + congruence.
    + intros k Hk. rewrite Hother' by lia. rewrite Hother2 by lia.
      subst ms1. by rewrite aget_insert_ne by lia.
    + intros k [Hk|Hk]%elem_of_app.
      * destruct valid; [by apply elem_of_nil in Hk|].
        apply list_elem_of_singleton in Hk. lia.
      * apply Hnew in Hk. lia.
    + specialize (Hposge eq_refl ltac:(unfold max_attempts; lia)).
      rewrite length_app. destruct valid; cbn [length].
      * lia.
      * specialize (Hpos eq_refl eq_refl). unfold max_attempts in *. lia.
    + intros k Hk. destruct (decide (k = i)) as [->|Hne].
      * exists m2. destruct Hsame as (Hid & Hst & Hby & Htime).
        split_and!; try done.
        -- by apply Hsq; [|unfold max_attempts; lia].
        -- destruct valid.
           ++ left. intros k mi mk Hk' Hmi Hmk.
              apply (Hfar eq_refl eq_refl k mi mk); [lia|..].
              ** by rewrite <- Hother' by lia.
              ** by rewrite <- Hother' by lia.
           ++ right. apply elem_of_app. left. by apply list_elem_of_singleton.
      * destruct (Hin k) as (mk & Hmk & Hrest'); [lia|].
        exists mk. split; [done|].
        destruct Hrest' as (? & ? & ? & ? & ? & [?|?]); split_and!; try done.
        -- by left.
        -- right. apply elem_of_app. by right.
Qed.

(** The placement only reads the random stream further on. *)
Lemma random_int_stream lo hi g k g' :
  random_int lo hi g = Some (k, g') → rng_stream g' = rng_stream g.
Proof. unfold random_int. cbn. case_decide; [done|]. by intros [= _ <-]. Qed.

Lemma place_loop_stream fuel valid i lo hi min_distance ms g ms' v g' :
  place_loop fuel valid i lo hi min_distance ms g = Some (ms', v, g') →
  rng_stream g' = rng_stream g.
Proof.
  revert valid ms g. induction fuel as [|fuel IH]; intros valid ms g; cbn [place_loop].
  - by intros [= _ _ <-].
  - destruct valid; [by intros [= _ _ <-]|].
    change (random_range lo hi g) with
      ((lo + IZR (rand g).1 / IZR RAND_MAX * (hi - lo))%R, (rand g).2).
    cbv beta iota zeta.
    change (random_range lo hi (rand g).2) with
      ((lo + IZR (rand (rand g).2).1 / IZR RAND_MAX * (hi - lo))%R, (rand (rand g).2).2).
    cbv beta iota zeta.
    destruct (aget ms i) as [m|]; [cbn [mbind option_bind]|done].
    destruct (aset ms i _) as [ms1|]; [cbn [mbind option_bind]|done].
    destruct (check_loop _ _ _ _ _) as [v1|]; [cbn [mbind option_bind]|done].
    intros H. by rewrite (IH _ _ _ H).
Qed.

Lemma fill_mangos_stream n i lo hi min_distance ms warned g ms' warned' g' :
  fill_mangos n i lo hi min_distance ms warned g = Some (ms', warned', g') →
  rng_stream g' = rng_stream g.
Proof.
  revert i ms warned g. induction n as [|n IH]; intros i ms warned g; cbn [fill_mangos].
  - by intros [= _ _ <-].
  - destruct (aget ms i) as [m|]; [cbn [mbind option_bind]|done].
    destruct (aset ms i _) as [ms1|]; [cbn [mbind option_bind]|done].
    destruct (place_loop _ _ _ _ _ _ _ _) as [[[ms2 valid] g1]|] eqn:Hplace;
      [cbn [mbind option_bind]|done].
    intros H. rewrite (IH _ _ _ _ H). by eapply place_loop_stream.
Qed.



End GeneratorFacts.

(** ** The batch estimator: a whole run *)

Module RunFacts.
Import Placement Simulator ArrayFacts GeneratorFacts Scenario.

(** The boxes [generate_all_boxes] writes. *)
Lemma boxes_loop_spec (n : nat) (b : Z) (config : SimulationConfig)
    (bs : list Box) (g : Rng) :
  (0 <= pZ (params config))%R →
  N_min (params config) ≤ N_max (params config) →
  N_max (params config) ≤ MAX_MANGOS_PER_BOX →
  (∀ k box, aget bs k = Some box →
            length (mangos box) = Z.to_nat MAX_MANGOS_PER_BOX) →
  0 ≤ b → b + Z.of_nat n ≤ Z.of_nat (length bs) →
  let lo := (- (pZ (params config) / 2) + pZ (params config) / 10)%R in
  let hi := (pZ (params config) / 2 - pZ (params config) / 10)%R in
  ∃ bs' g',
    boxes_loop n b config bs g = Some (bs', g') ∧
    length bs' = length bs ∧
    (∀ k box, aget bs' k = Some box →
              length (mangos box) = Z.to_nat MAX_MANGOS_PER_BOX) ∧
    (∀ k, ¬ (b ≤ k < b + Z.of_nat n) → aget bs' k = aget bs k) ∧
    (∀ k, b ≤ k < b + Z.of_nat n →
       ∃ box, aget bs' k = Some box ∧
         box_id box = k ∧ labeled_count box = 0 ∧ completed box = false ∧
         N_min (params config) ≤ num_mangos box ≤ N_max (params config) ∧
         ∀ i, 0 ≤ i < num_mangos box →
           ∃ m, aget (mangos box) i = Some m ∧
                mango_state m = MANGO_UNLABELED ∧
                in_square lo hi m).
Proof.
  intros HZ HN Hmax. revert b bs g.
  induction n as [|n IH]; intros b bs g Hlens Hb Hn lo hi.
  - exists bs, g. split_and!; try done. intros; lia.
  - cbn [boxes_loop].
    destruct (aget_is_Some bs b) as [old Hold]; [lia|].
    rewrite Hold. cbn [mbind option_bind].
    destruct (random_int_bounds (N_min (params config)) (N_max (params config)) g HN)
      as (k & g1 & Hdraw & Hk).
    rewrite Hdraw. cbn [mbind option_bind].
    destruct (fill_mangos_spec (Z.to_nat k) 0 lo hi (pZ (params config) / 15)
                (mangos old) [] g1)
      as (ms & new & g2 & Hfill & Hlen & Hother & Hnew & Hdraws & Hin).
    { subst lo hi. lra. }
    { lia. }
    { rewrite (Hlens b old Hold). unfold MAX_MANGOS_PER_BOX in *. lia. }
    fold lo hi. rewrite Hfill. cbn [mbind option_bind app].
    rewrite aset_Some by lia. cbn [mbind option_bind].
    set (box := {| box_id := b; num_mangos := k; mangos := ms; position := 0;
                   entry_time := 0; labeled_count := 0; completed := false |}).
    set (bs1 := <[Z.to_nat b := box]> bs).
    destruct (IH (b + 1) bs1 g2) as (bs' & g' & Hrun & Hlen' & Hlens' & Hout & Hboxes);
      try lia.
    { intros j bj Hbj. destruct (decide (j = b)) as [->|Hne].
      - subst bs1. rewrite aget_insert_eq in Hbj by lia. simplify_eq. cbn.
        rewrite Hlen. by apply (Hlens b old).
      - subst bs1. rewrite aget_insert_ne in Hbj by lia. by apply (Hlens j). }
    { subst bs1. rewrite length_insert. lia. }
    exists bs', g'. split; [done|]. split_and!.
    + rewrite Hlen'. subst bs1. by rewrite length_insert.
    + done.
    + intros j Hj. rewrite Hout by lia. subst bs1. by rewrite aget_insert_ne by lia.
    + intros j Hj. destruct (decide (j = b)) as [->|Hne].
      * exists box. rewrite Hout by lia. subst bs1. rewrite aget_insert_eq by lia.
        split_and!; try done; try (cbn; lia).
        intros i Hi. cbn in Hi.
        destruct (Hin i) as (m & Hm & _ & Hst & _ & _ & Hsq & _); [lia|].
        exists m. done.
      * apply Hboxes. lia.
Qed.

Lemma boxes_loop_stream n b config bs g bs' g' :
  boxes_loop n b config bs g = Some (bs', g') → rng_stream g' = rng_stream g.
Proof.
  revert b bs g. induction n as [|n IH]; intros b bs g; cbn [boxes_loop].
  - by intros [= _ <-].
  - destruct (aget bs b) as [old|]; [cbn [mbind option_bind]|done].
    destruct (random_int _ _ _) as [[k g1]|] eqn:Hdraw; [cbn [mbind option_bind]|done].
    destruct (fill_mangos _ _ _ _ _ _ _ _) as [[[ms w] g2]|] eqn:Hfill;
      [cbn [mbind option_bind]|done].
    destruct (aset bs b _) as [bs1|]; [cbn [mbind option_bind]|done].
    intros H. rewrite (IH _ _ _ H). apply fill_mangos_stream in Hfill.
    apply random_int_stream in Hdraw. congruence.
Qed.

Lemma draw_below_one (k : Z) :
  0 ≤ k ≤ RAND_MAX → k ≠ RAND_MAX → (IZR k / IZR RAND_MAX < 1)%R.
Proof.
  intros Hk Hne. assert (k < RAND_MAX) as Hlt by lia. apply IZR_lt in Hlt.
  assert (0 < IZR RAND_MAX)%R by (unfold RAND_MAX; lra).
  apply (Rmult_lt_reg_r (IZR RAND_MAX)); [done|].
  unfold Rdiv. rewrite Rmult_assoc, Rinv_l by lra. lra.
Qed.

(** With failure probability 1 and no backup, every robot whose draw is
    below [RAND_MAX] fails. *)
Lemma failure_loop_all (n : nat) (i : Z) (config : SimulationConfig)
    (rs : list Robot) (fails acts : Z) (g : Rng) :
  failure_prob config = 1%R →
  (∀ m, rng_stream g m `mod` (RAND_MAX + 1) ≠ RAND_MAX) →
  0 ≤ i → i + Z.of_nat n ≤ Z.of_nat (length rs) →
  (∀ k r, i ≤ k < i + Z.of_nat n → aget rs k = Some r → is_backup r = false) →
  ∃ rs' g',
    failure_loop n i config (num_robots config) rs fails acts g
      = Some (rs', fails + Z.of_nat n, acts, g') ∧
    length rs' = length rs ∧
    (∀ k, i ≤ k < i + Z.of_nat n →
       ∃ r, aget rs k = Some r ∧ aget rs' k = Some (mark_failed r)) ∧
    (∀ k, ¬ (i ≤ k < i + Z.of_nat n) → aget rs' k = aget rs k).
Proof.
  intros Hprob. revert i rs fails acts g.
  induction n as [|n IH]; intros i rs fails acts g Hstream Hi Hn Hmain.
  - exists rs, g. rewrite Z.add_0_r. split_and!; try done. intros; lia.
  - cbn [failure_loop].
    destruct (aget_is_Some rs i) as [robot Hrobot]; [lia|].
    rewrite Hrobot. cbn [mbind option_bind].
    rewrite (Hmain i robot) by (done || lia).
    pose proof (rand_range g) as Hr. pose proof (Hstream (rng_pos g)) as Hne.
    pose proof (rand_stream g) as Hs.
    destruct (rand g) as [k g1] eqn:Hrand. cbn in Hr, Hs.
    assert (k ≠ RAND_MAX) as Hk.
    { unfold rand in Hrand. by simplify_eq. }
    rewrite Hprob, decide_True by (by apply draw_below_one).
    rewrite aset_Some by lia. cbn [mbind option_bind].
    rewrite Z.sub_diag. change (Z.to_nat 0) with 0%nat.
    fold (mark_failed robot).
    cbn [backup_loop mbind option_bind]. cbv beta iota zeta.
    set (rs1 := <[Z.to_nat i := mark_failed robot]> rs).
    destruct (IH (i + 1) rs1 (fails + 1) acts g1)
      as (rs' & g' & Hrun & Hlen & Hin & Hout); try lia.
    { intros m. rewrite Hs. apply Hstream. }
    { subst rs1. rewrite length_insert. lia. }
    { intros j r Hj Hrj. subst rs1. rewrite aget_insert_ne in Hrj by lia.
      apply (Hmain j); [lia|done]. }
    exists rs', g'. rewrite Hrun. split_and!.
    + do 4 f_equal. lia.
    + rewrite Hlen. subst rs1. by rewrite length_insert.
    + intros j Hj. destruct (decide (j = i)) as [->|Hne'].
      * exists robot. split; [done|]. rewrite Hout by lia. subst rs1.
        by rewrite aget_insert_eq by lia.
      * destruct (Hin j) as (r & Hr1 & Hr'); [lia|]. exists r.
        subst rs1. rewrite aget_insert_ne in Hr1 by lia. done.
    + intros j Hj. rewrite Hout by lia. subst rs1. by rewrite aget_insert_ne by lia.
Qed.

(** A box passes robots that do not work untouched. *)
Lemma robot_loop_idle (n : nat) (idx per_station : Z) (rs : list Robot) (box : Box) :
  0 ≤ idx → idx + Z.of_nat n ≤ Z.of_nat (length rs) →
  (∀ k r, idx ≤ k < idx + Z.of_nat n → aget rs k = Some r → working r = false) →
  robot_loop n idx per_station rs box = Some (rs, box, seqZ idx (Z.of_nat n)).
Proof.
  revert idx. induction n as [|n IH]; intros idx Hidx Hn Hidle.
  - done.
  - cbn [robot_loop].
    destruct (aget_is_Some rs idx) as [robot Hrobot]; [lia|].
    rewrite Hrobot. cbn [mbind option_bind].
    pose proof (Hidle idx robot ltac:(lia) Hrobot) as Hw.
    unfold working in Hw. apply negb_false_iff in Hw. rewrite Hw.
    rewrite IH; try lia.
    + cbn [mbind option_bind]. rewrite (seqZ_cons idx) by lia.
      replace (Z.succ idx) with (idx + 1) by lia.
      by replace (Z.pred (Z.of_nat (S n))) with (Z.of_nat n) by lia.
    + intros k r Hk. apply Hidle. lia.
Qed.

Lemma box_loop_idle (n : nat) (b per_station n_robots : Z)
    (bs : list Box) (rs : list Robot) (total labeled missed : Z) :
  0 ≤ n_robots ≤ Z.of_nat (length rs) →
  (∀ k r, 0 ≤ k < n_robots → aget rs k = Some r → working r = false) →
  0 ≤ b → b + Z.of_nat n ≤ Z.of_nat (length bs) →
  (∀ k box, b ≤ k < b + Z.of_nat n → aget bs k = Some box → labeled_count box = 0) →
  ∃ total' missed',
    box_loop n b per_station n_robots bs rs total labeled missed
      = Some (bs, rs, total', labeled, missed').
Proof.
  intros Hnr Hidle. revert b total labeled missed.
  induction n as [|n IH]; intros b total labeled missed Hb Hn Hzero.
  - by eexists _, _.
  - cbn [box_loop].
    destruct (aget_is_Some bs b) as [box Hbox]; [lia|].
    rewrite Hbox. cbn [mbind option_bind].
    rewrite robot_loop_idle; [|lia|lia|].
    2:{ intros k r Hk. apply Hidle. lia. }
    cbn [mbind option_bind]. rewrite aset_Some by lia. cbn [mbind option_bind].
    assert (<[Z.to_nat b := box]> bs = bs) as ->.
    { apply list_insert_id. apply aget_Some in Hbox. tauto. }
    rewrite (Hzero b box) by (done || lia). rewrite Z.add_0_r.
    apply IH; [lia..|]. intros k bk Hk. apply Hzero. lia.
Qed.

Lemma labels_loop_spec (n : nat) (i : Z) (rs : list Robot) (out : list Z) :
  0 ≤ i → i + Z.of_nat n ≤ Z.of_nat (length rs) →
  i + Z.of_nat n ≤ Z.of_nat (length out) →
  ∃ out', labels_loop n i rs out = Some out' ∧ length out' = length out ∧
    (∀ k, i ≤ k < i + Z.of_nat n → aget out' k = labels_placed <$> aget rs k) ∧
    (∀ k, ¬ (i ≤ k < i + Z.of_nat n) → aget out' k = aget out k).
Proof.
  revert i out. induction n as [|n IH]; intros i out Hi Hn Hout.
  - exists out. split_and!; try done. intros; lia.
  - cbn [labels_loop].
    destruct (aget_is_Some rs i) as [r Hr]; [lia|].
    rewrite Hr. cbn [mbind option_bind].
    rewrite aset_Some by lia. cbn [mbind option_bind].
    destruct (IH (i + 1) (<[Z.to_nat i := labels_placed r]> out))
      as (out' & Hrun & Hlen & Hin & Hsame); [lia|lia|rewrite length_insert; lia|].
    exists out'. split; [done|]. split_and!.
    + by rewrite Hlen, length_insert.
    + intros k Hk. destruct (decide (k = i)) as [->|Hne].
      * rewrite Hsame by lia. rewrite aget_insert_eq by lia. by rewrite Hr.
      * apply Hin. lia.
    + intros k Hk. rewrite Hsame by lia. by rewrite aget_insert_ne by lia.
Qed.

(** C9 as stated fails on the controller: with failure probability 1 a
    robot fails in a cycle only when its draw is below 1/1000. Robot 0 of
    the default roster, with a draw of about one half, does not fail: the
    check returns 0 and the globals are unchanged. *)
Lemma certain_failure_not_certain :
  let s := certain_failure_roster in
  let g := constant_rng 1073741823 in
  pB (Controller.g_params s) = 1%R ∧
  num_backup_robots (Controller.g_params s) = 0 ∧
  Controller.check_robot_failure 0 s g = Some (0, s, (rand g).2) ∧
  ∃ r, aget (Controller.g_robots s) 0 = Some r ∧
       is_backup r = false ∧ has_failed r = false ∧
       robot_state r ≠ ROBOT_STATE_FAILED.
Proof.
  cbn zeta. split_and!; try done.
  - unfold Controller.check_robot_failure.
    change (aget (Controller.g_robots certain_failure_roster) 0)
      with (Some (Controller.new_robot 0 4 (300 / 4)%R 1%R)).
    cbn [mbind option_bind]. unfold Controller.new_robot.
    cbn [has_failed is_backup]. rewrite (decide_True (P := 0 < 4)) by lia.
    cbn [negb andb]. cbn [certain_failure_roster
      Controller.g_params pB params_set_robots].
    rewrite bool_decide_eq_true_2 by lra. cbn [andb].
    change (rand (constant_rng 1073741823))
      with (1073741823, (rand (constant_rng 1073741823)).2).
    cbv beta iota zeta. rewrite decide_False; [done|].
    unfold RAND_MAX. lra.
  - eexists. split; [reflexivity|]. unfold Controller.new_robot. cbn.
    rewrite !(decide_True (P := 0 < 4)) by lia. done.
Qed.

Lemma main_robot_fields (k n : Z) (spacing prob : R) :
  k < n →
  is_backup (Controller.new_robot k n spacing prob) = false ∧
  robot_state (Controller.new_robot k n spacing prob) = ROBOT_STATE_IDLE ∧
  axis_position (Controller.new_robot k n spacing prob)
    = ((IZR k + 0.5) * spacing)%R.
Proof. intros H. unfold Controller.new_robot. cbn. by rewrite !decide_True. Qed.

(** The check of the controller: a main robot that has not failed fails
    in a cycle exactly when its draw, over [RAND_MAX], is below a
    thousandth of the failure probability. *)
Lemma check_robot_failure_threshold (ridx : Z) (s : Controller.State)
    (robot : Robot) (g : Rng) :
  Controller.roster_ok s →
  aget (Controller.g_robots s) ridx = Some robot →
  0 ≤ robot_id robot < MAX_ROBOTS →
  has_failed robot = false → is_backup robot = false →
  (0 < pB (Controller.g_params s))%R →
  let r := (IZR (rand g).1 / IZR RAND_MAX)%R in
  ((r < pB (Controller.g_params s) / 1000)%R →
     ∃ s', Controller.check_robot_failure ridx s g = Some (1, s', (rand g).2)) ∧
  (¬ (r < pB (Controller.g_params s) / 1000)%R →
     Controller.check_robot_failure ridx s g = Some (0, s, (rand g).2)).
Proof.
  intros Hok Hrobot Hid Hnf Hmain HB r.
  unfold Controller.check_robot_failure. rewrite Hrobot. cbn [mbind option_bind].
  rewrite Hnf, Hmain, bool_decide_eq_true_2 by done. cbn [negb andb].
  change (rand g) with ((rand g).1, (rand g).2) at 1 3.
  cbv beta iota zeta. fold r.
  pose proof (aget_lt _ _ _ Hrobot) as Hlt.
  split; intros Hr.
  - rewrite decide_True by done.
    rewrite aset_Some by lia. cbn [mbind option_bind].
    set (s1 := Controller.set_shm _ _).
    assert (Controller.roster_ok s1) as Hok1.
    { destruct Hok as ((? & ? & ? & ?) & ?). subst s1.
      repeat split; cbn; rewrite ?length_insert; tauto. }
    destruct (BackupFacts.activate_backup_robot_keeps (robot_id robot) s1 Hok1 Hid)
      as (s' & Hrun & _).
    rewrite Hrun. cbn [mbind option_bind]. by exists s'.
  - by rewrite decide_False.
Qed.

(** C9, amended. A run of the batch estimator with failure probability
    1 and no backup, in which no draw of [rand()] is [RAND_MAX], returns:
    all its main robots end failed, with the failure latched; every box
    ends with no labeled mango; the result counts one failure for each
    main robot, no backup activation and no labeled mango. In the
    controller the threshold of a cycle is a thousandth of the failure
    probability: a main robot that has not failed fails when its draw
    over [RAND_MAX] is below it and stays as it is otherwise. *)
Theorem failure_certain (config : SimulationConfig) (start_time end_time : R)
    (gl : Globals) (g : Rng)
    (ridx : Z) (s : Controller.State) (robot : Robot) (g0 : Rng) :
  failure_prob config = 1%R →
  num_backup config = 0 →
  0 ≤ num_robots config ≤ MAX_ROBOTS →
  0 ≤ num_boxes config ≤ MAX_BOXES_QUEUE →
  (0 <= pZ (params config))%R →
  N_min (params config) ≤ N_max (params config) →
  N_max (params config) ≤ MAX_MANGOS_PER_BOX →
  globals_ok gl →
  (∀ m, rng_stream g m `mod` (RAND_MAX + 1) ≠ RAND_MAX) →
  Controller.roster_ok s →
  aget (Controller.g_robots s) ridx = Some robot →
  0 ≤ robot_id robot < MAX_ROBOTS →
  has_failed robot = false → is_backup robot = false →
  pB (Controller.g_params s) = 1%R →
  (∃ res gl' g',
     run_single_simulation config start_time end_time gl g = Some (res, gl', g') ∧
     (∀ i, 0 ≤ i < num_robots config →
        ∃ r, aget (g_robots gl') i = Some r ∧
             robot_state r = ROBOT_STATE_FAILED ∧ has_failed r = true ∧
             is_backup r = false) ∧
     (∀ b, 0 ≤ b < num_boxes config →
        ∃ box, aget (g_boxes gl') b = Some box ∧ labeled_count box = 0) ∧
     robot_failures res = num_robots config ∧
     backup_activations res = 0 ∧
     labeled_mangos res = 0) ∧
  let r := (IZR (rand g0).1 / IZR RAND_MAX)%R in
  ((r < 1 / 1000)%R →
     ∃ s', Controller.check_robot_failure ridx s g0 = Some (1, s', (rand g0).2)) ∧
  (¬ (r < 1 / 1000)%R →
     Controller.check_robot_failure ridx s g0 = Some (0, s, (rand g0).2)).
Proof.
  intros Hprob Hnb Hnr Hboxes HZ HN Hmax (Hlb & Hlr & Hlm) Hstream
    Hok Hrobot Hid Hnf Hmain HB.
  unfold MAX_ROBOTS, MAX_BOXES_QUEUE in *. split.
  - unfold run_single_simulation, init_simulation. rewrite Hnb, Z.add_0_r.
    destruct (BatchFacts.robots_loop_spec (Z.to_nat (num_robots config)) 0 config
                (pW (params config) / IZR (num_robots config)) (g_robots gl))
      as (rs1 & Hrs1 & Hlen1 & Hin1 & _); [lia|lia|].
    rewrite Hrs1. cbn [mbind option_bind]. unfold generate_all_boxes.
    cbn [g_boxes g_robots g_num_robots g_box_count].
    destruct (boxes_loop_spec (Z.to_nat (num_boxes config)) 0 config (g_boxes gl) g
                HZ HN Hmax Hlm)
      as (bs1 & g1 & Hbs1 & Hblen & Hblens & _ & Hbin); [lia|lia|].
    rewrite Hbs1. cbn [mbind option_bind].
    cbn [g_boxes g_robots g_num_robots g_box_count].
    rewrite Hprob, decide_True by lra.
    destruct (failure_loop_all (Z.to_nat (num_robots config)) 0 config rs1 0 0 g1 Hprob)
      as (rs2 & g2 & Hfail & Hlen2 & Hin2 & _); try lia.
    { intros m. rewrite (boxes_loop_stream _ _ _ _ _ _ _ Hbs1). apply Hstream. }
    { intros k r Hk Hr. rewrite Hin1 in Hr by lia. simplify_eq.
      apply main_robot_fields. lia. }
    rewrite Hfail. cbn [mbind option_bind].
    assert (∀ k r, 0 ≤ k < num_robots config → aget rs2 k = Some r →
                   working r = false) as Hidle.
    { intros k r Hk Hr. destruct (Hin2 k) as (r0 & _ & Hr0); [lia|].
      rewrite Hr0 in Hr. simplify_eq. unfold working, mark_failed. cbn.
      by rewrite orb_true_r. }
    destruct (box_loop_idle (Z.to_nat (num_boxes config)) 0 (mangos_per_station config)
                (num_robots config) bs1 rs2 0 0 0)
      as (total & missed & Hrun); try lia; try done.
    { intros k box Hk Hbox. destruct (Hbin k) as (box' & Hbox' & _ & Hzero & _); [lia|].
      congruence. }
    rewrite Hrun. cbn [mbind option_bind].
    destruct (labels_loop_spec (Z.to_nat (num_robots config)) 0 rs2
                (replicate (Z.to_nat MAX_ROBOTS) 0))
      as (out & Hout & _); try (rewrite ?length_replicate; unfold MAX_ROBOTS; lia).
    rewrite Hout. cbn [mbind option_bind].
    eexists _, _, _. split; [done|].
    cbn [g_robots g_boxes robot_failures backup_activations labeled_mangos].
    split_and!; try done; try lia.
    + intros i Hi. destruct (Hin2 i) as (r0 & Hr0 & Hr2); [lia|].
      exists (mark_failed r0). split; [done|]. split_and!; try done.
      rewrite Hin1 in Hr0 by lia. simplify_eq. cbn.
      by destruct (decide (i < num_robots config)); [|lia].
    + intros b Hb. destruct (Hbin b) as (box & Hbox & _ & Hzero & _); [lia|].
      by exists box.
  - pose proof (check_robot_failure_threshold ridx s robot g0 Hok Hrobot Hid Hnf Hmain)
      as Hcheck.
    rewrite HB in Hcheck. apply Hcheck. lra.
Qed.

Lemma globals_ok_initial : globals_ok initial_globals.
Proof.
  split_and!; try done. intros k box [_ H]%aget_Some.
  by apply lookup_replicate in H as [-> _].
Qed.

Lemma roster_ok_certain_failure : Controller.roster_ok certain_failure_roster.
Proof. repeat split; cbn; unfold MAX_ROBOTS; lia. Qed.

Lemma failure_certain_witness :
  let config := certain_failure_config in
  let g := constant_rng 0 in
  let s := certain_failure_roster in
  let robot := Controller.new_robot 0 4 (300 / 4)%R 1%R in
  let g0 := constant_rng 1073741823 in
  (failure_prob config = 1%R ∧ num_backup config = 0 ∧
   0 ≤ num_robots config ≤ MAX_ROBOTS ∧
   0 ≤ num_boxes config ≤ MAX_BOXES_QUEUE ∧
   (0 <= pZ (params config))%R ∧
   N_min (params config) ≤ N_max (params config) ∧
   N_max (params config) ≤ MAX_MANGOS_PER_BOX ∧
   globals_ok initial_globals ∧
   (∀ m, rng_stream g m `mod` (RAND_MAX + 1) ≠ RAND_MAX) ∧
   Controller.roster_ok s ∧
   aget (Controller.g_robots s) 0 = Some robot ∧
   0 ≤ robot_id robot < MAX_ROBOTS ∧
   has_failed robot = false ∧ is_backup robot = false ∧
   pB (Controller.g_params s) = 1%R) ∧
  ∃ res gl' g',
    run_single_simulation config 0 0 initial_globals g = Some (res, gl', g') ∧
    robot_failures res = num_robots config ∧
    labeled_mangos res = 0.
Proof.
  intros config g s robot g0.
  assert (failure_prob config = 1%R) as H1 by reflexivity.
  assert (num_backup config = 0) as H2 by reflexivity.
  assert (0 ≤ num_robots config ≤ MAX_ROBOTS) as H3 by (cbn; unfold MAX_ROBOTS; lia).
  assert (0 ≤ num_boxes config ≤ MAX_BOXES_QUEUE) as H4
    by (cbn; unfold MAX_BOXES_QUEUE; lia).
  assert (0 <= pZ (params config))%R as H5 by (cbn; lra).
  assert (N_min (params config) ≤ N_max (params config)) as H6 by (cbn; lia).
  assert (N_max (params config) ≤ MAX_MANGOS_PER_BOX) as H7
    by (cbn; unfold MAX_MANGOS_PER_BOX; lia).
  assert (∀ m, rng_stream g m `mod` (RAND_MAX + 1) ≠ RAND_MAX) as H9
    by (intros m; cbn; unfold RAND_MAX; rewrite Z.mod_0_l; lia).
  assert (aget (Controller.g_robots s) 0 = Some robot) as H11 by reflexivity.
  assert (0 ≤ robot_id robot < MAX_ROBOTS) as H12 by (cbn; unfold MAX_ROBOTS; lia).
  assert (has_failed robot = false) as H13 by reflexivity.
  assert (is_backup robot = false) as H14
    by (apply (main_robot_fields 0 4); lia).
  assert (pB (Controller.g_params s) = 1%R) as H15 by reflexivity.
  split.
  - split_and!; try done;
      first [exact globals_ok_initial | exact roster_ok_certain_failure | apply H3
            | apply H4 | apply H12].
  - destruct (failure_certain config 0 0 initial_globals g 0 s robot g0
                H1 H2 H3 H4 H5 H6 H7 globals_ok_initial H9
                roster_ok_certain_failure H11 H12 H13 H14 H15)
      as [(res & gl' & g' & Hrun & _ & _ & Hf & _ & Hl) _].
    exists res, gl', g'. done.
Defined.

End RunFacts.

(** ** The scan for the nearest unlabeled mango *)

Module ScanFacts.
Import Controller ArrayFacts Scan.

Lemma nearest_loop_unlabeled (n : nat) (i : Z) (ms : list Mango) (target : Z)
    (md : option R) (t : Z) :
  nearest_loop n i ms target md = Some t →
  t = target ∨ ∃ m, unlabeled_at ms t m.
Proof.
  revert i target md. induction n as [|n IH]; intros i target md; cbn [nearest_loop].
  - intros [= <-]. by left.
  - destruct (aget ms i) as [m|] eqn:Hm; [cbn [mbind option_bind]|done].
    case_decide as Hst; [|apply IH].
    destruct (match md with None => true | Some d => _ end).
    + intros [->|H]%IH; [|by right]. right. by exists m.
    + apply IH.
Qed.



(** The scan of a box of two mangos at the same distance from the
    centre. *)
Lemma nearest_unlabeled_two (b : Box) (m0 m1 : Mango) :
  num_mangos b = 2 → aget (mangos b) 0 = Some m0 → aget (mangos b) 1 = Some m1 →
  reach m0 = reach m1 →
  nearest_unlabeled b
  = Some (if decide (mango_state m0 = MANGO_UNLABELED) then 0
          else if decide (mango_state m1 = MANGO_UNLABELED) then 1 else -1).
Proof.
  intros Hn Hm0 Hm1 Hreach. unfold nearest_unlabeled. rewrite Hn.
  change (Z.to_nat 2) with 2%nat. cbn [nearest_loop].
  rewrite Hm0. cbn [mbind option_bind]. change (0 + 1) with 1.
  rewrite Hm1. cbn [mbind option_bind]. unfold reach in Hreach.
  destruct (decide (mango_state m0 = MANGO_UNLABELED)),
           (decide (mango_state m1 = MANGO_UNLABELED)); try done.
  rewrite bool_decide_eq_false_2; [done|]. rewrite Hreach. lra.
Qed.

End ScanFacts.

(** ** The life of a mango *)

Module LifecycleFacts.
Import Controller ArrayFacts Lifecycle.

Lemma lookup_goto_live (i j : nat) (pc : Live.Pc) (s : State) (w : Live.World) :
  (i < length (Live.pcs w))%nat →
  Live.pcs (Live.goto i pc s w) !! j =
    if decide (i = j) then Some pc else Live.pcs w !! j.
Proof.
  intros Hi. unfold Live.goto. cbn. case_decide as E.
  - subst. by apply list_lookup_insert_eq.
  - by apply list_lookup_insert_ne.
Qed.

Lemma item_state_Some (s : State) (mid : Z) (st : MangoState) :
  item_state s mid = Some st ↔
  ∃ m, aget (mangos (g_current_box s)) mid = Some m ∧ mango_state m = st.
Proof.
  unfold item_state. destruct (aget _ mid) as [m|]; cbn; split.
  - intros [= <-]. by exists m.
  - intros (m' & [= <-] & <-). done.
  - done.
  - by intros (m' & ? & _).
Qed.

Lemma ordered_items_same (ms : list Mango) : ordered_items ms ms.
Proof. intros mid m Hm. exists m. split; [done|by left]. Qed.

Lemma ordered_items_insert (ms : list Mango) (t : Z) (m m' : Mango) :
  aget ms t = Some m → strict_order (mango_state m) (mango_state m') →
  ordered_items ms (<[Z.to_nat t := m']> ms).
Proof.
  intros Hm Hord mid m0 Hm0. pose proof (aget_lt _ _ _ Hm) as Hrange.
  destruct (decide (mid = t)) as [->|Hne].
  - rewrite aget_insert_eq by lia. exists m'. split; [done|congruence].
  - rewrite aget_insert_ne by lia. exists m0. split; [done|by left].
Qed.

Lemma ordered_change_same (s s' : State) :
  mangos (g_current_box s') = mangos (g_current_box s) → ordered_change s s'.
Proof. unfold ordered_change. intros ->. apply ordered_items_same. Qed.

Lemma live_step_inv (a : Live.Action) (i : nat) (w w' : Live.World) :
  Live.Inv w → Live.robot_step a i w = Some w' →
  Live.Inv w' ∧ ordered_change (Live.globals w) (Live.globals w').
Proof.
  intros [Harr Hthreads Hheld Halone] Hstep. unfold Live.robot_step in Hstep.
  destruct (Live.pcs w !! i) as [pc|] eqn:Hpc; [cbn in Hstep|done].
  destruct (aget (g_robots (Live.globals w)) (Z.of_nat i)) as [robot|] eqn:Hrobot;
    [cbn in Hstep|done].
  pose proof (lookup_lt_Some _ _ _ Hpc) as Hi.
  pose proof Harr as (Hlm & Hll & Hlr & Hls).
  assert (∀ pc' s', (∀ t, pc' ≠ Live.Labeling t) →
            mangos (g_current_box s') = mangos (g_current_box (Live.globals w)) →
            arrays_ok s' →
            Live.Inv (Live.goto i pc' s' w) ∧
            ordered_change (Live.globals w) (Live.globals (Live.goto i pc' s' w)))
    as Hquiet.
  { intros pc' s' Hpc' Hsame Harr'. split; [|by apply ordered_change_same].
    split.
    - done.
    - unfold Live.goto. cbn. by rewrite length_insert.
    - intros j t. rewrite lookup_goto_live by done.
      case_decide; [intros [= ->]; by destruct (Hpc' t)|].
      intros Hj. unfold item_state. cbn. rewrite Hsame. by apply (Hheld j).
    - intros j k t. rewrite !lookup_goto_live by done.
      repeat case_decide;
        try (intros [= ->]; by destruct (Hpc' t));
        try (intros ? [= ->]; by destruct (Hpc' t)).
      apply Halone. }
  destruct a, pc; try done.
  - (* Break *)
    injection Hstep as <-. by apply Hquiet.
  - (* Scan *)
    destruct (nearest_unlabeled _) as [t|]; [cbn in Hstep|done].
    case_decide; injection Hstep as <-; by apply Hquiet.
  - (* Claim *)
    destruct (ControllerFacts.try_claim_mango_cases (Live.globals w) (robot_id robot)
                target Harr) as (ret & s1 & Hclaim & Hiff & Hwon & Hlost).
    rewrite Hclaim in Hstep. cbn in Hstep. case_decide as Hret.
    + (* the claim succeeded *)
      destruct (Hwon Hret) as (m & Hm & ->). cbn in Hstep.
      rewrite Hrobot in Hstep. cbn in Hstep.
      rewrite aset_Some in Hstep by (apply aget_lt in Hrobot; lia).
      cbn in Hstep. injection Hstep as <-.
      pose proof (proj1 Hiff Hret) as Hun.
      pose proof (aget_lt _ _ _ Hm) as Hrange.
      split; [split|].
      * unfold arrays_ok. cbn. rewrite !length_insert. done.
      * unfold Live.goto. cbn. by rewrite length_insert.
      * intros j t. rewrite lookup_goto_live by done. unfold item_state. cbn.
        case_decide as E.
        -- intros [= <-]. rewrite aget_insert_eq by lia. done.
        -- intros Hj. pose proof (Hheld j t Hj) as Hjt.
           destruct (decide (t = target)) as [->|Hne]; [congruence|].
           rewrite aget_insert_ne by lia. done.
      * intros j k t. rewrite !lookup_goto_live by done.
        repeat case_decide; try (intros; congruence).
        -- intros [= <-] Hk. pose proof (Hheld k target Hk). congruence.
        -- intros Hj [= <-]. pose proof (Hheld j target Hj). congruence.
        -- apply Halone.
      * unfold ordered_change. cbn. apply (ordered_items_insert _ _ m); [done|].
        right. left. cbn. split; [|done].
        apply item_state_Some in Hun as (m1 & Hm1 & Hst). congruence.
    + (* the mango was taken *)
      destruct (Hlost Hret) as [_ ->]. injection Hstep as <-. by apply Hquiet.
  - (* Label *)
    pose proof (Hheld i target Hpc) as Hbeing.
    apply item_state_Some in Hbeing as (m & Hm & Hst).
    pose proof (aget_lt _ _ _ Hm) as Hrange.
    pose proof (aget_lt _ _ _ Hrobot) as Hrrange.
    unfold label_mango in Hstep. rewrite Hrobot, Hm in Hstep. cbn in Hstep.
    rewrite !aset_Some in Hstep by lia. cbn in Hstep.
    rewrite aget_insert_eq in Hstep by lia. cbn in Hstep.
    rewrite aset_Some in Hstep by (rewrite length_insert; lia).
    cbn in Hstep. injection Hstep as <-.
    split; [split|].
    + unfold arrays_ok. cbn. rewrite !length_insert. done.
    + unfold Live.goto. cbn. by rewrite length_insert.
    + intros j t. rewrite lookup_goto_live by done. unfold item_state. cbn.
      case_decide as E; [done|]. intros Hj.
      destruct (decide (t = target)) as [->|Hne].
      * by specialize (Halone i j target Hpc Hj).
      * rewrite aget_insert_ne by lia. by apply (Hheld j).
    + intros j k t. rewrite !lookup_goto_live by done.
      repeat case_decide; try (intros; congruence). apply Halone.
    + unfold ordered_change. cbn. apply (ordered_items_insert _ _ m); [done|].
      right. right. cbn. split; [congruence|done].
Qed.


Lemma live_inv_start (n : nat) (s : State) :
  arrays_ok s → Z.of_nat n ≤ MAX_ROBOTS → Live.Inv (Live.start n s).
Proof.
  intros Harr Hn. split; cbn.
  - done.
  - by rewrite length_replicate.
  - by intros i t [[=] _]%lookup_replicate.
  - by intros i j t [[=] _]%lookup_replicate.
Qed.

Lemma live_inv_reachable (w0 w : Live.World) :
  Live.Inv w0 → rtc Live.step w0 w → Live.Inv w.
Proof.
  intros Hinv Hrun. induction Hrun as [|x y z [a i Hstep] _ IH]; [done|].
  apply IH. by destruct (live_step_inv a i x y Hinv Hstep).
Qed.

(** *** The analysis simulation *)

Lemma boxes_item (bs : list Box) (b target b2 t2 : Z) (box box' : Box) (m' : Mango) :
  aget bs b = Some box →
  mangos box' = <[Z.to_nat target := m']> (mangos box) →
  0 ≤ target < Z.of_nat (length (mangos box)) →
  (box2 ← aget (<[Z.to_nat b := box']> bs) b2; mango_state <$> aget (mangos box2) t2) =
    if decide (b2 = b ∧ t2 = target) then Some (mango_state m')
    else (box2 ← aget bs b2; mango_state <$> aget (mangos box2) t2).
Proof.
  intros Hb Hms Ht. pose proof (aget_lt _ _ _ Hb) as Hrange.
  destruct (decide (b2 = b)) as [->|Hne].
  - rewrite aget_insert_eq by lia. cbn [mbind option_bind]. rewrite Hms, Hb.
    cbn [mbind option_bind]. case_decide as E.
    + destruct E as [_ ->]. by rewrite aget_insert_eq by lia.
    + rewrite aget_insert_ne by (try lia; intros ->; by apply E). done.
  - rewrite aget_insert_ne by lia. rewrite decide_False by (by intros [? _]). done.
Qed.

Lemma ordered_boxes_same (w w' : Analysis.World) :
  Analysis.g_boxes w' = Analysis.g_boxes w → ordered_boxes w w'.
Proof.
  intros H b box Hb. exists box. rewrite H. split; [done|].
  apply ordered_items_same.
Qed.

Lemma ordered_boxes_insert (w w' : Analysis.World) (b target : Z)
    (box box' : Box) (m m' : Mango) :
  aget (Analysis.g_boxes w) b = Some box →
  aget (mangos box) target = Some m →
  mangos box' = <[Z.to_nat target := m']> (mangos box) →
  strict_order (mango_state m) (mango_state m') →
  Analysis.g_boxes w' = <[Z.to_nat b := box']> (Analysis.g_boxes w) →
  ordered_boxes w w'.
Proof.
  intros Hb Hm Hms Hord Hbs b2 box2 Hb2. rewrite Hbs.
  pose proof (aget_lt _ _ _ Hb) as Hrange.
  destruct (decide (b2 = b)) as [->|Hne].
  - rewrite aget_insert_eq by lia. exists box'. split; [done|].
    rewrite Hms. assert (box2 = box) as -> by congruence.
    by apply (ordered_items_insert _ _ m).
  - rewrite aget_insert_ne by lia. exists box2. split; [done|].
    apply ordered_items_same.
Qed.

Lemma lookup_threads (i j : nat) (th : Analysis.Thread) (ts : list Analysis.Thread) :
  (i < length ts)%nat →
  <[i := th]> ts !! j = if decide (i = j) then Some th else ts !! j.
Proof.
  intros Hi. case_decide as E.
  - subst. by apply list_lookup_insert_eq.
  - by apply list_lookup_insert_ne.
Qed.

Lemma analysis_step_inv (a : Analysis.Action) (i : nat) (w w' : Analysis.World) :
  Analysis.Inv w → Analysis.thread_step a i w = Some w' →
  Analysis.Inv w' ∧ ordered_boxes w w'.
Proof.
  intros [Hboxes Hheld Halone] Hstep. unfold Analysis.thread_step in Hstep.
  assert (a = Analysis.Advance ∨ a ≠ Analysis.Advance) as [->|Ha]
    by (destruct a; (by left) || (by right)).
  { injection Hstep as <-. split; [|by apply ordered_boxes_same].
    split; [done|exact Hheld|exact Halone]. }
  destruct (Analysis.threads w !! i) as [t|] eqn:Ht; [|by destruct a].
  destruct (aget (Analysis.g_robots w) (Z.of_nat i)) as [robot|] eqn:Hrobot;
    [|by destruct a].
  pose proof (lookup_lt_Some _ _ _ Ht) as Hi.
  assert (∀ rs th, (∀ x, Analysis.pc th ≠ Analysis.Reaching x) →
            let w1 := Analysis.update (Analysis.g_boxes w) rs
                        (<[i := th]> (Analysis.threads w)) w in
            Analysis.Inv w1 ∧ ordered_boxes w w1) as Hquiet.
  { intros rs th Hpc w1. split; [|by apply ordered_boxes_same].
    split.
    - done.
    - intros j u x. cbn. rewrite lookup_threads by done.
      case_decide; [intros [= <-] Hx; by destruct (Hpc x)|]. apply Hheld.
    - intros j k u v x. cbn. rewrite !lookup_threads by done.
      repeat case_decide;
        try (intros [= <-] ? Hx; by destruct (Hpc x));
        try (intros ? [= <-] ? Hx; by destruct (Hpc x)).
      apply Halone. }
  destruct a; [| | |done]; cbn [mbind option_bind] in Hstep.
  - (* Begin *)
    destruct (Analysis.pc t) eqn:Hpc; try done.
    destruct (_ || _); [done|].
    destruct (_ && _);
      (destruct (aset _ _ _) as [rs|]; [cbn [mbind option_bind] in Hstep|done]);
      injection Hstep as <-; by apply Hquiet.
  - (* Search *)
    destruct (Analysis.pc t) eqn:Hpc; try done.
    case_decide as Hmore.
    + destruct (aget (Analysis.g_boxes w) _) as [box|] eqn:Hbox;
        [cbn [mbind option_bind] in Hstep|done].
      destruct (nearest_unlabeled box) as [target|] eqn:Hscan;
        [cbn [mbind option_bind] in Hstep|done].
      case_decide as Htarget.
      * destruct (aget (mangos box) target) as [m|] eqn:Hm;
          [cbn [mbind option_bind] in Hstep|done].
        pose proof (aget_lt _ _ _ Hm) as Hrange.
        pose proof (aget_lt _ _ _ Hbox) as Hbrange.
        rewrite aset_Some in Hstep by done. cbn [mbind option_bind] in Hstep.
        rewrite aset_Some in Hstep by done. cbn [mbind option_bind] in Hstep.
        injection Hstep as <-.
        assert (mango_state m = MANGO_UNLABELED) as Hun.
        { apply ScanFacts.nearest_loop_unlabeled in Hscan as [->|(m1 & Hm1 & Hst)];
            [lia|]. congruence. }
        assert (Analysis.item_state w (Analysis.current_box t) target
                = Some MANGO_UNLABELED) as Hold.
        { unfold Analysis.item_state. rewrite Hbox. cbn [mbind option_bind].
          rewrite Hm. cbn. by rewrite Hun. }
        set (box' := box_set_mangos _ box).
        assert (∀ b2 t2 w1, Analysis.g_boxes w1 =
                   <[Z.to_nat (Analysis.current_box t) := box']> (Analysis.g_boxes w) →
                 Analysis.item_state w1 b2 t2 =
                 if decide (b2 = Analysis.current_box t ∧ t2 = target)
                 then Some MANGO_BEING_LABELED else Analysis.item_state w b2 t2) as Hitem.
        { intros b2 t2 w1 Hw1. unfold Analysis.item_state. rewrite Hw1.
          by rewrite (boxes_item _ _ target b2 t2 box box'
                        (mango_set_state MANGO_BEING_LABELED m)). }
        split; [split|].
        -- intros b2 box2. cbn.
           destruct (decide (b2 = Analysis.current_box t)) as [->|Hne].
           ++ rewrite aget_insert_eq by lia. intros [= <-]. cbn.
              rewrite length_insert. by apply (Hboxes _ _ Hbox).
           ++ rewrite aget_insert_ne by lia. apply Hboxes.
        -- intros j u x. cbn [Analysis.threads Analysis.update].
           rewrite lookup_threads by done. rewrite Hitem by done.
           case_decide as E.
           ++ intros [= <-] [= <-]. cbn. by rewrite decide_True.
           ++ intros Hu Hx. pose proof (Hheld j u x Hu Hx) as Hjx.
              case_decide as E2; [|done]. destruct E2 as [E2 ->].
              rewrite E2 in Hjx. congruence.
        -- intros j k u v x. cbn [Analysis.threads Analysis.update].
           rewrite !lookup_threads by done.
           repeat case_decide; try (intros; congruence).
           ++ intros [= <-] Hv [= <-] Hx. cbn. intros Hcb.
              pose proof (Hheld k v target Hv Hx) as Hkx. rewrite <- Hcb in Hkx.
              congruence.
           ++ intros Hu [= <-] Hx [= <-]. cbn. intros Hcb.
              pose proof (Hheld j u target Hu Hx) as Hjx. rewrite Hcb in Hjx.
              congruence.
           ++ apply Halone.
        -- apply (ordered_boxes_insert _ _ (Analysis.current_box t) target box box' m
                    (mango_set_state MANGO_BEING_LABELED m)); try done.
           right. left. by split.
      * destruct (aset _ _ _) as [rs|]; [cbn [mbind option_bind] in Hstep|done].
        injection Hstep as <-. by apply Hquiet.
    + destruct (aset _ _ _) as [rs|]; [cbn [mbind option_bind] in Hstep|done].
      injection Hstep as <-. by apply Hquiet.
  - (* Finish *)
    destruct (Analysis.pc t) eqn:Hpc; try done.
    destruct (aget (Analysis.g_boxes w) _) as [box|] eqn:Hbox;
      [cbn [mbind option_bind] in Hstep|done].
    destruct (aget (mangos box) target) as [m|] eqn:Hm;
      [cbn [mbind option_bind] in Hstep|done].
    pose proof (aget_lt _ _ _ Hm) as Hrange.
    pose proof (aget_lt _ _ _ Hbox) as Hbrange.
    rewrite (aset_Some (mangos box)) in Hstep by done.
    cbn [mbind option_bind] in Hstep.
    rewrite (aset_Some (Analysis.g_boxes w)) in Hstep by done.
    cbn [mbind option_bind] in Hstep.
    destruct (aset _ _ _) as [rs|]; [cbn [mbind option_bind] in Hstep|done].
    injection Hstep as <-.
    pose proof (Hheld i t target Ht Hpc) as Hbeing.
    assert (mango_state m = MANGO_BEING_LABELED) as Hst.
    { unfold Analysis.item_state in Hbeing. rewrite Hbox in Hbeing.
      cbn [mbind option_bind] in Hbeing. rewrite Hm in Hbeing. by injection Hbeing. }
    set (m' := mango_set_labeled_by _ _).
    set (box' := box_set_labeled_count _ _).
    assert (∀ b2 t2 w1, Analysis.g_boxes w1 =
               <[Z.to_nat (Analysis.current_box t) := box']> (Analysis.g_boxes w) →
             Analysis.item_state w1 b2 t2 =
             if decide (b2 = Analysis.current_box t ∧ t2 = target)
             then Some MANGO_LABELED else Analysis.item_state w b2 t2) as Hitem.
    { intros b2 t2 w1 Hw1. unfold Analysis.item_state. rewrite Hw1.
      by rewrite (boxes_item _ _ target b2 t2 box box' m'). }
    split; [split|].
    + intros b2 box2. cbn.
      destruct (decide (b2 = Analysis.current_box t)) as [->|Hne].
      * rewrite aget_insert_eq by lia. intros [= <-]. cbn.
        rewrite length_insert. by apply (Hboxes _ _ Hbox).
      * rewrite aget_insert_ne by lia. apply Hboxes.
    + intros j u x. cbn [Analysis.threads Analysis.update].
      rewrite lookup_threads by done. rewrite Hitem by done.
      case_decide as E; [by intros [= <-]|].
      intros Hu Hx. case_decide as E2; [|by apply (Hheld j)].
      destruct E2 as [E2 ->]. by destruct (Halone i j t u target).
    + intros j k u v x. cbn [Analysis.threads Analysis.update].
      rewrite !lookup_threads by done.
      repeat case_decide; try (intros; congruence);
        try (by intros [= <-]); try (by intros ? [= <-]).
      apply Halone.
    + apply (ordered_boxes_insert _ _ (Analysis.current_box t) target box box' m m');
        try done.
      right. right. by split.
Qed.

Lemma analysis_inv_start (w : Analysis.World) : Analysis.resting w → Analysis.Inv w.
Proof.
  intros [Hboxes Hrest]. split; [done|..].
  - intros i t x Ht Hx. apply list_elem_of_lookup_2 in Ht.
    rewrite (Hrest t Ht) in Hx. done.
  - intros i j t u x Ht _ Hx. apply list_elem_of_lookup_2 in Ht.
    rewrite (Hrest t Ht) in Hx. done.
Qed.

Lemma analysis_inv_reachable (w0 w : Analysis.World) :
  Analysis.Inv w0 → rtc Analysis.step w0 w → Analysis.Inv w.
Proof.
  intros Hinv Hrun. induction Hrun as [|x y z [a i Hstep] _ IH]; [done|].
  apply IH. by destruct (analysis_step_inv a i x y Hinv Hstep).
Qed.


(** *** The batch estimator *)

Lemma direct_items_same (ms : list Mango) : direct_items ms ms.
Proof. intros mid m Hm. exists m. split; [done|by left]. Qed.

Lemma direct_items_trans (ms1 ms2 ms3 : list Mango) :
  direct_items ms1 ms2 → direct_items ms2 ms3 → direct_items ms1 ms3.
Proof.
  intros H12 H23 mid m1 Hm1.
  destruct (H12 mid m1 Hm1) as (m2 & Hm2 & Hs12).
  destruct (H23 mid m2 Hm2) as (m3 & Hm3 & Hs23).
  exists m3. split; [done|].
  destruct Hs12 as [E12|[E1 E2]], Hs23 as [E23|[E2' E3]].
  - left. congruence.
  - right. split; congruence.
  - right. split; congruence.
  - congruence.
Qed.

Lemma label_loop_direct (n : nat) (i per_station c : Z) (robot robot' : Robot)
    (box box' : Box) :
  Simulator.label_loop n i per_station c robot box = Some (robot', box') →
  direct_items (mangos box) (mangos box').
Proof.
  revert i c robot box. induction n as [|n IH]; intros i c robot box;
    cbn [Simulator.label_loop].
  - intros [= _ <-]. apply direct_items_same.
  - case_decide as Hc; [|intros [= _ <-]; apply direct_items_same].
    destruct (aget (mangos box) i) as [m|] eqn:Hm; [cbn [mbind option_bind]|done].
    case_decide as Hst; [|apply IH].
    pose proof (aget_lt _ _ _ Hm) as Hrange.
    rewrite aset_Some by done. cbn [mbind option_bind]. intros Hrun.
    apply IH in Hrun. cbn in Hrun.
    refine (direct_items_trans _ _ _ _ Hrun).
    intros mid m0 Hm0. destruct (decide (mid = i)) as [->|Hne].
    + rewrite aget_insert_eq by lia. eexists. split; [done|].
      right. cbn. split; [congruence|done].
    + rewrite aget_insert_ne by lia. exists m0. split; [done|by left].
Qed.

Lemma robot_loop_direct (n : nat) (idx per_station : Z) (rs rs' : list Robot)
    (box box' : Box) (visited : list Z) :
  Simulator.robot_loop n idx per_station rs box = Some (rs', box', visited) →
  direct_items (mangos box) (mangos box').
Proof.
  revert idx rs rs' box box' visited.
  induction n as [|n IH]; intros idx rs rs' box box' visited;
    cbn [Simulator.robot_loop].
  - intros [= _ <- _]. apply direct_items_same.
  - destruct (aget rs idx) as [robot|]; [cbn [mbind option_bind]|done].
    destruct (_ || _).
    + destruct (Simulator.robot_loop n _ _ _ _) as [[[rs1 box1] v1]|] eqn:Hrest;
        [cbn [mbind option_bind]|done].
      intros [= _ <- _]. by apply IH in Hrest.
    + destruct (Simulator.label_loop _ _ _ _ _ _) as [[robot1 box1]|] eqn:Hlab;
        [cbn [mbind option_bind]|done].
      apply label_loop_direct in Hlab.
      destruct (aset rs idx robot1) as [rs1|]; [cbn [mbind option_bind]|done].
      case_decide; [by intros [= _ <- _]|].
      destruct (Simulator.robot_loop n _ _ _ _) as [[[rs2 box2] v2]|] eqn:Hrest;
        [cbn [mbind option_bind]|done].
      intros [= _ <- _]. apply IH in Hrest.
      by apply (direct_items_trans _ (mangos box1)).
Qed.

(** C3, as the specification states it, fails on the batch estimator:
    its pass over a box of two unlabeled mangos, with the default
    configuration and roster, leaves the first mango labeled, and the
    mango was never in the state of being labeled. *)
Lemma batch_skips_being_labeled :
  ∃ rs' box' visited m m',
    Simulator.robot_loop (Z.to_nat 5) 0
      (Simulator.mangos_per_station Scenario.default_config)
      (g_robots Scenario.roster_4_1) Scenario.two_mango_box
      = Some (rs', box', visited) ∧
    aget (mangos Scenario.two_mango_box) 0 = Some m ∧
    aget (mangos box') 0 = Some m' ∧
    mango_state m = MANGO_UNLABELED ∧ mango_state m' = MANGO_LABELED ∧
    ¬ strict_order (mango_state m) (mango_state m').
Proof.
  rewrite CapacityFacts.mangos_per_station_default.
  eexists _, _, _, _, _. split_and!; try reflexivity.
  cbn. unfold strict_order. intros [?|[[_ ?]|[? _]]]; done.
Qed.

(** C3, amended. In the live controller, while the box it works on stays
    the current one, and in the analysis simulation, a move of a robot
    thread leaves every mango in its state or takes it to the next state
    of the order unlabeled, being labeled, labeled; in the batch
    estimator a pass of the robots over a box leaves every mango in its
    state or takes it from unlabeled to labeled directly. *)
Theorem item_state_order :
  (∀ (n : nat) (s : State) (w w' : Live.World),
     arrays_ok s → Z.of_nat n ≤ MAX_ROBOTS →
     rtc Live.step (Live.start n s) w → Live.step w w' →
     ordered_change (Live.globals w) (Live.globals w')) ∧
  (∀ (w0 w w' : Analysis.World),
     Analysis.resting w0 → rtc Analysis.step w0 w → Analysis.step w w' →
     ordered_boxes w w') ∧
  (∀ (n : nat) (idx per_station : Z) (rs rs' : list Robot) (box box' : Box)
     (visited : list Z),
     Simulator.robot_loop n idx per_station rs box = Some (rs', box', visited) →
     direct_items (mangos box) (mangos box')).
Proof.
  split_and!.
  - intros n s w w' Harr Hn Hrun [a i Hstep].
    pose proof (live_inv_reachable _ _ (live_inv_start n s Harr Hn) Hrun) as Hinv.
    by destruct (live_step_inv a i w w' Hinv Hstep).
  - intros w0 w w' Hrest Hrun [a i Hstep].
    pose proof (analysis_inv_reachable _ _ (analysis_inv_start w0 Hrest) Hrun) as Hinv.
    by destruct (analysis_step_inv a i w w' Hinv Hstep).
  - intros n idx per_station rs rs' box box' visited. apply robot_loop_direct.
Qed.

Lemma analysis_start_resting : Analysis.resting Scenario.analysis_start.
Proof.
  split.
  - intros b box [_ Hb]%aget_Some. cbn in Hb.
    destruct (Z.to_nat b) as [|k]; cbn in Hb.
    + by injection Hb as <-.
    + by apply lookup_replicate in Hb as [-> _].
  - intros t Ht. unfold Scenario.analysis_start in Ht.
    cbn [Analysis.threads] in Ht. by apply elem_of_replicate in Ht as [-> _].
Qed.

Lemma item_state_order_witness :
  (∃ w', Live.robot_step Live.Break 0 (Live.start 4 initial_state) = Some w' ∧
         ordered_change initial_state (Live.globals w')) ∧
  (∃ w', Analysis.thread_step Analysis.Advance 0 Scenario.analysis_start = Some w' ∧
         ordered_boxes Scenario.analysis_start w') ∧
  (∃ rs' box' visited,
     Simulator.robot_loop 1 0 1 (g_robots Scenario.roster_4_1) Scenario.two_mango_box
       = Some (rs', box', visited) ∧
     direct_items (mangos Scenario.two_mango_box) (mangos box')).
Proof.
  destruct item_state_order as (Hlive & Hanalysis & Hbatch).
  split_and!.
  - eexists. split; [reflexivity|].
    apply (Hlive 4%nat initial_state (Live.start 4 initial_state)).
    + exact ControllerFacts.arrays_ok_initial.
    + unfold MAX_ROBOTS. lia.
    + apply rtc_refl.
    + by apply (Live.step_robot _ _ Live.Break 0%nat).
  - eexists. split; [reflexivity|].
    apply (Hanalysis Scenario.analysis_start Scenario.analysis_start).
    + exact analysis_start_resting.
    + apply rtc_refl.
    + by apply (Analysis.step_thread _ _ Analysis.Advance 0%nat).
  - eexists _, _, _. split; [reflexivity|].
    eapply (Hbatch 1%nat 0 1 (g_robots Scenario.roster_4_1) _
             Scenario.two_mango_box _ _).
    reflexivity.
Defined.

End LifecycleFacts.

(** ** include/common.h: the helpers *)

Module CommonFacts.
Import Controller ArrayFacts.

Lemma square_sum_nonneg (a b : R) : (0 <= a * a + b * b)%R.
Proof. nra. Qed.

(** X1. [random_int(min, max)] with [min <= max] reads one number of the
    random source and returns an integer from [min] to [max], both
    included; the two ends are returned for the draws that are 0 and
    [max - min] modulo the size of the range. With [max = min - 1] the
    remainder is taken by zero and the call is undefined. *)
Theorem random_int_in_range (lo hi : Z) (g : Rng) :
  (lo ≤ hi →
     ∃ k, random_int lo hi g = Some (k, (rand g).2) ∧ lo ≤ k ≤ hi ∧
          rng_pos (rand g).2 = S (rng_pos g) ∧
          ((rand g).1 `mod` (hi - lo + 1) = 0 → k = lo) ∧
          ((rand g).1 `mod` (hi - lo + 1) = hi - lo → k = hi)) ∧
  (hi = lo - 1 → random_int lo hi g = None).
Proof.
  pose proof (GeneratorFacts.rand_range g) as Hr.
  unfold random_int. destruct (rand g) as [r g'] eqn:Hg. cbn [fst snd] in *.
  split.
  - intros Hle. rewrite decide_False by lia.
    rewrite Z.rem_mod_nonneg by lia.
    pose proof (Z.mod_pos_bound r (hi - lo + 1)) as Hm.
    eexists. split; [done|]. split; [lia|]. split.
    + replace g' with (rand g).2 by (by rewrite Hg). done.
    + split; lia.
  - intros ->. by rewrite decide_True by lia.
Qed.

Lemma random_int_in_range_witness :
  10 ≤ 12 ∧
  ∃ k, random_int 10 12 (Scenario.constant_rng 5) =
         Some (k, (rand (Scenario.constant_rng 5)).2) ∧ 10 ≤ k ≤ 12.
Proof.
  split; [lia|].
  destruct (proj1 (random_int_in_range 10 12 (Scenario.constant_rng 5)))
    as (k & Hk & Hrange & _); [lia|].
  by exists k.
Defined.

(** X2. [random_range(min, max)] with [min <= max] reads one number of
    the random source and returns a value from [min] to [max]; it returns
    [min] when the draw is 0 and [max] when the draw is [RAND_MAX]. *)
Theorem random_range_in_range (lo hi : R) (g : Rng) :
  (lo <= hi)%R →
  (lo <= (random_range lo hi g).1 <= hi)%R ∧
  rng_pos (random_range lo hi g).2 = S (rng_pos g) ∧
  ((rand g).1 = 0 → (random_range lo hi g).1 = lo) ∧
  ((rand g).1 = RAND_MAX → (random_range lo hi g).1 = hi).
Proof.
  intros Hle. split; [by apply GeneratorFacts.random_range_bounds|].
  split; [apply GeneratorFacts.random_range_pos|].
  unfold random_range. destruct (rand g) as [r g']. cbn [fst snd].
  split; intros ->.
  - unfold Rdiv. rewrite Rmult_0_l, Rmult_0_l. lra.
  - unfold Rdiv. rewrite Rinv_r; [lra|]. unfold RAND_MAX. apply not_0_IZR. lia.
Qed.

Lemma random_range_in_range_witness :
  (-20 <= 20)%R ∧
  (-20 <= (random_range (-20) 20 (Scenario.constant_rng 7)).1 <= 20)%R.
Proof.
  assert (-20 <= 20)%R as H by lra.
  split; [exact H|].
  exact (proj1 (random_range_in_range (-20) 20 (Scenario.constant_rng 7) H)).
Defined.

(** X3. [distance] is not negative, does not depend on the order of its
    two points, and is zero exactly when the two points are the same. *)
Theorem distance_metric (x1 y1 x2 y2 : R) :
  (0 <= distance x1 y1 x2 y2)%R ∧
  distance x1 y1 x2 y2 = distance x2 y2 x1 y1 ∧
  (distance x1 y1 x2 y2 = 0%R ↔ x1 = x2 ∧ y1 = y2).
Proof.
  unfold distance. split; [apply sqrt_pos|]. split.
  - f_equal. ring.
  - split.
    + intros H. apply sqrt_eq_0 in H; [|apply square_sum_nonneg].
      pose proof (Rle_0_sqr (x2 - x1)) as Hx. pose proof (Rle_0_sqr (y2 - y1)) as Hy.
      unfold Rsqr in Hx, Hy.
      assert (x2 - x1 = 0)%R by (apply Rsqr_0_uniq; unfold Rsqr; lra).
      assert (y2 - y1 = 0)%R by (apply Rsqr_0_uniq; unfold Rsqr; lra).
      split; lra.
    + intros [-> ->].
      replace ((x2 - x2) * (x2 - x2) + (y2 - y2) * (y2 - y2))%R with 0%R by ring.
      apply sqrt_0.
Qed.

(** X4. A mango inside the margins of a box of size [Z], the square from
    [-Z/2 + Z/10] to [Z/2 - Z/10] in which the generators place the
    mangos, is reached by a robot of speed [Z/10], the speed all the
    programs set, in at most [4 * sqrt 2] seconds, whatever [Z] is. *)
Theorem reach_time_bound (z : R) (m : Mango) :
  (0 < z)%R →
  Placement.in_square (- (z / 2) + z / 10) (z / 2 - z / 10) m →
  (0 <= calc_robot_reach_time (mango_x m) (mango_y m) (z / 10) <= 4 * sqrt 2)%R.
Proof.
  intros Hz [Hx Hy]. unfold calc_robot_reach_time, distance.
  set (x := mango_x m) in *. set (y := mango_y m) in *.
  set (a := (4 * z / 10)%R).
  assert (0 <= a)%R as Ha by (unfold a; lra).
  assert ((x - 0) * (x - 0) + (y - 0) * (y - 0) <= 2 * (a * a))%R as Hsq.
  { unfold a. nra. }
  split.
  - apply Rmult_le_pos; [apply sqrt_pos|]. left. apply Rinv_0_lt_compat. lra.
  - apply sqrt_le_1_alt in Hsq.
    rewrite sqrt_mult in Hsq by nra. rewrite sqrt_square in Hsq by done.
    apply (Rmult_le_reg_r (z / 10)); [lra|].
    unfold Rdiv at 1. rewrite Rmult_assoc, Rinv_l by lra. rewrite Rmult_1_r.
    unfold a in Hsq. lra.
Qed.

Lemma reach_time_bound_witness :
  (0 < 50)%R ∧ Placement.in_square (- (50 / 2) + 50 / 10) (50 / 2 - 50 / 10) zero_mango ∧
  (0 <= calc_robot_reach_time (mango_x zero_mango) (mango_y zero_mango) (50 / 10)
     <= 4 * sqrt 2)%R.
Proof.
  assert (0 < 50)%R as Hz by lra.
  assert (Placement.in_square (- (50 / 2) + 50 / 10) (50 / 2 - 50 / 10) zero_mango)
    as Hin by (unfold Placement.in_square; cbn; lra).
  split; [exact Hz|]. split; [exact Hin|].
  exact (reach_time_bound 50 zero_mango Hz Hin).
Defined.

End CommonFacts.

(** ** The roster and the sizes derived from it *)

Module SizingFacts.
Import Controller ArrayFacts.

Lemma wrap_int_id (z : Z) : INT_MIN ≤ z ≤ INT_MAX → wrap_int z = z.
Proof.
  unfold wrap_int, INT_MIN, INT_MAX. intros Hz. change (2 ^ 32) with 4294967296.
  rewrite Z.mod_small; lia.
Qed.

Lemma wrap_int_range (z : Z) : INT_MIN ≤ wrap_int z ≤ INT_MAX.
Proof.
  unfold wrap_int, INT_MIN, INT_MAX. change (2 ^ 32) with 4294967296.
  pose proof (Z.mod_pos_bound (z - -2147483648) 4294967296 ltac:(lia)). lia.
Qed.

Lemma required_robots_bounds (p : SystemParams) (n : Z) :
  0 ≤ n → n + mangos_per_robot p - 1 ≤ INT_MAX →
  let r := calculate_required_robots p n in
  let per := mangos_per_robot p in
  n ≤ r * per ∧ r * per < n + per ∧ 0 ≤ r ≤ n ∧ (∀ r', n ≤ r' * per → r ≤ r').
Proof.
  intros Hn Hfit r per. pose proof (CapacityFacts.mangos_per_robot_pos p) as Hper.
  fold per in Hper, Hfit. unfold r, calculate_required_robots. fold per.
  rewrite wrap_int_id by (unfold INT_MIN; lia).
  rewrite Z.quot_div_nonneg by lia.
  pose proof (Z.div_mod (n + per - 1) per ltac:(lia)) as Hdiv.
  pose proof (Z.mod_pos_bound (n + per - 1) per ltac:(lia)) as Hmod.
  set (q := (n + per - 1) `div` per) in *.
  split_and!; nia.
Qed.

(** X5. [calculate_required_robots] rounds up. The capacity
    [mangos_per_robot] it divides by is 1 at least. For a box of
    [n >= 0] mangos, as long as the sum [n + mangos_per_robot - 1] does
    not leave the range of [int], it returns the least number of robots
    whose capacities add up to [n] at least; it is 0 for an empty box
    and never more than [n]. When the sum overflows it wraps around to
    a negative number, and the result, its quotient by the capacity, is
    zero or negative. *)
Theorem required_robots_ceiling (p : SystemParams) (n : Z) :
  0 ≤ n ≤ INT_MAX →
  let r := calculate_required_robots p n in
  let per := mangos_per_robot p in
  1 ≤ per ≤ INT_MAX ∧
  (n + per - 1 ≤ INT_MAX →
     n ≤ r * per ∧ r * per < n + per ∧ 0 ≤ r ≤ n ∧
     (∀ r', n ≤ r' * per → r ≤ r') ∧
     (n = 0 → r = 0)) ∧
  (INT_MAX < n + per - 1 → r = (n + per - 1 - 2 ^ 32) `quot` per ∧ r ≤ 0).
Proof.
  intros Hn r per.
  pose proof (CapacityFacts.mangos_per_robot_pos p) as Hper.
  pose proof (CapacityFacts.mangos_per_robot_max p) as Hmax.
  fold per in Hper, Hmax. split; [done|]. split.
  - intros Hfit.
    destruct (required_robots_bounds p n ltac:(lia) Hfit) as (H1 & H2 & H3 & H4).
    fold r per in H1, H2, H3, H4. split_and!; try done; lia.
  - intros Hover. unfold r, calculate_required_robots. fold per.
    assert (wrap_int (n + per - 1) = n + per - 1 - 2 ^ 32) as ->.
    { unfold wrap_int, INT_MIN, INT_MAX in *. change (2 ^ 32) with 4294967296.
      rewrite <- (Z.mod_unique_pos (n + per - 1 - -2147483648) 4294967296 1
                    (n + per - 1 - 2147483648)); lia. }
    split; [done|]. unfold INT_MAX in *. change (2 ^ 32) with 4294967296.
    pose proof (Z.quot_opp_l (- (n + per - 1 - 4294967296)) per ltac:(lia)) as Hq.
    rewrite Z.opp_involutive in Hq. rewrite Hq.
    assert (0 ≤ - (n + per - 1 - 4294967296) ÷ per); [|lia].
    apply Z.quot_pos; lia.
Qed.

Lemma required_robots_ceiling_witness :
  0 ≤ 7 ≤ INT_MAX ∧
  7 + mangos_per_robot Scenario.seven_label_params - 1 ≤ INT_MAX ∧
  calculate_required_robots Scenario.seven_label_params 7 = 2.
Proof.
  assert (0 ≤ 7 ≤ INT_MAX) as Hn by (unfold INT_MAX; lia).
  pose proof (proj1 CapacityFacts.mangos_per_robot_seven) as Hper.
  assert (7 + mangos_per_robot Scenario.seven_label_params - 1 ≤ INT_MAX) as Hfit
    by (rewrite Hper; unfold INT_MAX; lia).
  split; [exact Hn|]. split; [exact Hfit|].
  destruct (proj1 (proj2 (required_robots_ceiling Scenario.seven_label_params 7 Hn))
              Hfit) as (H1 & H2 & _).
  rewrite Hper in H1, H2. lia.
Defined.

(** X6. [init_robots(n, nb)] with more than [MAX_ROBOTS] robots in all
    returns -1 and leaves the globals as they are. Otherwise it returns
    0 and lays the roster out: robot [k] has id [k], no label, no
    failure; the first [n] robots are idle main robots with their axes
    at [(k + 0.5) * W / n]; the [nb] robots after them are disabled
    backups with their axes at 0; the copy of the robots in the shared
    segment is the same, the segment counts [n] active robots, and the
    box and the lock table are untouched. *)
Theorem init_robots_roster (n nb : Z) (s : State) :
  arrays_ok s → 1 ≤ n → 0 ≤ nb →
  (n + nb > MAX_ROBOTS → init_robots n nb s = Some (-1, s)) ∧
  (n + nb ≤ MAX_ROBOTS →
     ∃ s', init_robots n nb s = Some (0, s') ∧
       roster_ok s' ∧
       g_num_robots s' = n + nb ∧
       num_robots (g_params s') = n ∧
       num_backup_robots (g_params s') = nb ∧
       robot_spacing (g_params s') = (pW (g_params s) / IZR n)%R ∧
       active_robots (g_shm s') = n ∧
       g_current_box s' = g_current_box s ∧
       ∀ k, 0 ≤ k < n + nb →
         ∃ r, aget (g_robots s') k = Some r ∧
              aget (shm_robots (g_shm s')) k = Some r ∧
              robot_id r = k ∧ labels_placed r = 0 ∧ has_failed r = false ∧
              current_mango r = -1 ∧ replacing_robot r = -1 ∧
              (k < n → robot_state r = ROBOT_STATE_IDLE ∧ is_backup r = false ∧
                       axis_position r = axis_of k n (pW (g_params s))) ∧
              (n ≤ k → robot_state r = ROBOT_STATE_DISABLED ∧ is_backup r = true ∧
                       axis_position r = 0%R)).
Proof.
  intros Harr Hn Hnb. split.
  - intros Hbig. unfold init_robots. cbn zeta. by rewrite decide_True.
  - intros Hfit.
    destruct (ZoneFacts.init_robots_spec n nb s Harr ltac:(lia))
      as (s' & Hrun & Harr' & Hnum & Hp & Hbox & Hact & Hrob).
    exists s'. rewrite Hp. unfold params_set_robots.
    cbn [num_robots num_backup_robots robot_spacing].
    split_and!; try done.
    + split; [done|]. rewrite Hp, Hnum. cbn. lia.
    + intros k Hk. destruct (Hrob k Hk) as [Hr Hshared].
      eexists. split; [exact Hr|]. split; [by rewrite Hshared|].
      unfold new_robot, axis_of. cbn.
      split_and!; try done; intros Hcase; case_decide; try lia; done.
Qed.

Lemma init_robots_roster_witness :
  arrays_ok Scenario.default_start ∧ 1 ≤ 4 ∧ 0 ≤ 1 ∧ 4 + 1 ≤ MAX_ROBOTS ∧
  ∃ s', init_robots 4 1 Scenario.default_start = Some (0, s') ∧ roster_ok s'.
Proof.
  assert (arrays_ok Scenario.default_start) as Harr by (repeat split).
  assert (4 + 1 ≤ MAX_ROBOTS) as Hfit by (unfold MAX_ROBOTS; lia).
  split; [exact Harr|]. split; [lia|]. split; [lia|]. split; [exact Hfit|].
  destruct (proj2 (init_robots_roster 4 1 Scenario.default_start Harr
                     ltac:(lia) ltac:(lia)) Hfit) as (s' & Hrun & Hok & _).
  by exists s'.
Defined.

(** X7. After [init_robots(n, nb)] every main robot but the last has the
    same window, [(W / n) / X]: the distance between two neighbouring
    axes over the speed of the belt. Without backups the window of the
    last main robot runs to the end of the belt and is half as long. *)
Theorem windows_after_init (n nb i : Z) (s s' : State) :
  arrays_ok s → 1 ≤ n → 0 ≤ nb → n + nb ≤ MAX_ROBOTS →
  init_robots n nb s = Some (0, s') →
  let w := pW (g_params s) in
  let x := pX (g_params s) in
  (0 ≤ i → i + 1 < n →
     calculate_effective_time i s' = Some (w / IZR n / x)%R) ∧
  (nb = 0 →
     calculate_effective_time (n - 1) s' = Some (w / IZR n / 2 / x)%R).
Proof.
  intros Harr Hn Hnb Hfit Hinit w x.
  assert (IZR n ≠ 0)%R as Hn0 by (apply not_0_IZR; lia).
  split.
  - intros Hi Hlast.
    rewrite (ZoneFacts.effective_time_after_init n nb i s s' Harr) by (done || lia).
    rewrite decide_True by lia. unfold new_robot. cbn [axis_position].
    rewrite !decide_True by lia. f_equal. fold w x. rewrite plus_IZR.
    unfold Rdiv. ring.
  - intros ->.
    rewrite (ZoneFacts.effective_time_after_init n 0 (n - 1) s s' Harr)
      by (done || lia).
    rewrite decide_False by lia. unfold new_robot. cbn [axis_position].
    rewrite decide_True by lia. fold w x. rewrite minus_IZR.
    replace 0.5%R with (1 / 2)%R by lra.
    replace (w - (IZR n - 1 + 1 / 2) * (w / IZR n))%R with (w / IZR n / 2)%R
      by (field; done).
    done.
Qed.

Lemma windows_after_init_witness :
  arrays_ok Scenario.default_start ∧ 1 ≤ 4 ∧ 0 ≤ 1 ∧ 4 + 1 ≤ MAX_ROBOTS ∧
  ∃ s', init_robots 4 1 Scenario.default_start = Some (0, s') ∧
        calculate_effective_time 0 s' = Some (300 / 4 / 10)%R.
Proof.
  assert (arrays_ok Scenario.default_start) as Harr by (repeat split).
  assert (4 + 1 ≤ MAX_ROBOTS) as Hfit by (unfold MAX_ROBOTS; lia).
  split; [exact Harr|]. split; [lia|]. split; [lia|]. split; [exact Hfit|].
  destruct (ZoneFacts.init_robots_spec 4 1 Scenario.default_start Harr
              ltac:(unfold MAX_ROBOTS; lia)) as (s' & Hrun & _).
  exists s'. split; [exact Hrun|].
  exact (proj1 (windows_after_init 4 1 0 Scenario.default_start s' Harr
                  ltac:(lia) ltac:(lia) Hfit Hrun) ltac:(lia) ltac:(lia)).
Defined.


(** X27. After [init_robots(n, nb)] with at least one backup, the window
    of the last main robot is not measured to the end of the belt but to
    the axis of the first backup, which is 0: the window is
    [(0 - axis) / X], a negative time on a belt that moves. *)
Theorem last_window_reaches_backup (n nb : Z) (s s' : State) :
  arrays_ok s → 1 ≤ n → 1 ≤ nb → n + nb ≤ MAX_ROBOTS →
  init_robots n nb s = Some (0, s') →
  let w := pW (g_params s) in
  let x := pX (g_params s) in
  calculate_effective_time (n - 1) s' = Some ((0 - axis_of (n - 1) n w) / x)%R ∧
  ((0 < w)%R → (0 < x)%R → ((0 - axis_of (n - 1) n w) / x < 0)%R).
Proof.
  intros Harr Hn Hnb Hfit Hinit w x. split.
  - rewrite (ZoneFacts.effective_time_after_init n nb (n - 1) s s' Harr)
      by (done || lia).
    rewrite decide_True by lia. unfold new_robot, axis_of. cbn [axis_position].
    rewrite decide_False by lia. rewrite decide_True by lia. done.
  - intros Hw Hx. unfold axis_of.
    assert (1 <= IZR n)%R as Hn1 by (apply IZR_le; lia).
    assert (0 < w / IZR n)%R as Hsp by (apply Rdiv_lt_0_compat; lra).
    rewrite minus_IZR.
    assert (0 < (IZR n - 1 + 0.5) * (w / IZR n))%R as Haxis
      by (apply Rmult_lt_0_compat; lra).
    pose proof (Rinv_0_lt_compat x Hx) as Hinv.
    set (a := ((IZR n - 1 + 0.5) * (w / IZR n))%R) in *.
    unfold Rdiv at 1. nra.
Qed.

Lemma last_window_reaches_backup_witness :
  arrays_ok Scenario.default_start ∧ 1 ≤ 4 ∧ 1 ≤ 1 ∧ 4 + 1 ≤ MAX_ROBOTS ∧
  ∃ s', init_robots 4 1 Scenario.default_start = Some (0, s') ∧
        calculate_effective_time (4 - 1) s'
          = Some ((0 - axis_of (4 - 1) 4 300) / 10)%R.
Proof.
  assert (arrays_ok Scenario.default_start) as Harr by (repeat split).
  assert (4 + 1 ≤ MAX_ROBOTS) as Hfit by (unfold MAX_ROBOTS; lia).
  split; [exact Harr|]. split; [lia|]. split; [lia|]. split; [exact Hfit|].
  destruct (ZoneFacts.init_robots_spec 4 1 Scenario.default_start Harr
              ltac:(unfold MAX_ROBOTS; lia)) as (s' & Hrun & _).
  exists s'. split; [exact Hrun|].
  exact (proj1 (last_window_reaches_backup 4 1 Scenario.default_start s' Harr
                  ltac:(lia) ltac:(lia) Hfit Hrun)).
Defined.

End SizingFacts.

(** ** The failure check of the controller *)

Module FailureFacts.
Import Controller ArrayFacts.

(** X8. [check_robot_failure] on a robot of the roster returns 0 or 1,
    and 1 exactly when the robot is failed after the call. A robot that
    has failed stays failed: the call returns 1 and reads no random
    number. A backup, or any robot when the failure probability is not
    positive, never fails, and again no random number is read. A call
    that returns 0 leaves the globals as they are. When a robot fails in
    the call, it goes to the state Failed, the failure is counted once,
    and one random number was read. *)
Theorem check_robot_failure_cases (ridx : Z) (s : State) (robot : Robot) (g : Rng) :
  roster_ok s → aget (g_robots s) ridx = Some robot →
  0 ≤ robot_id robot < MAX_ROBOTS →
  ∃ ret s' g' robot',
    check_robot_failure ridx s g = Some (ret, s', g') ∧
    aget (g_robots s') ridx = Some robot' ∧
    (ret = 0 ∨ ret = 1) ∧
    (ret = 1 ↔ has_failed robot' = true) ∧
    (has_failed robot = true → s' = s ∧ g' = g) ∧
    (is_backup robot = true ∨ (pB (g_params s) <= 0)%R → s' = s ∧ g' = g) ∧
    (ret = 0 → s' = s) ∧
    (has_failed robot = false → ret = 1 →
       robot_state robot' = ROBOT_STATE_FAILED ∧
       robot_failures (stats (g_shm s')) = robot_failures (stats (g_shm s)) + 1 ∧
       g' = (rand g).2).
Proof.
  intros Hok Hrobot Hid. unfold check_robot_failure. rewrite Hrobot.
  cbn [mbind option_bind].
  destruct (has_failed robot) eqn:Hfailed.
  { exists 1, s, g, robot. split_and!; try done; try (by right); by intros _. }
  destruct (bool_decide (0 < pB (g_params s))%R && negb (is_backup robot)) eqn:Hcan.
  2: { exists 0, s, g, robot. rewrite Hfailed.
       split_and!; try done; try (by left). }
  apply andb_true_iff in Hcan as [Hprob Hmain].
  apply bool_decide_eq_true in Hprob. apply negb_true_iff in Hmain.
  destruct (rand g) as [n g1] eqn:Hrand. cbn [snd].
  case_decide as Hdraw.
  2: { exists 0, s, g1, robot. rewrite Hfailed.
       split_and!; try done; try (by left); try (intros [?|?]; [congruence|lra]). }
  pose proof (aget_lt _ _ _ Hrobot) as Hrange.
  rewrite aset_Some by done. cbn [mbind option_bind].
  set (failed := robot_set_state ROBOT_STATE_FAILED (robot_set_has_failed true robot)).
  set (s1 := set_shm _ _).
  assert (roster_ok s1) as Hok1.
  { destruct Hok as ((Hm & Hl & Hr & Hs) & Hn). subst s1.
    repeat split; cbn; rewrite ?length_insert; try done; apply Hn. }
  assert (aget (g_robots s1) ridx = Some failed) as Hfailed1.
  { subst s1. cbn. by apply aget_insert_eq. }
  assert (robot_id failed = robot_id robot) as Hidf by done.
  destruct (BackupFacts.activate_backup_robot_char (robot_id robot) s1 Hok1 Hid)
    as [(i & r & f & Hi & Hr & Hidle & _ & _ & ->)|[_ ->]];
    cbn [mbind option_bind].
  - exists 1, (bound i (robot_id robot) (axis_position f) r s1), g1, failed.
    assert (i ≠ ridx) as Hne.
    { intros ->. rewrite Hfailed1 in Hr. injection Hr as <-.
      unfold idle_backup in Hidle. cbn in Hidle. by rewrite Hmain in Hidle. }
    split_and!; try done; try (by right).
    + unfold bound. cbn [g_robots set_shm set_robots].
      pose proof (aget_lt _ _ _ Hr). rewrite aget_insert_ne by lia. exact Hfailed1.
    + intros [?|?]; [congruence|lra].
  - exists 1, s1, g1, failed.
    split_and!; try done; try (by right).
    intros [?|?]; [congruence|lra].
Qed.

Lemma check_robot_failure_cases_witness :
  roster_ok Scenario.roster_4_1 ∧
  aget (g_robots Scenario.roster_4_1) 4 = Some (new_robot 4 4 (300 / 4)%R 0%R) ∧
  0 ≤ robot_id (new_robot 4 4 (300 / 4)%R 0%R) < MAX_ROBOTS ∧
  ∃ ret s' g',
    check_robot_failure 4 Scenario.roster_4_1 (Scenario.constant_rng 0)
      = Some (ret, s', g') ∧ (ret = 0 ∨ ret = 1).
Proof.
  assert (aget (g_robots Scenario.roster_4_1) 4 = Some (new_robot 4 4 (300 / 4)%R 0%R))
    as Hr by reflexivity.
  assert (0 ≤ robot_id (new_robot 4 4 (300 / 4)%R 0%R) < MAX_ROBOTS) as Hid
    by (cbn; unfold MAX_ROBOTS; lia).
  split; [exact BackupFacts.roster_ok_4_1|]. split; [exact Hr|]. split; [exact Hid|].
  destruct (check_robot_failure_cases 4 Scenario.roster_4_1 _ (Scenario.constant_rng 0)
              BackupFacts.roster_ok_4_1 Hr Hid)
    as (ret & s' & g' & robot' & Hrun & _ & Hret & _).
  by exists ret, s', g'.
Defined.

End FailureFacts.

(** ** The size of the active pool *)

Module PoolFacts.
Import Controller ArrayFacts Pool.

Lemma count_range_bounds (P : Robot → bool) (rs : list Robot) (i : Z) (n : nat) :
  0 ≤ count_range P rs i n ≤ Z.of_nat n.
Proof.
  revert i. induction n as [|n IH]; intros i; cbn [count_range]; [lia|].
  specialize (IH (i + 1)). destruct (aget rs i) as [r|]; [destruct (P r)|]; lia.
Qed.

Lemma count_range_ext (P : Robot → bool) (rs rs' : list Robot) (i : Z) (n : nat) :
  (∀ k, i ≤ k < i + Z.of_nat n → aget rs' k = aget rs k) →
  count_range P rs' i n = count_range P rs i n.
Proof.
  revert i. induction n as [|n IH]; intros i Hsame; cbn [count_range]; [done|].
  rewrite Hsame by lia. rewrite IH; [done|]. intros k Hk. apply Hsame. lia.
Qed.

Lemma count_range_snoc (P : Robot → bool) (rs : list Robot) (i : Z) (n : nat) :
  count_range P rs i (S n) =
    count_range P rs i n +
    match aget rs (i + Z.of_nat n) with
    | Some r => if P r then 1 else 0
    | None => 0
    end.
Proof.
  revert i. induction n as [|n IH]; intros i.
  - cbn [count_range]. replace (i + Z.of_nat 0) with i by lia. lia.
  - change (count_range P rs i (S (S n))) with
      ((match aget rs i with Some r => if P r then 1 else 0 | None => 0 end)
       + count_range P rs (i + 1) (S n)).
    rewrite IH. cbn [count_range].
    replace (i + 1 + Z.of_nat n) with (i + Z.of_nat (S n)) by lia. lia.
Qed.

Lemma count_range_app (P : Robot → bool) (rs : list Robot) (i : Z) (n m : nat) :
  count_range P rs i (n + m) =
    count_range P rs i n + count_range P rs (i + Z.of_nat n) m.
Proof.
  revert i. induction n as [|n IH]; intros i.
  - cbn. by rewrite Z.add_0_r.
  - cbn [count_range Nat.add]. rewrite IH.
    replace (i + 1 + Z.of_nat n) with (i + Z.of_nat (S n)) by lia. lia.
Qed.

(** The loop of [activate_robots] stops at an index [stop]: the dormant
    robots before it are set to idle and counted. *)
Lemma activate_loop_spec (n : nat) (i count a : Z) (rs : list Robot) :
  0 ≤ i → i + Z.of_nat n ≤ Z.of_nat (length rs) → a ≤ Z.max a count →
  ∃ rs' stop,
    let woken := count_range dormant rs i (Z.to_nat (stop - i)) in
    activate_loop n i count a rs = Some (rs', a + woken) ∧
    i ≤ stop ≤ i + Z.of_nat n ∧
    length rs' = length rs ∧
    a + woken ≤ Z.max a count ∧
    (stop < i + Z.of_nat n → count ≤ a + woken) ∧
    ∀ k r, aget rs k = Some r →
      aget rs' k = Some (if decide (i ≤ k < stop) then
                           if dormant r then robot_set_state ROBOT_STATE_IDLE r else r
                         else r).
Proof.
  revert i a rs. induction n as [|n IH]; intros i a rs Hi Hlen _;
    cbn [activate_loop].
  - exists rs, i. cbn zeta. rewrite Z.sub_diag. cbn [Z.to_nat count_range].
    rewrite Z.add_0_r. split_and!; try done; try lia.
    intros k r Hk. by rewrite decide_False by lia.
  - case_decide as Hmore.
    2: { exists rs, i. cbn zeta. rewrite Z.sub_diag. cbn [Z.to_nat count_range].
         rewrite Z.add_0_r. split_and!; try done; try lia.
         intros k r Hk. by rewrite decide_False by lia. }
    destruct (aget_is_Some rs i) as [r Hr]; [lia|]. rewrite Hr.
    cbn [mbind option_bind]. fold (dormant r).
    destruct (dormant r) eqn:Hd.
    + rewrite aset_Some by lia. cbn [mbind option_bind].
      set (rs1 := <[Z.to_nat i := robot_set_state ROBOT_STATE_IDLE r]> rs).
      destruct (IH (i + 1) (a + 1) rs1) as (rs' & stop & Hrun & Hstop & Hl & Hcap & Hearly & Hget);
        [lia|subst rs1; rewrite length_insert; lia|lia|].
      cbn zeta in *. exists rs', stop.
      assert (count_range dormant rs i (Z.to_nat (stop - i)) =
              1 + count_range dormant rs1 (i + 1) (Z.to_nat (stop - (i + 1)))) as Hcount.
      { replace (Z.to_nat (stop - i)) with (S (Z.to_nat (stop - (i + 1)))) by lia.
        cbn [count_range]. rewrite Hr, Hd. f_equal.
        symmetry. apply count_range_ext. intros k Hk. subst rs1.
        apply aget_insert_ne; lia. }
      rewrite Hcount. replace (a + (1 + _)) with (a + 1 + count_range dormant rs1 (i + 1)
                                 (Z.to_nat (stop - (i + 1)))) by lia.
      split_and!; try done; try lia.
      * by rewrite Hl; subst rs1; rewrite length_insert.
      * intros k r0 Hk. destruct (decide (k = i)) as [->|Hne].
        -- rewrite (Hget i (robot_set_state ROBOT_STATE_IDLE r))
             by (subst rs1; apply aget_insert_eq; lia).
           rewrite decide_False by lia. rewrite decide_True by lia.
           assert (r0 = r) as -> by congruence. by rewrite Hd.
        -- rewrite (Hget k r0) by (subst rs1; rewrite aget_insert_ne by lia; done).
           destruct (decide (i + 1 ≤ k < stop)), (decide (i ≤ k < stop)); try lia; done.
    + destruct (IH (i + 1) a rs) as (rs' & stop & Hrun & Hstop & Hl & Hcap & Hearly & Hget);
        [lia|lia|lia|].
      cbn zeta in *. exists rs', stop.
      assert (count_range dormant rs i (Z.to_nat (stop - i)) =
              count_range dormant rs (i + 1) (Z.to_nat (stop - (i + 1)))) as Hcount.
      { replace (Z.to_nat (stop - i)) with (S (Z.to_nat (stop - (i + 1)))) by lia.
        cbn [count_range]. by rewrite Hr, Hd. }
      rewrite Hcount. split_and!; try done; try lia.
      intros k r0 Hk. rewrite (Hget k r0 Hk).
      destruct (decide (k = i)) as [->|Hne].
      * rewrite decide_False by lia. rewrite decide_True by lia.
        assert (r0 = r) as -> by congruence. by rewrite Hd.
      * destruct (decide (i + 1 ≤ k < stop)), (decide (i ≤ k < stop)); try lia; done.
Qed.

(** The loop of [deactivate_robots] stops at an index [stop]: the idle
    main robots after it are disabled and counted. *)
Lemma deactivate_loop_spec (n : nat) (i count d : Z) (rs : list Robot) :
  Z.of_nat n = i + 1 → i < Z.of_nat (length rs) → d ≤ Z.max d count →
  ∃ rs' stop,
    let slept := count_range main_idle rs (stop + 1) (Z.to_nat (i - stop)) in
    deactivate_loop n i count d rs = Some (rs', d + slept) ∧
    -1 ≤ stop ≤ i ∧
    length rs' = length rs ∧
    d + slept ≤ Z.max d count ∧
    (0 ≤ stop → count ≤ d + slept) ∧
    ∀ k r, aget rs k = Some r →
      aget rs' k = Some (if decide (stop < k ≤ i) then
                           if main_idle r then robot_set_state ROBOT_STATE_DISABLED r
                           else r
                         else r).
Proof.
  revert i d rs. induction n as [|n IH]; intros i d rs Hi Hlen _;
    cbn [deactivate_loop].
  - exists rs, i. cbn zeta. rewrite Z.sub_diag. cbn [Z.to_nat count_range].
    rewrite Z.add_0_r. split_and!; try done; try lia.
    intros k r Hk. by rewrite decide_False by lia.
  - case_decide as Hmore.
    2: { exists rs, i. cbn zeta. rewrite Z.sub_diag. cbn [Z.to_nat count_range].
         rewrite Z.add_0_r. split_and!; try done; try lia.
         intros k r Hk. by rewrite decide_False by lia. }
    destruct (aget_is_Some rs i) as [r Hr]; [lia|]. rewrite Hr.
    cbn [mbind option_bind]. fold (main_idle r).
    assert (∀ stop, -1 ≤ stop ≤ i - 1 → ∀ rs1,
              (∀ k, stop + 1 ≤ k < i → aget rs1 k = aget rs k) →
              count_range main_idle rs (stop + 1) (Z.to_nat (i - stop)) =
              count_range main_idle rs1 (stop + 1) (Z.to_nat (i - 1 - stop))
              + (if main_idle r then 1 else 0)) as Hcount.
    { intros stop Hstop rs1 Hsame.
      replace (Z.to_nat (i - stop)) with (S (Z.to_nat (i - 1 - stop))) by lia.
      rewrite count_range_snoc.
      replace (stop + 1 + Z.of_nat (Z.to_nat (i - 1 - stop))) with i by lia.
      rewrite Hr. f_equal. symmetry. apply count_range_ext.
      intros k Hk. apply Hsame. lia. }
    destruct (main_idle r) eqn:Hd.
    + rewrite aset_Some by lia. cbn [mbind option_bind].
      set (rs1 := <[Z.to_nat i := robot_set_state ROBOT_STATE_DISABLED r]> rs).
      destruct (IH (i - 1) (d + 1) rs1) as (rs' & stop & Hrun & Hstop & Hl & Hcap & Hearly & Hget);
        [lia|subst rs1; rewrite length_insert; lia|lia|].
      cbn zeta in *. exists rs', stop.
      rewrite (Hcount stop ltac:(lia) rs1)
        by (intros k Hk; subst rs1; apply aget_insert_ne; lia).
      replace (d + (count_range main_idle rs1 (stop + 1) (Z.to_nat (i - 1 - stop)) + 1))
        with (d + 1 + count_range main_idle rs1 (stop + 1) (Z.to_nat (i - 1 - stop)))
        by lia.
      split_and!; try done; try lia.
      * by rewrite Hl; subst rs1; rewrite length_insert.
      * intros k r0 Hk. destruct (decide (k = i)) as [->|Hne].
        -- rewrite (Hget i (robot_set_state ROBOT_STATE_DISABLED r))
             by (subst rs1; apply aget_insert_eq; lia).
           rewrite decide_False by lia. rewrite decide_True by lia.
           assert (r0 = r) as -> by congruence. by rewrite Hd.
        -- rewrite (Hget k r0) by (subst rs1; rewrite aget_insert_ne by lia; done).
           destruct (decide (stop < k ≤ i - 1)), (decide (stop < k ≤ i)); try lia; done.
    + destruct (IH (i - 1) d rs) as (rs' & stop & Hrun & Hstop & Hl & Hcap & Hearly & Hget);
        [lia|lia|lia|].
      cbn zeta in *. exists rs', stop.
      rewrite (Hcount stop ltac:(lia) rs) by done. rewrite Z.add_0_r.
      split_and!; try done; try lia.
      intros k r0 Hk. rewrite (Hget k r0 Hk).
      destruct (decide (k = i)) as [->|Hne].
      * rewrite decide_False by lia. rewrite decide_True by lia.
        assert (r0 = r) as -> by congruence. by rewrite Hd.
      * destruct (decide (stop < k ≤ i - 1)), (decide (stop < k ≤ i)); try lia; done.
Qed.


Lemma count_range_interval (P : Robot → bool) (rs : list Robot) (a b i : Z) (n : nat) :
  (∀ k, i ≤ k < i + Z.of_nat n →
     ∃ r, aget rs k = Some r ∧ (P r = true ↔ a ≤ k < b)) →
  count_range P rs i n = Z.max 0 (Z.min (i + Z.of_nat n) b - Z.max i a).
Proof.
  revert i. induction n as [|n IH]; intros i Hshape; cbn [count_range]; [lia|].
  destruct (Hshape i) as (r & -> & HP); [lia|].
  rewrite IH by (intros k Hk; apply Hshape; lia).
  destruct (P r).
  - assert (a ≤ i < b) by (by apply HP). lia.
  - assert (¬ (a ≤ i < b)) by (intros H; by apply HP in H). lia.
Qed.

Lemma activate_robots_char (count : Z) (s : State) :
  roster_ok s →
  ∃ rs' stop,
    let woken := count_range dormant (g_robots s) 0 (Z.to_nat stop) in
    activate_robots count s =
      Some (set_shm
              (shm_set_active_robots (active_robots (g_shm s) + woken) (g_shm s))
              (set_robots rs' s)) ∧
    0 ≤ stop ≤ g_num_robots s ∧
    length rs' = length (g_robots s) ∧
    woken = Z.min (Z.max 0 count)
              (count_range dormant (g_robots s) 0 (Z.to_nat (g_num_robots s))) ∧
    (∀ k r, aget (g_robots s) k = Some r →
       aget rs' k =
         Some (if decide (0 ≤ k < stop) then
                 if dormant r then robot_set_state ROBOT_STATE_IDLE r else r
               else r)).
Proof.
  intros ((Hm & Hl & Hr & Hs) & Hn & Hmax). unfold activate_robots.
  destruct (activate_loop_spec (Z.to_nat (g_num_robots s)) 0 count 0 (g_robots s))
    as (rs' & stop & Hrun & Hstop & Hlen & Hcap & Hearly & Hget);
    [lia|rewrite Hr; unfold MAX_ROBOTS in *; lia|lia|].
  cbn zeta in *. rewrite Z.sub_0_r, Z.add_0_l in *. rewrite Hrun.
  cbn [mbind option_bind]. exists rs', stop. split; [done|].
  split; [lia|]. split; [done|]. split; [|exact Hget].
  pose proof (count_range_bounds dormant (g_robots s) 0 (Z.to_nat stop)) as Hb.
  replace (Z.to_nat (g_num_robots s))
    with (Z.to_nat stop + Z.to_nat (g_num_robots s - stop))%nat by lia.
  rewrite count_range_app.
  pose proof (count_range_bounds dormant (g_robots s) (0 + Z.of_nat (Z.to_nat stop))
                (Z.to_nat (g_num_robots s - stop))) as Hrest.
  destruct (decide (stop < g_num_robots s)) as [Hlt|Hge].
  - specialize (Hearly ltac:(lia)). lia.
  - replace (Z.to_nat (g_num_robots s - stop)) with 0%nat in * by lia.
    cbn [count_range]. lia.
Qed.

(** X9. [activate_robots(count)] goes up the roster and sets to idle the
    robots that are disabled and have not failed, backups among them,
    until it has set [count] robots or the roster ends: it wakes the
    first [min(count, available)] of them and no other robot, adds their
    number to the count of active robots of the shared segment, and
    changes nothing else. *)
Theorem activate_robots_wakes (count : Z) (s : State) :
  roster_ok s →
  ∃ rs' stop,
    let woken := count_range dormant (g_robots s) 0 (Z.to_nat stop) in
    activate_robots count s =
      Some (set_shm
              (shm_set_active_robots (active_robots (g_shm s) + woken) (g_shm s))
              (set_robots rs' s)) ∧
    0 ≤ stop ≤ g_num_robots s ∧
    length rs' = length (g_robots s) ∧
    woken = Z.min (Z.max 0 count)
              (count_range dormant (g_robots s) 0 (Z.to_nat (g_num_robots s))) ∧
    (∀ k r, aget (g_robots s) k = Some r →
       aget rs' k =
         Some (if decide (0 ≤ k < stop) then
                 if dormant r then robot_set_state ROBOT_STATE_IDLE r else r
               else r)).
Proof.
  intros ((Hm & Hl & Hr & Hs) & Hn & Hmax). unfold activate_robots.
  destruct (activate_loop_spec (Z.to_nat (g_num_robots s)) 0 count 0 (g_robots s))
    as (rs' & stop & Hrun & Hstop & Hlen & Hcap & Hearly & Hget);
    [lia|rewrite Hr; unfold MAX_ROBOTS in *; lia|lia|].
  cbn zeta in *. rewrite Z.sub_0_r, Z.add_0_l in *. rewrite Hrun.
  cbn [mbind option_bind]. exists rs', stop. split; [done|].
  split; [lia|]. split; [done|]. split; [|exact Hget].
  pose proof (count_range_bounds dormant (g_robots s) 0 (Z.to_nat stop)) as Hb.
  replace (Z.to_nat (g_num_robots s))
    with (Z.to_nat stop + Z.to_nat (g_num_robots s - stop))%nat by lia.
  rewrite count_range_app.
  pose proof (count_range_bounds dormant (g_robots s) (0 + Z.of_nat (Z.to_nat stop))
                (Z.to_nat (g_num_robots s - stop))) as Hrest.
  destruct (decide (stop < g_num_robots s)) as [Hlt|Hge].
  - specialize (Hearly ltac:(lia)). lia.
  - replace (Z.to_nat (g_num_robots s - stop)) with 0%nat in * by lia.
    cbn [count_range]. lia.
Qed.

Lemma activate_robots_wakes_witness :
  roster_ok Scenario.roster_4_1 ∧
  ∃ s', activate_robots 1 Scenario.roster_4_1 = Some s' ∧
        active_robots (g_shm s') =
          active_robots (g_shm Scenario.roster_4_1)
          + Z.min (Z.max 0 1)
              (count_range dormant (g_robots Scenario.roster_4_1) 0
                 (Z.to_nat (g_num_robots Scenario.roster_4_1))).
Proof.
  split; [exact BackupFacts.roster_ok_4_1|].
  destruct (activate_robots_wakes 1 Scenario.roster_4_1 BackupFacts.roster_ok_4_1)
    as (rs' & stop & Hrun & _ & _ & Hwoken & _).
  eexists. split; [exact Hrun|]. cbn zeta in Hwoken. by rewrite <- Hwoken.
Defined.

Lemma deactivate_robots_char (count : Z) (s : State) :
  roster_ok s →
  ∃ rs' stop,
    let slept := count_range main_idle (g_robots s) (stop + 1)
                   (Z.to_nat (g_num_robots s - 1 - stop)) in
    deactivate_robots count s =
      Some (set_shm
              (shm_set_active_robots (active_robots (g_shm s) - slept) (g_shm s))
              (set_robots rs' s)) ∧
    -1 ≤ stop < Z.max 1 (g_num_robots s) ∧
    length rs' = length (g_robots s) ∧
    slept = Z.min (Z.max 0 count)
              (count_range main_idle (g_robots s) 0 (Z.to_nat (g_num_robots s))) ∧
    (∀ k r, aget (g_robots s) k = Some r →
       aget rs' k =
         Some (if decide (stop < k < g_num_robots s) then
                 if main_idle r then robot_set_state ROBOT_STATE_DISABLED r else r
               else r)) ∧
    (∀ k r, aget (g_robots s) k = Some r →
       is_backup r = true ∨ robot_state r ≠ ROBOT_STATE_IDLE →
       aget rs' k = Some r).
Proof.
  intros ((Hm & Hl & Hr & Hs) & Hn & Hmax). unfold deactivate_robots.
  destruct (deactivate_loop_spec (Z.to_nat (g_num_robots s)) (g_num_robots s - 1)
              count 0 (g_robots s))
    as (rs' & stop & Hrun & Hstop & Hlen & Hcap & Hearly & Hget);
    [lia|rewrite Hr; unfold MAX_ROBOTS in *; lia|lia|].
  cbn zeta in *. rewrite Z.add_0_l in *. rewrite Hrun.
  cbn [mbind option_bind]. exists rs', stop. split; [done|].
  split; [lia|]. split; [done|].
  assert (∀ k r, aget (g_robots s) k = Some r →
            aget rs' k =
              Some (if decide (stop < k < g_num_robots s) then
                      if main_idle r then robot_set_state ROBOT_STATE_DISABLED r else r
                    else r)) as Hget'.
  { intros k r Hk. rewrite (Hget k r Hk).
    destruct (decide (stop < k ≤ g_num_robots s - 1)),
             (decide (stop < k < g_num_robots s)); try lia; done. }
  split; [|split; [exact Hget'|]].
  - pose proof (count_range_bounds main_idle (g_robots s) (stop + 1)
                  (Z.to_nat (g_num_robots s - 1 - stop))) as Hb.
    replace (Z.to_nat (g_num_robots s))
      with (Z.to_nat (stop + 1) + Z.to_nat (g_num_robots s - 1 - stop))%nat by lia.
    rewrite count_range_app.
    replace (0 + Z.of_nat (Z.to_nat (stop + 1))) with (stop + 1) by lia.
    pose proof (count_range_bounds main_idle (g_robots s) 0 (Z.to_nat (stop + 1)))
      as Hrest.
    destruct (decide (0 ≤ stop)) as [Hlt|Hge].
    + specialize (Hearly Hlt). lia.
    + replace (Z.to_nat (stop + 1)) with 0%nat in * by lia.
      cbn [count_range]. lia.
  - intros k r Hk Hkeep. rewrite (Hget' k r Hk). case_decide; [|done].
    assert (main_idle r = false) as ->; [|done].
    unfold main_idle. destruct Hkeep as [->|Hst].
    + by rewrite andb_false_r.
    + by rewrite bool_decide_eq_false_2.
Qed.

(** X10. [deactivate_robots(count)] goes down the roster and disables the
    main robots that are idle, until it has disabled [count] robots or
    the roster ends: it disables the last [min(count, available)] of
    them, subtracts their number from the count of active robots, and
    changes nothing else. A backup, and a robot in any state but idle,
    is never disabled. *)
Theorem deactivate_robots_sleeps (count : Z) (s : State) :
  roster_ok s →
  ∃ rs' stop,
    let slept := count_range main_idle (g_robots s) (stop + 1)
                   (Z.to_nat (g_num_robots s - 1 - stop)) in
    deactivate_robots count s =
      Some (set_shm
              (shm_set_active_robots (active_robots (g_shm s) - slept) (g_shm s))
              (set_robots rs' s)) ∧
    -1 ≤ stop < Z.max 1 (g_num_robots s) ∧
    length rs' = length (g_robots s) ∧
    slept = Z.min (Z.max 0 count)
              (count_range main_idle (g_robots s) 0 (Z.to_nat (g_num_robots s))) ∧
    (∀ k r, aget (g_robots s) k = Some r →
       aget rs' k =
         Some (if decide (stop < k < g_num_robots s) then
                 if main_idle r then robot_set_state ROBOT_STATE_DISABLED r else r
               else r)) ∧
    (∀ k r, aget (g_robots s) k = Some r →
       is_backup r = true ∨ robot_state r ≠ ROBOT_STATE_IDLE →
       aget rs' k = Some r).
Proof.
  intros ((Hm & Hl & Hr & Hs) & Hn & Hmax). unfold deactivate_robots.
  destruct (deactivate_loop_spec (Z.to_nat (g_num_robots s)) (g_num_robots s - 1)
              count 0 (g_robots s))
    as (rs' & stop & Hrun & Hstop & Hlen & Hcap & Hearly & Hget);
    [lia|rewrite Hr; unfold MAX_ROBOTS in *; lia|lia|].
  cbn zeta in *. rewrite Z.add_0_l in *. rewrite Hrun.
  cbn [mbind option_bind]. exists rs', stop. split; [done|].
  split; [lia|]. split; [done|].
  assert (∀ k r, aget (g_robots s) k = Some r →
            aget rs' k =
              Some (if decide (stop < k < g_num_robots s) then
                      if main_idle r then robot_set_state ROBOT_STATE_DISABLED r else r
                    else r)) as Hget'.
  { intros k r Hk. rewrite (Hget k r Hk).
    destruct (decide (stop < k ≤ g_num_robots s - 1)),
             (decide (stop < k < g_num_robots s)); try lia; done. }
  split; [|split; [exact Hget'|]].
  - pose proof (count_range_bounds main_idle (g_robots s) (stop + 1)
                  (Z.to_nat (g_num_robots s - 1 - stop))) as Hb.
    replace (Z.to_nat (g_num_robots s))
      with (Z.to_nat (stop + 1) + Z.to_nat (g_num_robots s - 1 - stop))%nat by lia.
    rewrite count_range_app.
    replace (0 + Z.of_nat (Z.to_nat (stop + 1))) with (stop + 1) by lia.
    pose proof (count_range_bounds main_idle (g_robots s) 0 (Z.to_nat (stop + 1)))
      as Hrest.
    destruct (decide (0 ≤ stop)) as [Hlt|Hge].
    + specialize (Hearly Hlt). lia.
    + replace (Z.to_nat (stop + 1)) with 0%nat in * by lia.
      cbn [count_range]. lia.
  - intros k r Hk Hkeep. rewrite (Hget' k r Hk). case_decide; [|done].
    assert (main_idle r = false) as ->; [|done].
    unfold main_idle. destruct Hkeep as [->|Hst].
    + by rewrite andb_false_r.
    + by rewrite bool_decide_eq_false_2.
Qed.

Lemma deactivate_robots_sleeps_witness :
  roster_ok Scenario.roster_4_1 ∧
  ∃ s', deactivate_robots 2 Scenario.roster_4_1 = Some s' ∧
        aget (g_robots s') 4 = aget (g_robots Scenario.roster_4_1) 4.
Proof.
  split; [exact BackupFacts.roster_ok_4_1|].
  destruct (deactivate_robots_sleeps 2 Scenario.roster_4_1 BackupFacts.roster_ok_4_1)
    as (rs' & stop & Hrun & _ & _ & _ & _ & Hkeep).
  eexists. split; [exact Hrun|].
  apply (Hkeep 4 (new_robot 4 4 (300 / 4)%R 0%R)); [reflexivity|by left].
Defined.

End PoolFacts.

(** ** A box is received on a fresh roster *)

Module ReceiveFacts.
Import Controller ArrayFacts Pool PoolFacts.

Lemma fresh_main_idle (k n : Z) (spacing prob : R) :
  main_idle (new_robot k n spacing prob) = true ↔ k < n.
Proof.
  unfold main_idle, new_robot. cbn. destruct (decide (k < n)); cbn; split;
    try done; lia.
Qed.

Lemma fresh_dormant (k n : Z) (spacing prob : R) :
  dormant (new_robot k n spacing prob) = true ↔ n ≤ k.
Proof.
  unfold dormant, new_robot. cbn. destruct (decide (k < n)); cbn; split;
    try done; lia.
Qed.

(** What [init_robots] leaves behind, in the form the proofs below use. *)
Lemma fresh_roster (n nb : Z) (s s0 : State) :
  arrays_ok s → 1 ≤ n → 0 ≤ nb → n + nb ≤ MAX_ROBOTS →
  init_robots n nb s = Some (0, s0) →
  roster_ok s0 ∧ g_num_robots s0 = n + nb ∧ num_robots (g_params s0) = n ∧
  active_robots (g_shm s0) = n ∧
  ∃ spacing prob, ∀ k, 0 ≤ k < n + nb →
    aget (g_robots s0) k = Some (new_robot k n spacing prob).
Proof.
  intros Harr Hn Hnb Hfit Hinit.
  destruct (ZoneFacts.init_robots_spec n nb s Harr ltac:(lia))
    as (s' & Hrun & Harr' & Hnum & Hp & Hbox & Hact & Hrob).
  rewrite Hinit in Hrun. injection Hrun as <-.
  assert (num_robots (g_params s0) = n) as Hmain by (by rewrite Hp).
  split_and!; try done.
  - split; [done|]. rewrite Hmain, Hnum. lia.
  - eexists _, _. intros k Hk. exact (proj1 (Hrob k Hk)).
Qed.

(** The capacity of a robot on the default belt with 4 main robots. *)
Lemma fresh_default_capacity (s0 : State) :
  init_robots 4 1 Scenario.default_start = Some (0, s0) →
  mangos_per_robot (g_params s0) = 2.
Proof.
  intros Hinit.
  destruct (ZoneFacts.init_robots_spec 4 1 Scenario.default_start
              ltac:(repeat split) ltac:(unfold MAX_ROBOTS; lia))
    as (s' & Hrun & _ & _ & Hp & _).
  rewrite Hinit in Hrun. injection Hrun as <-.
  rewrite <- CapacityFacts.mangos_per_robot_default.
  unfold mangos_per_robot. by rewrite Hp.
Qed.

(** X11. The first box on a fresh roster, when it needs fewer robots
    than there are main robots (and not a negative number of them, as a
    sum that overflows would give): the pool is cut down to the number
    of robots the box requires. The last main robots are disabled, the first
    [required] stay idle, the backups are left as they are, the shared
    segment counts [required] active robots, and the box becomes the
    current box with a clean lock table. *)
Theorem first_box_cuts_pool (n nb : Z) (s s0 : State) (new_box : Box) :
  arrays_ok s → 1 ≤ n → 0 ≤ nb → n + nb ≤ MAX_ROBOTS →
  init_robots n nb s = Some (0, s0) →
  let required := calculate_required_robots (g_params s0) (num_mangos new_box) in
  0 ≤ required < n →
  ∃ s', receive_box new_box s0 = Some s' ∧
    g_current_box s' = new_box ∧ g_box_ready s' = true ∧
    (∀ mid, 0 ≤ mid < MAX_MANGOS_PER_BOX → aget (mango_lock (g_shm s')) mid = Some (-1)) ∧
    active_robots (g_shm s') = required ∧
    (∀ k, 0 ≤ k < required ∨ n ≤ k < n + nb →
       aget (g_robots s') k = aget (g_robots s0) k) ∧
    (∀ k, required ≤ k < n →
       ∃ r, aget (g_robots s0) k = Some r ∧
            aget (g_robots s') k = Some (robot_set_state ROBOT_STATE_DISABLED r)).
Proof.
  intros Harr Hn Hnb Hfit Hinit required Hreq.
  destruct (fresh_roster n nb s s0 Harr Hn Hnb Hfit Hinit)
    as (Hok & Hnum & Hmain & Hact & spacing & prob & Hrob).
  unfold receive_box, size_robots. fold required. rewrite Hmain.
  rewrite decide_True by lia.
  destruct (deactivate_robots_char (n - required) s0 Hok)
    as (rs' & stop & Hrun & Hstop & _ & Hslept & Hget & _).
  cbn zeta in *. rewrite Hrun. cbn [mbind option_bind].
  rewrite Hnum in *.
  rewrite (count_range_interval main_idle (g_robots s0) 0 n 0) in Hslept.
  2: { intros k Hk. exists (new_robot k n spacing prob).
       split; [apply Hrob; lia|]. rewrite fresh_main_idle. lia. }
  rewrite (count_range_interval main_idle (g_robots s0) 0 n (stop + 1)) in Hslept.
  2: { intros k Hk. exists (new_robot k n spacing prob).
       split; [apply Hrob; lia|]. rewrite fresh_main_idle. lia. }
  assert (stop = required - 1) as -> by lia.
  eexists. split; [done|]. unfold Live.install_box.
  cbn [g_current_box g_box_ready g_shm g_robots set_shm set_robots
         shm_set_active_robots shm_set_mango_lock mango_lock active_robots].
  split_and!; try done.
  - intros mid Hmid. unfold aget. rewrite decide_True by lia.
    apply lookup_replicate. split; [done|]. lia.
  - rewrite (count_range_interval main_idle (g_robots s0) 0 n).
    2: { intros k Hk. exists (new_robot k n spacing prob).
         split; [apply Hrob; lia|]. rewrite fresh_main_idle. lia. }
    lia.
  - intros k Hk. assert (0 ≤ k < n + nb) as Hk' by lia.
    rewrite (Hget k _ (Hrob k Hk')), (Hrob k Hk').
    case_decide; [|done].
    destruct (main_idle _) eqn:Hidle; [|done].
    apply fresh_main_idle in Hidle. lia.
  - intros k Hk. assert (0 ≤ k < n + nb) as Hk' by lia.
    eexists. split; [exact (Hrob k Hk')|].
    rewrite (Hget k _ (Hrob k Hk')). rewrite decide_True by lia.
    assert (main_idle (new_robot k n spacing prob) = true) as ->; [|done].
    apply fresh_main_idle. lia.
Qed.


Lemma first_box_cuts_pool_witness :
  arrays_ok Scenario.default_start ∧ 1 ≤ 4 ∧ 0 ≤ 1 ∧ 4 + 1 ≤ MAX_ROBOTS ∧
  ∃ s0 s', init_robots 4 1 Scenario.default_start = Some (0, s0) ∧
    calculate_required_robots (g_params s0) (num_mangos Scenario.two_mango_box) = 1 ∧
    receive_box Scenario.two_mango_box s0 = Some s' ∧
    g_current_box s' = Scenario.two_mango_box ∧
    active_robots (g_shm s') = 1.
Proof.
  assert (arrays_ok Scenario.default_start) as Harr by (repeat split).
  assert (4 + 1 ≤ MAX_ROBOTS) as Hfit by (unfold MAX_ROBOTS; lia).
  split; [exact Harr|]. split; [lia|]. split; [lia|]. split; [exact Hfit|].
  destruct (ZoneFacts.init_robots_spec 4 1 Scenario.default_start Harr
              ltac:(unfold MAX_ROBOTS; lia)) as (s0 & Hrun & _).
  pose proof (fresh_default_capacity s0 Hrun) as Hper.
  assert (calculate_required_robots (g_params s0) (num_mangos Scenario.two_mango_box) = 1)
    as Hone.
  { pose proof (SizingFacts.required_robots_bounds (g_params s0)
                  (num_mangos Scenario.two_mango_box) ltac:(cbn; lia)
                  ltac:(rewrite Hper; cbn; unfold INT_MAX; lia))
      as (H1 & H2 & _).
    cbn zeta in H1, H2. rewrite Hper in H1, H2.
    cbn [num_mangos Scenario.two_mango_box] in *. lia. }
  destruct (first_box_cuts_pool 4 1 Scenario.default_start s0 Scenario.two_mango_box
              Harr ltac:(lia) ltac:(lia) Hfit Hrun ltac:(rewrite Hone; lia))
    as (s' & Hrecv & Hbox & _ & _ & Hact & _).
  exists s0, s'. rewrite Hone in Hact. done.
Defined.

(** X12. The first box on a fresh roster, when it needs at least as many
    robots as there are main robots: [activate_robots] finds the main
    robots idle already and wakes backups instead. The first
    [min(required, nb)] backups become idle robots, with their axes still
    at 0, and are counted as active. When the box requires at least [nb]
    robots no backup is left disabled, and a failure that follows finds
    none to replace the failed robot. *)
Theorem first_box_wakes_backups (n nb : Z) (s s0 : State) (new_box : Box) :
  arrays_ok s → 1 ≤ n → 1 ≤ nb → n + nb ≤ MAX_ROBOTS →
  init_robots n nb s = Some (0, s0) →
  length (mangos new_box) = Z.to_nat MAX_MANGOS_PER_BOX →
  let required := calculate_required_robots (g_params s0) (num_mangos new_box) in
  n ≤ required →
  ∃ s', receive_box new_box s0 = Some s' ∧
    g_current_box s' = new_box ∧
    active_robots (g_shm s') = n + Z.min required nb ∧
    (∀ k, 0 ≤ k < n → aget (g_robots s') k = aget (g_robots s0) k) ∧
    (∀ k, n ≤ k < n + Z.min required nb →
       ∃ r, aget (g_robots s') k = Some r ∧ is_backup r = true ∧
            robot_state r = ROBOT_STATE_IDLE ∧ axis_position r = 0%R) ∧
    (nb ≤ required →
       ∀ failed, 0 ≤ failed < MAX_ROBOTS → activate_backup_robot failed s' = Some s').
Proof.
  intros Harr Hn Hnb Hfit Hinit Hbox required Hmore.
  destruct (fresh_roster n nb s s0 Harr Hn ltac:(lia) Hfit Hinit)
    as (Hok & Hnum & Hmain & Hact & spacing & prob & Hrob).
  unfold receive_box, size_robots. fold required. rewrite Hmain.
  rewrite decide_False by lia.
  destruct (activate_robots_char required s0 Hok)
    as (rs' & stop & Hrun & Hstop & Hlen & Hwoken & Hget).
  cbn zeta in *. rewrite Hrun. cbn [mbind option_bind].
  rewrite Hnum in *.
  assert (∀ m, 0 ≤ m ≤ n + nb →
            count_range dormant (g_robots s0) 0 (Z.to_nat m) =
            Z.max 0 (Z.min m (n + nb) - n)) as Hcount.
  { intros m Hm.
    rewrite (count_range_interval dormant (g_robots s0) n (n + nb) 0).
    - lia.
    - intros k Hk. exists (new_robot k n spacing prob).
      split; [apply Hrob; lia|]. rewrite fresh_dormant. lia. }
  rewrite (Hcount stop) in * by lia. rewrite (Hcount (n + nb)) in Hwoken by lia.
  assert (stop = n + Z.min required nb) as -> by lia.
  set (s1 := set_shm _ _).
  assert (∀ k, n ≤ k < n + Z.min required nb →
            aget rs' k = Some (robot_set_state ROBOT_STATE_IDLE
                                 (new_robot k n spacing prob))) as Hawake.
  { intros k Hk. rewrite (Hget k _ (Hrob k ltac:(lia))).
    rewrite decide_True by lia.
    assert (dormant (new_robot k n spacing prob) = true) as ->; [|done].
    apply fresh_dormant. lia. }
  eexists. split; [done|]. unfold Live.install_box.
  cbn [g_current_box g_shm g_robots set_shm set_robots s1
         shm_set_active_robots shm_set_mango_lock active_robots].
  split_and!; try done.
  - subst s1. cbn. lia.
  - intros k Hk. subst s1. cbn [g_robots set_shm set_robots].
    rewrite (Hget k _ (Hrob k ltac:(lia))), (Hrob k ltac:(lia)).
    case_decide; [|done].
    destruct (dormant _) eqn:Hd; [|done]. apply fresh_dormant in Hd. lia.
  - intros k Hk. subst s1. cbn [g_robots set_shm set_robots].
    eexists. split; [exact (Hawake k Hk)|].
    unfold new_robot. cbn. rewrite !decide_False by lia. done.
  - intros Hall failed Hfailed.
    set (s2 := {| g_robots := _ |}).
    assert (roster_ok s2) as Hok2.
    { destruct Hok as ((Hm & Hl & Hr & Hs) & Hcounts). subst s2 s1.
      repeat split; cbn; rewrite ?length_replicate, ?Hlen, ?Hmain, ?Hnum;
        try done; lia. }
    destruct (BackupFacts.activate_backup_robot_char failed s2 Hok2 Hfailed)
      as [(i & r & f & Hi & Hr & Hidle & _)|[_ Hnone]]; [|exact Hnone].
    exfalso. subst s2 s1. cbn in Hi, Hr. rewrite Hmain, Hnum in Hi.
    rewrite (Hawake i ltac:(lia)) in Hr. injection Hr as <-.
    by apply BackupFacts.idle_backup_disabled in Hidle.
Qed.


Lemma first_box_wakes_backups_witness :
  arrays_ok Scenario.default_start ∧ 1 ≤ 4 ∧ 1 ≤ 1 ∧ 4 + 1 ≤ MAX_ROBOTS ∧
  length (mangos Scenario.ten_mango_box) = Z.to_nat MAX_MANGOS_PER_BOX ∧
  ∃ s0 s', init_robots 4 1 Scenario.default_start = Some (0, s0) ∧
    4 ≤ calculate_required_robots (g_params s0) (num_mangos Scenario.ten_mango_box) ∧
    receive_box Scenario.ten_mango_box s0 = Some s' ∧
    ∀ failed, 0 ≤ failed < MAX_ROBOTS → activate_backup_robot failed s' = Some s'.
Proof.
  assert (arrays_ok Scenario.default_start) as Harr by (repeat split).
  assert (4 + 1 ≤ MAX_ROBOTS) as Hfit by (unfold MAX_ROBOTS; lia).
  assert (length (mangos Scenario.ten_mango_box) = Z.to_nat MAX_MANGOS_PER_BOX)
    as Hlen by reflexivity.
  split; [exact Harr|]. split; [lia|]. split; [lia|]. split; [exact Hfit|].
  split; [exact Hlen|].
  destruct (ZoneFacts.init_robots_spec 4 1 Scenario.default_start Harr
              ltac:(unfold MAX_ROBOTS; lia)) as (s0 & Hrun & _).
  pose proof (fresh_default_capacity s0 Hrun) as Hper.
  assert (4 ≤ calculate_required_robots (g_params s0)
                (num_mangos Scenario.ten_mango_box)) as Hmore.
  { pose proof (SizingFacts.required_robots_bounds (g_params s0)
                  (num_mangos Scenario.ten_mango_box) ltac:(cbn; lia)
                  ltac:(rewrite Hper; cbn; unfold INT_MAX; lia))
      as (Hcover & _).
    cbn zeta in Hcover. rewrite Hper in Hcover.
    cbn [num_mangos Scenario.ten_mango_box] in *. lia. }
  destruct (first_box_wakes_backups 4 1 Scenario.default_start s0
              Scenario.ten_mango_box Harr ltac:(lia) ltac:(lia) Hfit Hrun Hlen Hmore)
    as (s' & Hrecv & _ & _ & _ & _ & Hnone).
  exists s0, s'. split; [exact Hrun|]. split; [exact Hmore|]. split; [exact Hrecv|].
  apply Hnone. lia.
Defined.

End ReceiveFacts.

(** ** Claims, labels and the current box *)

Module ClaimFacts.
Import Controller ArrayFacts Pool Tally Lifecycle.

(** X13. [release_mango_claim] clears the entry of the lock table only:
    the mango stays in the state of being labeled. After a claim that
    succeeded and a release, the lock entry is -1 again, but a new claim
    for the mango, by any robot, still returns -1 and changes nothing.
    Unlike [try_claim_mango], the release does not test its index: outside
    the table it is undefined. *)
Theorem release_keeps_mango_taken (s s1 : State) (rid rid' mid : Z) :
  arrays_ok s →
  try_claim_mango rid mid s = Some (0, s1) →
  (∃ s2, release_mango_claim mid s1 = Some s2 ∧
         aget (mango_lock (g_shm s2)) mid = Some (-1) ∧
         g_current_box s2 = g_current_box s1 ∧
         item_state s2 mid = Some MANGO_BEING_LABELED ∧
         try_claim_mango rid' mid s2 = Some (-1, s2)) ∧
  (∀ bad, bad < 0 ∨ bad >= MAX_MANGOS_PER_BOX → release_mango_claim bad s1 = None).
Proof.
  intros Harr Hclaim.
  destruct (ControllerFacts.try_claim_mango_cases s rid mid Harr)
    as (ret & s' & Hrun & Hiff & Hwon & _).
  rewrite Hclaim in Hrun. injection Hrun as <- <-.
  destruct (Hwon eq_refl) as (m & Hm & ->). clear Hwon.
  pose proof (aget_lt _ _ _ Hm) as Hrange.
  destruct Harr as (Hlm & Hll & Hlr & Hls).
  assert (0 ≤ mid < MAX_MANGOS_PER_BOX) as Hmid by (rewrite Hlm in Hrange; lia).
  split.
  - unfold release_mango_claim. cbn [g_shm set_shm shm_set_mango_lock mango_lock].
    rewrite aset_Some by (rewrite length_insert, Hll; lia).
    cbn [mbind option_bind]. eexists. split; [done|].
    cbn [g_shm set_shm shm_set_mango_lock mango_lock g_current_box set_current_box].
    split; [apply aget_insert_eq; rewrite length_insert, Hll; lia|].
    split; [done|].
    assert (aget (<[Z.to_nat mid := mango_set_state MANGO_BEING_LABELED m]>
                    (mangos (g_current_box s))) mid
            = Some (mango_set_state MANGO_BEING_LABELED m)) as Hnow
      by (by apply aget_insert_eq).
    split.
    + unfold item_state. cbn. by rewrite Hnow.
    + unfold try_claim_mango. rewrite decide_False by lia. cbn.
      rewrite Hnow. cbn. by rewrite decide_True.
  - intros bad Hbad. unfold release_mango_claim, aset.
    cbn [g_shm set_shm shm_set_mango_lock mango_lock].
    rewrite decide_False; [done|]. rewrite length_insert, Hll.
    unfold MAX_MANGOS_PER_BOX in *. lia.
Qed.

Lemma release_keeps_mango_taken_witness :
  arrays_ok initial_state ∧
  ∃ s1 s2, try_claim_mango 1 0 initial_state = Some (0, s1) ∧
           release_mango_claim 0 s1 = Some s2 ∧
           try_claim_mango 2 0 s2 = Some (-1, s2).
Proof.
  split; [exact ControllerFacts.arrays_ok_initial|].
  assert (∃ s1, try_claim_mango 1 0 initial_state = Some (0, s1)) as [s1 Hclaim]
    by (eexists; reflexivity).
  destruct (proj1 (release_keeps_mango_taken initial_state s1 1 2 0
                     ControllerFacts.arrays_ok_initial Hclaim))
    as (s2 & Hrel & _ & _ & _ & Hagain).
  by exists s1, s2.
Defined.



End ClaimFacts.

(** ** The robot threads of the controller on one box, and a box that
    arrives under them *)

Module LiveFacts.
Import Controller ArrayFacts Tally Lifecycle LifecycleFacts.

Lemma filter_insert_length {A} (P : A → Prop) `{!∀ x, Decision (P x)}
    (l : list A) (i : nat) (x y : A) :
  l !! i = Some x →
  (length (filter P (<[i := y]> l)) + (if decide (P x) then 1 else 0) =
   length (filter P l) + (if decide (P y) then 1 else 0))%nat.
Proof.
  revert i. induction l as [|a l IH]; intros i Hx; [done|].
  destruct i as [|i]; cbn in Hx.
  - injection Hx as ->. cbn [insert list_insert]. rewrite !filter_cons.
    destruct (decide (P x)), (decide (P y)); cbn [length]; lia.
  - cbn [insert list_insert]. rewrite !filter_cons.
    specialize (IH i Hx). change (list_insert i y l) with (<[i := y]> l).
    destruct (decide (P a)); cbn [length]; [|exact IH].
    rewrite !Nat.add_succ_l. f_equal. exact IH.
Qed.

Lemma labeled_items_insert (ms : list Mango) (t : Z) (m m' : Mango) :
  aget ms t = Some m →
  labeled_items (<[Z.to_nat t := m']> ms)
  + (if decide (mango_state m = MANGO_LABELED) then 1 else 0)
  = labeled_items ms + (if decide (mango_state m' = MANGO_LABELED) then 1 else 0).
Proof.
  intros [_ Hm]%aget_Some. unfold labeled_items.
  pose proof (filter_insert_length (λ m, mango_state m = MANGO_LABELED)
                ms (Z.to_nat t) m m' Hm) as H.
  destruct (decide (mango_state m = MANGO_LABELED)),
           (decide (mango_state m' = MANGO_LABELED)); lia.
Qed.

Lemma live_step_count (a : Live.Action) (i : nat) (w w' : Live.World) :
  Live.Inv w → Live.robot_step a i w = Some w' →
  labeled_count (g_current_box (Live.globals w'))
  - labeled_items (mangos (g_current_box (Live.globals w')))
  = labeled_count (g_current_box (Live.globals w))
    - labeled_items (mangos (g_current_box (Live.globals w))).
Proof.
  intros [Harr Hthreads Hheld Halone] Hstep. unfold Live.robot_step in Hstep.
  destruct (Live.pcs w !! i) as [pc|] eqn:Hpc; [cbn in Hstep|done].
  destruct (aget (g_robots (Live.globals w)) (Z.of_nat i)) as [robot|] eqn:Hrobot;
    [cbn in Hstep|done].
  pose proof Harr as (Hlm & Hll & Hlr & Hls).
  destruct a, pc; try done.
  - by injection Hstep as <-.
  - destruct (nearest_unlabeled _) as [t|]; [cbn in Hstep|done].
    by case_decide; injection Hstep as <-.
  - destruct (ControllerFacts.try_claim_mango_cases (Live.globals w) (robot_id robot)
                target Harr) as (ret & s1 & Hclaim & Hiff & Hwon & Hlost).
    rewrite Hclaim in Hstep. cbn in Hstep. case_decide as Hret.
    + destruct (Hwon Hret) as (m & Hm & ->). clear Hwon. cbn in Hstep.
      rewrite Hrobot in Hstep. cbn in Hstep.
      rewrite aset_Some in Hstep by (apply aget_lt in Hrobot; lia).
      cbn in Hstep. injection Hstep as <-. cbn.
      pose proof (proj1 Hiff Hret) as Hun.
      apply item_state_Some in Hun as (m1 & Hm1 & Hst).
      assert (m1 = m) as -> by congruence.
      pose proof (labeled_items_insert _ target m
                    (mango_set_state MANGO_BEING_LABELED m) Hm) as Hcount.
      rewrite decide_False in Hcount by congruence.
      rewrite decide_False in Hcount by done. lia.
    + destruct (Hlost Hret) as [_ ->]. by injection Hstep as <-.
  - pose proof (Hheld i target Hpc) as Hbeing.
    apply item_state_Some in Hbeing as (m & Hm & Hst).
    pose proof (aget_lt _ _ _ Hm) as Hrange.
    pose proof (aget_lt _ _ _ Hrobot) as Hrrange.
    unfold label_mango in Hstep. rewrite Hrobot, Hm in Hstep. cbn in Hstep.
    rewrite !aset_Some in Hstep by lia. cbn in Hstep.
    rewrite aget_insert_eq in Hstep by lia. cbn in Hstep.
    rewrite aset_Some in Hstep by (rewrite length_insert; lia).
    cbn in Hstep. injection Hstep as <-. cbn.
    match goal with |- context [<[Z.to_nat target := ?m']> _] =>
      pose proof (labeled_items_insert _ target m m' Hm) as Hcount end.
    rewrite decide_False in Hcount by congruence.
    rewrite decide_True in Hcount by done. lia.
Qed.

(** X15. In the controller, on one box, whatever the robot threads do
    and in whatever order: two threads are never inside [label_mango] for
    the same mango, and the mango a thread is labeling is in the state of
    being labeled. *)
Theorem live_labeling_exclusive (n : nat) (s : State) (w : Live.World) :
  arrays_ok s → Z.of_nat n ≤ MAX_ROBOTS →
  rtc Live.step (Live.start n s) w →
  (∀ i j t, Live.pcs w !! i = Some (Live.Labeling t) →
            Live.pcs w !! j = Some (Live.Labeling t) → i = j) ∧
  (∀ i t, Live.pcs w !! i = Some (Live.Labeling t) →
          item_state (Live.globals w) t = Some MANGO_BEING_LABELED).
Proof.
  intros Harr Hn Hrun.
  destruct (live_inv_reachable _ _ (live_inv_start n s Harr Hn) Hrun)
    as [_ _ Hheld Halone].
  split; [exact Halone|exact Hheld].
Qed.

Lemma live_start_ok : arrays_ok Scenario.live_start.
Proof. repeat split. Qed.

(** A run on the box of two mangos: the threads 0 and 1 scan and claim
    one after the other, then thread 0 places its label. *)
Lemma two_threads_labeling :
  ∃ w1 w2 w3 w4 w5,
    Live.robot_step Live.Scan 0 (Live.start 4 Scenario.live_start) = Some w1 ∧
    Live.robot_step Live.Claim 0 w1 = Some w2 ∧
    Live.robot_step Live.Scan 1 w2 = Some w3 ∧
    Live.robot_step Live.Claim 1 w3 = Some w4 ∧
    Live.robot_step (Live.Label 0) 0 w4 = Some w5 ∧
    Live.pcs w4 = [Live.Labeling 0; Live.Labeling 1; Live.Scanning; Live.Scanning] ∧
    Live.pcs w5 = [Live.Scanning; Live.Labeling 1; Live.Scanning; Live.Scanning] ∧
    item_state (Live.globals w5) 0 = Some MANGO_LABELED ∧
    labeled_count (g_current_box (Live.globals w5)) = 1.
Proof.
  eexists _, _, _, _, _. split.
  { unfold Live.robot_step. cbn [Live.start Live.pcs Live.globals].
    rewrite (ScanFacts.nearest_unlabeled_two _ zero_mango zero_mango) by reflexivity.
    reflexivity. }
  split; [reflexivity|]. split.
  { unfold Live.robot_step at 1. cbn [Live.goto Live.pcs Live.globals].
    rewrite (ScanFacts.nearest_unlabeled_two _
               (mango_set_state MANGO_BEING_LABELED zero_mango) zero_mango)
      by reflexivity.
    reflexivity. }
  split; [reflexivity|]. split; [reflexivity|]. split; [reflexivity|].
  split; [reflexivity|]. split; reflexivity.
Qed.

Lemma live_labeling_exclusive_witness :
  arrays_ok Scenario.live_start ∧ Z.of_nat 4 ≤ MAX_ROBOTS ∧
  ∃ w, rtc Live.step (Live.start 4 Scenario.live_start) w ∧
       Live.pcs w = [Live.Labeling 0; Live.Labeling 1; Live.Scanning; Live.Scanning] ∧
       item_state (Live.globals w) 0 = Some MANGO_BEING_LABELED ∧
       item_state (Live.globals w) 1 = Some MANGO_BEING_LABELED ∧
       ∀ j, Live.pcs w !! j = Some (Live.Labeling 1) → j = 1%nat.
Proof.
  assert (Z.of_nat 4 ≤ MAX_ROBOTS) as Hn by (unfold MAX_ROBOTS; lia).
  split; [exact live_start_ok|]. split; [exact Hn|].
  destruct two_threads_labeling
    as (w1 & w2 & w3 & w4 & w5 & H1 & H2 & H3 & H4 & _ & Hpcs & _).
  assert (rtc Live.step (Live.start 4 Scenario.live_start) w4) as Hrun.
  { eapply rtc_l; [exact (Live.step_robot _ _ _ _ H1)|].
    eapply rtc_l; [exact (Live.step_robot _ _ _ _ H2)|].
    eapply rtc_l; [exact (Live.step_robot _ _ _ _ H3)|].
    apply rtc_once. exact (Live.step_robot _ _ _ _ H4). }
  destruct (live_labeling_exclusive 4 Scenario.live_start w4 live_start_ok Hn Hrun)
    as [Halone Hheld].
  exists w4. split; [exact Hrun|]. split; [exact Hpcs|].
  split; [apply (Hheld 0%nat); by rewrite Hpcs|].
  split; [apply (Hheld 1%nat); by rewrite Hpcs|].
  intros j Hj. apply (Halone j 1%nat 1 Hj). by rewrite Hpcs.
Defined.

Lemma live_count_reachable (w0 w : Live.World) :
  Live.Inv w0 → rtc Live.step w0 w →
  labeled_count (g_current_box (Live.globals w))
  - labeled_items (mangos (g_current_box (Live.globals w)))
  = labeled_count (g_current_box (Live.globals w0))
    - labeled_items (mangos (g_current_box (Live.globals w0))).
Proof.
  intros Hinv Hrun. induction Hrun as [|x y z [a i Hstep] _ IH]; [done|].
  destruct (live_step_inv a i x y Hinv Hstep) as [Hinv' _].
  rewrite (IH Hinv'). by apply (live_step_count a i).
Qed.

(** X16. In the controller, on one box, whatever the robot threads do
    and in whatever order: the count of labeled mangos of the box grows
    by one with every mango that becomes labeled. On a box that arrives
    with its count at the number of its labeled mangos (zero, from the
    generator), the count is the number of labeled mangos in every state
    the threads can reach. *)
Theorem live_labels_accounted (n : nat) (s : State) (w : Live.World) :
  arrays_ok s → Z.of_nat n ≤ MAX_ROBOTS →
  rtc Live.step (Live.start n s) w →
  labeled_count (g_current_box (Live.globals w))
  - labeled_items (mangos (g_current_box (Live.globals w)))
  = labeled_count (g_current_box s) - labeled_items (mangos (g_current_box s)).
Proof.
  intros Harr Hn Hrun.
  exact (live_count_reachable _ _ (live_inv_start n s Harr Hn) Hrun).
Qed.

Lemma live_labels_accounted_witness :
  arrays_ok Scenario.live_start ∧ Z.of_nat 4 ≤ MAX_ROBOTS ∧
  ∃ w, rtc Live.step (Live.start 4 Scenario.live_start) w ∧
       item_state (Live.globals w) 0 = Some MANGO_LABELED ∧
       labeled_count (g_current_box (Live.globals w)) = 1 ∧
       labeled_items (mangos (g_current_box (Live.globals w))) = 1.
Proof.
  assert (Z.of_nat 4 ≤ MAX_ROBOTS) as Hn by (unfold MAX_ROBOTS; lia).
  split; [exact live_start_ok|]. split; [exact Hn|].
  destruct two_threads_labeling
    as (w1 & w2 & w3 & w4 & w5 & H1 & H2 & H3 & H4 & H5 & _ & _ & Hitem & Hcount).
  assert (rtc Live.step (Live.start 4 Scenario.live_start) w5) as Hrun.
  { eapply rtc_l; [exact (Live.step_robot _ _ _ _ H1)|].
    eapply rtc_l; [exact (Live.step_robot _ _ _ _ H2)|].
    eapply rtc_l; [exact (Live.step_robot _ _ _ _ H3)|].
    eapply rtc_l; [exact (Live.step_robot _ _ _ _ H4)|].
    apply rtc_once. exact (Live.step_robot _ _ _ _ H5). }
  pose proof (live_labels_accounted 4 Scenario.live_start w5 live_start_ok Hn Hrun)
    as Heq.
  exists w5. split; [exact Hrun|]. split; [exact Hitem|]. split; [exact Hcount|].
  rewrite Hcount in Heq.
  change (labeled_count (g_current_box Scenario.live_start)) with 0 in Heq.
  assert (labeled_items (mangos (g_current_box Scenario.live_start)) = 0) as H0
    by reflexivity.
  rewrite H0 in Heq. lia.
Defined.

(** X17. A box that arrives while a robot is inside [label_mango]: the
    robot claimed a mango of the box before, and its label is written on
    the mango of the new box at the same index. When that mango is
    unlabeled it becomes labeled at once, without a claim and with its
    lock entry at -1, it carries the id of the robot, and the new box
    counts one labeled mango: the order unlabeled, being labeled, labeled
    is not kept across the arrival of a box. *)
Theorem label_lands_on_new_box (w : Live.World) (i : nat) (target : Z)
    (new_box : Box) (m : Mango) (now : R) :
  Live.Inv w →
  Live.pcs w !! i = Some (Live.Labeling target) →
  length (mangos new_box) = Z.to_nat MAX_MANGOS_PER_BOX →
  aget (mangos new_box) target = Some m →
  mango_state m = MANGO_UNLABELED →
  ∃ w' robot m',
    Live.robot_step (Live.Label now) i (box_arrives new_box w) = Some w' ∧
    aget (g_robots (Live.globals w)) (Z.of_nat i) = Some robot ∧
    aget (mangos (g_current_box (Live.globals w'))) target = Some m' ∧
    mango_state m' = MANGO_LABELED ∧
    labeled_by_robot m' = robot_id robot ∧
    labeled_count (g_current_box (Live.globals w')) = labeled_count new_box + 1 ∧
    aget (mango_lock (g_shm (Live.globals w'))) target = Some (-1) ∧
    ¬ ordered_change (Live.globals (box_arrives new_box w)) (Live.globals w').
Proof.
  intros [Harr Hthreads Hheld Halone] Hpc Hlen Hm Hun.
  pose proof Harr as (Hlm & Hll & Hlr & Hls).
  pose proof (lookup_lt_Some _ _ _ Hpc) as Hi.
  destruct (aget_is_Some (g_robots (Live.globals w)) (Z.of_nat i)) as [robot Hrobot].
  { rewrite Hlr. unfold MAX_ROBOTS in *. lia. }
  pose proof (aget_lt _ _ _ Hm) as Hrange.
  pose proof (aget_lt _ _ _ Hrobot) as Hrrange.
  unfold Live.robot_step, box_arrives.
  cbn [Live.pcs Live.globals]. rewrite Hpc. cbn [mbind option_bind].
  unfold Live.install_box at 1. cbn [g_robots]. rewrite Hrobot.
  cbn [mbind option_bind]. unfold label_mango, Live.install_box.
  cbn [g_robots g_current_box]. rewrite Hrobot, Hm. cbn [mbind option_bind].
  rewrite !aset_Some by lia. cbn [mbind option_bind].
  cbn [g_robots set_robots set_current_box].
  rewrite aget_insert_eq by lia. cbn [mbind option_bind].
  rewrite aset_Some by (rewrite length_insert; lia). cbn [mbind option_bind].
  eexists _, robot, _. split; [done|]. split; [done|].
  cbn [Live.globals Live.goto g_current_box set_robots set_current_box g_shm
         mangos box_set_labeled_count box_set_mangos labeled_count
         shm_set_mango_lock mango_lock].
  split; [by apply aget_insert_eq|]. split; [done|]. split; [done|].
  split; [done|]. split.
  - unfold aget. rewrite decide_True by lia. apply lookup_replicate.
    split; [done|]. rewrite Hlen in Hrange. lia.
  - intros Hord. destruct (Hord target m Hm) as (m' & Hm' & Horder).
    cbn [Live.globals Live.goto g_current_box set_robots set_current_box
           mangos box_set_labeled_count box_set_mangos] in Hm'.
    rewrite aget_insert_eq in Hm' by lia. injection Hm' as <-.
    cbn in Horder. rewrite Hun in Horder.
    destruct Horder as [?|[[_ ?]|[? _]]]; done.
Qed.


Lemma label_lands_on_new_box_witness :
  ∃ s1 w',
    try_claim_mango 0 0 initial_state = Some (0, s1) ∧
    let w := {| Live.globals := s1; Live.pcs := [Live.Labeling 0] |} in
    Live.Inv w ∧
    Live.robot_step (Live.Label 0) 0 (box_arrives Scenario.two_mango_box w) = Some w' ∧
    labeled_count (g_current_box (Live.globals w'))
      = labeled_count Scenario.two_mango_box + 1.
Proof.
  assert (∃ s1, try_claim_mango 0 0 initial_state = Some (0, s1)) as [s1 Hclaim]
    by (eexists; reflexivity).
  pose proof Hclaim as Hval. injection Hval as <-.
  match type of Hclaim with _ = Some (_, ?s) => set (s1 := s) in * end.
  assert (Live.Inv {| Live.globals := s1; Live.pcs := [Live.Labeling 0] |}) as Hinv.
  { split.
    - repeat split.
    - cbn. unfold MAX_ROBOTS. lia.
    - intros [|i] t; [|done]. by intros [= <-].
    - intros [|i] [|j] t; done. }
  destruct (label_lands_on_new_box _ 0 0 Scenario.two_mango_box zero_mango 0 Hinv
              eq_refl eq_refl eq_refl eq_refl)
    as (w' & robot & m' & Hstep & _ & _ & _ & _ & Hcount & _).
  exists s1, w'. split; [exact Hclaim|]. split; [exact Hinv|].
  split; [exact Hstep|exact Hcount].
Defined.

End LiveFacts.

(** ** The totals of a run of the batch estimator *)

Module TotalsFacts.
Import ArrayFacts Tally Simulator.

Lemma range_sum_ext {A B} (f : A → Z) (g : B → Z) (l : list A) (l' : list B)
    (i : Z) (n : nat) :
  (∀ k, i ≤ k < i + Z.of_nat n →
     from_option f 0 (aget l k) = from_option g 0 (aget l' k)) →
  range_sum f l i n = range_sum g l' i n.
Proof.
  revert i. induction n as [|n IH]; intros i Hsame; cbn [range_sum]; [done|].
  rewrite Hsame by lia. rewrite IH; [done|]. intros k Hk. apply Hsame. lia.
Qed.

Lemma range_sum_insert {A} (f : A → Z) (l : list A) (i k : Z) (n : nat) (x y : A) :
  0 ≤ i → i ≤ k < i + Z.of_nat n → aget l k = Some x →
  range_sum f (<[Z.to_nat k := y]> l) i n = range_sum f l i n - f x + f y.
Proof.
  revert i. induction n as [|n IH]; intros i Hi Hk Hx; [lia|].
  cbn [range_sum]. pose proof (aget_lt _ _ _ Hx) as Hrange.
  destruct (decide (k = i)) as [->|Hne].
  - rewrite aget_insert_eq by lia. rewrite Hx. cbn [from_option].
    rewrite (range_sum_ext f f (<[Z.to_nat i := y]> l) l (i + 1) n).
    + lia.
    + intros j Hj. by rewrite aget_insert_ne by lia.
  - rewrite aget_insert_ne by lia. rewrite IH by (done || lia). lia.
Qed.

Lemma range_sum_app {A} (f : A → Z) (l : list A) (i : Z) (n m : nat) :
  range_sum f l i (n + m) = range_sum f l i n + range_sum f l (i + Z.of_nat n) m.
Proof.
  revert i. induction n as [|n IH]; intros i.
  - cbn. by rewrite Z.add_0_r.
  - cbn [range_sum Nat.add]. rewrite IH.
    replace (i + 1 + Z.of_nat n) with (i + Z.of_nat (S n)) by lia. lia.
Qed.

Lemma range_sum_bounds {A} (f : A → Z) (l : list A) (i : Z) (n : nat) (lo hi : Z) :
  (∀ k x, i ≤ k < i + Z.of_nat n → aget l k = Some x → lo ≤ f x ≤ hi) →
  (∀ k, i ≤ k < i + Z.of_nat n → is_Some (aget l k)) →
  lo * Z.of_nat n ≤ range_sum f l i n ≤ hi * Z.of_nat n.
Proof.
  revert i. induction n as [|n IH]; intros i Hb Hsome; cbn [range_sum]; [lia|].
  destruct (Hsome i) as [x Hx]; [lia|]. rewrite Hx. cbn [from_option].
  pose proof (Hb i x ltac:(lia) Hx).
  specialize (IH (i + 1)).
  destruct IH; [intros k y Hk; apply Hb; lia|intros k Hk; apply Hsome; lia|].
  lia.
Qed.

Lemma range_sum_zero {A} (f : A → Z) (l : list A) (i : Z) (n : nat) :
  (∀ k, i ≤ k < i + Z.of_nat n → from_option f 0 (aget l k) = 0) →
  range_sum f l i n = 0.
Proof.
  revert i. induction n as [|n IH]; intros i Hz; cbn [range_sum]; [done|].
  rewrite Hz by lia. rewrite IH; [done|]. intros k Hk. apply Hz. lia.
Qed.

Lemma range_sum_shift {A} (f : A → Z) (a : A) (l : list A) (i : Z) (n : nat) :
  0 ≤ i → range_sum f (a :: l) (i + 1) n = range_sum f l i n.
Proof.
  revert i. induction n as [|n IH]; intros i Hi; cbn [range_sum]; [done|].
  rewrite IH by lia. f_equal. unfold aget. rewrite !decide_True by lia.
  replace (Z.to_nat (i + 1)) with (S (Z.to_nat i)) by lia. done.
Qed.

Lemma total_range (l : list Z) : total l = range_sum (λ x : Z, x) l 0 (length l).
Proof.
  induction l as [|a l IH]; [done|].
  cbn [total foldr length range_sum]. fold (total l). rewrite IH.
  rewrite (range_sum_shift (λ x : Z, x) a l 0) by lia. done.
Qed.

(** The loop of a robot over a box: every label goes to the count of the
    robot and to the count of the box. *)
Lemma label_loop_tally (n : nat) (i per_station c : Z) (robot robot' : Robot)
    (box box' : Box) :
  label_loop n i per_station c robot box = Some (robot', box') →
  labels_placed robot' - labels_placed robot = labeled_count box' - labeled_count box.
Proof.
  revert i c robot box. induction n as [|n IH]; intros i c robot box;
    cbn [label_loop].
  - intros [= <- <-]. lia.
  - case_decide as Hc; [|intros [= <- <-]; lia].
    destruct (aget (mangos box) i) as [m|]; [cbn [mbind option_bind]|done].
    case_decide as Hst; [|apply IH].
    destruct (aset _ _ _) as [ms|]; [cbn [mbind option_bind]|done].
    intros Hrun. apply IH in Hrun. cbn in Hrun. lia.
Qed.

(** The pass of a box along the robots: the labels the robots place are
    the labels the box counts. *)
Lemma robot_loop_tally (n : nat) (idx per_station : Z) (rs rs' : list Robot)
    (box box' : Box) (visited : list Z) (m : nat) :
  0 ≤ idx → idx + Z.of_nat n ≤ Z.of_nat m →
  robot_loop n idx per_station rs box = Some (rs', box', visited) →
  range_sum labels_placed rs' 0 m - range_sum labels_placed rs 0 m
  = labeled_count box' - labeled_count box.
Proof.
  revert idx rs rs' box box' visited.
  induction n as [|n IH]; intros idx rs rs' box box' visited Hidx Hm;
    cbn [robot_loop].
  - intros [= <- <- _]. lia.
  - destruct (aget rs idx) as [robot|] eqn:Hrobot; [cbn [mbind option_bind]|done].
    destruct (_ || _).
    + destruct (robot_loop n _ _ _ _) as [[[rs1 box1] v1]|] eqn:Hrest;
        [cbn [mbind option_bind]|done].
      intros [= <- <- _]. apply (IH (idx + 1) rs rs1 box box1 v1); [lia|lia|done].
    + destruct (label_loop _ _ _ _ _ _) as [[robot1 box1]|] eqn:Hlab;
        [cbn [mbind option_bind]|done].
      apply label_loop_tally in Hlab.
      destruct (aset rs idx robot1) as [rs1|] eqn:Hset; [cbn [mbind option_bind]|done].
      pose proof (aget_lt _ _ _ Hrobot) as Hrange.
      rewrite aset_Some in Hset by done. injection Hset as <-.
      pose proof (range_sum_insert labels_placed rs 0 idx m robot robot1
                    ltac:(lia) ltac:(lia) Hrobot) as Hsum.
      case_decide.
      * intros [= <- <- _]. lia.
      * destruct (robot_loop n _ _ _ _) as [[[rs2 box2] v2]|] eqn:Hrest;
          [cbn [mbind option_bind]|done].
        intros [= <- <- _].
        apply (IH (idx + 1)) in Hrest; [lia|lia|lia].
Qed.


Lemma range_sum_insert_same {A} (f : A → Z) (l : list A) (i k : Z) (n : nat) (x y : A) :
  aget l k = Some x → f y = f x →
  range_sum f (<[Z.to_nat k := y]> l) i n = range_sum f l i n.
Proof.
  intros Hx Hf. pose proof (aget_lt _ _ _ Hx) as Hrange.
  apply range_sum_ext. intros j _. destruct (decide (j = k)) as [->|Hne].
  - rewrite aget_insert_eq by lia. rewrite Hx. done.
  - by rewrite aget_insert_ne by lia.
Qed.

Lemma range_sum_01 {A} (f : A → Z) (l : list A) (i : Z) (n : nat) :
  (∀ x, 0 ≤ f x ≤ 1) → 0 ≤ range_sum f l i n ≤ Z.of_nat n.
Proof.
  intros Hf. revert i. induction n as [|n IH]; intros i; cbn [range_sum]; [lia|].
  specialize (IH (i + 1)).
  destruct (aget l i) as [x|]; cbn [from_option]; [specialize (Hf x)|]; lia.
Qed.

(** The pass of the boxes that the generator left along the robots. *)
Lemma box_loop_totals (n : nat) (b per_station n_robots : Z)
    (bs : list Box) (rs : list Robot) (total labeled missed : Z) (m : nat) (lo hi : Z) :
  1 ≤ per_station → 0 ≤ n_robots ≤ Z.of_nat (length rs) → n_robots ≤ Z.of_nat m →
  0 ≤ b → b + Z.of_nat n ≤ Z.of_nat (length bs) →
  (∀ k box, b ≤ k < b + Z.of_nat n → aget bs k = Some box →
            fresh box ∧ lo ≤ num_mangos box ≤ hi) →
  ∃ bs' rs' total' labeled' missed',
    box_loop n b per_station n_robots bs rs total labeled missed
      = Some (bs', rs', total', labeled', missed') ∧
    length rs' = length rs ∧
    0 ≤ labeled' - labeled ∧ 0 ≤ missed' - missed ∧
    total' - total = (labeled' - labeled) + (missed' - missed) ∧
    lo * Z.of_nat n ≤ total' - total ≤ hi * Z.of_nat n ∧
    range_sum labels_placed rs' 0 m - range_sum labels_placed rs 0 m
      = labeled' - labeled.
Proof.
  intros Hps. revert b bs rs total labeled missed.
  induction n as [|n IH]; intros b bs rs total labeled missed Hnr Hm Hb Hlen Hfresh;
    cbn [box_loop].
  - eexists _, _, _, _, _. split; [done|]. split_and!; try done; lia.
  - destruct (aget_is_Some bs b) as [box Hbox]; [lia|]. rewrite Hbox.
    cbn [mbind option_bind].
    destruct (Hfresh b box ltac:(lia) Hbox) as [Hfr Hnum].
    destruct (BatchFacts.robot_loop_spec (Z.to_nat n_robots) 0 per_station 0 rs box)
      as (rs1 & box1 & visited & Hrun & _ & _ & Hspec); try done; try lia;
      try (by left).
    cbn zeta in Hspec.
    destruct Hspec as (Hbox1 & Hnum1 & _ & _ & _ & Hlen1 & _ & _).
    pose proof (robot_loop_tally (Z.to_nat n_robots) 0 per_station rs rs1 box box1
                  visited m ltac:(lia) ltac:(lia) Hrun) as Htally.
    rewrite Hrun. cbn [mbind option_bind].
    rewrite aset_Some by lia. cbn [mbind option_bind].
    destruct Hbox1 as (Hl1 & _ & Hcount1 & _).
    destruct Hfr as (_ & _ & Hcount0 & _).
    destruct (IH (b + 1) (<[Z.to_nat b := box1]> bs) rs1
                (total + num_mangos box) (labeled + labeled_count box1)
                (missed + (num_mangos box1 - labeled_count box1)))
      as (bs' & rs' & total' & labeled' & missed' & Hrest & Hlen' & Hlab & Hmiss
          & Hsum & Hbounds & Htally');
      [lia|lia|lia|rewrite length_insert; lia| |].
    { intros k bk Hk. rewrite aget_insert_ne by lia. apply Hfresh. lia. }
    rewrite Hrest. eexists _, _, _, _, _. split; [done|].
    split_and!; try lia.
Qed.

(** The search for a backup keeps the counts of labels and takes one
    idle backup when it activates one. *)
Lemma backup_loop_total (n : nat) (j : Z) (failed : Robot) (rs : list Robot)
    (lo : Z) (m : nat) :
  0 ≤ lo ≤ j → j + Z.of_nat n ≤ lo + Z.of_nat m → lo + Z.of_nat m ≤ Z.of_nat (length rs) →
  let idle := λ r, if Controller.idle_backup r then 1 else 0 in
  ∃ rs' activated,
    backup_loop n j failed rs = Some (rs', activated) ∧
    length rs' = length rs ∧
    (∀ k, from_option labels_placed 0 (aget rs' k)
          = from_option labels_placed 0 (aget rs k)) ∧
    range_sum idle rs' lo m + (if activated then 1 else 0) = range_sum idle rs lo m.
Proof.
  intros Hlo Hn Hlen idle. revert j Hlo Hn.
  induction n as [|n IH]; intros j Hlo Hn; cbn [backup_loop].
  - exists rs, false. split_and!; try done. lia.
  - destruct (aget_is_Some rs j) as [r Hr]; [lia|]. rewrite Hr.
    cbn [mbind option_bind]. fold (Controller.idle_backup r).
    destruct (Controller.idle_backup r) eqn:Hidle.
    + rewrite aset_Some by lia. cbn [mbind option_bind].
      eexists _, true. split; [done|]. split; [by rewrite length_insert|]. split.
      * intros k. destruct (decide (k = j)) as [->|Hne].
        -- rewrite aget_insert_eq by lia. by rewrite Hr.
        -- by rewrite aget_insert_ne by lia.
      * rewrite (range_sum_insert idle rs lo j m r) by (done || lia).
        subst idle. cbn beta. rewrite Hidle.
        unfold Controller.idle_backup, Controller.bind_backup. cbn.
        rewrite andb_false_r. lia.
    + apply IH; lia.
Qed.

(** The failures at the start of a run: the loop returns, it counts at
    most one failure for each robot it visits, at most one activation
    for each failure and for each idle backup, and it leaves the counts of
    labels as they are. *)
Lemma failure_loop_total (n : nat) (i : Z) (config : SimulationConfig) (total : Z)
    (rs : list Robot) (fails acts : Z) (g : Rng) :
  0 ≤ i → i + Z.of_nat n ≤ Z.of_nat (length rs) →
  0 ≤ num_robots config ≤ total → total ≤ Z.of_nat (length rs) →
  let idle := λ r, if Controller.idle_backup r then 1 else 0 in
  let m := Z.to_nat (total - num_robots config) in
  ∃ rs' fails' acts' g',
    failure_loop n i config total rs fails acts g = Some (rs', fails', acts', g') ∧
    length rs' = length rs ∧
    0 ≤ fails' - fails ≤ Z.of_nat n ∧
    0 ≤ acts' - acts ≤ fails' - fails ∧
    range_sum idle rs' (num_robots config) m + (acts' - acts)
      = range_sum idle rs (num_robots config) m ∧
    (∀ k, from_option labels_placed 0 (aget rs' k)
          = from_option labels_placed 0 (aget rs k)).
Proof.
  intros Hi Hn Hnr Htotal idle m. revert i rs fails acts g Hi Hn Htotal.
  induction n as [|n IH]; intros i rs fails acts g Hi Hn Htotal; cbn [failure_loop].
  - eexists _, _, _, _. split; [done|]. split_and!; try done; lia.
  - destruct (aget_is_Some rs i) as [robot Hrobot]; [lia|]. rewrite Hrobot.
    cbn [mbind option_bind].
    destruct (is_backup robot) eqn:Hbackup.
    { destruct (IH (i + 1) rs fails acts g) as (rs' & f' & a' & g' & Hrun & H);
        [lia..|].
      rewrite Hrun. eexists _, _, _, _. split; [done|].
      destruct H as (? & ? & ? & ? & ?). split_and!; try done; lia. }
    destruct (rand g) as [k g1]. case_decide as Hdraw.
    2: { destruct (IH (i + 1) rs fails acts g1) as (rs' & f' & a' & g' & Hrun & H);
           [lia..|].
         rewrite Hrun. eexists _, _, _, _. split; [done|].
         destruct H as (? & ? & ? & ? & ?). split_and!; try done; lia. }
    rewrite aset_Some by lia. cbn [mbind option_bind].
    set (failed := robot_set_state ROBOT_STATE_FAILED (robot_set_has_failed true robot)).
    set (rs1 := <[Z.to_nat i := failed]> rs).
    destruct (backup_loop_total (Z.to_nat (total - num_robots config))
                (num_robots config) failed rs1 (num_robots config) m)
      as (rs2 & activated & Hback & Hlen2 & Hlabels2 & Hidle2);
      [lia|lia|subst rs1 m; rewrite length_insert; lia|].
    rewrite Hback. cbn [mbind option_bind].
    cbn zeta in Hidle2. fold idle in Hidle2.
    assert (range_sum idle rs1 (num_robots config) m
            = range_sum idle rs (num_robots config) m) as Hsame.
    { subst rs1. apply (range_sum_insert_same idle rs _ i m robot); [done|].
      subst idle failed. cbn beta. unfold Controller.idle_backup. cbn.
      by rewrite Hbackup. }
    destruct (IH (i + 1) rs2 (fails + 1) (if activated then acts + 1 else acts) g1)
      as (rs' & f' & a' & g' & Hrun & Hlen' & Hf & Ha & Hidle' & Hlabels');
      [lia|rewrite Hlen2; subst rs1; rewrite length_insert; lia
      |rewrite Hlen2; subst rs1; rewrite length_insert; lia|].
    rewrite Hrun. eexists _, _, _, _. split; [done|].
    split_and!.
    + rewrite Hlen', Hlen2. subst rs1. by rewrite length_insert.
    + lia.
    + lia.
    + destruct activated; lia.
    + destruct activated; lia.
    + destruct activated; lia.
    + intros j. rewrite Hlabels', Hlabels2. subst rs1.
      destruct (decide (j = i)) as [->|Hne].
      * rewrite aget_insert_eq by lia. by rewrite Hrobot.
      * by rewrite aget_insert_ne by lia.
Qed.


(** X18. A run of the batch estimator on a configuration that fits the
    arrays returns, whatever the random numbers are, and its result adds
    up: the mangos are between [N_min] and [N_max] for each box; every
    mango is counted as labeled or as missed, and none twice; there is at
    most one failure for each main robot; there is at most one backup
    activation for each failure and for each backup; the labels of the
    robots add up to the labeled mangos; the efficiency is a percentage. *)
Theorem run_single_simulation_totals (config : SimulationConfig)
    (start_time end_time : R) (gl : Globals) (g : Rng) :
  1 ≤ num_robots config → 0 ≤ num_backup config →
  num_robots config + num_backup config ≤ MAX_ROBOTS →
  0 ≤ num_boxes config ≤ MAX_BOXES_QUEUE →
  (0 <= pZ (params config))%R →
  0 ≤ N_min (params config) ≤ N_max (params config) →
  N_max (params config) ≤ MAX_MANGOS_PER_BOX →
  globals_ok gl →
  ∃ res gl' g',
    run_single_simulation config start_time end_time gl g = Some (res, gl', g') ∧
    N_min (params config) * num_boxes config ≤ total_mangos res
      ≤ N_max (params config) * num_boxes config ∧
    labeled_mangos res + missed_mangos res = total_mangos res ∧
    0 ≤ labeled_mangos res ∧ 0 ≤ missed_mangos res ∧
    0 ≤ robot_failures res ≤ num_robots config ∧
    0 ≤ backup_activations res ≤ Z.min (robot_failures res) (num_backup config) ∧
    total (labels_per_robot res) = labeled_mangos res ∧
    (0 <= efficiency res <= 100)%R.
Proof.
  intros Hnr Hnb Hfit Hboxes HZ HN Hmax (Hlb & Hlr & Hlm).
  unfold MAX_ROBOTS, MAX_BOXES_QUEUE in *.
  set (T := num_robots config + num_backup config).
  unfold run_single_simulation, init_simulation. fold T.
  destruct (BatchFacts.robots_loop_spec (Z.to_nat T) 0 config
              (pW (params config) / IZR (num_robots config)) (g_robots gl))
    as (rs1 & Hrs1 & Hlen1 & Hin1 & _); [lia|lia|].
  rewrite Hrs1. cbn [mbind option_bind]. unfold generate_all_boxes.
  cbn [g_boxes g_robots g_num_robots g_box_count].
  destruct (RunFacts.boxes_loop_spec (Z.to_nat (num_boxes config)) 0 config
              (g_boxes gl) g HZ ltac:(lia) Hmax Hlm)
    as (bs1 & g1 & Hbs1 & Hblen & Hblens & _ & Hbin); [lia|lia|].
  rewrite Hbs1. cbn [mbind option_bind].
  cbn [g_boxes g_robots g_num_robots g_box_count].
  set (idle := λ r, if Controller.idle_backup r then 1 else 0).
  assert (∀ k, from_option labels_placed 0 (aget rs1 k) = 0 ∨ ¬ (0 ≤ k < T)) as Hzero1.
  { intros k. destruct (decide (0 ≤ k < T)); [left|by right].
    rewrite Hin1 by lia. done. }
  assert (∃ rs2 fails acts g2,
            (if decide (0 < failure_prob config)%R
             then failure_loop (Z.to_nat (num_robots config)) 0 config T rs1 0 0 g1
             else Some (rs1, 0, 0, g1)) = Some (rs2, fails, acts, g2) ∧
            length rs2 = length rs1 ∧
            0 ≤ fails ≤ num_robots config ∧
            0 ≤ acts ≤ Z.min fails (num_backup config) ∧
            (∀ k, from_option labels_placed 0 (aget rs2 k)
                  = from_option labels_placed 0 (aget rs1 k)))
    as (rs2 & fails & acts & g2 & Hfail & Hlen2 & Hfails & Hacts & Hlabels2).
  { case_decide.
    - destruct (failure_loop_total (Z.to_nat (num_robots config)) 0 config T rs1 0 0 g1)
        as (rs2 & fails & acts & g2 & Hrun & Hlen2 & Hf & Ha & Hidle & Hlab);
        [lia|lia|lia|lia|].
      cbn zeta in Hidle. fold idle in Hidle.
      pose proof (range_sum_01 idle rs2 (num_robots config)
                    (Z.to_nat (T - num_robots config))) as H2.
      pose proof (range_sum_01 idle rs1 (num_robots config)
                    (Z.to_nat (T - num_robots config))) as H1.
      assert (∀ x, 0 ≤ idle x ≤ 1) as H01
        by (intros x; unfold idle; destruct (Controller.idle_backup x); lia).
      specialize (H1 H01). specialize (H2 H01).
      exists rs2, fails, acts, g2. split_and!; try done; lia.
    - exists rs1, 0, 0, g1. split_and!; try done; lia. }
  rewrite Hfail. cbn [mbind option_bind].
  pose proof (BatchFacts.mangos_per_station_pos config) as Hps.
  destruct (box_loop_totals (Z.to_nat (num_boxes config)) 0 (mangos_per_station config)
              T bs1 rs2 0 0 0 (Z.to_nat T) (N_min (params config))
              (N_max (params config)))
    as (bs' & rs' & total' & labeled' & missed' & Hrun & Hlen' & Hlab & Hmiss & Hsum
        & Hbounds & Htally); try lia.
  { intros k box Hk Hbox.
    destruct (Hbin k) as (box' & Hbox' & _ & Hcount & _ & Hnum & Hitems); [lia|].
    assert (box' = box) as -> by congruence.
    split; [|done]. unfold fresh, labeled_upto.
    rewrite (Hblens k box Hbox). unfold MAX_MANGOS_PER_BOX in *.
    split_and!; try done; try lia.
    intros j m Hj Hm. destruct (Hitems j Hj) as (m' & Hm' & Hst & _). congruence. }
  rewrite Hrun. cbn [mbind option_bind].
  destruct (RunFacts.labels_loop_spec (Z.to_nat T) 0 rs'
              (replicate (Z.to_nat MAX_ROBOTS) 0))
    as (out & Hout & Hlenout & Hinout & Hrestout);
    try (rewrite ?length_replicate; unfold MAX_ROBOTS; lia).
  rewrite Hout. cbn [mbind option_bind]. unfold MAX_ROBOTS in *.
  eexists _, _, _. split; [done|].
  cbn [total_mangos labeled_mangos missed_mangos robot_failures backup_activations
         labels_per_robot efficiency].
  assert (range_sum labels_placed rs2 0 (Z.to_nat T) = 0) as Hstart.
  { apply range_sum_zero. intros k Hk. rewrite Hlabels2.
    destruct (Hzero1 k) as [?|?]; [done|lia]. }
  rewrite Z2Nat.id in Hbounds by lia.
  split_and!; try lia.
  - rewrite total_range, Hlenout, length_replicate.
    replace (Z.to_nat 32) with (Z.to_nat T + Z.to_nat (32 - T))%nat by lia.
    rewrite range_sum_app.
    rewrite (range_sum_ext (λ x : Z, x) labels_placed out rs' 0 (Z.to_nat T)).
    2: { intros k Hk. rewrite Hinout by lia. by destruct (aget rs' k). }
    rewrite (range_sum_zero (λ x : Z, x) out).
    2: { intros k Hk. rewrite Hrestout by lia.
         destruct (aget (replicate _ 0) k) as [x|] eqn:Hx; [|done].
         apply aget_Some in Hx as [_ Hx].
         by apply lookup_replicate in Hx as [-> _]. }
    lia.
  - destruct (decide (total' > 0)); [|lra].
    apply Rmult_le_pos; [|left; apply Rinv_0_lt_compat; apply IZR_lt; lia].
    apply Rmult_le_pos; [lra|]. apply IZR_le. lia.
  - destruct (decide (total' > 0)) as [Hpos|]; [|lra].
    assert (0 < IZR total')%R as Ht by (apply IZR_lt; lia).
    assert (IZR labeled' <= IZR total')%R as Hle by (apply IZR_le; lia).
    apply (Rmult_le_reg_r (IZR total')); [done|].
    unfold Rdiv. rewrite Rmult_assoc, Rinv_l by lra. lra.
Qed.

Lemma run_single_simulation_totals_witness :
  let config := Scenario.default_config in
  (1 ≤ num_robots config ∧ 0 ≤ num_backup config ∧
   num_robots config + num_backup config ≤ MAX_ROBOTS ∧
   0 ≤ num_boxes config ≤ MAX_BOXES_QUEUE ∧
   (0 <= pZ (params config))%R ∧
   0 ≤ N_min (params config) ≤ N_max (params config) ∧
   N_max (params config) ≤ MAX_MANGOS_PER_BOX ∧
   globals_ok initial_globals) ∧
  ∃ res gl' g',
    run_single_simulation config 0 1 initial_globals (Scenario.constant_rng 0)
      = Some (res, gl', g') ∧
    labeled_mangos res + missed_mangos res = total_mangos res ∧
    total (labels_per_robot res) = labeled_mangos res.
Proof.
  cbn zeta.
  assert (1 ≤ num_robots Scenario.default_config) as H1 by (cbn; lia).
  assert (0 ≤ num_backup Scenario.default_config) as H2 by (cbn; lia).
  assert (num_robots Scenario.default_config + num_backup Scenario.default_config
          ≤ MAX_ROBOTS) as H3 by (cbn; unfold MAX_ROBOTS; lia).
  assert (0 ≤ num_boxes Scenario.default_config ≤ MAX_BOXES_QUEUE) as H4
    by (cbn; unfold MAX_BOXES_QUEUE; lia).
  assert (0 <= pZ (params Scenario.default_config))%R as H5 by (cbn; lra).
  assert (0 ≤ N_min (params Scenario.default_config)
          ≤ N_max (params Scenario.default_config)) as H6 by (cbn; lia).
  assert (N_max (params Scenario.default_config) ≤ MAX_MANGOS_PER_BOX) as H7
    by (cbn; unfold MAX_MANGOS_PER_BOX; lia).
  split; [by repeat split; try apply RunFacts.globals_ok_initial|].
  destruct (run_single_simulation_totals Scenario.default_config 0 1 initial_globals
              (Scenario.constant_rng 0) H1 H2 H3 H4 H5 H6 H7
              RunFacts.globals_ok_initial)
    as (res & gl' & g' & Hrun & _ & Hsum & _ & _ & _ & _ & Hlabels & _).
  by exists res, gl', g'.
Defined.

End TotalsFacts.

(** ** The lock table names the winner of a claim *)

Module OwnerFacts.
Import Controller ClaimRace ArrayFacts ClaimRaceFacts Owner.

Lemma owner_start (rids : list Z) (mid : Z) (s : State) :
  owner_inv rids mid (start rids mid s).
Proof.
  intros t c Hc. unfold start in Hc. cbn in Hc.
  apply list_lookup_fmap_Some in Hc as (r & -> & Hr). cbn.
  split; [done|]. split; [done|]. by intros [|].
Qed.

Lemma owner_step (rids : list Z) (mid : Z) (w w' : World) :
  Inv mid w → owner_inv rids mid w → step w w' → owner_inv rids mid w'.
Proof.
  intros I Hown [t Hstep]. unfold thread_step in Hstep.
  destruct (calls w !! t) as [c|] eqn:Hc; [cbn [mbind option_bind] in Hstep|done].
  pose proof (inv_mango _ _ I t c Hc) as Hmid. rewrite ?Hmid in Hstep.
  pose proof (inv_range _ _ I) as Hrange.
  pose proof (inv_len_mangos _ _ I) as Hlm.
  pose proof (inv_len_lock _ _ I) as Hll.
  destruct (Hown t c Hc) as (Hrid & Hwrote & Hdone).
  (* a move that leaves the globals as they are and takes the thread to a
     place where it owes nothing new *)
  assert (∀ pc w0, calls w0 = calls w → globals w0 = globals w →
            (pc = AtSetLock → c_pc c = AtSetLock) →
            (pc = AtUnlockClaimed ∨ pc = Returned 0 →
             c_pc c = AtUnlockClaimed ∨ c_pc c = Returned 0) →
            owner_inv rids mid (goto t c pc w0)) as Hquiet.
  { intros pc w0 Hcalls Hglobals Hpc1 Hpc2 t' c' Hc'.
    rewrite <- Hcalls in Hc. rewrite (lookup_goto' _ _ _ _ _ Hc) in Hc'.
    rewrite globals_goto, Hglobals. rewrite Hcalls in Hc.
    case_decide as E.
    - injection Hc' as <-. cbn [c_robot c_pc]. subst t'.
      split; [done|]. split; [intros Hp; by apply Hwrote, Hpc1|].
      intros Hp. by apply Hdone, Hpc2.
    - rewrite Hcalls in Hc'. by apply Hown. }
  (* a move of a thread that saw the mango unlabeled: no other thread
     has written or returned 0 *)
  assert (saw_unlabeled (c_pc c) →
          ∀ t' c', t ≠ t' → calls w !! t' = Some c' →
            ¬ (c_pc c' = AtSetLock ∨ c_pc c' = AtUnlockClaimed ∨ c_pc c' = Returned 0))
    as Halone.
  { intros Hsaw t' c' Hne Hc' Hp. apply Hne.
    apply (inv_unique _ _ I t t' c c' Hc Hc' Hsaw).
    unfold saw_unlabeled. tauto. }
  destruct (c_pc c) eqn:Hpc.
  - (* AtEntry *)
    case_decide; injection Hstep as <-; apply Hquiet; try done;
      intros [?|?]; done.
  - (* AtLock *)
    destruct (mutex w); [done|]. injection Hstep as <-.
    apply Hquiet; try done. intros [?|?]; done.
  - (* AtTest *)
    destruct (aget _ _) as [m|]; [cbn [mbind option_bind] in Hstep|done].
    case_decide; injection Hstep as <-; apply Hquiet; try done;
      intros [?|?]; done.
  - (* AtUnlockTaken *)
    injection Hstep as <-. apply Hquiet; try done. intros [?|?]; done.
  - (* AtSetState *)
    destruct (aget_is_Some (mangos (g_current_box (globals w))) mid) as [m Hm].
    { rewrite Hlm. unfold MAX_MANGOS_PER_BOX in *. lia. }
    rewrite Hm in Hstep. cbn [mbind option_bind] in Hstep.
    rewrite aset_Some in Hstep by (rewrite Hlm; unfold MAX_MANGOS_PER_BOX in *; lia).
    cbn [mbind option_bind] in Hstep. injection Hstep as <-.
    pose proof (item_state_claimed _ _ _ Hm) as Hnew.
    intros t' c' Hc'.
    rewrite (lookup_goto' t c AtSetLock (set_globals _ w) t' Hc) in Hc'.
    rewrite globals_goto, globals_set_globals.
    case_decide as E.
    + injection Hc' as <-. cbn [c_robot c_pc]. subst t'.
      split; [done|]. split; [done|]. by intros [|].
    + rewrite calls_set_globals in Hc'.
      destruct (Hown t' c' Hc') as (Hrid' & _ & _). split; [done|].
      pose proof (Halone ltac:(by left) t' c' E Hc') as Hno.
      split; [intros ?; tauto|intros [?|?]; tauto].
  - (* AtSetLock *)
    rewrite aset_Some in Hstep by (rewrite Hll; unfold MAX_MANGOS_PER_BOX in *; lia).
    cbn [mbind option_bind] in Hstep. injection Hstep as <-.
    intros t' c' Hc'.
    rewrite (lookup_goto' t c AtUnlockClaimed (set_globals _ w) t' Hc) in Hc'.
    rewrite globals_goto, globals_set_globals, item_state_set_lock.
    case_decide as E.
    + injection Hc' as <-. cbn [c_robot c_pc]. subst t'.
      split; [done|]. split; [done|]. intros _. split; [by apply Hwrote|].
      cbn [g_shm set_shm shm_set_mango_lock mango_lock].
      apply aget_insert_eq. rewrite Hll. unfold MAX_MANGOS_PER_BOX in *. lia.
    + rewrite calls_set_globals in Hc'.
      destruct (Hown t' c' Hc') as (Hrid' & _ & _). split; [done|].
      pose proof (Halone ltac:(right; by left) t' c' E Hc') as Hno.
      split; [intros ?; tauto|intros [?|?]; tauto].
  - (* AtUnlockClaimed *)
    injection Hstep as <-. apply Hquiet; try done. intros _. by left.
  - done.
Qed.

Lemma owner_reachable (rids : list Z) (mid : Z) (s : State) (w : World) :
  arrays_ok s → item_state s mid = Some MANGO_UNLABELED →
  rtc step (start rids mid s) w → Inv mid w ∧ owner_inv rids mid w.
Proof.
  intros Harr Hun Hrun.
  eapply (rtc_ind_r (λ w, Inv mid w ∧ owner_inv rids mid w) (start rids mid s));
    [|clear w Hrun|exact Hrun].
  - split; [by apply Inv_start|apply owner_start].
  - intros y z _ Hyz [I Hown]. split; [by eapply Inv_step|by eapply owner_step].
Qed.

(** X19. Several threads claim the same unlabeled mango at once. In
    every state their interleaving can reach, a thread whose call has
    returned 0 is the owner in the globals too: the mango is in the state
    of being labeled and its entry of the lock table holds the id of the
    robot of that thread. *)
Theorem claim_race_lock_names_winner (s : State) (rids : list Z) (mid : Z)
    (w : World) (t : nat) (c : Call) :
  arrays_ok s → item_state s mid = Some MANGO_UNLABELED →
  rtc step (start rids mid s) w →
  calls w !! t = Some c → c_pc c = Returned 0 →
  rids !! t = Some (c_robot c) ∧
  item_state (globals w) mid = Some MANGO_BEING_LABELED ∧
  aget (mango_lock (g_shm (globals w))) mid = Some (c_robot c).
Proof.
  intros Harr Hun Hrun Hc Hret.
  destruct (owner_reachable rids mid s w Harr Hun Hrun) as [_ Hown].
  destruct (Hown t c Hc) as (Hrid & _ & Hdone).
  split; [done|]. apply Hdone. by right.
Qed.


Lemma run_reachable (sched : list nat) (w w' : World) :
  run sched w = Some w' → rtc step w w'.
Proof.
  revert w. induction sched as [|t sched IH]; intros w; cbn [run].
  - intros [= <-]. apply rtc_refl.
  - destruct (thread_step t w) as [w1|] eqn:Hstep; [cbn [mbind option_bind]|done].
    intros Hrun. eapply rtc_l; [by apply (step_thread _ _ t)|by apply IH].
Qed.

Lemma claim_race_lock_names_winner_witness :
  arrays_ok initial_state ∧ item_state initial_state 0 = Some MANGO_UNLABELED ∧
  ∃ w c,
    run [0; 0; 0; 0; 0; 0]%nat (start [7] 0 initial_state) = Some w ∧
    calls w !! 0%nat = Some c ∧ c_pc c = Returned 0 ∧
    aget (mango_lock (g_shm (globals w))) 0 = Some (c_robot c) ∧ c_robot c = 7.
Proof.
  assert (item_state initial_state 0 = Some MANGO_UNLABELED) as Hun by reflexivity.
  split; [exact ControllerFacts.arrays_ok_initial|]. split; [exact Hun|].
  assert (∃ w, run [0; 0; 0; 0; 0; 0]%nat (start [7] 0 initial_state) = Some w ∧
               ∃ c, calls w !! 0%nat = Some c ∧ c_pc c = Returned 0 ∧ c_robot c = 7)
    as (w & Hrun & c & Hc & Hret & Hrid).
  { eexists. split; [reflexivity|]. eexists. split; [reflexivity|]. by split. }
  exists w, c. split; [exact Hrun|]. split; [exact Hc|]. split; [exact Hret|].
  split; [|exact Hrid].
  exact (proj2 (proj2 (claim_race_lock_names_winner initial_state [7] 0 w 0%nat c
                         ControllerFacts.arrays_ok_initial Hun
                         (run_reachable _ _ _ Hrun) Hc Hret))).
Defined.

End OwnerFacts.

(** ** The robot threads of the analysis simulation *)

Module AnalysisFacts.
Import Controller ArrayFacts Tally Lifecycle LifecycleFacts DoubleFacts CapacityFacts.

(** The budget of a thread on the default belt: a window of 7.5 s and
    6.67 s for a label, one label. *)
Lemma labels_per_box_default :
  Analysis.labels_per_box (g_params Scenario.roster_4_1) (300 / 4) = 1.
Proof.
  assert (∀ x, (/ 1024 <= x <= 1024)%R → in_binades 10 x) as Hnum.
  { intros x Hx. unfold in_binades. bpow_lit. lra. }
  unfold Analysis.labels_per_box.
  cbn [g_params Scenario.roster_4_1 params_set_robots Vision.default_params pX pZ robot_speed].
  cbn zeta. replace (50 / 10)%R with 5%R by lra.
  rewrite (ddiv_number 10 10 50 3) by first [lia|apply Hnum; lra].
  rewrite (ddiv_number 10 10 (fdiv 50 3) 5)
    by first [lia|rewrite ?fdiv_50_3; apply Hnum; bpow_lit; lra].
  rewrite time_per_label_default.
  rewrite (dmul_number 10 10 _ 2) by first [lia|apply Hnum; bpow_lit; lra].
  assert (fmul (IZR 7505999378950827 * bpow (-51)) 2
          = (IZR 7505999378950827 * bpow (-50))%R) as ->.
  { unfold fmul. rewrite (round64_IZR 2) by (cbn; lia).
    rewrite (round64_exact (_ * bpow (-51)) 7505999378950827 (-51))
      by first [reflexivity|cbn; lia].
    apply round64_value; [cbn; lia|lia|]. bpow_lit. lra. }
  rewrite (ddiv_number 10 10 (300 / 4) 10) by first [lia|apply Hnum; lra].
  assert (fdiv (300 / 4) 10 = (IZR 15 * bpow (-1))%R) as ->.
  { unfold fdiv. rewrite (round64_IZR 10) by (cbn; lia).
    rewrite (round64_exact (300 / 4) 75 0) by first [lia|cbn; lia|bpow_lit; lra].
    apply round64_value; [cbn; lia|lia|]. bpow_lit. lra. }
  rewrite (ddiv_number 10 10 (IZR 15 * bpow (-1)) (IZR 7505999378950827 * bpow (-50)))
    by first [lia|apply Hnum; bpow_lit; lra].
  rewrite to_int_dbl, round64_fdiv.
  unfold fdiv.
  rewrite (round64_exact (_ * bpow (-1)) 15 (-1)) by first [reflexivity|cbn; lia].
  rewrite (round64_exact (_ * bpow (-50)) 7505999378950827 (-50))
    by first [reflexivity|cbn; lia].
  round64_at 1 5066549580791808.
  apply (capacity_value _ 1); [unfold INT_MAX; lia|]. bpow_lit. lra.
Qed.

(** A thread that waits takes the current box: its robot works and,
    with no failure probability, does not fail. *)
Lemma begin_step (w : Analysis.World) (i : nat) (t : Analysis.Thread) (robot : Robot)
    (draw : Z) :
  Analysis.threads w !! i = Some t → Analysis.pc t = Analysis.Resting →
  aget (Analysis.g_robots w) (Z.of_nat i) = Some robot →
  robot_state robot ≠ ROBOT_STATE_DISABLED → has_failed robot = false →
  (pB (Analysis.g_params w) <= 0)%R →
  Analysis.thread_step (Analysis.Begin draw) i w
  = Some (Analysis.update (Analysis.g_boxes w)
            (<[i := robot_set_state ROBOT_STATE_ACTIVE robot]> (Analysis.g_robots w))
            (<[i := Analysis.thread_set (Analysis.g_current_box_idx w)
                      (Analysis.labels_per_box (Analysis.g_params w)
                         (Analysis.robot_spacing_of t))
                      0 Analysis.Searching t]> (Analysis.threads w)) w).
Proof.
  intros Ht Hpc Hrobot Hst Hnf HB. unfold Analysis.thread_step.
  rewrite Ht, Hrobot. cbn [mbind option_bind]. rewrite Hpc, Hnf.
  rewrite bool_decide_eq_false_2 by done. cbn [orb].
  rewrite (bool_decide_eq_false_2 (0 < _)%R) by lra. cbn [andb].
  rewrite aset_Some by (apply aget_lt in Hrobot; lia). cbn [mbind option_bind].
  by rewrite Nat2Z.id.
Qed.

(** A thread with budget left finds its next mango. *)
Lemma search_step (w : Analysis.World) (i : nat) (t : Analysis.Thread) (robot : Robot)
    (box : Box) (target : Z) (m : Mango) :
  Analysis.threads w !! i = Some t → Analysis.pc t = Analysis.Searching →
  aget (Analysis.g_robots w) (Z.of_nat i) = Some robot →
  Analysis.labels_this_box t < Analysis.max_labels t →
  aget (Analysis.g_boxes w) (Analysis.current_box t) = Some box →
  nearest_unlabeled box = Some target → 0 ≤ target →
  aget (mangos box) target = Some m →
  Analysis.thread_step Analysis.Search i w
  = Some (Analysis.update
            (<[Z.to_nat (Analysis.current_box t) :=
                 box_set_mangos
                   (<[Z.to_nat target := mango_set_state MANGO_BEING_LABELED m]>
                      (mangos box)) box]> (Analysis.g_boxes w))
            (Analysis.g_robots w)
            (<[i := Analysis.thread_set (Analysis.current_box t) (Analysis.max_labels t)
                      (Analysis.labels_this_box t) (Analysis.Reaching target) t]>
               (Analysis.threads w)) w).
Proof.
  intros Ht Hpc Hrobot Hmore Hbox Hscan Htarget Hm. unfold Analysis.thread_step.
  rewrite Ht, Hrobot. cbn [mbind option_bind]. rewrite Hpc.
  rewrite decide_True by done. rewrite Hbox. cbn [mbind option_bind].
  rewrite Hscan. cbn [mbind option_bind]. rewrite decide_True by lia.
  rewrite Hm. cbn [mbind option_bind].
  rewrite aset_Some by (apply aget_lt in Hm; lia). cbn [mbind option_bind].
  rewrite aset_Some by (apply aget_lt in Hbox; lia). done.
Qed.

(** A run of one thread on the box of two mangos: thread 0, whose budget
    is one label, takes the box, labels mango 0 and rests; the box is
    still current, so it takes the box again and labels mango 1. *)
Lemma analysis_run :
  ∃ w1 w2 w3 w4 w5 w6 w7,
    Analysis.thread_step (Analysis.Begin 0) 0 Scenario.analysis_start = Some w1 ∧
    Analysis.thread_step Analysis.Search 0 w1 = Some w2 ∧
    Analysis.thread_step Analysis.Finish 0 w2 = Some w3 ∧
    Analysis.thread_step Analysis.Search 0 w3 = Some w4 ∧
    Analysis.thread_step (Analysis.Begin 0) 0 w4 = Some w5 ∧
    Analysis.thread_step Analysis.Search 0 w5 = Some w6 ∧
    Analysis.thread_step Analysis.Finish 0 w6 = Some w7 ∧
    Analysis.threads w4 !! 0%nat
      = Some {| Analysis.robot_spacing_of := 300 / 4; Analysis.current_box := 0;
                Analysis.max_labels := 1; Analysis.labels_this_box := 1;
                Analysis.pc := Analysis.Resting |} ∧
    Analysis.threads w7 !! 0%nat
      = Some {| Analysis.robot_spacing_of := 300 / 4; Analysis.current_box := 0;
                Analysis.max_labels := 1; Analysis.labels_this_box := 1;
                Analysis.pc := Analysis.Searching |} ∧
    (∃ box, aget (Analysis.g_boxes w3) 0 = Some box ∧ labeled_count box = 1) ∧
    (∃ robot, aget (Analysis.g_robots w4) 0 = Some robot ∧
       robot_state robot = ROBOT_STATE_IDLE ∧ has_failed robot = false ∧
       pB (Analysis.g_params w4) = 0%R ∧ Analysis.g_current_box_idx w4 = 0) ∧
    (∃ box m0 m1, aget (Analysis.g_boxes w7) 0 = Some box ∧
       aget (mangos box) 0 = Some m0 ∧ aget (mangos box) 1 = Some m1 ∧
       mango_state m0 = MANGO_LABELED ∧ labeled_by_robot m0 = 0 ∧
       mango_state m1 = MANGO_LABELED ∧ labeled_by_robot m1 = 0 ∧
       labeled_count box = 2).
Proof.
  eexists _, _, _, _, _, _, _. split.
  { rewrite (begin_step Scenario.analysis_start 0 _ _ 0 eq_refl eq_refl eq_refl)
      by first [done|cbn; lra].
    cbn [Analysis.g_params Scenario.analysis_start Analysis.robot_spacing_of].
    rewrite labels_per_box_default. reflexivity. }
  split.
  { match goal with |- Analysis.thread_step _ _ ?w = _ =>
      rewrite (search_step w 0 _ _ Scenario.two_mango_box 0 zero_mango
                 eq_refl eq_refl eq_refl) by first [done | reflexivity |
           by rewrite (ScanFacts.nearest_unlabeled_two _ zero_mango zero_mango) by reflexivity] end.
    reflexivity. }
  split; [reflexivity|]. split; [reflexivity|]. split.
  { match goal with |- Analysis.thread_step _ _ ?w = _ =>
      rewrite (begin_step w 0 _ _ 0 eq_refl eq_refl eq_refl)
        by first [done|cbn; lra] end.
    cbn [Analysis.g_params Analysis.update Scenario.analysis_start
           Analysis.robot_spacing_of Analysis.thread_set].
    rewrite labels_per_box_default. reflexivity. }
  split.
  { match goal with |- Analysis.thread_step _ _ ?w = _ =>
      erewrite (search_step w 0 _ _ _ 1 zero_mango eq_refl eq_refl eq_refl);
        [reflexivity|done|reflexivity| |done|reflexivity] end.
    match goal with |- nearest_unlabeled ?b = _ =>
      rewrite (ScanFacts.nearest_unlabeled_two b (mango_set_labeled_by 0 (mango_set_state MANGO_LABELED
                 (mango_set_state MANGO_BEING_LABELED zero_mango))) zero_mango)
        by reflexivity end.
    reflexivity. }
  split; [reflexivity|]. split; [reflexivity|]. split; [reflexivity|].
  split; [eexists; split; reflexivity|].
  split; [eexists; split; [reflexivity|done]|].
  eexists _, _, _. split; [reflexivity|]. split; [reflexivity|].
  split; [reflexivity|]. done.
Qed.

(** A run of two threads on the box of two mangos: the threads 0 and 1
    take the box and find a mango each. *)
Lemma analysis_run_pair :
  ∃ w1 w2 w3 w4 t0 t1,
    Analysis.thread_step (Analysis.Begin 0) 0 Scenario.analysis_start = Some w1 ∧
    Analysis.thread_step Analysis.Search 0 w1 = Some w2 ∧
    Analysis.thread_step (Analysis.Begin 0) 1 w2 = Some w3 ∧
    Analysis.thread_step Analysis.Search 1 w3 = Some w4 ∧
    Analysis.threads w4 !! 0%nat = Some t0 ∧ Analysis.threads w4 !! 1%nat = Some t1 ∧
    Analysis.pc t0 = Analysis.Reaching 0 ∧ Analysis.pc t1 = Analysis.Reaching 1 ∧
    Analysis.current_box t0 = 0 ∧ Analysis.current_box t1 = 0.
Proof.
  eexists _, _, _, _, _, _. split.
  { rewrite (begin_step Scenario.analysis_start 0 _ _ 0 eq_refl eq_refl eq_refl)
      by first [done|cbn; lra].
    cbn [Analysis.g_params Scenario.analysis_start Analysis.robot_spacing_of].
    rewrite labels_per_box_default. reflexivity. }
  split.
  { match goal with |- Analysis.thread_step _ _ ?w = _ =>
      rewrite (search_step w 0 _ _ Scenario.two_mango_box 0 zero_mango
                 eq_refl eq_refl eq_refl) by first [done | reflexivity |
           by rewrite (ScanFacts.nearest_unlabeled_two _ zero_mango zero_mango)
             by reflexivity] end.
    reflexivity. }
  split.
  { match goal with |- Analysis.thread_step _ _ ?w = _ =>
      rewrite (begin_step w 1 _ _ 0 eq_refl eq_refl eq_refl)
        by first [done|cbn; lra] end.
    cbn [Analysis.g_params Analysis.update Scenario.analysis_start
           Analysis.robot_spacing_of Analysis.thread_set].
    rewrite labels_per_box_default. reflexivity. }
  split.
  { match goal with |- Analysis.thread_step _ _ ?w = _ =>
      erewrite (search_step w 1 _ _ _ 1 zero_mango eq_refl eq_refl eq_refl);
        [reflexivity|done|reflexivity| |done|reflexivity] end.
    match goal with |- nearest_unlabeled ?b = _ =>
      rewrite (ScanFacts.nearest_unlabeled_two b
                 (mango_set_state MANGO_BEING_LABELED zero_mango) zero_mango)
        by reflexivity end.
    reflexivity. }
  split; [reflexivity|]. split; [reflexivity|]. done.
Qed.

(** X20. In the analysis simulation, whatever the robot threads and the
    conveyor do and in whatever order: two threads are never on their way
    to the same mango of the same box, and the mango a thread is on its
    way to is in the state of being labeled. *)
Theorem analysis_reaching_exclusive (w0 w : Analysis.World) :
  Analysis.resting w0 → rtc Analysis.step w0 w →
  (∀ i j t u target,
     Analysis.threads w !! i = Some t → Analysis.threads w !! j = Some u →
     Analysis.pc t = Analysis.Reaching target →
     Analysis.pc u = Analysis.Reaching target →
     Analysis.current_box t = Analysis.current_box u → i = j) ∧
  (∀ i t target,
     Analysis.threads w !! i = Some t →
     Analysis.pc t = Analysis.Reaching target →
     Analysis.item_state w (Analysis.current_box t) target
       = Some MANGO_BEING_LABELED).
Proof.
  intros Hrest Hrun.
  destruct (analysis_inv_reachable _ _ (analysis_inv_start w0 Hrest) Hrun)
    as [_ Hheld Halone].
  split; [exact Halone|exact Hheld].
Qed.

Lemma analysis_reaching_exclusive_witness :
  Analysis.resting Scenario.analysis_start ∧
  ∃ w t0 t1,
    rtc Analysis.step Scenario.analysis_start w ∧
    Analysis.threads w !! 0%nat = Some t0 ∧ Analysis.threads w !! 1%nat = Some t1 ∧
    Analysis.pc t0 = Analysis.Reaching 0 ∧ Analysis.pc t1 = Analysis.Reaching 1 ∧
    Analysis.item_state w (Analysis.current_box t0) 0 = Some MANGO_BEING_LABELED ∧
    Analysis.item_state w (Analysis.current_box t1) 1 = Some MANGO_BEING_LABELED ∧
    ∀ j u, Analysis.threads w !! j = Some u → Analysis.pc u = Analysis.Reaching 1 →
           Analysis.current_box u = Analysis.current_box t1 → j = 1%nat.
Proof.
  split; [exact analysis_start_resting|].
  destruct analysis_run_pair
    as (w1 & w2 & w3 & w4 & t0 & t1 & H1 & H2 & H3 & H4 & Ht0 & Ht1 & Hp0 & Hp1 & _).
  assert (rtc Analysis.step Scenario.analysis_start w4) as Hrun.
  { eapply rtc_l; [exact (Analysis.step_thread _ _ _ _ H1)|].
    eapply rtc_l; [exact (Analysis.step_thread _ _ _ _ H2)|].
    eapply rtc_l; [exact (Analysis.step_thread _ _ _ _ H3)|].
    apply rtc_once. exact (Analysis.step_thread _ _ _ _ H4). }
  destruct (analysis_reaching_exclusive Scenario.analysis_start w4
              analysis_start_resting Hrun) as [Halone Hheld].
  exists w4, t0, t1. split; [exact Hrun|]. split; [exact Ht0|]. split; [exact Ht1|].
  split; [exact Hp0|]. split; [exact Hp1|].
  split; [exact (Hheld 0%nat t0 0 Ht0 Hp0)|].
  split; [exact (Hheld 1%nat t1 1 Ht1 Hp1)|].
  intros j u Hu Hpu Hbox. exact (Halone j 1%nat u t1 1 Hu Ht1 Hpu Hp1 Hbox).
Defined.

(** The labels a thread may still place on the box it works on. *)
Lemma analysis_step_cap (a : Analysis.Action) (i : nat) (w w' : Analysis.World) :
  (∀ j t, Analysis.threads w !! j = Some t →
          Analysis.labels_this_box t ≤ Analysis.max_labels t ∧
          (∀ x, Analysis.pc t = Analysis.Reaching x →
                Analysis.labels_this_box t < Analysis.max_labels t)) →
  Analysis.thread_step a i w = Some w' →
  (∀ j t, Analysis.threads w' !! j = Some t →
          Analysis.labels_this_box t ≤ Analysis.max_labels t ∧
          (∀ x, Analysis.pc t = Analysis.Reaching x →
                Analysis.labels_this_box t < Analysis.max_labels t)).
Proof.
  intros Hcap Hstep. unfold Analysis.thread_step in Hstep.
  assert (a = Analysis.Advance ∨ a ≠ Analysis.Advance) as [->|Ha]
    by (destruct a; (by left) || (by right)).
  { by injection Hstep as <-. }
  destruct (Analysis.threads w !! i) as [t|] eqn:Ht; [|by destruct a].
  destruct (aget (Analysis.g_robots w) (Z.of_nat i)) as [robot|] eqn:Hrobot;
    [|by destruct a].
  pose proof (lookup_lt_Some _ _ _ Ht) as Hi.
  destruct (Hcap i t Ht) as [Hle Hlt].
  assert (∀ bs rs th,
            Analysis.labels_this_box th ≤ Analysis.max_labels th →
            (∀ x, Analysis.pc th = Analysis.Reaching x →
                  Analysis.labels_this_box th < Analysis.max_labels th) →
            ∀ j u, Analysis.threads
                     (Analysis.update bs rs (<[i := th]> (Analysis.threads w)) w) !! j
                   = Some u →
              Analysis.labels_this_box u ≤ Analysis.max_labels u ∧
              (∀ x, Analysis.pc u = Analysis.Reaching x →
                    Analysis.labels_this_box u < Analysis.max_labels u)) as Hset.
  { intros bs rs th H1 H2 j u. cbn [Analysis.threads Analysis.update].
    rewrite lookup_threads by done. case_decide; [by intros [= <-]|apply Hcap]. }
  destruct a; [| | |done]; cbn [mbind option_bind] in Hstep.
  - destruct (Analysis.pc t) eqn:Hpc; try done.
    destruct (_ || _); [done|].
    destruct (_ && _);
      (destruct (aset _ _ _) as [rs|]; [cbn [mbind option_bind] in Hstep|done]);
      injection Hstep as <-; apply Hset; cbn; try done.
    unfold Analysis.labels_per_box. cbn zeta. case_decide; lia.
  - destruct (Analysis.pc t) eqn:Hpc; try done.
    case_decide as Hmore.
    + destruct (aget (Analysis.g_boxes w) _) as [box|];
        [cbn [mbind option_bind] in Hstep|done].
      destruct (Controller.nearest_unlabeled box) as [target|];
        [cbn [mbind option_bind] in Hstep|done].
      case_decide.
      * destruct (aget (mangos box) target) as [m|];
          [cbn [mbind option_bind] in Hstep|done].
        destruct (aset (mangos box) _ _) as [ms|];
          [cbn [mbind option_bind] in Hstep|done].
        destruct (aset (Analysis.g_boxes w) _ _) as [bs|];
          [cbn [mbind option_bind] in Hstep|done].
        injection Hstep as <-. apply Hset; cbn; done.
      * destruct (aset _ _ _) as [rs|]; [cbn [mbind option_bind] in Hstep|done].
        injection Hstep as <-. apply Hset; cbn; done.
    + destruct (aset _ _ _) as [rs|]; [cbn [mbind option_bind] in Hstep|done].
      injection Hstep as <-. apply Hset; cbn; done.
  - destruct (Analysis.pc t) eqn:Hpc; try done.
    destruct (aget (Analysis.g_boxes w) _) as [box|];
      [cbn [mbind option_bind] in Hstep|done].
    destruct (aget (mangos box) target) as [m|];
      [cbn [mbind option_bind] in Hstep|done].
    destruct (aset (mangos box) _ _) as [ms|];
      [cbn [mbind option_bind] in Hstep|done].
    destruct (aset (Analysis.g_boxes w) _ _) as [bs|];
      [cbn [mbind option_bind] in Hstep|done].
    destruct (aset _ _ _) as [rs|]; [cbn [mbind option_bind] in Hstep|done].
    injection Hstep as <-. specialize (Hlt target eq_refl).
    apply Hset; cbn; [lia|done].
Qed.

(** X21. In the analysis simulation the budget [max_labels] bounds the
    labels of one visit of a thread to a box, not the labels the thread
    places on the box. In every state the threads and the conveyor can
    reach, the labels a thread has placed since it last took a box are
    at most its budget, and fewer while it is on its way to a mango; the
    budget itself is at least 1. A thread that rests, whose robot works
    and cannot fail, takes the box that is current with its count of
    labels back at 0, whatever it has placed before, also when that box
    is the one it has just left. *)
Theorem analysis_budget_per_visit (w0 w : Analysis.World) :
  (∀ t, t ∈ Analysis.threads w0 →
        Analysis.pc t = Analysis.Resting ∧
        Analysis.labels_this_box t ≤ Analysis.max_labels t) →
  rtc Analysis.step w0 w →
  (∀ j t, Analysis.threads w !! j = Some t →
          Analysis.labels_this_box t ≤ Analysis.max_labels t ∧
          (∀ x, Analysis.pc t = Analysis.Reaching x →
                Analysis.labels_this_box t < Analysis.max_labels t)) ∧
  (∀ p spacing, 1 ≤ Analysis.labels_per_box p spacing) ∧
  (∀ i t robot draw,
     Analysis.threads w !! i = Some t → Analysis.pc t = Analysis.Resting →
     aget (Analysis.g_robots w) (Z.of_nat i) = Some robot →
     robot_state robot ≠ ROBOT_STATE_DISABLED → has_failed robot = false →
     (pB (Analysis.g_params w) <= 0)%R →
     ∃ w' t',
       Analysis.thread_step (Analysis.Begin draw) i w = Some w' ∧
       Analysis.threads w' !! i = Some t' ∧
       Analysis.pc t' = Analysis.Searching ∧
       Analysis.current_box t' = Analysis.g_current_box_idx w ∧
       Analysis.labels_this_box t' = 0 ∧
       Analysis.max_labels t'
         = Analysis.labels_per_box (Analysis.g_params w) (Analysis.robot_spacing_of t) ∧
       Analysis.g_boxes w' = Analysis.g_boxes w ∧
       Analysis.g_current_box_idx w' = Analysis.g_current_box_idx w).
Proof.
  intros Hstart Hrun. split; [|split].
  - eapply (rtc_ind_r (λ w, ∀ j t, Analysis.threads w !! j = Some t →
              Analysis.labels_this_box t ≤ Analysis.max_labels t ∧
              (∀ x, Analysis.pc t = Analysis.Reaching x →
                    Analysis.labels_this_box t < Analysis.max_labels t)) w0);
      [|clear w Hrun|exact Hrun].
    + intros j t Ht. apply list_elem_of_lookup_2 in Ht.
      destruct (Hstart t Ht) as [Hpc Hle]. split; [done|].
      intros x Hx. congruence.
    + intros y z _ [a i Hstep] IH. by apply (analysis_step_cap a i y z).
  - intros p spacing. unfold Analysis.labels_per_box. cbn zeta. case_decide; lia.
  - intros i t robot draw Ht Hpc Hrobot Hst Hnf HB.
    rewrite (begin_step w i t robot draw Ht Hpc Hrobot Hst Hnf HB).
    eexists _, _. split; [done|].
    cbn [Analysis.threads Analysis.update Analysis.g_boxes Analysis.g_current_box_idx].
    split; [apply list_lookup_insert_eq; by apply lookup_lt_Some in Ht|]. done.
Qed.

Lemma analysis_budget_per_visit_witness :
  (∀ t, t ∈ Analysis.threads Scenario.analysis_start →
        Analysis.pc t = Analysis.Resting ∧
        Analysis.labels_this_box t ≤ Analysis.max_labels t) ∧
  ∃ w4 w5 w7 t4 t5 t7 box m0 m1,
    rtc Analysis.step Scenario.analysis_start w4 ∧
    Analysis.threads w4 !! 0%nat = Some t4 ∧ Analysis.pc t4 = Analysis.Resting ∧
    Analysis.max_labels t4 = 1 ∧ Analysis.labels_this_box t4 = 1 ∧
    Analysis.thread_step (Analysis.Begin 0) 0 w4 = Some w5 ∧
    Analysis.threads w5 !! 0%nat = Some t5 ∧
    Analysis.current_box t5 = Analysis.current_box t4 ∧
    Analysis.labels_this_box t5 = 0 ∧
    rtc Analysis.step w5 w7 ∧
    Analysis.threads w7 !! 0%nat = Some t7 ∧ Analysis.max_labels t7 = 1 ∧
    Analysis.labels_this_box t7 ≤ Analysis.max_labels t7 ∧
    aget (Analysis.g_boxes w7) 0 = Some box ∧
    aget (mangos box) 0 = Some m0 ∧ aget (mangos box) 1 = Some m1 ∧
    mango_state m0 = MANGO_LABELED ∧ labeled_by_robot m0 = 0 ∧
    mango_state m1 = MANGO_LABELED ∧ labeled_by_robot m1 = 0.
Proof.
  assert (∀ t, t ∈ Analysis.threads Scenario.analysis_start →
               Analysis.pc t = Analysis.Resting ∧
               Analysis.labels_this_box t ≤ Analysis.max_labels t) as Hstart.
  { intros t Ht. unfold Scenario.analysis_start in Ht.
    cbn [Analysis.threads] in Ht. by apply elem_of_replicate in Ht as [-> _]. }
  split; [exact Hstart|].
  destruct analysis_run
    as (w1 & w2 & w3 & w4 & w5 & w6 & w7 & H1 & H2 & H3 & H4 & H5 & H6 & H7
        & Ht4 & Ht7 & _ & (robot & Hrobot & Hidle & Hnf & Hzero & Hidx)
        & box & m0 & m1 & Hbox & Hm0 & Hm1 & Hs0 & Hb0 & Hs1 & Hb1 & _).
  assert (rtc Analysis.step Scenario.analysis_start w4) as Hrun4.
  { eapply rtc_l; [exact (Analysis.step_thread _ _ _ _ H1)|].
    eapply rtc_l; [exact (Analysis.step_thread _ _ _ _ H2)|].
    eapply rtc_l; [exact (Analysis.step_thread _ _ _ _ H3)|].
    apply rtc_once. exact (Analysis.step_thread _ _ _ _ H4). }
  assert (rtc Analysis.step w5 w7) as Hrun57.
  { eapply rtc_l; [exact (Analysis.step_thread _ _ _ _ H6)|].
    apply rtc_once. exact (Analysis.step_thread _ _ _ _ H7). }
  assert (rtc Analysis.step Scenario.analysis_start w7) as Hrun7.
  { etrans; [exact Hrun4|].
    eapply rtc_l; [exact (Analysis.step_thread _ _ _ _ H5)|exact Hrun57]. }
  assert (robot_state robot ≠ ROBOT_STATE_DISABLED) as Hst by (by rewrite Hidle).
  assert (pB (Analysis.g_params w4) <= 0)%R as HB by (rewrite Hzero; lra).
  destruct (analysis_budget_per_visit Scenario.analysis_start w4 Hstart Hrun4)
    as (_ & _ & Hagain).
  destruct (Hagain 0%nat _ robot 0 Ht4 eq_refl Hrobot Hst Hnf HB)
    as (w5' & t5 & H5' & Ht5 & _ & Hcur & Hnone & _).
  rewrite H5 in H5'. injection H5' as <-.
  destruct (analysis_budget_per_visit Scenario.analysis_start w7 Hstart Hrun7)
    as (Hcap & _ & _).
  eexists w4, w5, w7, _, t5, _, box, m0, m1.
  split; [exact Hrun4|]. split; [exact Ht4|]. split; [done|]. split; [done|].
  split; [done|]. split; [exact H5|]. split; [exact Ht5|].
  split; [by rewrite Hcur, Hidx|]. split; [exact Hnone|]. split; [exact Hrun57|].
  split; [exact Ht7|]. split; [done|].
  split; [exact (proj1 (Hcap 0%nat _ Ht7))|]. done.
Defined.


Lemma analysis_step_count (a : Analysis.Action) (i : nat) (w w' : Analysis.World) :
  Analysis.Inv w → Analysis.thread_step a i w = Some w' →
  ∀ b box, aget (Analysis.g_boxes w) b = Some box →
    ∃ box', aget (Analysis.g_boxes w') b = Some box' ∧
            labeled_count box' - labeled_items (mangos box')
            = labeled_count box - labeled_items (mangos box).
Proof.
  intros [Hboxes Hheld Halone] Hstep. unfold Analysis.thread_step in Hstep.
  assert (∀ w1, Analysis.g_boxes w1 = Analysis.g_boxes w →
            ∀ b box, aget (Analysis.g_boxes w) b = Some box →
              ∃ box', aget (Analysis.g_boxes w1) b = Some box' ∧
                      labeled_count box' - labeled_items (mangos box')
                      = labeled_count box - labeled_items (mangos box)) as Hsame.
  { intros w1 Hw1 b box Hb. exists box. by rewrite Hw1. }
  assert (∀ w1 b0 box0 box1,
            aget (Analysis.g_boxes w) b0 = Some box0 →
            Analysis.g_boxes w1 = <[Z.to_nat b0 := box1]> (Analysis.g_boxes w) →
            labeled_count box1 - labeled_items (mangos box1)
            = labeled_count box0 - labeled_items (mangos box0) →
            ∀ b box, aget (Analysis.g_boxes w) b = Some box →
              ∃ box', aget (Analysis.g_boxes w1) b = Some box' ∧
                      labeled_count box' - labeled_items (mangos box')
                      = labeled_count box - labeled_items (mangos box)) as Hput.
  { intros w1 b0 box0 box1 Hb0 Hw1 Heq b box Hb. rewrite Hw1.
    pose proof (aget_lt _ _ _ Hb0) as Hrange.
    destruct (decide (b = b0)) as [->|Hne].
    - rewrite aget_insert_eq by lia. exists box1. split; [done|]. congruence.
    - rewrite aget_insert_ne by lia. by exists box. }
  assert (a = Analysis.Advance ∨ a ≠ Analysis.Advance) as [->|Ha]
    by (destruct a; (by left) || (by right)).
  { injection Hstep as <-. by apply Hsame. }
  destruct (Analysis.threads w !! i) as [t|] eqn:Ht; [|by destruct a].
  destruct (aget (Analysis.g_robots w) (Z.of_nat i)) as [robot|] eqn:Hrobot;
    [|by destruct a].
  destruct a; [| | |done]; cbn [mbind option_bind] in Hstep.
  - destruct (Analysis.pc t) eqn:Hpc; try done.
    destruct (_ || _); [done|].
    destruct (_ && _);
      (destruct (aset _ _ _) as [rs|]; [cbn [mbind option_bind] in Hstep|done]);
      injection Hstep as <-; by apply Hsame.
  - destruct (Analysis.pc t) eqn:Hpc; try done.
    case_decide as Hmore.
    + destruct (aget (Analysis.g_boxes w) _) as [box0|] eqn:Hbox;
        [cbn [mbind option_bind] in Hstep|done].
      destruct (Controller.nearest_unlabeled box0) as [target|] eqn:Hscan;
        [cbn [mbind option_bind] in Hstep|done].
      case_decide as Htarget.
      * destruct (aget (mangos box0) target) as [m|] eqn:Hm;
          [cbn [mbind option_bind] in Hstep|done].
        pose proof (aget_lt _ _ _ Hm) as Hrange.
        pose proof (aget_lt _ _ _ Hbox) as Hbrange.
        rewrite (aset_Some (mangos box0)) in Hstep by done.
        cbn [mbind option_bind] in Hstep.
        rewrite (aset_Some (Analysis.g_boxes w)) in Hstep by done.
        cbn [mbind option_bind] in Hstep. injection Hstep as <-.
        assert (mango_state m = MANGO_UNLABELED) as Hun.
        { apply ScanFacts.nearest_loop_unlabeled in Hscan as [->|(m1 & Hm1 & Hst)];
            [lia|]. congruence. }
        eapply Hput; [exact Hbox|done|]. cbn.
        pose proof (LiveFacts.labeled_items_insert _ target m
                      (mango_set_state MANGO_BEING_LABELED m) Hm) as Hcount.
        rewrite decide_False in Hcount by congruence.
        rewrite decide_False in Hcount by done. lia.
      * destruct (aset _ _ _) as [rs|]; [cbn [mbind option_bind] in Hstep|done].
        injection Hstep as <-. by apply Hsame.
    + destruct (aset _ _ _) as [rs|]; [cbn [mbind option_bind] in Hstep|done].
      injection Hstep as <-. by apply Hsame.
  - destruct (Analysis.pc t) eqn:Hpc; try done.
    destruct (aget (Analysis.g_boxes w) _) as [box0|] eqn:Hbox;
      [cbn [mbind option_bind] in Hstep|done].
    destruct (aget (mangos box0) target) as [m|] eqn:Hm;
      [cbn [mbind option_bind] in Hstep|done].
    pose proof (aget_lt _ _ _ Hm) as Hrange.
    pose proof (aget_lt _ _ _ Hbox) as Hbrange.
    rewrite (aset_Some (mangos box0)) in Hstep by done.
    cbn [mbind option_bind] in Hstep.
    rewrite (aset_Some (Analysis.g_boxes w)) in Hstep by done.
    cbn [mbind option_bind] in Hstep.
    destruct (aset _ _ _) as [rs|]; [cbn [mbind option_bind] in Hstep|done].
    injection Hstep as <-.
    pose proof (Hheld i t target Ht Hpc) as Hbeing.
    assert (mango_state m = MANGO_BEING_LABELED) as Hst.
    { unfold Analysis.item_state in Hbeing. rewrite Hbox in Hbeing.
      cbn [mbind option_bind] in Hbeing. rewrite Hm in Hbeing. by injection Hbeing. }
    eapply Hput; [exact Hbox|done|]. cbn.
    match goal with |- context [<[Z.to_nat target := ?m']> _] =>
      pose proof (LiveFacts.labeled_items_insert _ target m m' Hm) as Hcount end.
    rewrite decide_False in Hcount by congruence.
    rewrite decide_True in Hcount by done. lia.
Qed.

(** X22. In the analysis simulation, whatever the robot threads and the
    conveyor do and in whatever order: for every box of the queue, the
    count of labeled mangos of the box grows by one with every mango of
    the box that becomes labeled. For the boxes the generator leaves,
    with the count and the labeled mangos at zero, the count is the
    number of labeled mangos in every state that can be reached. *)
Theorem analysis_labels_accounted (w0 w : Analysis.World) (b : Z) (box : Box) :
  Analysis.resting w0 → rtc Analysis.step w0 w →
  aget (Analysis.g_boxes w0) b = Some box →
  ∃ box', aget (Analysis.g_boxes w) b = Some box' ∧
          labeled_count box' - labeled_items (mangos box')
          = labeled_count box - labeled_items (mangos box).
Proof.
  intros Hrest Hrun. pose proof (analysis_inv_start w0 Hrest) as Hinv.
  clear Hrest. revert box. induction Hrun as [|x y z [a i Hstep] _ IH]; intros box Hbox.
  - by exists box.
  - destruct (analysis_step_count a i x y Hinv Hstep b box Hbox) as (box1 & Hbox1 & Heq).
    destruct (analysis_step_inv a i x y Hinv Hstep) as [Hinv' _].
    destruct (IH Hinv' box1 Hbox1) as (box' & Hbox' & Heq').
    exists box'. split; [done|]. lia.
Qed.

Lemma analysis_labels_accounted_witness :
  Analysis.resting Scenario.analysis_start ∧
  aget (Analysis.g_boxes Scenario.analysis_start) 0 = Some Scenario.two_mango_box ∧
  ∃ w box',
    rtc Analysis.step Scenario.analysis_start w ∧
    aget (Analysis.g_boxes w) 0 = Some box' ∧
    labeled_count box' = 1 ∧ labeled_items (mangos box') = 1.
Proof.
  assert (aget (Analysis.g_boxes Scenario.analysis_start) 0
          = Some Scenario.two_mango_box) as Hbox by reflexivity.
  split; [exact analysis_start_resting|]. split; [exact Hbox|].
  destruct analysis_run
    as (w1 & w2 & w3 & _ & _ & _ & _ & H1 & H2 & H3 & _ & _ & _ & _ & _ & _
        & (box3 & Hbox3 & Hcount) & _).
  assert (rtc Analysis.step Scenario.analysis_start w3) as Hrun.
  { eapply rtc_l; [exact (Analysis.step_thread _ _ _ _ H1)|].
    eapply rtc_l; [exact (Analysis.step_thread _ _ _ _ H2)|].
    apply rtc_once. exact (Analysis.step_thread _ _ _ _ H3). }
  destruct (analysis_labels_accounted Scenario.analysis_start w3 0
              Scenario.two_mango_box analysis_start_resting Hrun Hbox)
    as (box' & Hbox' & Heq).
  exists w3, box'. split; [exact Hrun|]. split; [exact Hbox'|].
  rewrite Hbox3 in Hbox'. injection Hbox' as <-.
  assert (labeled_items (mangos Scenario.two_mango_box) = 0) as H0 by reflexivity.
  rewrite H0 in Heq. change (labeled_count Scenario.two_mango_box) with 0 in Heq.
  split; [exact Hcount|]. lia.
Defined.

Lemma init_loop_spec (n : nat) (i nr : Z) (spacing prob : R) (rs : list Robot) :
  0 ≤ i → i + Z.of_nat n ≤ Z.of_nat (length rs) →
  ∃ rs', Analysis.init_loop n i nr spacing prob rs = Some rs' ∧
         length rs' = length rs ∧
         (∀ k, i ≤ k < i + Z.of_nat n →
            aget rs' k = Some (Controller.new_robot k nr spacing prob)) ∧
         (∀ k, ¬ (i ≤ k < i + Z.of_nat n) → aget rs' k = aget rs k).
Proof.
  revert i rs. induction n as [|n IH]; intros i rs Hi Hlen; cbn [Analysis.init_loop].
  - exists rs. split_and!; try done. intros k Hk. lia.
  - rewrite aset_Some by lia. cbn [mbind option_bind].
    destruct (IH (i + 1) (<[Z.to_nat i := Controller.new_robot i nr spacing prob]> rs))
      as (rs' & Hrun & Hlen' & Hin & Hout); [lia|rewrite length_insert; lia|].
    exists rs'. split; [done|]. split; [by rewrite Hlen', length_insert|]. split.
    + intros k Hk. destruct (decide (k = i)) as [->|Hne].
      * rewrite Hout by lia. apply aget_insert_eq. lia.
      * apply Hin. lia.
    + intros k Hk. rewrite Hout by lia. apply aget_insert_ne; lia.
Qed.

(** X23. The window of the threads of the analysis simulation. A thread
    divides the belt by the number of robots, less one when the last
    robot is a backup. After [init_robots(n, nb, ...)] this is [W / n]
    with no backup or one backup, as in the controller; with two backups
    or more it is [W / (n + nb - 1)]: every backup but one is counted as
    a station of the belt. *)
Theorem analysis_spacing_counts_backups (n nb : Z) (prob w : R)
    (wd wd' : Analysis.World) :
  1 ≤ n → 0 ≤ nb → n + nb ≤ Z.of_nat (length (Analysis.g_robots wd)) →
  Analysis.init_robots n nb prob w wd = Some wd' →
  (nb ≤ 1 →
     Analysis.thread_spacing wd' = Some (pW (Analysis.g_params wd) / IZR n)%R) ∧
  (2 ≤ nb →
     Analysis.thread_spacing wd'
       = Some (pW (Analysis.g_params wd) / IZR (n + nb - 1))%R).
Proof.
  intros Hn Hnb Hfit Hinit. unfold Analysis.init_robots in Hinit. cbn zeta in Hinit.
  destruct (init_loop_spec (Z.to_nat (n + nb)) 0 n (w / IZR n) prob
              (Analysis.g_robots wd)) as (rs & Hrun & _ & Hin & _); [lia|lia|].
  rewrite Hrun in Hinit. cbn [mbind option_bind] in Hinit. injection Hinit as <-.
  unfold Analysis.thread_spacing.
  cbn [Analysis.g_robots Analysis.g_num_robots Analysis.g_params].
  rewrite Hin by lia. cbn [mbind option_bind].
  unfold Controller.new_robot. cbn [is_backup].
  split; intros Hcase.
  - destruct (decide (n + nb - 1 < n)); do 2 f_equal; f_equal; lia.
  - rewrite decide_False by lia. done.
Qed.


Lemma analysis_spacing_counts_backups_witness :
  1 ≤ 4 ∧ 0 ≤ 2 ∧
  4 + 2 ≤ Z.of_nat (length (Analysis.g_robots Scenario.analysis_start)) ∧
  ∃ wd', Analysis.init_robots 4 2 0 300 Scenario.analysis_start = Some wd' ∧
         Analysis.thread_spacing wd' = Some (300 / IZR (4 + 2 - 1))%R.
Proof.
  assert (4 + 2 ≤ Z.of_nat (length (Analysis.g_robots Scenario.analysis_start)))
    as Hfit by (cbn; lia).
  split; [lia|]. split; [lia|]. split; [exact Hfit|].
  assert (∃ wd', Analysis.init_robots 4 2 0 300 Scenario.analysis_start = Some wd')
    as [wd' Hinit] by (eexists; reflexivity).
  exists wd'. split; [exact Hinit|].
  exact (proj2 (analysis_spacing_counts_backups 4 2 0 300 Scenario.analysis_start wd'
                  ltac:(lia) ltac:(lia) Hfit Hinit) ltac:(lia)).
Defined.

End AnalysisFacts.

(** ** The batch estimator: the generator, the roster and a line with
    capacity to spare *)

Module SaturationFacts.
Import ArrayFacts Tally Simulator.

Lemma working_ids_all (rs : list Robot) (a : Z) (n : nat) :
  (∀ k, a ≤ k < a + Z.of_nat n → ∃ r, aget rs k = Some r ∧ working r = true) →
  length (working_ids rs (seqZ a (Z.of_nat n))) = n.
Proof.
  revert a. induction n as [|n IH]; intros a Hall; [done|].
  rewrite seqZ_cons by lia. destruct (Hall a) as (r & Hr & Hw); [lia|].
  rewrite (BatchFacts.working_ids_cons_work rs a _ r Hr Hw). cbn [length]. f_equal.
  replace (Z.pred (Z.of_nat (S n))) with (Z.of_nat n) by lia.
  apply IH. intros k Hk. apply Hall. lia.
Qed.

Lemma working_ids_app (rs : list Robot) (l1 l2 : list Z) :
  working_ids rs (l1 ++ l2) = working_ids rs l1 ++ working_ids rs l2.
Proof. unfold working_ids. apply omap_app. Qed.

Lemma working_ids_prefix (rs : list Robot) (nr n : Z) :
  0 ≤ nr ≤ n →
  (∀ k, 0 ≤ k < nr → ∃ r, aget rs k = Some r ∧ working r = true) →
  nr ≤ Z.of_nat (length (working_ids rs (seqZ 0 n))).
Proof.
  intros Hn Hall. replace n with (nr + (n - nr)) by lia.
  rewrite seqZ_app by lia. rewrite working_ids_app, length_app.
  replace nr with (Z.of_nat (Z.to_nat nr)) at 2 by lia.
  rewrite working_ids_all; [lia|]. intros k Hk. apply Hall. lia.
Qed.

(** The pass of the boxes along a line whose main robots all work and
    together have the capacity for every box. *)
Lemma box_loop_saturated (n : nat) (b per_station n_robots nr : Z)
    (bs : list Box) (rs : list Robot) (total labeled missed : Z) :
  1 ≤ per_station → 0 ≤ nr ≤ n_robots →
  n_robots ≤ Z.of_nat (length rs) →
  (∀ k, 0 ≤ k < nr → ∃ r, aget rs k = Some r ∧ working r = true) →
  0 ≤ b → b + Z.of_nat n ≤ Z.of_nat (length bs) →
  (∀ k box, b ≤ k < b + Z.of_nat n → aget bs k = Some box →
            fresh box ∧ num_mangos box ≤ nr * per_station) →
  ∃ bs' rs' total' labeled',
    box_loop n b per_station n_robots bs rs total labeled missed
      = Some (bs', rs', total', labeled', missed) ∧
    labeled' - labeled = total' - total.
Proof.
  intros Hps Hnr. revert b bs rs total labeled.
  induction n as [|n IH]; intros b bs rs total labeled Hlen Hwork Hb Hbs Hfresh;
    cbn [box_loop].
  - eexists _, _, _, _. split; [done|]. lia.
  - destruct (aget_is_Some bs b) as [box Hbox]; [lia|]. rewrite Hbox.
    cbn [mbind option_bind].
    destruct (Hfresh b box ltac:(lia) Hbox) as [Hfr Hcap].
    destruct (BatchFacts.robot_loop_spec (Z.to_nat n_robots) 0 per_station 0 rs box)
      as (rs1 & box1 & visited & Hrun & Hseq & Hvis & Hspec); try done; try lia;
      try (by left).
    cbn zeta in Hspec.
    destruct Hspec as (Hbox1 & Hnum1 & Hstop & _ & _ & Hlen1 & _ & Hrs).
    rewrite Hrun. cbn [mbind option_bind].
    rewrite aset_Some by lia. cbn [mbind option_bind].
    destruct Hbox1 as (_ & _ & Hcount1 & _).
    assert (labeled_count box1 = num_mangos box) as Hall.
    { rewrite Hcount1. destruct (decide (length visited < Z.to_nat n_robots)%nat)
        as [Hlt|Hge]; [by apply Hstop|].
      assert (Z.of_nat (length visited) = n_robots) as Hfull by lia.
      rewrite Hfull in Hseq.
      pose proof (working_ids_prefix rs nr n_robots Hnr Hwork) as Hids.
      rewrite <- Hseq in Hids. destruct Hfr as (Hz & _). nia. }
    destruct (IH (b + 1) (<[Z.to_nat b := box1]> bs) rs1
                (total + num_mangos box) (labeled + labeled_count box1))
      as (bs' & rs' & total' & labeled' & Hrest & Hsum);
      [lia| |lia|rewrite length_insert; lia| |].
    { intros k Hk. destruct (Hwork k Hk) as (r & Hr & Hw).
      destruct (Hrs k r Hr) as (d & _ & _ & Hr1). eexists. split; [exact Hr1|].
      by destruct r. }
    { intros k bk Hk. rewrite aget_insert_ne by lia. apply Hfresh. lia. }
    replace (missed + (num_mangos box1 - labeled_count box1)) with missed by lia.
    rewrite Hrest. eexists _, _, _, _. split; [done|]. lia.
Qed.


(** X24. A run of the batch estimator without failures, on a line whose
    main robots together have the capacity for the fullest box
    ([N_max] at most [num_robots] times the capacity of a station):
    every mango of every box is labeled, none is missed, and the
    efficiency is 100 as soon as there is a mango. *)
Theorem run_saturated (config : SimulationConfig)
    (start_time end_time : R) (gl : Globals) (g : Rng) :
  1 ≤ num_robots config → 0 ≤ num_backup config →
  num_robots config + num_backup config ≤ MAX_ROBOTS →
  0 ≤ num_boxes config ≤ MAX_BOXES_QUEUE →
  (0 <= pZ (params config))%R →
  0 ≤ N_min (params config) ≤ N_max (params config) →
  N_max (params config) ≤ MAX_MANGOS_PER_BOX →
  globals_ok gl →
  (failure_prob config <= 0)%R →
  N_max (params config) ≤ num_robots config * mangos_per_station config →
  ∃ res gl' g',
    run_single_simulation config start_time end_time gl g = Some (res, gl', g') ∧
    labeled_mangos res = total_mangos res ∧
    missed_mangos res = 0 ∧
    robot_failures res = 0 ∧ backup_activations res = 0 ∧
    (total_mangos res > 0 → efficiency res = 100%R).
Proof.
  intros Hnr Hnb Hfit Hboxes HZ HN Hmax (Hlb & Hlr & Hlm) Hprob Hcap.
  unfold MAX_ROBOTS, MAX_BOXES_QUEUE in *.
  set (T := num_robots config + num_backup config).
  unfold run_single_simulation, init_simulation. fold T.
  destruct (BatchFacts.robots_loop_spec (Z.to_nat T) 0 config
              (pW (params config) / IZR (num_robots config)) (g_robots gl))
    as (rs1 & Hrs1 & Hlen1 & Hin1 & _); [lia|lia|].
  rewrite Hrs1. cbn [mbind option_bind]. unfold generate_all_boxes.
  cbn [g_boxes g_robots g_num_robots g_box_count].
  destruct (RunFacts.boxes_loop_spec (Z.to_nat (num_boxes config)) 0 config
              (g_boxes gl) g HZ ltac:(lia) Hmax Hlm)
    as (bs1 & g1 & Hbs1 & Hblen & Hblens & _ & Hbin); [lia|lia|].
  rewrite Hbs1. cbn [mbind option_bind].
  cbn [g_boxes g_robots g_num_robots g_box_count].
  rewrite decide_False by lra. cbn [mbind option_bind].
  pose proof (BatchFacts.mangos_per_station_pos config) as Hps.
  destruct (box_loop_saturated (Z.to_nat (num_boxes config)) 0
              (mangos_per_station config) T (num_robots config) bs1 rs1 0 0 0)
    as (bs' & rs' & total' & labeled' & Hrun & Hsum); try lia.
  { intros k Hk. eexists. split; [apply Hin1; lia|].
    unfold working, Controller.new_robot. cbn.
    rewrite !decide_True by lia. done. }
  { intros k box Hk Hbox.
    destruct (Hbin k) as (box' & Hbox' & _ & Hcount & _ & Hnum & Hitems); [lia|].
    assert (box' = box) as -> by congruence.
    split; [|lia]. unfold fresh, labeled_upto.
    rewrite (Hblens k box Hbox). unfold MAX_MANGOS_PER_BOX in *.
    split_and!; try done; try lia.
    intros j m Hj Hm. destruct (Hitems j Hj) as (m' & Hm' & Hst & _). congruence. }
  rewrite Hrun. cbn [mbind option_bind].
  destruct (RunFacts.labels_loop_spec (Z.to_nat T) 0 rs'
              (replicate (Z.to_nat MAX_ROBOTS) 0))
    as (out & Hout & _);
    try (rewrite ?length_replicate; unfold MAX_ROBOTS; lia).
  { pose proof (TotalsFacts.box_loop_totals (Z.to_nat (num_boxes config)) 0
                  (mangos_per_station config) T bs1 rs1 0 0 0 (Z.to_nat T)
                  (N_min (params config)) (N_max (params config)))
      as Htot.
    destruct Htot as (bs2 & rs2 & t2 & l2 & m2 & Hrun2 & Hlen2 & _); try lia.
    { intros k box Hk Hbox.
      destruct (Hbin k) as (box' & Hbox' & _ & Hcount & _ & Hnum & Hitems); [lia|].
      assert (box' = box) as -> by congruence.
      split; [|done]. unfold fresh, labeled_upto.
      rewrite (Hblens k box Hbox). unfold MAX_MANGOS_PER_BOX in *.
      split_and!; try done; try lia.
      intros j m Hj Hm. destruct (Hitems j Hj) as (m' & Hm' & Hst & _). congruence. }
    rewrite Hrun in Hrun2. injection Hrun2 as _ <- _ _ _. lia. }
  rewrite Hout. cbn [mbind option_bind].
  eexists _, _, _. split; [done|].
  cbn [total_mangos labeled_mangos missed_mangos robot_failures backup_activations
         efficiency].
  split_and!; try lia.
  intros Hpos. rewrite decide_True by done.
  replace labeled' with total' by lia.
  assert (IZR total' ≠ 0)%R by (apply not_0_IZR; lia).
  by field.
Qed.


Lemma run_saturated_witness :
  let config := Scenario.ample_config in
  (1 ≤ num_robots config ∧ 0 ≤ num_backup config ∧
   num_robots config + num_backup config ≤ MAX_ROBOTS ∧
   0 ≤ num_boxes config ≤ MAX_BOXES_QUEUE ∧
   (0 <= pZ (params config))%R ∧
   0 ≤ N_min (params config) ≤ N_max (params config) ∧
   N_max (params config) ≤ MAX_MANGOS_PER_BOX ∧
   globals_ok initial_globals ∧
   (failure_prob config <= 0)%R ∧
   N_max (params config) ≤ num_robots config * mangos_per_station config) ∧
  ∃ res gl' g',
    run_single_simulation config 0 1 initial_globals (Scenario.constant_rng 0)
      = Some (res, gl', g') ∧
    labeled_mangos res = total_mangos res ∧ missed_mangos res = 0.
Proof.
  cbn zeta.
  assert (1 ≤ num_robots Scenario.ample_config) as H1 by (cbn; lia).
  assert (0 ≤ num_backup Scenario.ample_config) as H2 by (cbn; lia).
  assert (num_robots Scenario.ample_config + num_backup Scenario.ample_config
          ≤ MAX_ROBOTS) as H3 by (cbn; unfold MAX_ROBOTS; lia).
  assert (0 ≤ num_boxes Scenario.ample_config ≤ MAX_BOXES_QUEUE) as H4
    by (cbn; unfold MAX_BOXES_QUEUE; lia).
  assert (0 <= pZ (params Scenario.ample_config))%R as H5 by (cbn; lra).
  assert (0 ≤ N_min (params Scenario.ample_config)
          ≤ N_max (params Scenario.ample_config)) as H6 by (cbn; lia).
  assert (N_max (params Scenario.ample_config) ≤ MAX_MANGOS_PER_BOX) as H7
    by (cbn; unfold MAX_MANGOS_PER_BOX; lia).
  assert (failure_prob Scenario.ample_config <= 0)%R as H8 by (cbn; lra).
  assert (N_max (params Scenario.ample_config)
          ≤ num_robots Scenario.ample_config
            * mangos_per_station Scenario.ample_config) as H9.
  { pose proof (BatchFacts.mangos_per_station_pos Scenario.ample_config).
    cbn [N_max params num_robots Scenario.ample_config Scenario.default_config]. lia. }
  split; [by repeat split; try apply RunFacts.globals_ok_initial|].
  destruct (run_saturated Scenario.ample_config 0 1 initial_globals
              (Scenario.constant_rng 0) H1 H2 H3 H4 H5 H6 H7
              RunFacts.globals_ok_initial H8 H9)
    as (res & gl' & g' & Hrun & Hall & Hnone & _).
  by exists res, gl', g'.
Defined.

(** X25. [generate_all_boxes] of the batch estimator, for counts that
    fit the arrays: it returns on every random stream, sets the count of
    boxes, and leaves the robots and the boxes after the last one as they
    are. Box [b] has the id [b], between [N_min] and [N_max] mangos, no
    labeled mango and a count of zero, and every mango of it lies inside
    the margins of the box. *)
Theorem generate_all_boxes_fresh (config : SimulationConfig) (gl : Globals) (g : Rng) :
  (0 <= pZ (params config))%R →
  0 ≤ N_min (params config) ≤ N_max (params config) →
  N_max (params config) ≤ MAX_MANGOS_PER_BOX →
  0 ≤ num_boxes config ≤ MAX_BOXES_QUEUE →
  globals_ok gl →
  let lo := (- (pZ (params config) / 2) + pZ (params config) / 10)%R in
  let hi := (pZ (params config) / 2 - pZ (params config) / 10)%R in
  ∃ gl' g',
    generate_all_boxes config gl g = Some (gl', g') ∧
    globals_ok gl' ∧
    g_box_count gl' = num_boxes config ∧
    g_robots gl' = g_robots gl ∧ g_num_robots gl' = g_num_robots gl ∧
    rng_stream g' = rng_stream g ∧
    (∀ k, num_boxes config ≤ k → aget (g_boxes gl') k = aget (g_boxes gl) k) ∧
    (∀ b, 0 ≤ b < num_boxes config →
       ∃ box, aget (g_boxes gl') b = Some box ∧
         box_id box = b ∧ fresh box ∧
         N_min (params config) ≤ num_mangos box ≤ N_max (params config) ∧
         ∀ i, 0 ≤ i < num_mangos box →
           ∃ m, aget (mangos box) i = Some m ∧ Placement.in_square lo hi m).
Proof.
  intros HZ HN Hmax Hboxes (Hlb & Hlr & Hlm) lo hi.
  unfold MAX_BOXES_QUEUE in *. unfold generate_all_boxes.
  destruct (RunFacts.boxes_loop_spec (Z.to_nat (num_boxes config)) 0 config
              (g_boxes gl) g HZ ltac:(lia) Hmax Hlm)
    as (bs1 & g1 & Hbs1 & Hblen & Hblens & Hout & Hbin); [lia|lia|].
  rewrite Hbs1. cbn [mbind option_bind]. eexists _, _. split; [done|].
  cbn [g_boxes g_box_count g_robots g_num_robots].
  split_and!; try done.
  - split_and!; cbn [g_boxes g_robots]; try done. by rewrite Hblen.
  - by apply (RunFacts.boxes_loop_stream _ _ _ _ _ _ _ Hbs1).
  - intros k Hk. apply Hout. lia.
  - intros b Hb.
    destruct (Hbin b) as (box & Hbox & Hid & Hcount & _ & Hnum & Hitems); [lia|].
    exists box. split_and!; try done; try lia.
    + unfold fresh, labeled_upto. rewrite (Hblens b box Hbox).
      unfold MAX_MANGOS_PER_BOX in *. split_and!; try done; try lia.
      intros j m Hj Hm. destruct (Hitems j Hj) as (m' & Hm' & Hst & _). congruence.
    + intros i Hi. destruct (Hitems i Hi) as (m & Hm & _ & Hsq). by exists m.
Qed.

Lemma generate_all_boxes_fresh_witness :
  let config := Scenario.default_config in
  ((0 <= pZ (params config))%R ∧
   0 ≤ N_min (params config) ≤ N_max (params config) ∧
   N_max (params config) ≤ MAX_MANGOS_PER_BOX ∧
   0 ≤ num_boxes config ≤ MAX_BOXES_QUEUE ∧
   globals_ok initial_globals) ∧
  ∃ gl' g',
    generate_all_boxes config initial_globals (Scenario.constant_rng 0)
      = Some (gl', g') ∧
    g_box_count gl' = 20.
Proof.
  cbn zeta.
  assert (0 <= pZ (params Scenario.default_config))%R as H5 by (cbn; lra).
  assert (0 ≤ N_min (params Scenario.default_config)
          ≤ N_max (params Scenario.default_config)) as H6 by (cbn; lia).
  assert (N_max (params Scenario.default_config) ≤ MAX_MANGOS_PER_BOX) as H7
    by (cbn; unfold MAX_MANGOS_PER_BOX; lia).
  assert (0 ≤ num_boxes Scenario.default_config ≤ MAX_BOXES_QUEUE) as H4
    by (cbn; unfold MAX_BOXES_QUEUE; lia).
  split; [by repeat split; try apply RunFacts.globals_ok_initial|].
  destruct (generate_all_boxes_fresh Scenario.default_config initial_globals
              (Scenario.constant_rng 0) H5 H6 H7 H4 RunFacts.globals_ok_initial)
    as (gl' & g' & Hrun & _ & Hcount & _).
  by exists gl', g'.
Defined.

Lemma robots_loop_overflow (n : nat) (i : Z) (config : SimulationConfig)
    (spacing : R) (rs : list Robot) :
  0 ≤ i ≤ Z.of_nat (length rs) → Z.of_nat (length rs) < i + Z.of_nat n →
  robots_loop n i config spacing rs = None.
Proof.
  revert i rs. induction n as [|n IH]; intros i rs Hi Hlen; [lia|].
  cbn [robots_loop]. unfold aset. case_decide as Hin; [|done].
  cbn [mbind option_bind]. apply IH; rewrite length_insert; lia.
Qed.

(** X26. The batch estimator has no guard on the size of its roster.
    With more than [MAX_ROBOTS] robots in all, where [init_robots] of the
    controller returns -1 and leaves its globals as they are,
    [init_simulation] writes past the array of the robots: its behaviour
    is undefined, and so is the run. *)
Theorem init_simulation_unguarded (config : SimulationConfig)
    (start_time end_time : R) (gl : Globals) (g : Rng) (s : Controller.State) :
  length (g_robots gl) = Z.to_nat MAX_ROBOTS →
  num_robots config + num_backup config > MAX_ROBOTS →
  Controller.init_robots (num_robots config) (num_backup config) s = Some (-1, s) ∧
  init_simulation config gl g = None ∧
  run_single_simulation config start_time end_time gl g = None.
Proof.
  intros Hlen Hbig. split.
  - unfold Controller.init_robots. cbn zeta. by rewrite decide_True.
  - assert (init_simulation config gl g = None) as Hinit.
    { unfold init_simulation. cbn zeta.
      rewrite robots_loop_overflow; [done|lia|]. 
      rewrite Hlen. unfold MAX_ROBOTS in *. lia. }
    split; [done|]. unfold run_single_simulation. by rewrite Hinit.
Qed.

Lemma init_simulation_unguarded_witness :
  let config :=
    {| params := params Scenario.default_config; num_boxes := 20;
       num_robots := 32; num_backup := 1; failure_prob := 0; verbose := false |} in
  length (g_robots initial_globals) = Z.to_nat MAX_ROBOTS ∧
  num_robots config + num_backup config > MAX_ROBOTS ∧
  run_single_simulation config 0 1 initial_globals (Scenario.constant_rng 0) = None.
Proof.
  cbn zeta.
  assert (length (g_robots initial_globals) = Z.to_nat MAX_ROBOTS) as Hlen
    by reflexivity.
  split; [exact Hlen|]. split; [cbn; unfold MAX_ROBOTS; lia|].
  refine (proj2 (proj2 (init_simulation_unguarded _ 0 1 initial_globals
                          (Scenario.constant_rng 0) Controller.initial_state Hlen _))).
  cbn. unfold MAX_ROBOTS. lia.
Defined.

End SaturationFacts.
